(* ===== verification/_CoqProject ===== *)
-Q . S2P
Prelude.v
Bitmap.v
Bytes.v
Layout.v
INode.v
DirEntry.v
BlockDev.v
INodeCache.v
SuperBlock.v
Filesystem.v
FsBase.v
FsState.v
FsFiles.v
FsDirs.v
FsCreate.v
FsFormat.v
FsProps.v
FsUsage.v
FsRemove.v
FsLinks.v
FsList.v
FsSound.v
FsTree.v
FsEnds.v
Memory.v
FreeList.v
HeapSpec.v
HeapProofs.v
HeapInv.v
HeapFree.v
HeapProps.v
PhysRange.v
FrameAlloc.v
PageTable.v
Riscv.v
Trap.v
Kernel.v
DeviceTree.v
Klog.v
KernelFs.v
Virtio.v
ShellHeap.v
ShellHeapProps.v
Shell.v
ShellProps.v
ShellSession.v
ShellTotal.v
Mkfs.v
MkfsImport.v
MkfsProps.v
Boot.v
Dma.v
BootLog.v
Main.v
TestKit.v
BitmapTests.v
HeapTests.v
FsTests.v
PhysRangeTests.v
PagingTests.v
MkfsTests.v
