(* ===== verification/Prelude.v ===== *)
(** * LemonShark: a verification development

    LemonShark is a small RISC-V kernel in Rust with the crates it is made of: a
    bitmap, a filesystem, a heap allocator and the virtual-memory types, and the
    kernel itself, which boots on QEMU, reads the device tree, manages frames,
    page tables and traps, and runs a shell over a filesystem on disk.  This
    library models those parts as executable definitions that follow the source
    function by function and proves what makes each of them correct.

    ** The files

    - [Prelude]: the computation type [comp] (return, panic, out of fuel),
      Rust's [Result], machine integers with the overflow checks of the
      development profile, slices, strings, tactics and the hint databases.
    - [Bitmap] (bitmap/src/lib.rs): words of 32 bits, [set], [unset], [find_free],
      [drain_ones]; the class [IndexPool] is what its clients rely on.
    - [Bytes], [Layout], [INode], [DirEntry], [INodeCache], [SuperBlock]
      (filesystem/src): cursors and the [DiskFormat] class, the on-disk layout
      and its fixed-point loop, inodes, directory entries, the write-back cache,
      the superblock and its validation.
    - [BlockDev]: the [BlockDevice] trait as a class with laws; the RAM disk of
      src/src/ramdisk.rs satisfies them.
    - [Filesystem] (filesystem/src/filesystem.rs): every operation of
      [Filesystem<Dev>].  [FsBase], [FsState], [FsFiles], [FsDirs], [FsCreate]
      and [FsFormat] build its invariant [tree_inv], an abstract reading of a
      state as contents, entries and allocation, and the specification of each
      operation over it; [FsProps] states the results.  [FsUsage] counts inodes
      and data blocks in use and ties the bitmaps to the sizes of the files.
      [FsRemove] specifies the search in a directory and the removal of an entry,
      [FsLinks] the invariant of links ([linked_inv]: unique names, one link per
      file, "." and ".."; unique names as long as no NUL byte is in a path, which
      the parameter [nul_free] says), and [FsSound] puts both invariants together, shows
      that every operation keeps them, as steps of a relation, and states what
      removing a file does.  [FsList] says what [dump_dir] prints.  [FsTree] shows
      that directories form a tree: every inode has one path, and [tree] prints
      the tree the abstract state describes; [FsEnds] that every call ends.
    - [Memory], [FreeList] (allocator/src/lib.rs): the first-fit free list that
      lives in the memory it manages.  [HeapSpec] is its abstract specification
      on lists of intervals; [HeapProofs], [HeapInv] and [HeapFree] prove the
      refinement; [HeapProps] states the results.
    - [PhysRange] (virtual_memory/src/physical_range.rs): ranges, normalisation
      and subtraction of reservations.
    - [FrameAlloc] (src/src/page_frame_allocator.rs): page frames over
      [IndexPool].
    - [PageTable] (virtual_memory/src/lib.rs): Sv39 tables and [map], against the
      walk of the hardware, over the class [FrameSource].
    - [Riscv] (src/src/riscv.rs, interrupts.rs, timer.rs, sbi.rs): control
      registers, the interrupt-free section, timers.
    - [Trap] (src/src/trap_handler.rs): the naked assembly as instructions with a
      semantics, and the handler it calls.
    - [Kernel] (src/src/page_table.rs, scheduler.rs): the address space [init]
      builds, with the frame allocator as its [FrameSource], and the scheduler.
    - [DeviceTree] (src/src/device_tree.rs): the memory map and devices, over the
      class [FdtCrate] that stands for the parser.
    - [Klog] (src/src/klog.rs, virtio2.rs): log lines, the early buffer and the
      console.  [BootLog] holds the records the components log in their [init]
      functions and the filesystem when it is mounted.
    - [KernelFs] (src/src/filesystem.rs, virtio2.rs): the kernel's block device,
      which satisfies the laws of [BlockDev], the global filesystem and the dump.
    - [Virtio] (src/src/virtio.rs, println.rs): the hand-written legacy driver
      on any device that answers register accesses, against the VirtIO
      specification as an automaton that watches the accesses, and printing.
    - [ShellHeap], [ShellHeapProps] (src/src/shell.rs): the commands that exercise
      the heap through the standard library's vectors; the free list is a
      function of the live allocations, so the benchmark restores it.
    - [Shell], [ShellProps] (src/src/shell.rs): history, line editor, parser and
      commands, and their properties.  [ShellSession] composes them: any keys,
      whole sessions, the filesystem and the heap they leave; [ShellTotal] shows
      that every session panics or ends.
    - [Mkfs] (mkfs/src/lib.rs, main.rs): the image builder: its command line, the
      block device in a host file, the import of a host directory, the
      temporary image.  [MkfsImport] says what a host tree is, when an image
      shows it, and proves the recursive import; [MkfsProps] states the results.
    - [Boot] (src/src/main.rs, allocator.rs): the heap behind its lock and the
      part of [_start] that builds the kernel's state, with a theorem that
      composes the device tree, the frame allocator, the page table, the heap
      and the registers.
    - [Dma] (src/src/virtio2.rs): the callbacks that give the [virtio_drivers]
      crate its memory, over the locked heap, and the construction of the block
      device.
    - [Main] (src/src/main.rs, logo.rs): [_start] from its first line to the
      shell, over all of the above, and the theorem about the whole kernel.
    - [TestKit] and [BitmapTests], [HeapTests], [FsTests], [PhysRangeTests],
      [PagingTests], [MkfsTests]: the unit tests of the crates, test by test and
      under their names, as computations over the definitions above.

    ** What the theorems show

    Functional correctness and refinement: appending to, reading, creating,
    flushing, mounting and formatting on disk; first fit and coalescing of the
    heap; the usable memory map exact to the page; [map] and the kernel's address
    space against the hardware's translation; context switches that keep every
    register.  Safety and invariants: frames and heap blocks are never handed
    out twice, what a heap client wrote stays until it writes again, every state a
    filesystem can reach keeps its tree and its links, no inode is lost or has two
    paths, whole shell sessions keep all this too and [exit] leaves a disk that
    mounts with the same files, DMA buffers are zeroed and belong to nobody else,
    data blocks are neither lost nor taken twice.  The image builder puts exactly
    the source tree into the image, whatever the order of the host's listings, and
    a failed build leaves every file alone that existed.  Errors: each rejected
    operation changes nothing.  Termination and liveness: the layout loop, the
    scheduler's turns, the line editor, the walk of [tree], whole sessions.
    Some theorems prove defects: the layout loop that never ends for some device
    sizes, the nineteenth directory entry, the creation of a process, the
    shell's [write] without arguments, the default output of mkfs, names with NUL
    bytes; more are in the filesystem's properties.  Conformance: every active
    unit test of the crates passes in the model ([file_tests_pass] and the others
    of that name), which compares the definitions with what their authors expect.

    ** Fuel and bounds

    [Layout.layout_new] takes a fuel and is proved to return, or to run forever,
    independently of it.  [FreeList.walk_list] and [find_prev] take a fuel that
    the theorems require to exceed the length of the free list.  Directory and
    file loops use the sixteen block slots of an inode.  [Filesystem.tree] and
    [Mkfs.import_directory] take the depth of the directory tree; in the first the
    number of inodes is proved to be enough, because no directory is in a circle.
    [Virtio.read_capacity_loop] takes the ten tries the source gives it.  [Shell.shell]
    uses the length of its input, because every round consumes a byte, and the
    benchmark the number of its vectors; the heap theorems about the shell ask for
    a fuel of a 24th of the heap's size, more blocks than it can hold.  Integers
    are [Z] values in the range of their width, [usize] being 64 bits; arithmetic
    that overflows panics.

    ** What is not modelled

    Locks (the kernel runs on one hart; every function takes and returns the
    state its lock guards), what the filesystem and the allocator log after the
    boot (the allocator's first line comes before the logger is set and is lost), the
    error lines of the frame allocator, the values [Debug] formats other than errors, ranges and the
    kernel layout, the [virtio_drivers], [fdt] and [log] crates (parameters with
    laws; what the drivers log and allocate are parameters, too), the heap blocks behind the strings and vectors
    of the kernel other than those of the shell's heap commands, the headers that
    the benchmark's pushes write into their buffer (what [realloc] copies is the
    memory as it is), the files that a panic of mkfs leaves behind, the assembly
    that sets the first stack pointer, the texts of mkfs's messages, the jump to the
    upper half after paging is enabled, the tests in tests/ that run on the
    emulated machine, the unit tests that the source has commented out, the build
    files and the linker script, whose labels are inputs. *)
From stdpp Require Export base list gmap sorting.
From Stdlib Require Export ZArith Lia ZifyBool.
From Stdlib Require String Ascii.
Export String.StringSyntax.
Delimit Scope string_scope with string.
#[export] Set Default Goal Selector "!".
Open Scope Z_scope.

(** ** Computations

    A Rust function of the program either returns, panics (the profile is
    [panic = "abort"], so nothing runs afterwards), or, for the functions
    whose loop is not structurally bounded, exhausts the fuel the model gives
    the loop.  [Result<T, E>] is an ordinary value that is returned. *)
Inductive comp (A : Type) : Type :=
| Ret (a : A)
| Panic
| NoFuel.
Arguments Ret {A} a.
Arguments Panic {A}.
Arguments NoFuel {A}.

(** Rust's [Result]. *)
Inductive result (E A : Type) : Type :=
| Ok (a : A)
| Err (e : E).
Arguments Ok {E A} a.
Arguments Err {E A} e.

#[global] Instance comp_ret : MRet comp := fun A a => Ret a.
#[global] Instance comp_bind : MBind comp := fun A B k c =>
  match c with
  | Ret a => k a
  | Panic => Panic
  | NoFuel => NoFuel
  end.

#[global] Instance result_ret {E} : MRet (result E) := fun A a => Ok a.
#[global] Instance result_bind {E} : MBind (result E) := fun A B k r =>
  match r with
  | Ok a => k a
  | Err e => Err e
  end.

Declare Scope rust_scope.
Delimit Scope rust_scope with rust.

(** [let? (x, s) := c in k] is Rust's [?] on a call that returns a [Result] and
    a new state: an error leaves the enclosing function at once, with the state
    reached so far.  [let? x := c in k] is the same for a call without state. *)
Notation "'let?' ( x , s ) := c 'in' k" :=
  (mbind (fun rs =>
     match rs with
     | (Ok x, s) => k
     | (Err e, s') => Ret (Err e, s')
     end) c)
  (at level 10, x name, s name, c at level 200, k at level 200) : rust_scope.

Notation "'let?' x := c 'in' k" :=
  (mbind (fun r =>
     match r with
     | Ok x => k
     | Err e => Ret (Err e)
     end) c)
  (at level 10, x name, c at level 200, k at level 200) : rust_scope.

Open Scope rust_scope.

(** [assert!(b)]. *)
Definition assert (b : bool) : comp unit := if b then Ret tt else Panic.

(** [Option::unwrap] and [Option::expect]. *)
Definition unwrap {A} (o : option A) : comp A :=
  match o with Some a => Ret a | None => Panic end.

(** [Option::ok_or]. *)
Definition ok_or {E A} (o : option A) (e : E) : result E A :=
  match o with Some a => Ok a | None => Err e end.

(** ** Machine integers

    Every Rust integer is a [Z] in the range of its width.  The kernel is built
    with the [dev] profile, whose arithmetic is overflow-checked: an operation
    that leaves the range panics.  [usize] has 64 bits on the target. *)
Definition max_of (w : Z) : Z := 2 ^ w - 1.
Definition usize_max : Z := max_of 64.
Definition u32_max : Z := max_of 32.

Definition in_width (w x : Z) : Prop := 0 <= x < 2 ^ w.
Abbreviation is_u8 := (in_width 8).
Abbreviation is_u32 := (in_width 32).
Abbreviation is_usize := (in_width 64).

#[export] Instance in_width_dec (w x : Z) : Decision (in_width w x).
Proof. unfold in_width. apply _. Defined.

(** Overflow-checked operators of the [dev] profile ([+], [-], [*]). *)
Definition add_ovf (w a b : Z) : comp Z :=
  if a + b <=? max_of w then Ret (a + b) else Panic.
Definition sub_ovf (a b : Z) : comp Z :=
  if b <=? a then Ret (a - b) else Panic.
Definition mul_ovf (w a b : Z) : comp Z :=
  if a * b <=? max_of w then Ret (a * b) else Panic.

Notation "a +! b" := (add_ovf 64 a b) (at level 50) : rust_scope.
Notation "a -! b" := (sub_ovf a b) (at level 50) : rust_scope.
Notation "a *! b" := (mul_ovf 64 a b) (at level 40) : rust_scope.

(** [checked_add], [checked_sub], [checked_mul] on [usize]. *)
Definition checked_add (a b : Z) : option Z :=
  if a + b <=? usize_max then Some (a + b) else None.
Definition checked_sub (a b : Z) : option Z :=
  if b <=? a then Some (a - b) else None.
Definition checked_mul (a b : Z) : option Z :=
  if a * b <=? usize_max then Some (a * b) else None.

(** [saturating_add], [saturating_sub], [saturating_mul] on [usize]. *)
Definition saturating_add (a b : Z) : Z := Z.min (a + b) usize_max.
Definition saturating_sub (a b : Z) : Z := Z.max (a - b) 0.
Definition saturating_mul (a b : Z) : Z := Z.min (a * b) usize_max.

(** [x as u32] and [u32::try_from(x).ok()]. *)
Definition as_u32 (x : Z) : Z := x mod 2 ^ 32.
Definition try_u32 (x : Z) : option Z := if x <=? u32_max then Some x else None.

(** [usize::div_ceil] as the standard library computes it. *)
Definition div_ceil (a b : Z) : Z :=
  let d := a / b in
  if 0 <? a mod b then d + 1 else d.

Definition is_multiple_of (a b : Z) : bool := a mod b =? 0.

(** [!x] on a [w]-bit integer. *)
Definition not_w (w x : Z) : Z := Z.lxor x (Z.ones w).

(** ** Slices

    [&bytes[a..b]] and [bytes[a..b].copy_from_slice(v)], which panic when the
    range is not within the slice or the lengths differ. *)
Section Slices.
Context {A : Type}.

Definition zlen (l : list A) : Z := Z.of_nat (length l).

Definition index (l : list A) (i : Z) : comp A := unwrap (l !! Z.to_nat i).

Definition slice (l : list A) (a b : Z) : comp (list A) :=
  if (a <=? b) && (b <=? zlen l)
  then Ret (take (Z.to_nat (b - a)) (drop (Z.to_nat a) l))
  else Panic.

Definition splice (l : list A) (a : Z) (v : list A) : list A :=
  take (Z.to_nat a) l ++ v ++ drop (Z.to_nat a + length v) l.

Definition copy_to_slice (l : list A) (a b : Z) (v : list A) : comp (list A) :=
  if (a <=? b) && (b <=? zlen l) && (zlen v =? b - a)
  then Ret (splice l a v)
  else Panic.
End Slices.

(** ** Strings

    A [str] is its UTF-8 bytes; [str "..."] is a literal. *)
Definition str (s : String.string) : list Z :=
  map (fun a => Z.of_N (Ascii.N_of_ascii a)) (String.list_ascii_of_string s).
Arguments str s%_string.

(** [str::split(c)] for a one-byte character. *)
Fixpoint split_on (c : Z) (s : list Z) : list (list Z) :=
  match s with
  | [] => [[]]
  | b :: s =>
      if b =? c then [] :: split_on c s
      else match split_on c s with
           | [] => [[b]]
           | p :: ps => (b :: p) :: ps
           end
  end.

(** [str::rsplit_once(c)]. *)
Fixpoint rsplit_once (c : Z) (s : list Z) : option (list Z * list Z) :=
  match s with
  | [] => None
  | b :: s =>
      match rsplit_once c s with
      | Some (p, q) => Some (b :: p, q)
      | None => if b =? c then Some ([], s) else None
      end
  end.

Definition starts_with (s p : list Z) : bool := bool_decide (take (length p) s = p).

(** [{}] of an unsigned integer: its decimal digits. *)
Fixpoint decimal_digits (fuel : nat) (n : Z) (acc : list Z) : list Z :=
  match fuel with
  | O => acc
  | S fuel =>
      let acc := (48 + n mod 10) :: acc in
      if n / 10 =? 0 then acc else decimal_digits fuel (n / 10) acc
  end.
Definition show_z (n : Z) : list Z := decimal_digits 20 n [].

(** [lo..=hi] contains [b]. *)
Definition in_range (lo hi b : Z) : bool := (lo <=? b) && (b <=? hi).

(** [str::parse::<usize>]: an optional plus sign and digits, without overflow. *)
Fixpoint parse_digits (s : list Z) (acc : Z) : option Z :=
  match s with
  | [] => Some acc
  | b :: s =>
      if in_range 48 57 b then
        acc ← checked_mul acc 10;
        acc ← checked_add acc (b - 48);
        parse_digits s acc
      else None
  end.
Definition parse_usize (s : list Z) : option Z :=
  match s with
  | [] => None
  | 43 :: [] => None
  | 43 :: s => parse_digits s 0
  | _ => parse_digits s 0
  end.

(** [{:>w}] and [{:<w}]: padding with spaces to [w] bytes. *)
Definition pad_left (w : nat) (s : list Z) : list Z := replicate (w - length s) 32 ++ s.
Definition pad_right (w : nat) (s : list Z) : list Z := s ++ replicate (w - length s) 32.

(** ** Facts about computations *)
Lemma bind_ret_inv {A B} (c : comp A) (k : A -> comp B) (b : B) :
  mbind k c = Ret b -> exists a, c = Ret a /\ k a = Ret b.
Proof. destruct c; simpl; [eauto|discriminate..]. Qed.

Lemma result_bind_inv {E A B} (r : result E A) (k : A -> result E B) (b : B) :
  mbind k r = Ok b -> exists a, r = Ok a /\ k a = Ok b.
Proof. destruct r; simpl; [eauto|discriminate]. Qed.

Lemma ok_or_inv {E A} (o : option A) (e : E) a : ok_or o e = Ok a -> o = Some a.
Proof. destruct o; simpl; congruence. Qed.

Lemma bind_assoc {A B C} (c : comp A) (f : A -> comp B) (g : B -> comp C) :
  mbind g (mbind f c) = mbind (fun a => mbind g (f a)) c.
Proof. by destruct c. Qed.

Lemma assert_ret_inv b u : assert b = Ret u -> b = true.
Proof. by destruct b. Qed.

Lemma unwrap_ret_inv {A} (o : option A) a : unwrap o = Ret a -> o = Some a.
Proof. destruct o; simpl; congruence. Qed.

Lemma add_ovf_ok w a b : a + b <= max_of w -> add_ovf w a b = Ret (a + b).
Proof. intros. unfold add_ovf. by rewrite (proj2 (Z.leb_le _ _)). Qed.

Lemma sub_ovf_ok a b : b <= a -> sub_ovf a b = Ret (a - b).
Proof. intros. unfold sub_ovf. by rewrite (proj2 (Z.leb_le _ _)). Qed.

Lemma mul_ovf_ok w a b : a * b <= max_of w -> mul_ovf w a b = Ret (a * b).
Proof. intros. unfold mul_ovf. by rewrite (proj2 (Z.leb_le _ _)). Qed.

Lemma add_ovf_inv w a b r : add_ovf w a b = Ret r -> r = a + b /\ a + b <= max_of w.
Proof. unfold add_ovf. case_match; [|discriminate]. intros [= <-]. lia. Qed.

Lemma sub_ovf_inv a b r : sub_ovf a b = Ret r -> r = a - b /\ b <= a.
Proof. unfold sub_ovf. case_match; [|discriminate]. intros [= <-]. lia. Qed.

Lemma mul_ovf_inv w a b r : mul_ovf w a b = Ret r -> r = a * b /\ a * b <= max_of w.
Proof. unfold mul_ovf. case_match; [|discriminate]. intros [= <-]. lia. Qed.

(** [inv_comp] turns a hypothesis that a computation returned into the facts
    about each of its steps. *)
Ltac inv_comp_step :=
  match goal with
  | H : mbind _ _ = Ret _ |- _ =>
      let Hc := fresh "Hc" in
      apply bind_ret_inv in H as (? & Hc & H); simpl in H
  | H : assert _ = Ret _ |- _ => apply assert_ret_inv in H
  | H : unwrap _ = Ret _ |- _ => apply unwrap_ret_inv in H
  | H : add_ovf _ _ _ = Ret _ |- _ => apply add_ovf_inv in H as [-> H]
  | H : sub_ovf _ _ = Ret _ |- _ => apply sub_ovf_inv in H as [-> H]
  | H : mul_ovf _ _ _ = Ret _ |- _ => apply mul_ovf_inv in H as [-> H]
  | H : mret _ = Ret _ |- _ => unfold mret, comp_ret in H
  | H : Ret _ = Ret _ |- _ => injection H as H; try subst
  | H : Panic = Ret _ |- _ => discriminate H
  | H : NoFuel = Ret _ |- _ => discriminate H
  | x : (_ * _)%type |- _ => destruct x
  end.
Ltac inv_comp := repeat inv_comp_step; simplify_eq/=.

(** ** Computations that end

    [ends c]: [c] returns or panics, it does not run out of fuel.  A computation
    ends if its steps do, on the values they return. *)
Definition ends {A} (c : comp A) : Prop := c <> NoFuel.

Lemma ends_ret {A} (a : A) : ends (Ret a).
Proof. done. Qed.

Lemma ends_returned {A} (c : comp A) a : c = Ret a -> ends c.
Proof. by intros ->. Qed.

Lemma ends_bind {A B} (c : comp A) (k : A -> comp B) : ends c -> (forall a, c = Ret a -> ends (k a)) -> ends (mbind k c).
Proof. destruct c as [a| |]; simpl; [|done..]. intros _ Hk. by apply Hk. Qed.

Lemma ends_panic {A} : ends (Panic : comp A).
Proof. done. Qed.

Lemma ends_assert b : ends (assert b).
Proof. by destruct b. Qed.

Lemma ends_unwrap {A} (o : option A) : ends (unwrap o).
Proof. by destruct o. Qed.

Lemma ends_add_ovf w a b : ends (add_ovf w a b).
Proof. unfold add_ovf. by case_match. Qed.

Lemma ends_sub_ovf a b : ends (sub_ovf a b).
Proof. unfold sub_ovf. by case_match. Qed.

Lemma ends_mul_ovf w a b : ends (mul_ovf w a b).
Proof. unfold mul_ovf. by case_match. Qed.

Lemma ends_slice {A} (l : list A) a b : ends (slice l a b).
Proof. unfold slice. by repeat case_match. Qed.

Create HintDb ends discriminated.
#[export] Hint Resolve ends_ret ends_panic ends_assert ends_unwrap ends_add_ovf ends_sub_ovf ends_mul_ovf ends_slice : ends.

(** [ends] takes a computation apart into its steps. *)
Ltac ends_step :=
  match goal with
  | |- ends (mbind _ _) => apply ends_bind; [|intros ? ?]
  | |- ends (match ?x with _ => _ end) => destruct x eqn:?
  | |- ends (if ?x then _ else _) => destruct x eqn:?
  | |- ends (let _ := _ in _) => cbv zeta
  | |- ends _ => solve [auto with ends]
  end.
Ltac ends := repeat ends_step.

(** [bdestruct]: case analysis on an integer comparison of the goal. *)
Ltac zcase :=
  match goal with
  | |- context [?a <=? ?b] => destruct (Z.leb_spec a b)
  | |- context [?a <? ?b] => destruct (Z.ltb_spec a b)
  | |- context [?a =? ?b] => destruct (Z.eqb_spec a b)
  end.

(** ** Facts about integers *)
Lemma max_of_lt w x : 0 <= w -> (x <= max_of w <-> x < 2 ^ w).
Proof. unfold max_of. lia. Qed.

Lemma div_ceil_alt a b : 0 <= a -> 0 < b -> div_ceil a b = (a + b - 1) / b.
Proof.
  intros. unfold div_ceil.
  pose proof (Z.div_mod a b ltac:(lia)). pose proof (Z.mod_pos_bound a b ltac:(lia)).
  zcase; [apply (Z.div_unique _ _ _ (a mod b - 1))
         |apply (Z.div_unique _ _ _ (b - 1))]; nia.
Qed.

(** [div_ceil] is the least number of [b]-sized groups that hold [a] items. *)
Lemma div_ceil_bounds a b : 0 <= a -> 0 < b -> b * (div_ceil a b - 1) < a <= b * div_ceil a b.
Proof.
  intros. rewrite div_ceil_alt by done.
  pose proof (Z.div_mod (a + b - 1) b ltac:(lia)).
  pose proof (Z.mod_pos_bound (a + b - 1) b ltac:(lia)). nia.
Qed.

Lemma div_ceil_nonneg a b : 0 <= a -> 0 < b -> 0 <= div_ceil a b.
Proof. intros. rewrite div_ceil_alt by done. apply Z.div_pos; lia. Qed.

Lemma div_ceil_unique a b q : 0 <= a -> 0 < b -> b * (q - 1) < a <= b * q -> div_ceil a b = q.
Proof. intros. pose proof (div_ceil_bounds a b). nia. Qed.

Lemma testbit_not_w w x i :
  0 <= w -> 0 <= i < w -> Z.testbit (not_w w x) i = negb (Z.testbit x i).
Proof.
  intros. unfold not_w. rewrite Z.lxor_spec, Z.testbit_ones_nonneg by lia.
  rewrite (proj2 (Z.ltb_lt i w)) by lia. by destruct (Z.testbit x i).
Qed.

Lemma testbit_above w x i : in_width w x -> w <= i -> Z.testbit x i = false.
Proof.
  intros [? ?] ?. destruct (Z.eq_dec x 0) as [->|]; [apply Z.testbit_0_l|].
  assert (0 <= w) by (destruct (Z.lt_ge_cases w 0); [rewrite Z.pow_neg_r in *; lia|done]).
  apply Z.bits_above_log2; [done|].
  assert (Z.log2 x < w) by (apply Z.log2_lt_pow2; lia). lia.
Qed.

(** Masking with [!(2^k - 1)] rounds down to a multiple of [2^k]. *)
Lemma land_not_mask w k x :
  0 <= k <= w -> in_width w x -> Z.land x (not_w w (2 ^ k - 1)) = x / 2 ^ k * 2 ^ k.
Proof.
  intros. rewrite <- Z.shiftr_div_pow2, <- Z.shiftl_mul_pow2 by lia.
  apply Z.bits_inj'. intros i Hi.
  rewrite Z.land_spec, Z.shiftl_spec by lia.
  destruct (Z.lt_ge_cases i k).
  - rewrite testbit_not_w, Z.sub_1_r, <- Z.ones_equiv, Z.ones_spec_low by lia.
    rewrite andb_false_r, Z.testbit_neg_r by lia. done.
  - rewrite Z.shiftr_spec by lia. replace (i - k + k) with i by lia.
    destruct (Z.lt_ge_cases i w).
    + rewrite testbit_not_w, Z.sub_1_r, <- Z.ones_equiv, Z.ones_spec_high by lia.
      by rewrite andb_true_r.
    + by rewrite (testbit_above w).
Qed.

Lemma in_width_lor w x y : 0 <= w -> in_width w x -> in_width w y -> in_width w (Z.lor x y).
Proof.
  intros Hw Hx Hy. split; [apply Z.lor_nonneg; unfold in_width in *; lia|].
  destruct (Z.lt_ge_cases (Z.lor x y) (2 ^ w)) as [|Hge]; [done|].
  assert (Hlog : w <= Z.log2 (Z.lor x y)) by (apply Z.log2_le_pow2; lia).
  pose proof (Z.bit_log2 (Z.lor x y) ltac:(lia)) as Hbit.
  rewrite Z.lor_spec, (testbit_above w x), (testbit_above w y) in Hbit by done. done.
Qed.

Lemma in_width_land w x y : 0 <= y -> in_width w x -> in_width w (Z.land x y).
Proof.
  intros Hy [Hx Hlt]. split; [apply Z.land_nonneg; lia|].
  enough (Z.land x y <= x) by lia.
  apply Z.ldiff_le; [done|]. apply Z.bits_inj'. intros i Hi.
  rewrite Z.ldiff_spec, Z.land_spec, Z.bits_0. by destruct (Z.testbit x i), (Z.testbit y i).
Qed.

(** ** Facts about slices *)
Section SliceFacts.
Context {A : Type}.
Implicit Types (l v : list A) (a b : Z).

Lemma slice_ok l a b :
  0 <= a <= b -> b <= zlen l ->
  slice l a b = Ret (take (Z.to_nat (b - a)) (drop (Z.to_nat a) l)).
Proof.
  intros. unfold slice. by rewrite (proj2 (Z.leb_le a b)), (proj2 (Z.leb_le b _)) by lia.
Qed.

Lemma slice_inv l a b v :
  slice l a b = Ret v -> a <= b <= zlen l /\ v = take (Z.to_nat (b - a)) (drop (Z.to_nat a) l).
Proof. unfold slice. repeat zcase; simpl; intros [=]; subst; split; auto; lia. Qed.

Lemma slice_length l a b v : 0 <= a -> slice l a b = Ret v -> zlen v = b - a.
Proof.
  intros ? [? ->]%slice_inv. unfold zlen in *. rewrite length_take, length_drop. lia.
Qed.

Lemma copy_to_slice_ok l a b v :
  a <= b <= zlen l -> zlen v = b - a -> copy_to_slice l a b v = Ret (splice l a v).
Proof. intros. unfold copy_to_slice. by repeat (zcase; [|lia]). Qed.

Lemma copy_to_slice_inv l a b v r :
  copy_to_slice l a b v = Ret r -> a <= b <= zlen l /\ zlen v = b - a /\ r = splice l a v.
Proof. unfold copy_to_slice. repeat zcase; simpl; intros [=]; subst; repeat split; auto; lia. Qed.

Lemma copy_to_slice_panics l a b v : zlen l < b -> copy_to_slice l a b v = Panic.
Proof. intros. unfold copy_to_slice. repeat zcase; simpl; auto; lia. Qed.

Lemma lookup_splice l a v (i : nat) :
  0 <= a -> a + zlen v <= zlen l ->
  splice l a v !! i =
    if decide (Z.to_nat a <= i < Z.to_nat a + length v)%nat then v !! (i - Z.to_nat a)%nat
    else l !! i.
Proof.
  unfold zlen, splice. intros. case_decide.
  - rewrite lookup_app_r by (rewrite length_take; lia).
    rewrite length_take, lookup_app_l by lia. f_equal; lia.
  - destruct (decide (i < Z.to_nat a)%nat).
    + rewrite lookup_app_l by (rewrite length_take; lia). by apply lookup_take_lt.
    + rewrite lookup_app_r by (rewrite length_take; lia). rewrite length_take.
      rewrite lookup_app_r by lia. rewrite lookup_drop. f_equal; lia.
Qed.

Lemma length_splice l a v : 0 <= a -> a + zlen v <= zlen l -> length (splice l a v) = length l.
Proof.
  unfold zlen, splice. intros. rewrite !length_app, length_take, length_drop. lia.
Qed.

Lemma zlen_splice l a v : 0 <= a -> a + zlen v <= zlen l -> zlen (splice l a v) = zlen l.
Proof. intros. unfold zlen. by rewrite length_splice. Qed.

Lemma slice_splice_eq l a v b :
  0 <= a -> b = a + zlen v -> b <= zlen l -> slice (splice l a v) a b = Ret v.
Proof.
  intros ? -> ?. rewrite slice_ok by (rewrite ?zlen_splice; unfold zlen in *; lia).
  unfold splice, zlen in *. f_equal.
  rewrite drop_app_length' by (rewrite length_take; lia).
  rewrite take_app_length' by lia. done.
Qed.

Lemma slice_splice_ne l a v c d :
  0 <= a -> a + zlen v <= zlen l -> 0 <= c -> d <= a \/ a + zlen v <= c ->
  slice (splice l a v) c d = slice l c d.
Proof.
  intros. unfold slice. rewrite zlen_splice by done.
  destruct ((c <=? d) && (d <=? zlen l)) eqn:E; [|done]. f_equal.
  apply list_eq. intros i.
  destruct (decide (i < Z.to_nat (d - c))%nat).
  - rewrite !lookup_take_lt, !lookup_drop, lookup_splice by lia.
    rewrite decide_False; [done|]. unfold zlen in *; lia.
  - by rewrite !lookup_take_ge by lia.
Qed.

Lemma Forall_splice (P : A -> Prop) l a v :
  Forall P l -> Forall P v -> Forall P (splice l a v).
Proof.
  intros. unfold splice. rewrite !Forall_app. auto using Forall_take, Forall_drop.
Qed.

Lemma index_ok l i x : l !! Z.to_nat i = Some x -> index l i = Ret x.
Proof. unfold index. by intros ->. Qed.

Lemma zlen_nonneg l : 0 <= zlen l.
Proof. unfold zlen. lia. Qed.

Lemma zlen_app l v : zlen (l ++ v) = zlen l + zlen v.
Proof. unfold zlen. rewrite length_app. lia. Qed.

Lemma zlen_cons (x : A) l : zlen (x :: l) = 1 + zlen l.
Proof. unfold zlen. simpl. lia. Qed.

Lemma zlen_nil : zlen (@nil A) = 0.
Proof. done. Qed.

Lemma zlen_replicate n (x : A) : zlen (replicate n x) = Z.of_nat n.
Proof. unfold zlen. by rewrite length_replicate. Qed.
End SliceFacts.

(** ** Facts about strings *)
Lemma split_on_nonempty c s : split_on c s <> [].
Proof. destruct s; simpl; repeat case_match; done. Qed.

Lemma split_on_app c p s : c ∉ p -> split_on c (p ++ c :: s) = p :: split_on c s.
Proof.
  induction p as [|b p IH]; intros Hc; simpl; [by rewrite Z.eqb_refl|]. apply not_elem_of_cons in Hc as [Hb Hc].
  rewrite (proj2 (Z.eqb_neq b c)) by done. by rewrite IH.
Qed.

Lemma split_on_none c p : c ∉ p -> split_on c p = [p].
Proof.
  induction p as [|b p IH]; intros Hc; simpl; [done|]. apply not_elem_of_cons in Hc as [Hb Hc].
  rewrite (proj2 (Z.eqb_neq b c)) by done. by rewrite IH.
Qed.

Lemma rsplit_once_none c s : c ∉ s -> rsplit_once c s = None.
Proof.
  induction s as [|b s IH]; intros Hc; simpl; [done|]. apply not_elem_of_cons in Hc as [Hb Hc].
  rewrite IH by done. by rewrite (proj2 (Z.eqb_neq b c)).
Qed.
Lemma rsplit_once_app c p s : c ∉ s -> rsplit_once c (p ++ c :: s) = Some (p, s).
Proof.
  intros Hs. induction p as [|b p IH]; simpl; [by rewrite rsplit_once_none, Z.eqb_refl|]. by rewrite IH.
Qed.

Create HintDb lemon.
#[export] Hint Resolve zlen_nonneg div_ceil_nonneg : lemon.
#[export] Hint Rewrite @zlen_app @zlen_cons @zlen_nil @zlen_replicate : lemon.
