(* ===== verification/Bitmap.v ===== *)
(** * The bitmap crate ([src/bitmap/src/lib.rs])

    A bitmap of [len] bits stored in 32-bit words.  The file models every
    operation, states the representation invariant, and proves that the word
    level operations implement a set of indices: the [IndexPool] interface,
    against which the page frame allocator and the filesystem are proved.
    Index arithmetic of a bitmap stays far below [usize::MAX], because the
    words are a live allocation, so it is not overflow-checked here. *)
From S2P Require Import Prelude.

Definition BITS_PER_WORD : Z := 32.

Record InvalidWordCount := mkInvalidWordCount { expected : Z; actual : Z }.

Record Bitmap := mkBitmap { bm_len : Z; bm_words : list Z }.

(** [u32::trailing_zeros]: 32 when no bit is set. *)
Fixpoint trailing_zeros_from (n : nat) (i x : Z) : Z :=
  match n with
  | O => i
  | S n => if Z.testbit x i then i else trailing_zeros_from n (i + 1) x
  end.
Definition trailing_zeros (x : Z) : Z := trailing_zeros_from 32 0 x.

Definition bitmap_new (len : Z) : Bitmap :=
  let word_count := div_ceil len BITS_PER_WORD in
  mkBitmap len (replicate (Z.to_nat word_count) 0).

Definition from_words (len : Z) (words : list Z) : result InvalidWordCount Bitmap :=
  let expected := div_ceil len BITS_PER_WORD in
  if negb (zlen words =? expected)
  then Err (mkInvalidWordCount expected (zlen words))
  else
    let remainder := len mod BITS_PER_WORD in
    match last words with
    | Some w =>
        if negb (remainder =? 0)
        then Ok (mkBitmap len
               (<[(length words - 1)%nat := Z.land w (Z.shiftl 1 remainder - 1)]> words))
        else Ok (mkBitmap len words)
    | None => Ok (mkBitmap len words)
    end.

(** [self.words[arr_index] = f(self.words[arr_index])], with the bounds check. *)
Definition update_word (b : Bitmap) (arr_index : Z) (f : Z -> Z) : comp Bitmap :=
  w ← index (bm_words b) arr_index;
  Ret (mkBitmap (bm_len b) (<[Z.to_nat arr_index := f w]> (bm_words b))).

Definition bitmap_set (b : Bitmap) (i : Z) : comp Bitmap :=
  assert (i <? bm_len b) ;;
  let arr_index := i / BITS_PER_WORD in
  let bit_index := i mod BITS_PER_WORD in
  update_word b arr_index (fun w => Z.lor w (Z.shiftl 1 bit_index)).

Definition bitmap_unset (b : Bitmap) (i : Z) : comp Bitmap :=
  assert (i <? bm_len b) ;;
  let arr_index := i / BITS_PER_WORD in
  let bit_index := i mod BITS_PER_WORD in
  update_word b arr_index (fun w => Z.land w (not_w 32 (Z.shiftl 1 bit_index))).

Definition bitmap_is_set (b : Bitmap) (i : Z) : comp bool :=
  assert (i <? bm_len b) ;;
  let arr_index := i / BITS_PER_WORD in
  let bit_index := i mod BITS_PER_WORD in
  w ← index (bm_words b) arr_index;
  Ret (0 <? Z.land w (Z.shiftl 1 bit_index)).

Fixpoint find_free_from (len arr_idx : Z) (words : list Z) : option Z :=
  match words with
  | [] => None
  | bits :: words =>
      if negb (bits =? u32_max) then
        let res := trailing_zeros (not_w 32 bits) in
        let index := arr_idx * BITS_PER_WORD + res in
        if index <? len then Some index else None
      else find_free_from len (arr_idx + 1) words
  end.
Definition find_free (b : Bitmap) : option Z := find_free_from (bm_len b) 0 (bm_words b).

(** One call of the closure inside [drain_ones]: the index it yields and the
    word it leaves behind. *)
Definition drain_next (idx n : Z) : option (Z * Z) :=
  if n =? 0 then None
  else
    let trailing := trailing_zeros n in
    Some (idx * BITS_PER_WORD + trailing, Z.land n (not_w 32 (Z.shiftl 1 trailing))).

(** The iterator run to its end on one word: what it yields, and the word it
    leaves.  A word has at most 32 bits to yield and one more call answers
    [None], so 33 calls are enough ([drain_word_spec]). *)
Fixpoint drain_word (fuel : nat) (idx n : Z) : comp (list Z * Z) :=
  match fuel with
  | O => NoFuel
  | S fuel =>
      match drain_next idx n with
      | None => Ret ([], n)
      | Some (i, n) =>
          '(xs, n) ← drain_word fuel idx n;
          Ret (i :: xs, n)
      end
  end.

Fixpoint drain_words (idx : Z) (words : list Z) : comp (list Z * list Z) :=
  match words with
  | [] => Ret ([], [])
  | n :: words =>
      '(xs, n) ← drain_word 33 idx n;
      '(ys, words) ← drain_words (idx + 1) words;
      Ret (xs ++ ys, n :: words)
  end.

(** [drain_ones] consumed completely, as its only caller does: the indices it
    yields and the bitmap it leaves. *)
Definition drain_ones (b : Bitmap) : comp (list Z * Bitmap) :=
  '(xs, words) ← drain_words 0 (bm_words b);
  Ret (xs, mkBitmap (bm_len b) words).

Definition as_words (b : Bitmap) : list Z := bm_words b.

(** ** The interface other components rely on

    A pool of indices [0 .. len), each free or taken.  [pool_has] is the
    abstract content, the laws say what each operation does to it. *)
Class IndexPool (P : Type) := {
  pool_new : Z -> P;
  pool_len : P -> Z;
  pool_set : P -> Z -> comp P;
  pool_unset : P -> Z -> comp P;
  pool_is_set : P -> Z -> comp bool;
  pool_find_free : P -> option Z;
  pool_has : P -> Z -> bool;
  pool_ok : P -> Prop;
}.

Class IndexPoolLaws (P : Type) `{IndexPool P} := {
  pool_new_spec n : 0 <= n ->
    pool_ok (pool_new n) /\ pool_len (pool_new n) = n /\
    forall i, pool_has (pool_new n) i = false;
  pool_len_nonneg p : pool_ok p -> 0 <= pool_len p;
  pool_set_spec p i : pool_ok p -> 0 <= i < pool_len p ->
    exists p', pool_set p i = Ret p' /\ pool_ok p' /\ pool_len p' = pool_len p /\
      forall j, 0 <= j -> pool_has p' j = (j =? i) || pool_has p j;
  pool_unset_spec p i : pool_ok p -> 0 <= i < pool_len p ->
    exists p', pool_unset p i = Ret p' /\ pool_ok p' /\ pool_len p' = pool_len p /\
      forall j, 0 <= j -> pool_has p' j = negb (j =? i) && pool_has p j;
  pool_is_set_spec p i : pool_ok p -> 0 <= i < pool_len p ->
    pool_is_set p i = Ret (pool_has p i);
  pool_oob p i : pool_len p <= i ->
    pool_set p i = Panic /\ pool_unset p i = Panic /\ pool_is_set p i = Panic;
  pool_has_lt p i : pool_ok p -> 0 <= i -> pool_has p i = true -> i < pool_len p;
  pool_find_free_some p i : pool_ok p -> pool_find_free p = Some i ->
    0 <= i < pool_len p /\ pool_has p i = false /\ forall j, 0 <= j < i -> pool_has p j = true;
  pool_find_free_none p : pool_ok p -> pool_find_free p = None ->
    forall j, 0 <= j < pool_len p -> pool_has p j = true;
}.

(** ** Representation invariant and abstraction *)

Definition bm_test (b : Bitmap) (i : Z) : bool :=
  match bm_words b !! Z.to_nat (i / BITS_PER_WORD) with
  | Some w => Z.testbit w (i mod BITS_PER_WORD)
  | None => false
  end.

(** The word count is exact, the words are 32-bit values, and the padding bits
    after the logical end are clear. *)
Record bm_wf (b : Bitmap) : Prop := {
  bm_wf_len : 0 <= bm_len b;
  bm_wf_words : zlen (bm_words b) = div_ceil (bm_len b) BITS_PER_WORD;
  bm_wf_range : Forall is_u32 (bm_words b);
  bm_wf_pad i : bm_len b <= i -> bm_test b i = false;
}.

(** *** Trailing zeros *)
Lemma trailing_zeros_from_spec n i x :
  (exists k, i <= k < i + Z.of_nat n /\ Z.testbit x k = true) ->
  let t := trailing_zeros_from n i x in
  i <= t < i + Z.of_nat n /\ Z.testbit x t = true /\
  forall j, i <= j < t -> Z.testbit x j = false.
Proof.
  revert i. induction n as [|n IH]; intros i (k & ? & Hk); [lia|]. simpl.
  destruct (Z.testbit x i) eqn:Hi; [repeat split; auto; lia|].
  assert (k <> i) by congruence.
  destruct (IH (i + 1)) as (? & ? & Hlow); [exists k; split; [lia|done]|].
  repeat split; [lia..|done|]. intros j ?.
  destruct (decide (j = i)) as [->|]; [done|apply Hlow; lia].
Qed.

Lemma u32_nonzero_bit x : is_u32 x -> x <> 0 -> exists k, 0 <= k < 32 /\ Z.testbit x k = true.
Proof.
  intros [? ?] ?. exists (Z.log2 x). split; [|apply Z.bit_log2; lia].
  split; [apply Z.log2_nonneg|apply Z.log2_lt_pow2; lia].
Qed.

Lemma trailing_zeros_spec x :
  is_u32 x -> x <> 0 ->
  0 <= trailing_zeros x < 32 /\ Z.testbit x (trailing_zeros x) = true /\
  forall j, 0 <= j < trailing_zeros x -> Z.testbit x j = false.
Proof.
  intros Hx Hn. destruct (u32_nonzero_bit x Hx Hn) as (k & ? & ?).
  apply (trailing_zeros_from_spec 32 0 x). exists k. split; [lia|done].
Qed.

(** *** Single words *)
Lemma is_u32_not x : is_u32 x -> is_u32 (not_w 32 x).
Proof.
  intros [? ?]. unfold not_w.
  assert (Hle : Z.lxor x (Z.ones 32) = Z.ldiff (Z.ones 32) x).
  { apply Z.bits_inj'. intros i Hi. rewrite Z.lxor_spec, Z.ldiff_spec.
    destruct (Z.lt_ge_cases i 32).
    - rewrite Z.ones_spec_low by lia. by destruct (Z.testbit x i).
    - rewrite Z.ones_spec_high, (testbit_above 32 x) by (unfold in_width; lia). done. }
  rewrite Hle. split; [apply Z.ldiff_nonneg; left; by vm_compute|].
  apply Z.le_lt_trans with (Z.ones 32); [|by vm_compute].
  apply Z.ldiff_le; [by vm_compute|]. apply Z.bits_inj'. intros i Hi.
  rewrite !Z.ldiff_spec, Z.bits_0. by destruct (Z.testbit (Z.ones 32) i), (Z.testbit x i).
Qed.

Lemma testbit_one k j : 0 <= k -> 0 <= j -> Z.testbit (Z.shiftl 1 k) j = (j =? k).
Proof.
  intros. rewrite Z.shiftl_1_l, Z.pow2_bits_eqb by done. apply Z.eqb_sym.
Qed.

Lemma is_u32_bit k : 0 <= k < 32 -> is_u32 (Z.shiftl 1 k).
Proof.
  intros. rewrite Z.shiftl_1_l. split; [apply Z.pow_nonneg; lia|apply Z.pow_lt_mono_r; lia].
Qed.

Lemma testbit_set_bit w k j :
  0 <= k -> 0 <= j -> Z.testbit (Z.lor w (Z.shiftl 1 k)) j = (j =? k) || Z.testbit w j.
Proof. intros. rewrite Z.lor_spec, testbit_one by done. apply orb_comm. Qed.

Lemma testbit_clear_bit w k j :
  0 <= k < 32 -> 0 <= j < 32 ->
  Z.testbit (Z.land w (not_w 32 (Z.shiftl 1 k))) j = negb (j =? k) && Z.testbit w j.
Proof.
  intros. rewrite Z.land_spec, testbit_not_w, testbit_one by lia. apply andb_comm.
Qed.

Lemma is_u32_clear_bit w k : is_u32 w -> 0 <= k < 32 -> is_u32 (Z.land w (not_w 32 (Z.shiftl 1 k))).
Proof.
  intros Hw Hk. apply in_width_land; [|done]. apply is_u32_not. by apply is_u32_bit.
Qed.

Lemma land_bit_pos w k : 0 <= k -> (0 <? Z.land w (Z.shiftl 1 k)) = Z.testbit w k.
Proof.
  intros. rewrite Z.shiftl_1_l.
  assert (Z.land w (2 ^ k) = if Z.testbit w k then 2 ^ k else 0) as ->.
  { apply Z.bits_inj'. intros i Hi. rewrite Z.land_spec, Z.pow2_bits_eqb by done.
    destruct (Z.eqb_spec k i) as [<-|Hne].
    - destruct (Z.testbit w k); [by rewrite Z.pow2_bits_true|by rewrite Z.bits_0].
    - rewrite andb_false_r. destruct (Z.testbit w k); [by rewrite Z.pow2_bits_false|by rewrite Z.bits_0]. }
  destruct (Z.testbit w k); [|done]. apply Z.ltb_lt. apply Z.pow_pos_nonneg; lia.
Qed.

(** *** Words of a well-formed bitmap *)
Lemma word_of_bit i : 0 <= i -> 0 <= i / 32 /\ 0 <= i mod 32 < 32 /\ i = 32 * (i / 32) + i mod 32.
Proof.
  intros. pose proof (Z.mod_pos_bound i 32). pose proof (Z.div_mod i 32).
  pose proof (Z.div_pos i 32). lia.
Qed.

Lemma bm_word_at b i :
  bm_wf b -> 0 <= i < bm_len b ->
  exists w, bm_words b !! Z.to_nat (i / 32) = Some w /\ is_u32 w.
Proof.
  intros [Hlen Hw Hr _] Hi. destruct (word_of_bit i) as (? & ? & ?); [lia|].
  pose proof (div_ceil_bounds (bm_len b) 32 ltac:(lia) ltac:(lia)).
  unfold zlen, BITS_PER_WORD in Hw.
  destruct (lookup_lt_is_Some_2 (bm_words b) (Z.to_nat (i / 32))) as [w Hsome]; [lia|].
  exists w. split; [done|]. by eapply Forall_lookup_1.
Qed.

Lemma bm_test_update b i v w j :
  bm_words b !! Z.to_nat (i / 32) = Some w -> 0 <= i -> 0 <= j ->
  bm_test (mkBitmap (bm_len b) (<[Z.to_nat (i / 32) := v]> (bm_words b))) j =
    if i / 32 =? j / 32 then Z.testbit v (j mod 32) else bm_test b j.
Proof.
  intros Hw ? ?. unfold bm_test, BITS_PER_WORD; simpl.
  destruct (word_of_bit i) as (? & _); [done|]. destruct (word_of_bit j) as (? & _); [done|].
  zcase.
  - replace (j / 32) with (i / 32) by lia. rewrite list_lookup_insert_eq; [done|].
    by eapply lookup_lt_Some.
  - rewrite list_lookup_insert_ne by lia. done.
Qed.

Lemma bm_wf_update b i v w :
  bm_wf b -> bm_words b !! Z.to_nat (i / 32) = Some w -> 0 <= i < bm_len b ->
  is_u32 v ->
  (forall j, bm_len b <= j -> j / 32 = i / 32 -> Z.testbit v (j mod 32) = false) ->
  bm_wf (mkBitmap (bm_len b) (<[Z.to_nat (i / 32) := v]> (bm_words b))).
Proof.
  intros [Hlen Hwc Hr Hpad] Hw Hi Hf Hclr. constructor; simpl.
  - done.
  - unfold zlen. by rewrite length_insert.
  - by apply Forall_insert.
  - intros j Hj. rewrite (bm_test_update b i v w j) by (done || lia).
    zcase; [apply Hclr; lia|by apply Hpad].
Qed.

Lemma bm_test_word b i w j :
  bm_words b !! Z.to_nat (i / 32) = Some w -> j / 32 = i / 32 -> bm_test b j = Z.testbit w (j mod 32).
Proof. intros Hw Hj. unfold bm_test, BITS_PER_WORD. by rewrite Hj, Hw. Qed.

Lemma same_word_bit i j : 0 <= i -> 0 <= j -> j / 32 = i / 32 -> (j mod 32 =? i mod 32) = (j =? i).
Proof.
  intros Hi Hj Hq. destruct (word_of_bit i Hi) as (? & ? & Ei), (word_of_bit j Hj) as (? & ? & Ej).
  rewrite Hq in Ej. repeat zcase; lia.
Qed.

(** *** The operations against the abstraction *)
Lemma bitmap_set_spec b i :
  bm_wf b -> 0 <= i < bm_len b ->
  exists b', bitmap_set b i = Ret b' /\ bm_wf b' /\ bm_len b' = bm_len b /\
    forall j, 0 <= j -> bm_test b' j = (j =? i) || bm_test b j.
Proof.
  intros Hwf Hi. destruct (bm_word_at b i Hwf Hi) as (w & Hw & Hr).
  destruct (word_of_bit i) as (? & ? & ?); [lia|].
  unfold bitmap_set, update_word, index. rewrite (proj2 (Z.ltb_lt _ _)) by lia. simpl.
  unfold BITS_PER_WORD. rewrite Hw. simpl.
  eexists. split; [done|].
  split; [|split; [done|]].
  - apply (bm_wf_update b i _ w); [done..| |].
    + apply in_width_lor; [lia|done|]. apply is_u32_bit; lia.
    + intros j Hj Heq. destruct (word_of_bit j) as (? & ? & ?); [lia|].
      rewrite testbit_set_bit, same_word_bit by lia.
      rewrite <- (bm_test_word b i w j) by done. rewrite (bm_wf_pad b Hwf) by done.
      zcase; [lia|done].
  - intros j Hj. destruct (word_of_bit j) as (? & ? & ?); [lia|].
    rewrite (bm_test_update b i _ w j) by (done || lia). zcase.
    + rewrite testbit_set_bit, same_word_bit by lia.
      by rewrite (bm_test_word b i w j).
    + zcase; [subst; lia|done].
Qed.

Lemma bitmap_unset_spec b i :
  bm_wf b -> 0 <= i < bm_len b ->
  exists b', bitmap_unset b i = Ret b' /\ bm_wf b' /\ bm_len b' = bm_len b /\
    forall j, 0 <= j -> bm_test b' j = negb (j =? i) && bm_test b j.
Proof.
  intros Hwf Hi. destruct (bm_word_at b i Hwf Hi) as (w & Hw & Hr).
  destruct (word_of_bit i) as (? & ? & ?); [lia|].
  unfold bitmap_unset, update_word, index. rewrite (proj2 (Z.ltb_lt _ _)) by lia. simpl.
  unfold BITS_PER_WORD. rewrite Hw. simpl.
  eexists. split; [done|].
  split; [|split; [done|]].
  - apply (bm_wf_update b i _ w); [done..| |].
    + by apply is_u32_clear_bit.
    + intros j Hj Heq. destruct (word_of_bit j) as (? & ? & ?); [lia|].
      rewrite testbit_clear_bit by lia.
      rewrite <- (bm_test_word b i w j) by done. rewrite (bm_wf_pad b Hwf) by done.
      apply andb_false_r.
  - intros j Hj. destruct (word_of_bit j) as (? & ? & ?); [lia|].
    rewrite (bm_test_update b i _ w j) by (done || lia). zcase.
    + rewrite testbit_clear_bit, same_word_bit by lia.
      by rewrite (bm_test_word b i w j).
    + zcase; [subst; lia|done].
Qed.

Lemma bitmap_is_set_spec b i :
  bm_wf b -> 0 <= i < bm_len b -> bitmap_is_set b i = Ret (bm_test b i).
Proof.
  intros Hwf Hi. destruct (bm_word_at b i Hwf Hi) as (w & Hw & Hr).
  destruct (word_of_bit i) as (? & ? & ?); [lia|].
  unfold bitmap_is_set, bm_test, index, BITS_PER_WORD. rewrite (proj2 (Z.ltb_lt _ _)) by lia. simpl.
  rewrite Hw. simpl. f_equal. apply land_bit_pos. lia.
Qed.

Lemma bitmap_oob b i :
  bm_len b <= i ->
  bitmap_set b i = Panic /\ bitmap_unset b i = Panic /\ bitmap_is_set b i = Panic.
Proof.
  intros. unfold bitmap_set, bitmap_unset, bitmap_is_set.
  by rewrite (proj2 (Z.ltb_ge _ _)) by lia.
Qed.

Lemma bm_test_replicate n k i : bm_test (mkBitmap n (replicate k 0)) i = false.
Proof.
  unfold bm_test; simpl. destruct (_ !! _) as [w|] eqn:E; [|done].
  apply lookup_replicate in E as [-> _]. apply Z.testbit_0_l.
Qed.

Lemma bitmap_new_wf n : 0 <= n -> bm_wf (bitmap_new n).
Proof.
  intros. constructor; simpl.
  - done.
  - rewrite zlen_replicate. pose proof (div_ceil_nonneg n BITS_PER_WORD ltac:(done) ltac:(done)). lia.
  - apply Forall_replicate. done.
  - intros. apply bm_test_replicate.
Qed.

(** *** Searching for a free bit *)
Lemma testbit_u32_max j : 0 <= j < 32 -> Z.testbit u32_max j = true.
Proof. intros. change u32_max with (Z.ones 32). by apply Z.ones_spec_low. Qed.

Lemma not_full_word w :
  is_u32 w -> w <> u32_max ->
  let t := trailing_zeros (not_w 32 w) in
  0 <= t < 32 /\ Z.testbit w t = false /\ forall j, 0 <= j < t -> Z.testbit w j = true.
Proof.
  intros Hw Hne. destruct (trailing_zeros_spec (not_w 32 w)) as (Ht & Hbit & Hlow).
  - by apply is_u32_not.
  - intros H0. apply Hne. apply Z.bits_inj'. intros i Hi.
    destruct (Z.lt_ge_cases i 32).
    + rewrite testbit_u32_max by lia. pose proof (testbit_not_w 32 w i ltac:(lia) ltac:(lia)) as E.
      rewrite H0, Z.bits_0 in E. destruct (Z.testbit w i); [done|discriminate E].
    + rewrite (testbit_above 32 w), (testbit_above 32 u32_max) by (done || lia). done.
  - simpl. split; [done|]. rewrite testbit_not_w in Hbit by lia. split.
    + by apply negb_true_iff in Hbit.
    + intros j Hj. specialize (Hlow j Hj). rewrite testbit_not_w in Hlow by lia.
      by apply negb_false_iff in Hlow.
Qed.

(** The scan stops at the first word that is not full, or finds none. *)
Lemma find_free_from_spec len a ws :
  Forall is_u32 ws -> 0 <= a ->
  (Forall (fun w => w = u32_max) ws /\ find_free_from len a ws = None) \/
  exists pre w post, ws = pre ++ w :: post /\ Forall (fun w => w = u32_max) pre /\
    w <> u32_max /\ is_u32 w /\
    let i := (a + zlen pre) * 32 + trailing_zeros (not_w 32 w) in
    find_free_from len a ws = if i <? len then Some i else None.
Proof.
  revert a. induction ws as [|w ws IH]; intros a Hr Ha; [left; done|].
  apply Forall_cons in Hr as [Hw Hr]. simpl. destruct (Z.eqb_spec w u32_max) as [->|Hne]; simpl.
  - destruct (IH (a + 1) Hr ltac:(lia)) as [[Hall HN]|(pre & w & post & -> & Hpre & Hne & Hw' & Hf)].
    + left. split; [by constructor|done].
    + right. exists (u32_max :: pre), w, post. split_and!; [done|by constructor|done..|].
      cbn zeta. rewrite Hf, zlen_cons.
      by replace (a + (1 + zlen pre)) with (a + 1 + zlen pre) by lia.
  - right. exists [], w, ws. split_and!; [done..|]. rewrite zlen_nil. by replace (a + 0) with a by lia.
Qed.

Lemma bm_test_in_app b pre w post j :
  bm_words b = pre ++ w :: post -> 0 <= j ->
  (j / 32 = zlen pre -> bm_test b j = Z.testbit w (j mod 32)) /\
  (j / 32 < zlen pre -> Forall (fun w => w = u32_max) pre -> bm_test b j = true).
Proof.
  intros Hb Hj. destruct (word_of_bit j Hj) as (? & ? & ?).
  unfold bm_test, BITS_PER_WORD, zlen in *. rewrite Hb. split.
  - intros E. rewrite lookup_app_r by lia.
    replace (Z.to_nat (j / 32) - length pre)%nat with O by lia. done.
  - intros Hlt Hall. rewrite lookup_app_l by lia.
    destruct (lookup_lt_is_Some_2 pre (Z.to_nat (j / 32))) as [v Hv]; [lia|].
    rewrite Hv. rewrite (Forall_lookup_1 _ _ _ _ Hall Hv). by apply testbit_u32_max.
Qed.

Lemma find_free_some b i :
  bm_wf b -> find_free b = Some i ->
  0 <= i < bm_len b /\ bm_test b i = false /\ forall j, 0 <= j < i -> bm_test b j = true.
Proof.
  intros Hwf Hf. unfold find_free in Hf.
  destruct (find_free_from_spec (bm_len b) 0 (bm_words b) (bm_wf_range b Hwf) ltac:(lia))
    as [[_ HN]|(pre & w & post & Hb & Hpre & Hne & Hw & E)]; [congruence|].
  cbv zeta in E. rewrite Z.add_0_l in E. rewrite E in Hf. destruct (Z.ltb_spec (zlen pre * 32 + trailing_zeros (not_w 32 w)) (bm_len b)) as [Hlt|];
    [injection Hf as <-|discriminate].
  destruct (not_full_word w Hw Hne) as (Ht & Hfree & Hlow).
  set (t := trailing_zeros (not_w 32 w)) in *. pose proof (zlen_nonneg pre).
  assert (Hq : (zlen pre * 32 + t) / 32 = zlen pre) by (symmetry; apply (Z.div_unique _ _ _ t); lia).
  assert (Hm : (zlen pre * 32 + t) mod 32 = t) by (symmetry; apply (Z.mod_unique _ _ (zlen pre)); lia).
  split; [lia|]. split.
  - rewrite (proj1 (bm_test_in_app b pre w post (zlen pre * 32 + t) Hb ltac:(lia)) Hq), Hm. done.
  - intros j Hj. destruct (word_of_bit j ltac:(lia)) as (? & ? & ?).
    destruct (bm_test_in_app b pre w post j Hb ltac:(lia)) as [Heq Hbelow].
    destruct (Z.lt_ge_cases (j / 32) (zlen pre)); [by apply Hbelow|].
    rewrite Heq by lia. apply Hlow. lia.
Qed.

Lemma find_free_none b :
  bm_wf b -> find_free b = None -> forall j, 0 <= j < bm_len b -> bm_test b j = true.
Proof.
  intros Hwf Hf j Hj. unfold find_free in Hf. destruct (word_of_bit j ltac:(lia)) as (? & ? & ?).
  destruct (find_free_from_spec (bm_len b) 0 (bm_words b) (bm_wf_range b Hwf) ltac:(lia))
    as [[Hall _]|(pre & w & post & Hb & Hpre & Hne & Hw & E)].
  - destruct (bm_word_at b j Hwf Hj) as (w & Hw & _).
    rewrite (bm_test_word b j w j) by done. rewrite (Forall_lookup_1 _ _ _ _ Hall Hw).
    by apply testbit_u32_max.
  - cbv zeta in E. rewrite Z.add_0_l in E. rewrite E in Hf.
    destruct (Z.ltb_spec (zlen pre * 32 + trailing_zeros (not_w 32 w)) (bm_len b)); [discriminate|].
    destruct (not_full_word w Hw Hne) as (Ht & Hfree & Hlow).
    destruct (bm_test_in_app b pre w post j Hb ltac:(lia)) as [Heq Hbelow].
    destruct (Z.lt_ge_cases (j / 32) (zlen pre)); [by apply Hbelow|].
    rewrite Heq by lia. apply Hlow. lia.
Qed.

#[export] Instance Bitmap_pool : IndexPool Bitmap := {
  pool_new := bitmap_new;
  pool_len := bm_len;
  pool_set := bitmap_set;
  pool_unset := bitmap_unset;
  pool_is_set := bitmap_is_set;
  pool_find_free := find_free;
  pool_has := bm_test;
  pool_ok := bm_wf;
}.

Lemma bm_test_lt b i : bm_wf b -> 0 <= i -> bm_test b i = true -> i < bm_len b.
Proof.
  intros Hwf Hi Ht. destruct (Z.lt_ge_cases i (bm_len b)); [done|].
  rewrite (bm_wf_pad b Hwf) in Ht; done.
Qed.

#[export] Instance Bitmap_pool_laws : IndexPoolLaws Bitmap.
Proof.
  constructor; simpl; eauto using bitmap_set_spec, bitmap_unset_spec, bitmap_is_set_spec,
    bitmap_oob, find_free_some, find_free_none, bm_test_lt, bm_wf_len.
  intros n Hn. split; [by apply bitmap_new_wf|]. split; [done|]. intros. apply bm_test_replicate.
Qed.

(** *** Draining *)
Lemma drain_word_spec fuel idx n lo :
  is_u32 n -> 0 <= lo <= 32 -> (forall j, 0 <= j < lo -> Z.testbit n j = false) ->
  32 - lo < Z.of_nat fuel ->
  exists xs, drain_word fuel idx n = Ret (xs, 0) /\ StronglySorted Z.lt xs /\
    forall i, i ∈ xs <-> exists k, 0 <= k < 32 /\ Z.testbit n k = true /\ i = idx * 32 + k.
Proof.
  revert n lo. induction fuel as [|fuel IH]; intros n lo Hn Hlo Hlow Hf; [lia|].
  simpl. unfold drain_next. destruct (Z.eqb_spec n 0) as [->|Hnz].
  { exists []. split; [done|]. split; [constructor|]. intros i. rewrite elem_of_nil.
    split; [done|]. intros (k & _ & Hk & _). by rewrite Z.testbit_0_l in Hk. }
  destruct (trailing_zeros_spec n Hn Hnz) as (Ht & Hbit & Hmin).
  set (t := trailing_zeros n) in *.
  assert (lo <= t) by (destruct (Z.lt_ge_cases t lo); [rewrite Hlow in Hbit by lia; done|done]).
  destruct (IH (Z.land n (not_w 32 (Z.shiftl 1 t))) (t + 1)) as (xs & Hrun & Hs & Hin).
  - by apply is_u32_clear_bit.
  - lia.
  - intros j Hj. rewrite testbit_clear_bit by lia.
    zcase; [done|]. simpl. apply Hmin. lia.
  - lia.
  - exists (idx * BITS_PER_WORD + t :: xs). rewrite Hrun. split; [done|].
    assert (Hin' : forall i, i ∈ xs <-> exists k, 0 <= k < 32 /\ k <> t /\ Z.testbit n k = true /\ i = idx * 32 + k).
    { intros i. rewrite Hin. split; intros (k & Hk & Hb); exists k.
      - destruct Hb as [Hb ->]. rewrite testbit_clear_bit in Hb by lia.
        destruct (Z.eqb_spec k t); [done|]. auto.
      - destruct Hb as (Hne & Hb & ->). split_and!; [lia..| |done]. rewrite testbit_clear_bit by lia.
        rewrite Hb. zcase; done. }
    split.
    + constructor; [done|]. apply Forall_forall. intros i (k & Hk & Hne & Hb & ->)%Hin'.
      unfold BITS_PER_WORD. destruct (Z.lt_ge_cases k t); [|lia].
      rewrite Hmin in Hb by lia. done.
    + intros i. rewrite elem_of_cons, Hin'. unfold BITS_PER_WORD. split.
      * intros [->|(k & ? & ? & ? & ->)]; eauto.
      * intros (k & ? & ? & ->). destruct (decide (k = t)) as [->|]; [by left|right; eauto].
Qed.

Lemma drain_words_spec idx ws :
  Forall is_u32 ws -> 0 <= idx ->
  exists xs, drain_words idx ws = Ret (xs, replicate (length ws) 0) /\ StronglySorted Z.lt xs /\
    forall i, i ∈ xs <-> exists k w, ws !! k = Some w /\ i / 32 = idx + Z.of_nat k /\
      Z.testbit w (i mod 32) = true.
Proof.
  revert idx. induction ws as [|w ws IH]; intros idx Hr Hidx.
  { exists []. split; [done|]. split; [constructor|]. intros i. rewrite elem_of_nil.
    split; [done|]. intros (? & ? & [=] & _). }
  apply Forall_cons in Hr as [Hw Hr].
  destruct (drain_word_spec 33 idx w 0 Hw) as (xs & Hx & Hxs & Hxin); [lia|intros; lia|lia|].
  destruct (IH (idx + 1) Hr) as (ys & Hy & Hys & Hyin); [lia|].
  assert (Hx' : forall i, i ∈ xs <-> i / 32 = idx /\ Z.testbit w (i mod 32) = true).
  { intros i. rewrite Hxin. split.
    - intros (k & ? & ? & ->).
      rewrite <- (Z.div_unique (idx * 32 + k) 32 idx k), <- (Z.mod_unique (idx * 32 + k) 32 idx k) by lia.
      done.
    - intros [<- Hb]. exists (i mod 32). pose proof (Z.mod_pos_bound i 32).
      pose proof (Z.div_mod i 32). split_and!; [lia..|done|lia]. }
  exists (xs ++ ys). cbn [drain_words]. rewrite Hx. cbn [mbind comp_bind]. rewrite Hy. split; [done|]. split.
  - apply StronglySorted_app_2; [|done..]. intros i j [Hi _]%Hx' (k & v & _ & Hj & _)%Hyin.
    pose proof (Z.div_mod i 32). pose proof (Z.mod_pos_bound i 32).
    pose proof (Z.div_mod j 32). pose proof (Z.mod_pos_bound j 32). lia.
  - intros i. rewrite elem_of_app, Hx', Hyin. split.
    + intros [[? ?]|(k & v & ? & ? & ?)].
      * exists O, w. split_and!; [done|lia|done].
      * exists (S k), v. split_and!; [done|lia|done].
    + intros ([|k] & v & Hv & ? & ?).
      * injection Hv as <-. left. split; [lia|done].
      * right. exists k, v. split_and!; [done|lia|done].
Qed.

Lemma drain_ones_run b :
  bm_wf b ->
  exists xs b', drain_ones b = Ret (xs, b') /\ bm_wf b' /\ bm_len b' = bm_len b /\
    StronglySorted Z.lt xs /\
    (forall i, i ∈ xs <-> 0 <= i /\ bm_test b i = true) /\
    (forall i, bm_test b' i = false).
Proof.
  intros Hwf. destruct (drain_words_spec 0 (bm_words b)) as (xs & Hx & Hs & Hin);
    [apply Hwf|lia|].
  unfold drain_ones. rewrite Hx. simpl.
  exists xs, (mkBitmap (bm_len b) (replicate (length (bm_words b)) 0)). split; [done|].
  split_and!; [|done..| |intros; apply bm_test_replicate].
  - constructor; simpl; [apply Hwf| |by apply Forall_replicate|intros; apply bm_test_replicate].
    rewrite zlen_replicate. apply Hwf.
  - intros i. rewrite Hin. unfold bm_test, BITS_PER_WORD. split.
    + intros (k & w & Hk & Hq & Hb).
      assert (0 <= i) by (pose proof (Z.div_mod i 32); pose proof (Z.mod_pos_bound i 32); lia).
      split; [done|]. rewrite Hq. replace (Z.to_nat (0 + Z.of_nat k)) with k by lia. by rewrite Hk.
    + intros [Hi Hb]. destruct (word_of_bit i Hi) as (? & _).
      destruct (bm_words b !! Z.to_nat (i / 32)) as [w|] eqn:E; [|done].
      exists (Z.to_nat (i / 32)), w. split_and!; [done|lia|done].
Qed.

(** *** Raw words *)
Lemma land_low_mask w r j :
  0 <= r -> 0 <= j -> Z.testbit (Z.land w (Z.shiftl 1 r - 1)) j = (j <? r) && Z.testbit w j.
Proof.
  intros. rewrite Z.shiftl_1_l, Z.sub_1_r, <- Z.ones_equiv, Z.land_spec, Z.testbit_ones_nonneg by done.
  apply andb_comm.
Qed.

Lemma from_words_ok len ws :
  0 <= len -> Forall is_u32 ws -> zlen ws = div_ceil len 32 ->
  exists b, from_words len ws = Ok b /\ bm_wf b /\ bm_len b = len /\
    forall i, 0 <= i < len -> bm_test b i = bm_test (mkBitmap len ws) i.
Proof.
  intros Hlen Hr Hc. unfold from_words, BITS_PER_WORD. rewrite Hc, Z.eqb_refl. simpl.
  pose proof (div_ceil_bounds len 32 Hlen ltac:(lia)) as Hb.
  destruct (word_of_bit len Hlen) as (? & Hm & Hd).
  assert (Hpad0 : forall i b, zlen (bm_words b) = zlen ws -> len <= i -> zlen ws <= i / 32 -> bm_test b i = false).
  { intros i b Hz ? ?. unfold bm_test, BITS_PER_WORD. unfold zlen in *. rewrite lookup_ge_None_2; [done|]. lia. }
  assert (Hfull : len mod 32 = 0 -> bm_wf (mkBitmap len ws)).
  { intros Hz. constructor; [done..|]. intros i Hi. simpl in Hi. destruct (word_of_bit i) as (? & ? & ?); [lia|].
    apply Hpad0; [done..|]. lia. }
  destruct (last ws) as [w|] eqn:El; cycle 1.
  { apply last_None in El as ->. rewrite zlen_nil in Hc.
    eexists; split; [done|]. split; [apply Hfull; lia|]. done. }
  destruct (Z.eqb_spec (len mod 32) 0) as [Hz|Hz]; simpl.
  { eexists; split; [done|]. split; [by apply Hfull|]. done. }
  rewrite last_lookup in El. set (k := (length ws - 1)%nat).
  assert (El' : ws !! k = Some w) by (rewrite <- El; f_equal; unfold k; lia).
  assert (Hk : Z.of_nat k = len / 32) by (unfold k, zlen in *; pose proof (lookup_lt_Some _ _ _ El'); lia).
  assert (Hkn : k = Z.to_nat (len / 32)) by lia.
  assert (Htest : forall i, 0 <= i -> bm_test (mkBitmap len (<[k := Z.land w (Z.shiftl 1 (len mod 32) - 1)]> ws)) i =
            if len / 32 =? i / 32 then (i mod 32 <? len mod 32) && Z.testbit w (i mod 32)
            else bm_test (mkBitmap len ws) i).
  { intros i Hi. destruct (word_of_bit i Hi) as (? & ? & ?).
    rewrite Hkn. rewrite (bm_test_update (mkBitmap len ws) len _ w i) by (simpl; congruence || lia).
    destruct (Z.eqb_spec (len / 32) (i / 32)); [apply land_low_mask; lia|done]. }
  eexists; split; [done|]. split; [|split; [done|]].
  - constructor; simpl; [done| | |].
    + unfold zlen. rewrite length_insert. done.
    + apply Forall_insert; [done|]. apply in_width_land; [|by eapply Forall_lookup_1].
      rewrite Z.shiftl_1_l. pose proof (Z.pow_pos_nonneg 2 (len mod 32)). lia.
    + intros i Hi. destruct (word_of_bit i) as (? & ? & ?); [lia|]. rewrite Htest by lia.
      destruct (Z.eqb_spec (len / 32) (i / 32)); [zcase; [lia|done]|].
      apply Hpad0; [done..|lia].
  - intros i Hi. destruct (word_of_bit i) as (? & ? & ?); [lia|]. rewrite Htest by lia.
    destruct (Z.eqb_spec (len / 32) (i / 32)); [|done].
    rewrite (bm_test_word (mkBitmap len ws) len w i) by (simpl; congruence || lia).
    zcase; [done|lia].
Qed.

(** A well-formed bitmap is determined by its length and its bits. *)
Lemma bm_ext b1 b2 :
  bm_wf b1 -> bm_wf b2 -> bm_len b1 = bm_len b2 ->
  (forall i, 0 <= i < bm_len b1 -> bm_test b1 i = bm_test b2 i) -> b1 = b2.
Proof.
  intros Hw1 Hw2 Hl Ht. destruct b1 as [l1 ws1], b2 as [l2 ws2]; simpl in *. subst l2. f_equal.
  assert (Ht' : forall i, 0 <= i -> bm_test (mkBitmap l1 ws1) i = bm_test (mkBitmap l1 ws2) i).
  { intros i Hi. destruct (Z.lt_ge_cases i l1); [auto|].
    by rewrite (bm_wf_pad _ Hw1), (bm_wf_pad _ Hw2). }
  assert (Hlen : length ws1 = length ws2).
  { pose proof (bm_wf_words _ Hw1) as E1. pose proof (bm_wf_words _ Hw2) as E2.
    unfold zlen in *; simpl in *. lia. }
  apply list_eq_same_length with (length ws1); [done..|]. intros k x y Hk Hx Hy.
  pose proof (Forall_lookup_1 _ _ _ _ (bm_wf_range _ Hw1) Hx).
  pose proof (Forall_lookup_1 _ _ _ _ (bm_wf_range _ Hw2) Hy).
  apply Z.bits_inj'. intros n Hn. destruct (Z.lt_ge_cases n 32).
  - specialize (Ht' (32 * Z.of_nat k + n) ltac:(lia)). unfold bm_test, BITS_PER_WORD in Ht'.
    rewrite <- (Z.div_unique _ 32 (Z.of_nat k) n), <- (Z.mod_unique _ 32 (Z.of_nat k) n), Nat2Z.id in Ht' by lia.
    simpl in Ht'. by rewrite Hx, Hy in Ht'.
  - by rewrite (testbit_above 32 x), (testbit_above 32 y).
Qed.

(** What is written from [as_words] is read back as the same bitmap. *)
Lemma from_words_as_words b : bm_wf b -> from_words (bm_len b) (as_words b) = Ok b.
Proof.
  intros Hwf. destruct (from_words_ok (bm_len b) (bm_words b)) as (b' & Hb' & Hwf' & Hl & Ht);
    [apply Hwf..|].
  unfold as_words. rewrite Hb'. f_equal. apply bm_ext; [done..|].
  intros i Hi. rewrite Ht by lia. done.
Qed.

(** ** Properties *)

(** C26: On a well-formed bitmap the word-level [set], [unset] and [is_set]
    implement a set of indices: below [len] they return, keep the invariant and
    change or report exactly the addressed bit; at or beyond [len] all three
    panic. *)
Theorem bitmap_ops_refine_set b i :
  bm_wf b -> 0 <= i ->
  (i < bm_len b /\
   (exists b', bitmap_set b i = Ret b' /\ bm_wf b' /\ bm_len b' = bm_len b /\
      forall j, 0 <= j -> bm_test b' j = (j =? i) || bm_test b j) /\
   (exists b', bitmap_unset b i = Ret b' /\ bm_wf b' /\ bm_len b' = bm_len b /\
      forall j, 0 <= j -> bm_test b' j = negb (j =? i) && bm_test b j) /\
   bitmap_is_set b i = Ret (bm_test b i)) \/
  (bm_len b <= i /\
   bitmap_set b i = Panic /\ bitmap_unset b i = Panic /\ bitmap_is_set b i = Panic).
Proof.
  intros Hwf Hi. destruct (Z.lt_ge_cases i (bm_len b)); [left|right; auto using bitmap_oob].
  split_and!; auto using bitmap_set_spec, bitmap_unset_spec, bitmap_is_set_spec.
Qed.

Lemma bitmap_ops_refine_set_witness :
  (exists b', bitmap_set (bitmap_new 70) 40 = Ret b' /\ bm_wf b' /\ bm_test b' 40 = true) /\
  bitmap_unset (bitmap_new 70) 70 = Panic.
Proof.
  pose proof (bitmap_new_wf 70 ltac:(lia)) as Hwf. split.
  - destruct (bitmap_ops_refine_set (bitmap_new 70) 40 Hwf ltac:(lia))
      as [(_ & (b' & Hb & Hw & _ & Ht) & _)|[Hge _]]; [|by vm_compute in Hge].
    exists b'. split_and!; [done..|]. by rewrite Ht.
  - destruct (bitmap_ops_refine_set (bitmap_new 70) 70 Hwf ltac:(lia))
      as [(Hlt & _)|(_ & _ & Hu & _)]; [by vm_compute in Hlt|done].
Defined.

(** [find_free] returns the lowest clear index, below [len] and never a
    padding bit, and returns [None] exactly when every index is set. *)
Theorem find_free_lowest b :
  bm_wf b ->
  match find_free b with
  | Some i => 0 <= i < bm_len b /\ bm_test b i = false /\
              forall j, 0 <= j < i -> bm_test b j = true
  | None => forall j, 0 <= j < bm_len b -> bm_test b j = true
  end.
Proof.
  intros Hwf. destruct (find_free b) eqn:E; eauto using find_free_some, find_free_none.
Qed.

Lemma find_free_lowest_witness :
  match find_free (bitmap_new 33) with
  | Some i => 0 <= i < 33 /\ bm_test (bitmap_new 33) i = false /\
              forall j, 0 <= j < i -> bm_test (bitmap_new 33) j = true
  | None => forall j, 0 <= j < 33 -> bm_test (bitmap_new 33) j = true
  end.
Proof. exact (find_free_lowest (bitmap_new 33) (bitmap_new_wf 33 ltac:(lia))). Defined.

(** Draining terminates, yields each set index exactly once in ascending
    order, and leaves a well-formed bitmap of the same length with no bit set. *)
Theorem drain_ones_yields_set_bits b :
  bm_wf b ->
  exists xs b', drain_ones b = Ret (xs, b') /\ bm_wf b' /\ bm_len b' = bm_len b /\
    StronglySorted Z.lt xs /\
    (forall i, i ∈ xs <-> 0 <= i /\ bm_test b i = true) /\
    (forall i, bm_test b' i = false).
Proof. apply drain_ones_run. Qed.

Lemma drain_ones_yields_set_bits_witness :
  exists xs b', drain_ones (mkBitmap 40 [5; 128]) = Ret (xs, b') /\ xs = [0; 2; 39] /\ bm_wf b'.
Proof.
  destruct (from_words_ok 40 [5; 128]) as (b & Hb & Hwf & _); [lia|by repeat constructor|done|].
  injection Hb as <-.
  destruct (drain_ones_yields_set_bits _ Hwf) as (xs & b' & Hd & Hwf' & _).
  exists xs, b'. split_and!; [done| |done]. vm_compute in Hd. by injection Hd as <- _.
Defined.

(** [from_words] rejects every word count but the exact one, reporting both
    counts; otherwise it yields a well-formed bitmap with the given bits below
    [len] and the padding of the last word cleared. *)
Theorem from_words_normalises len ws :
  0 <= len -> Forall is_u32 ws ->
  match from_words len ws with
  | Ok b => zlen ws = div_ceil len 32 /\ bm_wf b /\ bm_len b = len /\
      (forall i, 0 <= i < len -> bm_test b i = bm_test (mkBitmap len ws) i) /\
      (forall i, len <= i -> bm_test b i = false)
  | Err e => zlen ws <> div_ceil len 32 /\ e = mkInvalidWordCount (div_ceil len 32) (zlen ws)
  end.
Proof.
  intros Hlen Hr. destruct (Z.eq_dec (zlen ws) (div_ceil len 32)) as [Hc|Hc].
  - destruct (from_words_ok len ws Hlen Hr Hc) as (b & -> & Hwf & Hl & Ht).
    split_and!; [done..|]. intros i Hi. apply Hwf. lia.
  - unfold from_words, BITS_PER_WORD. rewrite (proj2 (Z.eqb_neq _ _) Hc). done.
Qed.

Lemma from_words_normalises_witness :
  exists b, from_words 33 [u32_max; u32_max] = Ok b /\ bm_wf b /\
    forall i, 33 <= i -> bm_test b i = false.
Proof.
  pose proof (from_words_normalises 33 [u32_max; u32_max] ltac:(lia) ltac:(by repeat constructor)) as H.
  destruct (from_words 33 [u32_max; u32_max]) as [b|e] eqn:E; [|by vm_compute in E].
  exists b. destruct H as (_ & Hwf & _ & _ & Hp). done.
Defined.
