(* ===== verification/Bytes.v ===== *)
(** * Byte readers and writers ([src/filesystem/src/bytereader.rs])

    The cursor types through which every on-disk structure is decoded and
    encoded, the little-endian conversions of the standard library, and the
    [DiskFormat] trait with the round-trip law each on-disk structure is proved
    to satisfy. *)
From S2P Require Import Prelude.

(** [u32::to_le_bytes] ([n = 4]), [u64::to_le_bytes] ([n = 8]) and the converses. *)
Fixpoint to_le_bytes (n : nat) (x : Z) : list Z :=
  match n with
  | O => []
  | S n => x mod 256 :: to_le_bytes n (x / 256)
  end.

Fixpoint from_le_bytes (bs : list Z) : Z :=
  match bs with
  | [] => 0
  | b :: bs => b + 256 * from_le_bytes bs
  end.

Record ByteReader := mkReader { r_bytes : list Z; r_pos : Z }.

Definition reader_new (bytes : list Z) : ByteReader := mkReader bytes 0.
Definition reader_at (bytes : list Z) (pos : Z) : ByteReader := mkReader bytes pos.

Definition read_u32 (r : ByteReader) : comp (Z * ByteReader) :=
  bs ← slice (r_bytes r) (r_pos r) (r_pos r + 4);
  Ret (from_le_bytes bs, mkReader (r_bytes r) (r_pos r + 4)).

Definition read_u64 (r : ByteReader) : comp (Z * ByteReader) :=
  bs ← slice (r_bytes r) (r_pos r) (r_pos r + 8);
  Ret (from_le_bytes bs, mkReader (r_bytes r) (r_pos r + 8)).

Definition read_bytes (r : ByteReader) (len : Z) : comp (list Z * ByteReader) :=
  bs ← slice (r_bytes r) (r_pos r) (r_pos r + len);
  Ret (bs, mkReader (r_bytes r) (r_pos r + len)).

Definition read_u8 (r : ByteReader) : comp (Z * ByteReader) :=
  b ← index (r_bytes r) (r_pos r);
  Ret (b, mkReader (r_bytes r) (r_pos r + 1)).

Record ByteWriter := mkWriter { w_bytes : list Z; w_pos : Z }.

Definition writer_new (bytes : list Z) : ByteWriter := mkWriter bytes 0.
Definition writer_at (bytes : list Z) (pos : Z) : ByteWriter := mkWriter bytes pos.

Definition write_u32 (w : ByteWriter) (value : Z) : comp ByteWriter :=
  bytes ← copy_to_slice (w_bytes w) (w_pos w) (w_pos w + 4) (to_le_bytes 4 value);
  Ret (mkWriter bytes (w_pos w + 4)).

Definition write_u64 (w : ByteWriter) (value : Z) : comp ByteWriter :=
  bytes ← copy_to_slice (w_bytes w) (w_pos w) (w_pos w + 8) (to_le_bytes 8 value);
  Ret (mkWriter bytes (w_pos w + 8)).

Definition write_u8 (w : ByteWriter) (value : Z) : comp ByteWriter :=
  index (w_bytes w) (w_pos w) ;;
  Ret (mkWriter (<[Z.to_nat (w_pos w) := value]> (w_bytes w)) (w_pos w + 1)).

Definition write_bytes (w : ByteWriter) (value : list Z) : comp ByteWriter :=
  bytes ← copy_to_slice (w_bytes w) (w_pos w) (w_pos w + zlen value) value;
  Ret (mkWriter bytes (w_pos w + zlen value)).

(** The trait. *)
Class DiskFormat (T : Type) := {
  write_to : T -> ByteWriter -> comp ByteWriter;
  read_from : ByteReader -> comp (T * ByteReader);
}.

(** What the filesystem relies on: writing a value that fits the format puts
    [encode x] at the cursor and nothing else; reading looks at exactly
    [disk_size] bytes from the cursor, accepts whatever bytes are there, and
    gives [x] back where they are [encode x]. *)
Class DiskFormatLaws (T : Type) `{DiskFormat T} := {
  disk_size : Z;
  disk_ok : T -> Prop;
  encode : T -> list Z;
  decode : list Z -> T;
  disk_size_pos : 0 < disk_size;
  encode_length x : disk_ok x -> zlen (encode x) = disk_size;
  encode_bytes x : disk_ok x -> Forall is_u8 (encode x);
  decode_ok bs : zlen bs = disk_size -> Forall is_u8 bs -> disk_ok (decode bs);
  decode_encode x : disk_ok x -> decode (encode x) = x;
  write_to_spec x w : disk_ok x -> 0 <= w_pos w -> w_pos w + disk_size <= zlen (w_bytes w) ->
    write_to x w = Ret (mkWriter (splice (w_bytes w) (w_pos w) (encode x)) (w_pos w + disk_size));
  read_from_spec r bs : 0 <= r_pos r ->
    slice (r_bytes r) (r_pos r) (r_pos r + disk_size) = Ret bs ->
    exists r', read_from r = Ret (decode bs, r');
}.
Arguments disk_size T {_ _}.

(** ** Little-endian integers *)
Lemma length_to_le_bytes n x : length (to_le_bytes n x) = n.
Proof. revert x. induction n; intros; simpl; auto. Qed.

Lemma zlen_to_le_bytes n x : zlen (to_le_bytes n x) = Z.of_nat n.
Proof. unfold zlen. by rewrite length_to_le_bytes. Qed.

Lemma to_le_bytes_range n x : Forall is_u8 (to_le_bytes n x).
Proof.
  revert x. induction n; intros; simpl; constructor; auto.
  apply (Z.mod_pos_bound x 256). lia.
Qed.

Lemma from_to_le_bytes n x : in_width (8 * Z.of_nat n) x -> from_le_bytes (to_le_bytes n x) = x.
Proof.
  revert x. induction n as [|n IH]; intros x [Hx Hlt]; simpl in *; [lia|].
  rewrite IH; [pose proof (Z.div_mod x 256); lia|].
  split; [apply Z.div_pos; lia|]. apply Z.div_lt_upper_bound; [lia|].
  replace (256 * 2 ^ (8 * Z.of_nat n)) with (2 ^ (8 * Z.of_nat (S n))); [done|].
  replace (8 * Z.of_nat (S n)) with (8 + 8 * Z.of_nat n) by lia. rewrite Z.pow_add_r; lia.
Qed.

Lemma from_le_bytes_range bs :
  Forall is_u8 bs -> in_width (8 * zlen bs) (from_le_bytes bs).
Proof.
  induction 1 as [|b bs [Hb Hb'] _ [IH IH']]; [by vm_compute|].
  rewrite zlen_cons. simpl. pose proof (zlen_nonneg bs). split; [lia|].
  replace (8 * (1 + zlen bs)) with (8 + 8 * zlen bs) by lia. rewrite Z.pow_add_r by lia. lia.
Qed.

Lemma to_from_le_bytes bs : Forall is_u8 bs -> to_le_bytes (length bs) (from_le_bytes bs) = bs.
Proof.
  induction 1 as [|b bs [Hb Hb'] _ IH]; [done|]. simpl.
  rewrite <- (Z.mod_unique _ 256 (from_le_bytes bs) b), <- (Z.div_unique _ 256 (from_le_bytes bs) b) by lia.
  by rewrite IH.
Qed.

#[global] Arguments to_le_bytes : simpl never.
#[global] Arguments from_le_bytes : simpl never.

(** ** Sequential writes and reads

    A run of writes concatenates; a run of reads takes the concatenation apart. *)
Lemma splice_splice {A} (l u v : list A) a :
  0 <= a -> a + zlen u + zlen v <= zlen l ->
  splice (splice l a u) (a + zlen u) v = splice l a (u ++ v).
Proof.
  intros Ha Hl. apply list_eq. intros i.
  rewrite !lookup_splice; try (rewrite ?zlen_splice, ?zlen_app; unfold zlen in *; lia).
  rewrite !length_app. unfold zlen in *. repeat case_decide; try lia; try done.
  - rewrite lookup_app_r by lia. f_equal; lia.
  - rewrite lookup_app_l by lia. done.
Qed.

Lemma slice_app_inv {A} (l u v : list A) a b :
  0 <= a -> slice l a b = Ret (u ++ v) ->
  slice l a (a + zlen u) = Ret u /\ slice l (a + zlen u) b = Ret v.
Proof.
  intros Ha H. pose proof (slice_length _ _ _ _ Ha H) as Hlen. rewrite zlen_app in Hlen.
  apply slice_inv in H as [[? ?] Huv]. pose proof (zlen_nonneg u). pose proof (zlen_nonneg v).
  rewrite !slice_ok by lia. unfold zlen in *.
  assert (Hu : u = take (length u) (u ++ v)) by (by rewrite take_app_length).
  assert (Hv : v = drop (length u) (u ++ v)) by (by rewrite drop_app_length).
  rewrite Huv in Hu, Hv. split; f_equal.
  - rewrite Hu at 2. rewrite take_take. f_equal. lia.
  - rewrite Hv at 1. rewrite skipn_firstn_comm, drop_drop. f_equal; [lia|]. f_equal. lia.
Qed.

(** [emit w bs]: the writer after [bs] was written; [room w n]: [n] more bytes fit. *)
Definition emit (w : ByteWriter) (bs : list Z) : ByteWriter :=
  mkWriter (splice (w_bytes w) (w_pos w) bs) (w_pos w + zlen bs).
Definition room (w : ByteWriter) (n : Z) : Prop :=
  0 <= w_pos w /\ w_pos w + n <= zlen (w_bytes w).

Lemma emit_emit w u v : room w (zlen u + zlen v) -> emit (emit w u) v = emit w (u ++ v).
Proof.
  intros [? ?]. unfold emit; simpl. rewrite zlen_app, splice_splice by lia. f_equal; lia.
Qed.

Lemma room_emit w bs n : 0 <= n -> room w (zlen bs + n) -> room (emit w bs) n.
Proof.
  intros ? [? ?]. unfold room, emit; simpl. pose proof (zlen_nonneg bs).
  rewrite zlen_splice by lia. lia.
Qed.

Lemma room_weaken w m n : n <= m -> room w m -> room w n.
Proof. unfold room. lia. Qed.

Lemma write_u32_emit w x : room w 4 -> write_u32 w x = Ret (emit w (to_le_bytes 4 x)).
Proof.
  intros [? ?]. unfold write_u32. by rewrite copy_to_slice_ok by (rewrite ?zlen_to_le_bytes; lia).
Qed.

Lemma write_u64_emit w x : room w 8 -> write_u64 w x = Ret (emit w (to_le_bytes 8 x)).
Proof.
  intros [? ?]. unfold write_u64. by rewrite copy_to_slice_ok by (rewrite ?zlen_to_le_bytes; lia).
Qed.

Lemma write_bytes_emit w bs : room w (zlen bs) -> write_bytes w bs = Ret (emit w bs).
Proof.
  intros [? ?]. unfold write_bytes. pose proof (zlen_nonneg bs).
  by rewrite copy_to_slice_ok by lia.
Qed.

Lemma write_u8_emit w x : room w 1 -> write_u8 w x = Ret (emit w [x]).
Proof.
  intros [? ?]. unfold write_u8, index, emit.
  destruct (lookup_lt_is_Some_2 (w_bytes w) (Z.to_nat (w_pos w))) as [y Hy];
    [unfold zlen in *; lia|].
  rewrite Hy. simpl. unfold splice. f_equal. f_equal.
  rewrite insert_take_drop by (by eapply lookup_lt_Some).
  simpl. f_equal. f_equal. f_equal. lia.
Qed.

(** [holds r bs]: the bytes from the reader's cursor on start with [bs]. *)
Definition holds (r : ByteReader) (bs : list Z) : Prop :=
  0 <= r_pos r /\ slice (r_bytes r) (r_pos r) (r_pos r + zlen bs) = Ret bs.
Definition advance (r : ByteReader) (n : Z) : ByteReader := mkReader (r_bytes r) (r_pos r + n).

Lemma holds_app r u v : holds r (u ++ v) -> holds r u /\ holds (advance r (zlen u)) v.
Proof.
  intros [? H]. rewrite zlen_app in H. apply slice_app_inv in H as [Hu Hv]; [|done].
  pose proof (zlen_nonneg u). unfold holds, advance; simpl. split; split; [done..|lia|].
  by rewrite <- Z.add_assoc.
Qed.

Lemma holds_split r bs n :
  0 <= n <= zlen bs -> holds r bs ->
  holds r (take (Z.to_nat n) bs) /\ holds (advance r n) (drop (Z.to_nat n) bs) /\
  zlen (take (Z.to_nat n) bs) = n /\ zlen (drop (Z.to_nat n) bs) = zlen bs - n.
Proof.
  intros Hn Hh. rewrite <- (take_drop (Z.to_nat n) bs) in Hh. apply holds_app in Hh as [H1 H2].
  assert (E : zlen (take (Z.to_nat n) bs) = n) by (unfold zlen in *; rewrite length_take; lia).
  rewrite E in H2. split_and!; try done. unfold zlen in *. rewrite length_drop. lia.
Qed.

Lemma read_u32_raw r bs :
  4 <= zlen bs -> holds r bs ->
  read_u32 r = Ret (from_le_bytes (take 4 bs), advance r 4) /\ holds (advance r 4) (drop 4 bs).
Proof.
  intros Hl Hh. destruct (holds_split r bs 4) as ([_ H1] & H2 & E & _); [lia|done|].
  split; [|done]. unfold read_u32. rewrite E in H1. rewrite H1. done.
Qed.

Lemma read_u64_raw r bs :
  8 <= zlen bs -> holds r bs ->
  read_u64 r = Ret (from_le_bytes (take 8 bs), advance r 8) /\ holds (advance r 8) (drop 8 bs).
Proof.
  intros Hl Hh. destruct (holds_split r bs 8) as ([_ H1] & H2 & E & _); [lia|done|].
  split; [|done]. unfold read_u64. rewrite E in H1. rewrite H1. done.
Qed.

Lemma read_bytes_raw r bs n :
  0 <= n <= zlen bs -> holds r bs ->
  read_bytes r n = Ret (take (Z.to_nat n) bs, advance r n) /\ holds (advance r n) (drop (Z.to_nat n) bs).
Proof.
  intros Hl Hh. destruct (holds_split r bs n) as ([_ H1] & H2 & E & _); [lia|done|].
  split; [|done]. unfold read_bytes. rewrite E in H1. rewrite H1. done.
Qed.

Lemma read_u8_raw r b bs :
  holds r (b :: bs) -> read_u8 r = Ret (b, advance r 1) /\ holds (advance r 1) bs.
Proof.
  intros Hh. destruct (holds_split r (b :: bs) 1) as ([_ H1] & H2 & E & _);
    [rewrite zlen_cons; pose proof (zlen_nonneg bs); lia|done|].
  split; [|done]. unfold read_u8, index.
  rewrite E in H1. apply slice_inv in H1 as [[_ Hle] H1].
  assert (Hx : r_bytes r !! Z.to_nat (r_pos r) = Some b).
  { assert (E' : take (Z.to_nat 1) (b :: bs) !! 0%nat = Some b) by done. rewrite H1 in E'.
    rewrite lookup_take_lt, lookup_drop in E' by lia. rewrite <- E'. f_equal. lia. }
  by rewrite Hx.
Qed.

(** Taking an encoding apart. *)
Lemma take_drop_app_le n x rest :
  in_width (8 * Z.of_nat n) x ->
  from_le_bytes (take n (to_le_bytes n x ++ rest)) = x /\ drop n (to_le_bytes n x ++ rest) = rest.
Proof.
  intros Hx. rewrite take_app_length' by (by rewrite length_to_le_bytes).
  rewrite drop_app_length' by (by rewrite length_to_le_bytes). split; [by apply from_to_le_bytes|done].
Qed.

Lemma from_le_bytes_width n bs :
  zlen bs = Z.of_nat n -> Forall is_u8 bs -> in_width (8 * Z.of_nat n) (from_le_bytes bs).
Proof. intros <- H. by apply from_le_bytes_range. Qed.

#[export] Hint Rewrite zlen_to_le_bytes : lemon.
