(* ===== verification/Layout.v ===== *)
(** * On-disk layout ([src/filesystem/src/layout.rs])

    The index newtypes, and [Layout], which divides a device into superblock,
    inode bitmap, data bitmap, inode table and data blocks.  [Layout::new]
    searches a fixed point for the size of the data bitmap with an unbounded
    loop; the model gives the loop fuel, and the file proves exactly for which
    devices the loop ends (it does not end for all of them). *)
From S2P Require Import Prelude Bitmap Bytes.

(** [BLOCK_SIZE] of [filesystem.rs]; [size_of] of the two on-disk records:
    [INode] is 4 + 16*4 + 1 bytes padded to its alignment 4, [DirEntry] 24 + 4. *)
Definition BLOCK_SIZE : Z := 512.
Definition size_of_INode : Z := 72.
Definition size_of_DirEntry : Z := 28.
Definition INODES_PER_BLOCK : Z := BLOCK_SIZE / size_of_INode.
Definition DIR_ENTRY_PER_BLOCK : Z := BLOCK_SIZE / size_of_DirEntry.

(** [BlockIndex], [ByteOffset] and [INodeIndex] wrap a [u32]. *)
Abbreviation BlockIndex := Z (only parsing).
Abbreviation ByteOffset := Z (only parsing).
Abbreviation INodeIndex := Z (only parsing).
Definition INodeIndex_root : INodeIndex := 0.

(** [DataBlockIndex(Option<NonZeroU32>)]. *)
Abbreviation DataBlockIndex := (option Z) (only parsing).

Definition NonZeroU32_new (v : Z) : option Z := if v =? 0 then None else Some v.

Definition DataBlockIndex_new (base val : Z) : comp DataBlockIndex :=
  s ← base +! val;
  v ← unwrap (try_u32 s);
  Ret (NonZeroU32_new v).
Definition from_raw_unchecked (val : Z) : DataBlockIndex := NonZeroU32_new val.
Definition to_block (d : DataBlockIndex) : option BlockIndex := d.
Definition dbi_is_empty (d : DataBlockIndex) : bool :=
  match d with Some _ => false | None => true end.
Definition dbi_clear (d : DataBlockIndex) : DataBlockIndex := None.

Record Layout := mkLayout {
  inode_bitmap_start : Z;
  inode_bitmap_blocks : Z;
  data_bitmap_start : Z;
  data_bitmap_blocks : Z;
  inode_table_start : Z;
  inode_table_blocks : Z;
  data_start : Z;
  data_blocks : Z;
}.

#[export] Instance Layout_eq_dec : EqDecision Layout.
Proof. solve_decision. Defined.

Definition bitmap_index (d : DataBlockIndex) (layout : Layout) : comp Z :=
  v ← unwrap d;
  v -! data_start layout.

Definition SUPERBLOCK_BLOCKS : Z := 1.
Definition BITS_PER_BLOCK : Z := BLOCK_SIZE * 8.

(** The [loop] of [Layout::new]: the final data bitmap size, data start and
    data size, or [None] where the body leaves with [?] or [return None]. *)
Fixpoint layout_loop (fuel : nat) (total_blocks fixed data_bitmap_blocks : Z)
    : comp (option (Z * Z * Z)) :=
  match fuel with
  | O => NoFuel
  | S fuel =>
      match checked_add fixed data_bitmap_blocks with
      | None => Ret None
      | Some data_start =>
          match checked_sub total_blocks data_start with
          | None => Ret None
          | Some data_blocks =>
              if data_blocks =? 0 then Ret None
              else
                let next := div_ceil data_blocks BITS_PER_BLOCK in
                if next =? data_bitmap_blocks
                then Ret (Some (data_bitmap_blocks, data_start, data_blocks))
                else layout_loop fuel total_blocks fixed next
          end
      end
  end.

Definition layout_new_fuel (fuel : nat) (total_blocks inode_count : Z) : comp (option Layout) :=
  let inode_bitmap_blocks := div_ceil inode_count BITS_PER_BLOCK in
  let inode_table_blocks := div_ceil inode_count INODES_PER_BLOCK in
  match (s ← checked_add SUPERBLOCK_BLOCKS inode_bitmap_blocks; checked_add s inode_table_blocks) with
  | None => Ret None
  | Some fixed =>
      match checked_sub total_blocks fixed with
      | None => Ret None
      | Some remaining =>
          r ← layout_loop fuel total_blocks fixed (div_ceil remaining BITS_PER_BLOCK);
          Ret (match r with
               | None => None
               | Some (data_bitmap_blocks, data_start, data_blocks) =>
                   Some (mkLayout 1 inode_bitmap_blocks
                           (1 + inode_bitmap_blocks) data_bitmap_blocks
                           (1 + inode_bitmap_blocks + data_bitmap_blocks) inode_table_blocks
                           data_start data_blocks)
               end)
      end
  end.

(** Sixteen rounds are enough for every [usize] device on which the loop ends
    at all ([layout_new_returns]). *)
Definition layout_new (total_blocks inode_count : Z) : comp (option Layout) :=
  layout_new_fuel 16 total_blocks inode_count.

Definition inode_to_block (layout : Layout) (inode : INodeIndex) : comp (BlockIndex * ByteOffset) :=
  block_index ← add_ovf 32 (as_u32 (inode_table_start layout)) (inode / INODES_PER_BLOCK);
  offset ← mul_ovf 32 (inode mod INODES_PER_BLOCK) size_of_INode;
  Ret (block_index, offset).

Definition data_block (layout : Layout) (val : Z) : comp DataBlockIndex :=
  DataBlockIndex_new (data_start layout) val.

(** ** The search for the data bitmap size

    With [R] blocks left for data and its bitmap, a bitmap of [b] blocks needs
    [bitmap_need R b] blocks; the loop looks for a [b] that needs itself. *)
Definition bitmap_need (R b : Z) : Z := div_ceil (R - b) BITS_PER_BLOCK.

Lemma bitmap_need_bounds R b :
  b <= R -> 4096 * (bitmap_need R b - 1) < R - b <= 4096 * bitmap_need R b.
Proof. intros. apply (div_ceil_bounds (R - b) 4096); lia. Qed.

Lemma bitmap_need_range R b : 2 <= R -> 0 <= b < R -> 0 <= bitmap_need R b < R.
Proof. intros. pose proof (bitmap_need_bounds R b ltac:(lia)). lia. Qed.

Lemma layout_loop_S n total fixed b :
  0 <= fixed -> 0 <= b -> total <= usize_max ->
  layout_loop (S n) total fixed b =
    if total - fixed <=? b then Ret None
    else if bitmap_need (total - fixed) b =? b
         then Ret (Some (b, fixed + b, total - fixed - b))
         else layout_loop n total fixed (bitmap_need (total - fixed) b).
Proof.
  intros. simpl. unfold checked_add, checked_sub, bitmap_need.
  destruct (Z.leb_spec (total - fixed) b).
  - repeat (zcase; try done); lia.
  - rewrite (proj2 (Z.leb_le (fixed + b) usize_max)), (proj2 (Z.leb_le (fixed + b) total)),
      (proj2 (Z.eqb_neq (total - (fixed + b)) 0)) by lia.
    by replace (total - (fixed + b)) with (total - fixed - b) by lia.
Qed.

(** A fixed point exists exactly when [R] is not 1 modulo 4097. *)
Definition is_fix (R q : Z) : Prop := 4097 * (q - 1) + 2 <= R <= 4097 * q.

Lemma is_fix_exists R : 2 <= R -> R mod 4097 <> 1 -> exists q, 0 < q < R /\ is_fix R q.
Proof.
  intros HR Hm. unfold is_fix. pose proof (Z.div_mod R 4097 ltac:(lia)).
  pose proof (Z.mod_pos_bound R 4097 ltac:(lia)). pose proof (Z.div_pos R 4097 ltac:(lia) ltac:(lia)).
  destruct (Z.eq_dec (R mod 4097) 0); [exists (R / 4097)|exists (R / 4097 + 1)]; lia.
Qed.

Lemma is_fix_need R q b : is_fix R q -> 0 <= b <= R -> bitmap_need R b = b <-> b = q.
Proof.
  intros [? ?] ?. pose proof (bitmap_need_bounds R b ltac:(lia)). split; intros; [lia|].
  subst b. nia.
Qed.

(** One round shrinks the distance to the fixed point about 4096-fold. *)
Lemma bitmap_need_contracts R q b D :
  is_fix R q -> 0 <= q <= R -> 0 <= b < R -> Z.abs (b - q) <= 4096 * D ->
  Z.abs (bitmap_need R b - q) <= D.
Proof.
  intros [? ?] ? ? ?. pose proof (bitmap_need_bounds R b ltac:(lia)). lia.
Qed.

Section Converge.
Context (total fixed q : Z).
Let R := total - fixed.
Hypothesis (Hfixed : 0 <= fixed) (Htotal : total <= usize_max).
Hypothesis (HR : 2 <= R) (Hq : 0 < q < R) (Hfix : is_fix R q).

Let found : comp (option (Z * Z * Z)) := Ret (Some (q, fixed + q, R - q)).

Lemma layout_loop_at_fix n : layout_loop (S n) total fixed q = found.
Proof.
  rewrite layout_loop_S by lia. fold R. rewrite (proj2 (Z.leb_gt _ _)) by lia.
  rewrite (proj2 (is_fix_need R q q Hfix ltac:(lia)) eq_refl), Z.eqb_refl. done.
Qed.

Lemma layout_loop_next n b :
  0 <= b < R -> b <> q ->
  layout_loop (S n) total fixed b = layout_loop n total fixed (bitmap_need R b).
Proof.
  intros Hb Hne. rewrite layout_loop_S by lia. fold R. rewrite (proj2 (Z.leb_gt _ _)) by lia.
  destruct (Z.eqb_spec (bitmap_need R b) b) as [E|]; [|done].
  apply (is_fix_need R q b Hfix) in E; [done|lia].
Qed.

(** Next to the fixed point: at most two more rounds, then the one that stops. *)
Lemma layout_loop_near n b : 0 <= b < R -> Z.abs (b - q) <= 1 -> layout_loop (3 + n) total fixed b = found.
Proof.
  intros Hb Hd. destruct (Z.eq_dec b q) as [->|Hne]; [apply layout_loop_at_fix|].
  change (3 + n)%nat with (S (2 + n)). rewrite layout_loop_next by done.
  pose proof (bitmap_need_range R b HR Hb). pose proof (bitmap_need_bounds R b ltac:(lia)).
  destruct (Z.eq_dec (bitmap_need R b) q) as [->|Hne']; [apply layout_loop_at_fix|].
  change (2 + n)%nat with (S (1 + n)). rewrite layout_loop_next by done.
  pose proof (bitmap_need_bounds R (bitmap_need R b) ltac:(lia)).
  replace (bitmap_need R (bitmap_need R b)) with q; [apply layout_loop_at_fix|].
  unfold is_fix in Hfix. lia.
Qed.

Lemma layout_loop_far n k b D :
  0 <= b < R -> Z.abs (b - q) <= D -> 0 <= D -> D <= 4096 ^ Z.of_nat k ->
  layout_loop (k + (3 + n)) total fixed b = found.
Proof.
  revert b D. induction k as [|k IH]; intros b D Hb Hd HD Hk.
  { apply layout_loop_near; [done|]. simpl in Hk. lia. }
  destruct (Z.eq_dec b q) as [->|Hne]; [apply layout_loop_at_fix|].
  change (S k + (3 + n))%nat with (S (k + (3 + n))). rewrite layout_loop_next by done.
  apply IH with (4096 ^ Z.of_nat k); [by apply bitmap_need_range| |apply Z.pow_nonneg; lia|lia].
  apply bitmap_need_contracts; [done|lia|done|].
  rewrite Nat2Z.inj_succ, Z.pow_succ_r in Hk by lia. lia.
Qed.
End Converge.

Lemma layout_loop_terminates total fixed n q :
  0 <= fixed -> total <= usize_max -> 2 <= total - fixed -> 0 < q < total - fixed ->
  is_fix (total - fixed) q -> (9 <= n)%nat ->
  layout_loop n total fixed (div_ceil (total - fixed) BITS_PER_BLOCK) =
    Ret (Some (q, fixed + q, total - fixed - q)).
Proof.
  intros Hf Ht HR Hq Hfix Hn. set (R := total - fixed) in *.
  replace n with (6 + (3 + (n - 9)))%nat by lia.
  assert (E : bitmap_need R 0 = div_ceil R BITS_PER_BLOCK) by (unfold bitmap_need; by rewrite Z.sub_0_r).
  pose proof (bitmap_need_range R 0 HR ltac:(lia)).
  rewrite <- E. apply (layout_loop_far total fixed q) with (2 ^ 64); try done.
  fold R. unfold usize_max, max_of in Ht. lia.
Qed.

Lemma layout_loop_diverges n total fixed b :
  0 <= fixed -> total <= usize_max -> 2 <= total - fixed -> (total - fixed) mod 4097 = 1 ->
  0 <= b < total - fixed -> layout_loop n total fixed b = NoFuel.
Proof.
  revert b. induction n as [|n IH]; intros b Hf Ht HR Hm Hb; [done|].
  rewrite layout_loop_S by lia. rewrite (proj2 (Z.leb_gt _ _)) by lia.
  destruct (Z.eqb_spec (bitmap_need (total - fixed) b) b) as [E|].
  - exfalso. pose proof (bitmap_need_bounds (total - fixed) b ltac:(lia)) as Hbd. rewrite E in Hbd.
    pose proof (Z.div_mod (total - fixed) 4097 ltac:(lia)). lia.
  - apply IH; try done. by apply bitmap_need_range.
Qed.

(** ** Well-formed layouts

    The regions follow each other without gaps from block 1 to the end of the
    device, and each bitmap and the inode table have room for what they
    describe. *)
Record layout_wf (total n : Z) (l : Layout) : Prop := {
  lwf_inode_bitmap : inode_bitmap_start l = 1;
  lwf_data_bitmap : data_bitmap_start l = inode_bitmap_start l + inode_bitmap_blocks l;
  lwf_inode_table : inode_table_start l = data_bitmap_start l + data_bitmap_blocks l;
  lwf_data : data_start l = inode_table_start l + inode_table_blocks l;
  lwf_end : data_start l + data_blocks l = total;
  lwf_inode_bitmap_blocks : inode_bitmap_blocks l = div_ceil n BITS_PER_BLOCK;
  lwf_data_bitmap_blocks : data_bitmap_blocks l = div_ceil (data_blocks l) BITS_PER_BLOCK;
  lwf_inode_table_blocks : inode_table_blocks l = div_ceil n INODES_PER_BLOCK;
  lwf_count : 0 <= n;
  lwf_data_pos : 0 < data_blocks l;
}.

(** Blocks used before the data bitmap is sized. *)
Definition fixed_blocks (n : Z) : Z := 1 + div_ceil n BITS_PER_BLOCK + div_ceil n INODES_PER_BLOCK.

Lemma fixed_blocks_checked n :
  is_usize n ->
  (s ← checked_add SUPERBLOCK_BLOCKS (div_ceil n BITS_PER_BLOCK); checked_add s (div_ceil n INODES_PER_BLOCK))
    = Some (fixed_blocks n) /\ 0 < fixed_blocks n.
Proof.
  intros [? Hn]. unfold fixed_blocks, SUPERBLOCK_BLOCKS.
  pose proof (div_ceil_bounds n BITS_PER_BLOCK ltac:(lia) ltac:(done)) as H1.
  pose proof (div_ceil_bounds n INODES_PER_BLOCK ltac:(lia) ltac:(done)) as H2.
  change BITS_PER_BLOCK with 4096 in *. change INODES_PER_BLOCK with 7 in *.
  unfold checked_add, usize_max, max_of.
  rewrite (proj2 (Z.leb_le _ _)) by lia. simpl. rewrite (proj2 (Z.leb_le _ _)) by lia. split; [done|lia].
Qed.

Lemma layout_new_fuel_unfold fuel total n :
  is_usize n -> is_usize total -> fixed_blocks n <= total ->
  layout_new_fuel fuel total n =
    (r ← layout_loop fuel total (fixed_blocks n) (div_ceil (total - fixed_blocks n) BITS_PER_BLOCK);
     Ret (match r with
          | None => None
          | Some (b, ds, db) =>
              Some (mkLayout 1 (div_ceil n BITS_PER_BLOCK) (1 + div_ceil n BITS_PER_BLOCK) b
                      (1 + div_ceil n BITS_PER_BLOCK + b) (div_ceil n INODES_PER_BLOCK) ds db)
          end)).
Proof.
  intros Hn Ht Hle. unfold layout_new_fuel. destruct (fixed_blocks_checked n Hn) as [-> _].
  unfold checked_sub. by rewrite (proj2 (Z.leb_le _ _)) by done.
Qed.

Lemma layout_new_some fuel total n :
  is_usize n -> is_usize total -> (9 <= fuel)%nat ->
  2 <= total - fixed_blocks n -> (total - fixed_blocks n) mod 4097 <> 1 ->
  exists l, layout_new_fuel fuel total n = Ret (Some l) /\ layout_wf total n l.
Proof.
  intros Hn Ht Hfuel HR Hm. destruct (is_fix_exists _ HR Hm) as (q & Hq & Hfix).
  destruct (fixed_blocks_checked n Hn) as [_ Hpos].
  rewrite layout_new_fuel_unfold by (done || lia).
  rewrite (layout_loop_terminates total (fixed_blocks n) fuel q);
    [|unfold in_width, usize_max, max_of in *; lia..|done|done].
  eexists. split; [done|]. unfold fixed_blocks, is_usize in *.
  constructor; simpl; try lia; try done.
  symmetry. apply div_ceil_unique; [lia|done|]. change BITS_PER_BLOCK with 4096 in *.
  unfold is_fix in Hfix. lia.
Qed.

Lemma layout_new_none fuel total n :
  is_usize n -> is_usize total -> (1 <= fuel)%nat -> total - fixed_blocks n < 2 ->
  layout_new_fuel fuel total n = Ret None.
Proof.
  intros Hn Ht Hfuel HR. destruct (fixed_blocks_checked n Hn) as [E Hpos].
  destruct (Z.lt_ge_cases total (fixed_blocks n)).
  - unfold layout_new_fuel. rewrite E. unfold checked_sub. by rewrite (proj2 (Z.leb_gt _ _)) by done.
  - rewrite layout_new_fuel_unfold by (done || lia). destruct fuel as [|fuel]; [lia|].
    rewrite layout_loop_S; [|lia|apply div_ceil_nonneg; [lia|done]|unfold in_width, usize_max, max_of in *; lia].
    assert (total - fixed_blocks n = 0 \/ total - fixed_blocks n = 1) as [->| ->] by lia; done.
Qed.

Lemma layout_new_nofuel fuel total n :
  is_usize total -> is_usize n ->
  2 <= total - fixed_blocks n -> (total - fixed_blocks n) mod 4097 = 1 ->
  layout_new_fuel fuel total n = NoFuel.
Proof.
  intros Ht Hn HR Hm. destruct (fixed_blocks_checked n Hn) as [_ Hpos].
  rewrite layout_new_fuel_unfold by (done || lia).
  assert (E : bitmap_need (total - fixed_blocks n) 0 = div_ceil (total - fixed_blocks n) BITS_PER_BLOCK)
    by (unfold bitmap_need; by rewrite Z.sub_0_r).
  rewrite layout_loop_diverges; try done; [lia|unfold in_width, usize_max, max_of in *; lia|].
  rewrite <- E. apply bitmap_need_range; lia.
Qed.

(** Whatever [Layout::new] returns is well formed. *)
Lemma layout_new_inv total n l :
  is_usize total -> is_usize n -> layout_new total n = Ret (Some l) -> layout_wf total n l.
Proof.
  unfold layout_new. intros Ht Hn E.
  destruct (Z.lt_ge_cases (total - fixed_blocks n) 2).
  { rewrite layout_new_none in E by (done || lia). discriminate. }
  destruct (Z.eq_dec ((total - fixed_blocks n) mod 4097) 1).
  { rewrite layout_new_nofuel in E by done. discriminate. }
  destruct (layout_new_some 16 total n) as (l' & E' & Hwf); [done..|lia|done|done|]. congruence.
Qed.

(** ** Addresses within a layout *)
Lemma INODES_PER_BLOCK_val : INODES_PER_BLOCK = 7.
Proof. done. Qed.
Lemma DIR_ENTRY_PER_BLOCK_val : DIR_ENTRY_PER_BLOCK = 18.
Proof. done. Qed.

Lemma layout_wf_bounds total n l :
  layout_wf total n l -> 0 < inode_table_start l /\ inode_table_start l < data_start l + 1 /\
    data_start l < total /\ n <= 7 * inode_table_blocks l.
Proof.
  intros []. pose proof (div_ceil_bounds n INODES_PER_BLOCK ltac:(lia) ltac:(done)).
  pose proof (div_ceil_nonneg n BITS_PER_BLOCK ltac:(lia) ltac:(done)).
  pose proof (div_ceil_nonneg (data_blocks l) BITS_PER_BLOCK ltac:(lia) ltac:(done)).
  pose proof (div_ceil_nonneg n INODES_PER_BLOCK ltac:(lia) ltac:(done)).
  rewrite INODES_PER_BLOCK_val in *. lia.
Qed.

Lemma inode_to_block_spec total n l i :
  layout_wf total n l -> total <= u32_max -> 0 <= i < n ->
  inode_to_block l i = Ret (inode_table_start l + i / 7, i mod 7 * 72) /\
  inode_table_start l <= inode_table_start l + i / 7 < data_start l /\
  0 <= i mod 7 * 72 /\ i mod 7 * 72 + size_of_INode <= BLOCK_SIZE.
Proof.
  intros Hwf Ht Hi. destruct (layout_wf_bounds total n l Hwf) as (? & ? & ? & ?).
  pose proof (lwf_data _ _ _ Hwf).
  pose proof (Z.div_mod i 7 ltac:(lia)). pose proof (Z.mod_pos_bound i 7 ltac:(lia)).
  pose proof (Z.div_pos i 7 ltac:(lia) ltac:(lia)).
  unfold inode_to_block. rewrite INODES_PER_BLOCK_val.
  unfold as_u32, size_of_INode, BLOCK_SIZE. unfold u32_max, max_of in *.
  rewrite (Z.mod_small (inode_table_start l)) by lia. rewrite add_ovf_ok by (unfold max_of; lia). simpl.
  rewrite mul_ovf_ok by (unfold max_of; lia). simpl. split; [done|]. lia.
Qed.

Lemma data_block_spec total n l v :
  layout_wf total n l -> total <= u32_max -> 0 <= v < data_blocks l ->
  data_block l v = Ret (Some (data_start l + v)) /\
  bitmap_index (Some (data_start l + v)) l = Ret v.
Proof.
  intros Hwf Ht Hv. destruct (layout_wf_bounds total n l Hwf) as (? & ? & ? & ?).
  pose proof (lwf_end _ _ _ Hwf). unfold u32_max, max_of in *.
  unfold data_block, DataBlockIndex_new, bitmap_index, try_u32, NonZeroU32_new, u32_max.
  rewrite add_ovf_ok by (unfold max_of; lia). simpl.
  rewrite (proj2 (Z.leb_le _ _)) by (unfold max_of; lia). simpl.
  rewrite (proj2 (Z.eqb_neq _ _)) by lia. rewrite sub_ovf_ok by lia. split; [done|f_equal; lia].
Qed.

(** ** Properties *)

(** C31: On every device and inode count of [usize] range whose remaining block
    count is not 1 modulo 4097, [Layout::new] returns: [None] exactly when
    fewer than two blocks remain after superblock, inode bitmap and inode
    table, and otherwise a layout whose regions are contiguous, end exactly at
    the device's end and are large enough for the inodes and data blocks they
    describe. *)
Theorem layout_new_returns total n :
  is_usize total -> is_usize n ->
  (total - fixed_blocks n) mod 4097 <> 1 \/ total - fixed_blocks n < 2 ->
  (total - fixed_blocks n < 2 /\ layout_new total n = Ret None) \/
  (2 <= total - fixed_blocks n /\
   exists l, layout_new total n = Ret (Some l) /\ layout_wf total n l).
Proof.
  intros Ht Hn Hm. destruct (Z.lt_ge_cases (total - fixed_blocks n) 2).
  - left. split; [done|]. apply layout_new_none; done || lia.
  - right. split; [done|]. apply layout_new_some; try done; lia.
Qed.

Lemma layout_new_returns_witness :
  exists l, layout_new 32768 4096 = Ret (Some l) /\ layout_wf 32768 4096 l.
Proof.
  destruct (layout_new_returns 32768 4096) as [[H _]|[_ H]];
    [by vm_compute|by vm_compute|left; by vm_compute|by vm_compute in H|exact H].
Defined.

(** C38: When at least two blocks remain and their number is 1 modulo 4097, the
    loop of [Layout::new] alternates between two bitmap sizes and never ends,
    whatever the number of rounds: formatting such a device hangs. *)
Theorem layout_new_hangs fuel total n :
  is_usize total -> is_usize n ->
  2 <= total - fixed_blocks n -> (total - fixed_blocks n) mod 4097 = 1 ->
  layout_new_fuel fuel total n = NoFuel.
Proof. apply layout_new_nofuel. Qed.

Lemma layout_new_hangs_witness : layout_new_fuel 1000 4686 4096 = NoFuel.
Proof. apply layout_new_hangs; by vm_compute. Defined.

(** Every inode index below the inode count has its own 72-byte slot inside
    the inode table: the block lies in the table region, the slot lies inside
    the block, and the slots of two different inodes do not overlap. *)
Theorem inode_slots_disjoint total n l i j :
  layout_wf total n l -> total <= u32_max -> 0 <= i < n -> 0 <= j < n ->
  exists bi oi bj oj,
    inode_to_block l i = Ret (bi, oi) /\ inode_to_block l j = Ret (bj, oj) /\
    inode_table_start l <= bi < data_start l /\ 0 <= oi /\ oi + size_of_INode <= BLOCK_SIZE /\
    (i <> j -> bi <> bj \/ oi + size_of_INode <= oj \/ oj + size_of_INode <= oi).
Proof.
  intros Hwf Ht Hi Hj.
  destruct (inode_to_block_spec total n l i Hwf Ht Hi) as (Ei & Hbi & Hoi & Hoi').
  destruct (inode_to_block_spec total n l j Hwf Ht Hj) as (Ej & _ & _ & _).
  do 4 eexists. split; [exact Ei|]. split; [exact Ej|]. split_and!; [lia..|].
  intros Hne. unfold size_of_INode.
  pose proof (Z.div_mod i 7 ltac:(lia)). pose proof (Z.div_mod j 7 ltac:(lia)). lia.
Qed.

Lemma inode_slots_disjoint_witness :
  exists l, layout_wf 32768 4096 l /\
  exists bi oi bj oj,
    inode_to_block l 6 = Ret (bi, oi) /\ inode_to_block l 7 = Ret (bj, oj) /\ bi <> bj.
Proof.
  destruct (layout_new_some 16 32768 4096) as (l & Hl & Hwf); [by vm_compute..|lia|by vm_compute|by vm_compute|].
  exists l. split; [done|].
  destruct (inode_slots_disjoint 32768 4096 l 6 7 Hwf) as (bi & oi & bj & oj & Hi & Hj & _);
    [by vm_compute|lia..|].
  exists bi, oi, bj, oj. split_and!; [done..|].
  vm_compute in Hl. injection Hl as <-. vm_compute in Hi, Hj. congruence.
Defined.

(** Allocating data block [v] and asking for the bitmap index of the
    resulting block gives [v] back, so bitmap bits and blocks correspond one to
    one. *)
Theorem data_block_bitmap_roundtrip total n l v :
  layout_wf total n l -> total <= u32_max -> 0 <= v < data_blocks l ->
  exists d, data_block l v = Ret (Some d) /\ data_start l <= d < total /\
    bitmap_index (Some d) l = Ret v.
Proof.
  intros Hwf Ht Hv. destruct (data_block_spec total n l v Hwf Ht Hv) as [E1 E2].
  eexists. split; [exact E1|]. split; [|done]. pose proof (lwf_end _ _ _ Hwf). lia.
Qed.

Lemma data_block_bitmap_roundtrip_witness :
  exists l d, layout_wf 32768 4096 l /\ data_block l 5 = Ret (Some d) /\ bitmap_index (Some d) l = Ret 5.
Proof.
  destruct (layout_new_some 16 32768 4096) as (l & Hl & Hwf); [by vm_compute..|lia|by vm_compute|by vm_compute|].
  destruct (data_block_bitmap_roundtrip 32768 4096 l 5 Hwf) as (d & Hd & _ & Hb).
  - by vm_compute.
  - vm_compute in Hl. injection Hl as <-. simpl. lia.
  - eauto.
Defined.
