(* ===== verification/INode.v ===== *)
(** * Inodes ([src/filesystem/src/inode.rs])

    The inode record, the operations on it, and its on-disk format with the
    round-trip law. *)
From S2P Require Import Prelude Bytes Layout.

Definition INODE_BLOCKS : Z := 16.

Record INode := mkINode {
  in_size : Z;
  in_blocks : list DataBlockIndex;
  in_is_directory : bool;
}.

#[export] Instance INode_eq_dec : EqDecision INode.
Proof. solve_decision. Defined.

(** [WriteSlot]: [ws_block] is the slot of [blocks] the mutable reference points
    to, with its content, or [None] past the sixteenth slot. *)
Record WriteSlot := mkWriteSlot {
  ws_block : option (Z * DataBlockIndex);
  ws_byte_offset : Z;
  ws_capacity : Z;
}.

Definition new_empty_directory : INode := mkINode 0 (replicate 16 None) true.
Definition new_empty_file : INode := mkINode 0 (replicate 16 None) false.

Definition write_slot (inode : INode) : WriteSlot :=
  let slot := in_size inode / BLOCK_SIZE in
  let offset := in_size inode mod BLOCK_SIZE in
  mkWriteSlot ((fun b => (slot, b)) <$> in_blocks inode !! Z.to_nat slot)
    offset (BLOCK_SIZE - offset).

(** Assignment through the reference of a write slot or of [block_mut]. *)
Definition set_block (inode : INode) (slot : Z) (b : DataBlockIndex) : INode :=
  mkINode (in_size inode) (<[Z.to_nat slot := b]> (in_blocks inode)) (in_is_directory inode).

(** [advance] and [shrink]; the argument is truncated to [u32]. *)
Definition inode_advance (inode : INode) (by_ : Z) : comp INode :=
  size ← add_ovf 32 (in_size inode) (as_u32 by_);
  Ret (mkINode size (in_blocks inode) (in_is_directory inode)).
Definition inode_shrink (inode : INode) (by_ : Z) : comp INode :=
  size ← sub_ovf (in_size inode) (as_u32 by_);
  Ret (mkINode size (in_blocks inode) (in_is_directory inode)).

Definition current_dir_entries (inode : INode) : comp Z :=
  assert (in_is_directory inode) ;;
  Ret (in_size inode / size_of_DirEntry).

Definition has_space (inode : INode) : bool := existsb dbi_is_empty (in_blocks inode).

Definition used_blocks (inode : INode) : list DataBlockIndex :=
  List.filter (fun b => negb (dbi_is_empty b)) (in_blocks inode).

Definition inode_block (inode : INode) (block_index : Z) : comp DataBlockIndex :=
  index (in_blocks inode) block_index.

(** ** On-disk format *)
Definition dbi_raw (b : DataBlockIndex) : Z :=
  match to_block b with Some v => v | None => 0 end.

Fixpoint write_blocks (bs : list DataBlockIndex) (w : ByteWriter) : comp ByteWriter :=
  match bs with
  | [] => Ret w
  | b :: bs => w ← write_u32 w (dbi_raw b); write_blocks bs w
  end.

Fixpoint read_blocks (n : nat) (r : ByteReader) : comp (list DataBlockIndex * ByteReader) :=
  match n with
  | O => Ret ([], r)
  | S n =>
      '(v, r) ← read_u32 r;
      '(bs, r) ← read_blocks n r;
      Ret (from_raw_unchecked v :: bs, r)
  end.

Definition INode_write_to (inode : INode) (w : ByteWriter) : comp ByteWriter :=
  w ← write_u32 w (in_size inode);
  w ← write_blocks (in_blocks inode) w;
  write_u8 w (if in_is_directory inode then 1 else 0).

Definition INode_read_from (r : ByteReader) : comp (INode * ByteReader) :=
  '(size, r) ← read_u32 r;
  '(blocks, r) ← read_blocks 16 r;
  '(d, r) ← read_u8 r;
  Ret (mkINode size blocks (negb (d =? 0)), r).

#[export] Instance INode_DiskFormat : DiskFormat INode := {
  write_to := INode_write_to;
  read_from := INode_read_from;
}.

(** ** The representation invariant of an inode *)
Definition dbi_ok (b : DataBlockIndex) : Prop :=
  match b with Some v => 0 < v < 2 ^ 32 | None => True end.

Record inode_ok (inode : INode) : Prop := {
  inode_ok_size : is_u32 (in_size inode);
  inode_ok_blocks : length (in_blocks inode) = 16%nat;
  inode_ok_dbi : Forall dbi_ok (in_blocks inode);
}.

Definition encode_blocks (bs : list DataBlockIndex) : list Z :=
  concat (map (fun b => to_le_bytes 4 (dbi_raw b)) bs).
Definition encode_inode (inode : INode) : list Z :=
  to_le_bytes 4 (in_size inode) ++ encode_blocks (in_blocks inode) ++
  [if in_is_directory inode then 1 else 0].

Lemma encode_blocks_cons b bs : encode_blocks (b :: bs) = to_le_bytes 4 (dbi_raw b) ++ encode_blocks bs.
Proof. done. Qed.

Lemma zlen_encode_blocks bs : zlen (encode_blocks bs) = 4 * zlen bs.
Proof.
  induction bs as [|b bs IH]; [done|].
  rewrite encode_blocks_cons, zlen_app, zlen_to_le_bytes, zlen_cons, IH. lia.
Qed.

Lemma dbi_raw_roundtrip b : dbi_ok b -> is_u32 (dbi_raw b) /\ from_raw_unchecked (dbi_raw b) = b.
Proof.
  destruct b as [v|]; unfold dbi_raw, to_block; simpl; intros; [|by vm_compute].
  split; [unfold in_width; lia|].
  unfold from_raw_unchecked, NonZeroU32_new. by rewrite (proj2 (Z.eqb_neq _ _)) by lia.
Qed.

Lemma write_blocks_emit bs w :
  room w (4 * zlen bs) -> write_blocks bs w = Ret (emit w (encode_blocks bs)).
Proof.
  revert w. induction bs as [|b bs IH]; intros w Hroom.
  - unfold emit, encode_blocks, splice; simpl. destruct w as [bytes pos]; simpl.
    rewrite zlen_nil, Nat.add_0_r, take_drop, Z.add_0_r. done.
  - rewrite zlen_cons in Hroom. pose proof (zlen_nonneg bs). cbn [write_blocks].
    rewrite write_u32_emit by (eapply room_weaken; [|done]; lia). cbn [mbind comp_bind].
    rewrite IH.
    + rewrite emit_emit; [done|]. rewrite zlen_encode_blocks, zlen_to_le_bytes.
      eapply room_weaken; [|done]. lia.
    + apply room_emit; [lia|]. rewrite zlen_to_le_bytes. eapply room_weaken; [|done]. lia.
Qed.

Fixpoint decode_blocks (n : nat) (bs : list Z) : list DataBlockIndex :=
  match n with
  | O => []
  | S n => from_raw_unchecked (from_le_bytes (take 4 bs)) :: decode_blocks n (drop 4 bs)
  end.
Definition decode_inode (bs : list Z) : INode :=
  mkINode (from_le_bytes (take 4 bs)) (decode_blocks 16 (drop 4 bs)) (negb (hd 0 (drop 68 bs) =? 0)).

Lemma read_blocks_raw n r bs :
  4 * Z.of_nat n <= zlen bs -> holds r bs ->
  exists r', read_blocks n r = Ret (decode_blocks n bs, r') /\ holds r' (drop (4 * n) bs).
Proof.
  revert r bs. induction n as [|n IH]; intros r bs Hl Hh; [eauto|].
  destruct (read_u32_raw r bs) as [E Hh']; [lia|done|]. cbn [read_blocks]. rewrite E. cbn [mbind comp_bind].
  destruct (IH (advance r 4) (drop 4 bs)) as (r' & E' & Hh'').
  { unfold zlen in *. rewrite length_drop. lia. }
  { done. }
  rewrite E'. rewrite drop_drop in Hh''. eexists. split; [done|].
  by replace (4 * S n)%nat with (4 + 4 * n)%nat by lia.
Qed.

Lemma decode_encode_blocks bs rest :
  Forall dbi_ok bs -> decode_blocks (length bs) (encode_blocks bs ++ rest) = bs.
Proof.
  induction 1 as [|b bs Hb _ IH]; [done|]. destruct (dbi_raw_roundtrip b Hb) as [Hr Hrt].
  rewrite encode_blocks_cons, <- app_assoc. cbn [length decode_blocks].
  destruct (take_drop_app_le 4 (dbi_raw b) (encode_blocks bs ++ rest) Hr) as [-> ->]. by rewrite Hrt, IH.
Qed.

Lemma decode_blocks_ok n bs :
  4 * Z.of_nat n <= zlen bs -> Forall is_u8 bs ->
  length (decode_blocks n bs) = n /\ Forall dbi_ok (decode_blocks n bs).
Proof.
  revert bs. induction n as [|n IH]; intros bs Hl Hb; [by repeat constructor|].
  destruct (IH (drop 4 bs)) as [Hlen Hok]; [unfold zlen in *; rewrite length_drop; lia|by apply Forall_drop|].
  cbn [decode_blocks length]. rewrite Hlen. split; [done|]. constructor; [|done].
  destruct (from_le_bytes_width 4 (take 4 bs)); [unfold zlen in *; rewrite length_take; lia|by apply Forall_take|].
  unfold from_raw_unchecked, NonZeroU32_new. zcase; simpl in *; lia.
Qed.

Lemma INode_write_spec inode w :
  inode_ok inode -> room w 69 -> INode_write_to inode w = Ret (emit w (encode_inode inode)).
Proof.
  intros [Hs Hl Hb] Hroom. unfold INode_write_to, encode_inode.
  assert (Hz : zlen (in_blocks inode) = 16) by (unfold zlen; lia).
  assert (Hroom' : forall n, n <= 69 -> room w n) by (intros; by eapply room_weaken).
  rewrite write_u32_emit by (apply Hroom'; lia). simpl.
  rewrite write_blocks_emit by (apply room_emit; [lia|]; rewrite zlen_to_le_bytes, Hz; apply Hroom'; lia).
  simpl. rewrite emit_emit by (rewrite zlen_to_le_bytes, zlen_encode_blocks, Hz; apply Hroom'; lia).
  rewrite write_u8_emit.
  - rewrite emit_emit, <- app_assoc; [done|].
    rewrite zlen_app, zlen_to_le_bytes, zlen_encode_blocks, Hz, zlen_cons, zlen_nil. apply Hroom'. lia.
  - apply room_emit; [lia|]. rewrite zlen_app, zlen_to_le_bytes, zlen_encode_blocks, Hz. apply Hroom'. lia.
Qed.

Lemma INode_read_spec r bs :
  zlen bs = 69 -> holds r bs -> exists r', INode_read_from r = Ret (decode_inode bs, r').
Proof.
  intros Hl Hh. unfold INode_read_from.
  destruct (read_u32_raw r bs) as [-> Hh1]; [lia|done|]. cbn [mbind comp_bind].
  destruct (read_blocks_raw 16 (advance r 4) (drop 4 bs)) as (r2 & -> & Hh2);
    [unfold zlen in *; rewrite length_drop; lia|done|]. cbn [mbind comp_bind].
  rewrite drop_drop in Hh2. change (4 + 4 * 16)%nat with 68%nat in Hh2.
  unfold decode_inode. destruct (drop 68 bs) as [|b t] eqn:E.
  { apply (f_equal length) in E. rewrite length_drop in E. unfold zlen in *. simpl in E. lia. }
  apply read_u8_raw in Hh2 as [-> _]. simpl. eauto.
Qed.

Lemma decode_encode_inode inode : inode_ok inode -> decode_inode (encode_inode inode) = inode.
Proof.
  intros [Hs Hl Hb]. unfold decode_inode, encode_inode.
  destruct (take_drop_app_le 4 (in_size inode)
    (encode_blocks (in_blocks inode) ++ [if in_is_directory inode then 1 else 0]) Hs) as [-> E].
  change 68%nat with (4 + 64)%nat. rewrite <- drop_drop, E, <- Hl, decode_encode_blocks by done.
  rewrite drop_app_length'.
  - destruct inode as [s bl []]; done.
  - pose proof (zlen_encode_blocks (in_blocks inode)) as H. unfold zlen in H. lia.
Qed.

Lemma zlen_encode_inode inode : inode_ok inode -> zlen (encode_inode inode) = 69.
Proof.
  intros [_ Hl _]. unfold encode_inode.
  rewrite !zlen_app, zlen_to_le_bytes, zlen_encode_blocks, zlen_cons, zlen_nil. unfold zlen. lia.
Qed.

Lemma Forall_encode_blocks bs : Forall is_u8 (encode_blocks bs).
Proof.
  induction bs; [constructor|]. rewrite encode_blocks_cons.
  apply Forall_app. split; [apply to_le_bytes_range|done].
Qed.

#[export] Instance INode_DiskFormatLaws : DiskFormatLaws INode.
Proof.
  refine {| disk_size := 69; disk_ok := inode_ok; encode := encode_inode; decode := decode_inode |}.
  - lia.
  - apply zlen_encode_inode.
  - intros x _. unfold encode_inode. rewrite !Forall_app.
    split_and!; [apply to_le_bytes_range|apply Forall_encode_blocks|]. by destruct in_is_directory; repeat constructor.
  - intros bs Hl Hb. unfold decode_inode.
    destruct (decode_blocks_ok 16 (drop 4 bs)) as [Hlen Hok];
      [unfold zlen in *; rewrite length_drop; lia|by apply Forall_drop|].
    constructor; cbn [in_size in_blocks]; [|done|done].
    apply (from_le_bytes_width 4); [unfold zlen in *; rewrite length_take; lia|by apply Forall_take].
  - apply decode_encode_inode.
  - intros x w Hok Hp Hr. simpl. rewrite INode_write_spec by done.
    unfold emit. by rewrite zlen_encode_inode.
  - intros r bs Hp Hh. simpl. pose proof (slice_length _ _ _ _ Hp Hh).
    apply INode_read_spec; [lia|]. split; [done|]. by replace (zlen bs) with 69 by lia.
Defined.

Lemma new_empty_inode_ok d : inode_ok (mkINode 0 (replicate 16 None) d).
Proof. constructor; [by vm_compute|done|by repeat constructor]. Qed.
