(* ===== verification/DirEntry.v ===== *)
(** * Directory entries ([src/filesystem/src/dir_entry.rs])

    A 24-byte name field and an inode index, its on-disk format, and the
    conversion between names and the field.  Strings are their UTF-8 bytes. *)
From S2P Require Import Prelude Bytes Layout.

(** ** [str::from_utf8]

    The validity test of the standard library, by the table of well-formed
    byte sequences of the Unicode standard. *)
Definition utf8_cont (b : Z) : bool := in_range 128 191 b.

(** The ranges of the second byte after a three- or four-byte lead. *)
Definition utf8_second3 (b0 b1 : Z) : bool :=
  ((b0 =? 224) && in_range 160 191 b1) ||
  (in_range 225 236 b0 && utf8_cont b1) ||
  ((b0 =? 237) && in_range 128 159 b1) ||
  (in_range 238 239 b0 && utf8_cont b1).
Definition utf8_second4 (b0 b1 : Z) : bool :=
  ((b0 =? 240) && in_range 144 191 b1) ||
  (in_range 241 243 b0 && utf8_cont b1) ||
  ((b0 =? 244) && in_range 128 143 b1).

Fixpoint utf8_valid (bs : list Z) : bool :=
  match bs with
  | [] => true
  | b0 :: t0 =>
      if b0 <? 128 then utf8_valid t0
      else match t0 with
           | [] => false
           | b1 :: t1 =>
               if in_range 194 223 b0 && utf8_cont b1 then utf8_valid t1
               else match t1 with
                    | [] => false
                    | b2 :: t2 =>
                        if utf8_second3 b0 b1 && utf8_cont b2 then utf8_valid t2
                        else match t2 with
                             | [] => false
                             | b3 :: t3 =>
                                 utf8_second4 b0 b1 && utf8_cont b2 && utf8_cont b3 && utf8_valid t3
                             end
                    end
           end
  end.

(** [str::from_utf8] and [String::from_utf8]. *)
Definition from_utf8 (bs : list Z) : option (list Z) :=
  if utf8_valid bs then Some bs else None.

(** ** The record *)
Record DirEntry := mkDirEntry { de_name_bytes : list Z; de_inode : INodeIndex }.

#[export] Instance DirEntry_eq_dec : EqDecision DirEntry.
Proof. solve_decision. Defined.

Definition DirEntry_new (name_string : list Z) (inode : INodeIndex) : DirEntry :=
  let len := Z.min (zlen name_string) 24 in
  mkDirEntry (splice (replicate 24 0) 0 (take (Z.to_nat len) name_string)) inode.

Definition DirEntry_name (e : DirEntry) : list Z :=
  let len := length (List.filter (fun b => negb (b =? 0)) (de_name_bytes e)) in
  match from_utf8 (take len (de_name_bytes e)) with
  | Some s => s
  | None => []
  end.

Definition DirEntry_write_to (e : DirEntry) (w : ByteWriter) : comp ByteWriter :=
  w ← write_bytes w (de_name_bytes e);
  write_u32 w (de_inode e).

Definition DirEntry_read_from (r : ByteReader) : comp (DirEntry * ByteReader) :=
  '(name, r) ← read_bytes r 24;
  '(inode, r) ← read_u32 r;
  Ret (mkDirEntry name inode, r).

#[export] Instance DirEntry_DiskFormat : DiskFormat DirEntry := {
  write_to := DirEntry_write_to;
  read_from := DirEntry_read_from;
}.

(** ** The invariant and the format *)
Record dir_entry_ok (e : DirEntry) : Prop := {
  de_ok_len : length (de_name_bytes e) = 24%nat;
  de_ok_bytes : Forall is_u8 (de_name_bytes e);
  de_ok_inode : is_u32 (de_inode e);
}.

Definition encode_dir_entry (e : DirEntry) : list Z := de_name_bytes e ++ to_le_bytes 4 (de_inode e).

Lemma zlen_encode_dir_entry e : dir_entry_ok e -> zlen (encode_dir_entry e) = 28.
Proof.
  intros [Hl _ _]. unfold encode_dir_entry. rewrite zlen_app, zlen_to_le_bytes. unfold zlen. lia.
Qed.

Lemma DirEntry_write_spec e w :
  dir_entry_ok e -> room w 28 -> DirEntry_write_to e w = Ret (emit w (encode_dir_entry e)).
Proof.
  intros [Hl Hb Hi] Hroom. unfold DirEntry_write_to, encode_dir_entry.
  assert (Hz : zlen (de_name_bytes e) = 24) by (unfold zlen; lia).
  rewrite write_bytes_emit by (rewrite Hz; eapply room_weaken; [|done]; lia). cbn [mbind comp_bind].
  rewrite write_u32_emit by (apply room_emit; [lia|]; by rewrite Hz).
  rewrite emit_emit; [done|]. by rewrite Hz, zlen_to_le_bytes.
Qed.

Definition decode_dir_entry (bs : list Z) : DirEntry :=
  mkDirEntry (take 24 bs) (from_le_bytes (take 4 (drop 24 bs))).

Lemma DirEntry_read_spec r bs :
  zlen bs = 28 -> holds r bs -> exists r', DirEntry_read_from r = Ret (decode_dir_entry bs, r').
Proof.
  intros Hl Hh. unfold DirEntry_read_from.
  destruct (read_bytes_raw r bs 24) as [-> Hh1]; [lia|done|]. cbn [mbind comp_bind].
  apply read_u32_raw in Hh1 as [-> _]; [|unfold zlen in *; rewrite length_drop; lia].
  simpl. eauto.
Qed.

Lemma decode_encode_dir_entry e : dir_entry_ok e -> decode_dir_entry (encode_dir_entry e) = e.
Proof.
  intros [Hl Hb Hi]. unfold decode_dir_entry, encode_dir_entry.
  rewrite take_app_length', drop_app_length' by done.
  rewrite take_ge by (by rewrite length_to_le_bytes). rewrite (from_to_le_bytes 4) by done. by destruct e.
Qed.

#[export] Instance DirEntry_DiskFormatLaws : DiskFormatLaws DirEntry.
Proof.
  refine {| disk_size := 28; disk_ok := dir_entry_ok; encode := encode_dir_entry;
            decode := decode_dir_entry |}.
  - lia.
  - apply zlen_encode_dir_entry.
  - intros x [_ ? _]. unfold encode_dir_entry. apply Forall_app. split; [done|apply to_le_bytes_range].
  - intros bs Hl Hb. unfold zlen in Hl. constructor; simpl.
    + rewrite length_take. lia.
    + by apply Forall_take.
    + apply (from_le_bytes_width 4); [unfold zlen; rewrite length_take, length_drop; lia|].
      by apply Forall_take, Forall_drop.
  - apply decode_encode_dir_entry.
  - intros x w Hok Hp Hr. simpl. rewrite DirEntry_write_spec by done.
    unfold emit. by rewrite zlen_encode_dir_entry.
  - intros r bs Hp Hh. simpl. pose proof (slice_length _ _ _ _ Hp Hh).
    apply DirEntry_read_spec; [lia|]. split; [done|]. by replace (zlen bs) with 28 by lia.
Defined.

(** ** Names *)

(** A name the directory format can represent: valid UTF-8, at most 24 bytes,
    no NUL byte. *)
Record name_ok (name : list Z) : Prop := {
  name_ok_utf8 : utf8_valid name = true;
  name_ok_len : zlen name <= 24;
  name_ok_nul : Forall (fun b => b <> 0) name;
  name_ok_bytes : Forall is_u8 name;
}.

Lemma DirEntry_new_field name inode :
  zlen name <= 24 ->
  de_name_bytes (DirEntry_new name inode) = name ++ replicate (24 - length name) 0.
Proof.
  intros Hl. unfold DirEntry_new. cbn [de_name_bytes]. rewrite Z.min_l by done.
  rewrite take_ge by (unfold zlen; lia). unfold splice.
  rewrite take_0, drop_replicate. done.
Qed.

Lemma DirEntry_new_ok name inode :
  zlen name <= 24 -> Forall is_u8 name -> is_u32 inode -> dir_entry_ok (DirEntry_new name inode).
Proof.
  intros Hl Hb Hi. constructor; [|rewrite DirEntry_new_field by done|done].
  - rewrite DirEntry_new_field by done. rewrite length_app, length_replicate. unfold zlen in *. lia.
  - apply Forall_app. split; [done|]. by apply Forall_replicate.
Qed.

Lemma filter_nonzero_name name n :
  Forall (fun b => b <> 0) name ->
  List.filter (fun b => negb (b =? 0)) (name ++ replicate n 0) = name.
Proof.
  induction 1 as [|b name Hb _ IH]; simpl.
  - induction n; simpl; done.
  - rewrite (proj2 (Z.eqb_neq _ _) Hb). simpl. by rewrite IH.
Qed.

Lemma DirEntry_name_new name inode :
  name_ok name -> DirEntry_name (DirEntry_new name inode) = name.
Proof.
  intros [Hu Hl Hn _]. unfold DirEntry_name. rewrite DirEntry_new_field by done.
  rewrite filter_nonzero_name by done. rewrite take_app_length. unfold from_utf8. by rewrite Hu.
Qed.
