(* ===== verification/BlockDev.v ===== *)
(** * Block devices

    The [BlockDevice] trait of [src/filesystem/src/filesystem.rs] as an
    interface with its laws, and the kernel's RAM disk
    ([src/src/ramdisk.rs]), which implements it. *)
From S2P Require Import Prelude Layout.

(** The trait.  A device is driven through whole blocks; the buffer a caller
    hands to [read_block] has [BLOCK_SIZE] bytes and is overwritten, so the model
    returns the block.  Reading leaves the contents as they are in every
    implementation of the repository. *)
Class BlockDevice (D : Type) := {
  read_block : D -> BlockIndex -> comp (list Z);
  write_block : D -> BlockIndex -> list Z -> comp D;
  total_blocks : D -> Z;
}.

(** A block: exactly [BLOCK_SIZE] bytes. *)
Definition block_ok (b : list Z) : Prop := length b = 512%nat /\ Forall is_u8 b.

(** What the filesystem relies on. *)
Class BlockDeviceLaws (D : Type) `{BlockDevice D} := {
  dev_ok : D -> Prop;
  dev_total_nonneg d : dev_ok d -> 0 <= total_blocks d;
  dev_read d i : dev_ok d -> 0 <= i < total_blocks d ->
    exists b, read_block d i = Ret b /\ block_ok b;
  dev_write d i b : dev_ok d -> 0 <= i < total_blocks d -> block_ok b ->
    exists d', write_block d i b = Ret d' /\ dev_ok d' /\ total_blocks d' = total_blocks d /\
      read_block d' i = Ret b /\
      forall j, j <> i -> 0 <= j < total_blocks d -> read_block d' j = read_block d j;
}.

(** ** Memory-backed disks

    A byte array divided into blocks.  Accesses are always whole blocks, so the
    array is kept as a map from block numbers to blocks in which absent blocks
    are zero. *)
Definition zero_block : list Z := replicate 512 0.

Lemma zero_block_ok : block_ok zero_block.
Proof. split; [done|]. by apply Forall_replicate. Qed.

Record Disk := mkDisk { disk_bytes : Z; disk_blocks : gmap Z (list Z) }.

Definition disk_get (d : Disk) (i : Z) : list Z := default zero_block (disk_blocks d !! i).

(** *** The RAM disk *)
Definition RAMDISK_SIZE : Z := 1024 * 1024.

Definition ramdisk_total_blocks : Z := RAMDISK_SIZE / BLOCK_SIZE.

Definition ramdisk_read_block (d : Disk) (idx : BlockIndex) (buf_len : Z) : comp (list Z) :=
  if negb (buf_len =? BLOCK_SIZE) then Panic
  else
    start ← idx *! BLOCK_SIZE;
    fin ← start +! BLOCK_SIZE;
    if disk_bytes d <? fin then Panic
    else Ret (disk_get d idx).

Definition ramdisk_write_block (d : Disk) (idx : BlockIndex) (data : list Z) : comp Disk :=
  if negb (zlen data =? BLOCK_SIZE) then Panic
  else
    start ← idx *! BLOCK_SIZE;
    fin ← start +! BLOCK_SIZE;
    if disk_bytes d <? fin then Panic
    else Ret (mkDisk (disk_bytes d) (<[idx := data]> (disk_blocks d))).

Definition ramdisk_reset (d : Disk) : Disk := mkDisk RAMDISK_SIZE ∅.

(** The initial contents of the static array. *)
Definition RAMDISK : Disk := mkDisk RAMDISK_SIZE ∅.

(** A disk of any size, as the filesystem's own test suite and image builder
    use; [RAMDISK] is the one of [RAMDISK_SIZE] bytes. *)
#[export] Instance Disk_BlockDevice : BlockDevice Disk := {
  read_block d i := ramdisk_read_block d i BLOCK_SIZE;
  write_block := ramdisk_write_block;
  total_blocks d := disk_bytes d / BLOCK_SIZE;
}.

Record Disk_ok (d : Disk) : Prop := {
  Disk_ok_size : is_usize (disk_bytes d);
  Disk_ok_aligned : disk_bytes d mod 512 = 0;
  Disk_ok_blocks i b : disk_blocks d !! i = Some b -> block_ok b;
}.

Lemma disk_range d i :
  Disk_ok d -> 0 <= i < disk_bytes d / BLOCK_SIZE ->
  mul_ovf 64 i BLOCK_SIZE = Ret (i * 512) /\ add_ovf 64 (i * 512) BLOCK_SIZE = Ret (i * 512 + 512) /\
  (disk_bytes d <? i * 512 + 512) = false.
Proof.
  intros [[? Hs] Ha _] Hi. unfold BLOCK_SIZE in *.
  pose proof (Z.div_mod (disk_bytes d) 512 ltac:(lia)).
  rewrite mul_ovf_ok, add_ovf_ok by (unfold max_of; lia). split_and!; [done..|]. apply Z.ltb_ge. lia.
Qed.

Lemma disk_read_ok d i :
  Disk_ok d -> 0 <= i < disk_bytes d / BLOCK_SIZE ->
  ramdisk_read_block d i BLOCK_SIZE = Ret (disk_get d i).
Proof.
  intros Hok Hi. destruct (disk_range d i Hok Hi) as (E1 & E2 & E3).
  unfold ramdisk_read_block. rewrite E1. cbn [mbind comp_bind negb]. rewrite E2. simpl. by rewrite E3.
Qed.

Lemma disk_get_ok d i : Disk_ok d -> block_ok (disk_get d i).
Proof.
  intros [_ _ Hb]. unfold disk_get. destruct (disk_blocks d !! i) eqn:E; simpl; [eauto|apply zero_block_ok].
Qed.

Lemma disk_write_ok d i b :
  Disk_ok d -> 0 <= i < disk_bytes d / BLOCK_SIZE -> block_ok b ->
  ramdisk_write_block d i b = Ret (mkDisk (disk_bytes d) (<[i := b]> (disk_blocks d))) /\
  Disk_ok (mkDisk (disk_bytes d) (<[i := b]> (disk_blocks d))).
Proof.
  intros Hok Hi [Hl Hb]. destruct (disk_range d i Hok Hi) as (E1 & E2 & E3). split.
  - unfold ramdisk_write_block, zlen. rewrite Hl. rewrite E1. cbn [mbind comp_bind negb].
    rewrite E2. simpl. by rewrite E3.
  - destruct Hok as [Hs Ha Hbs]. constructor; simpl; [done..|]. intros j c.
    rewrite lookup_insert. case_decide; [intros [= <-]; done|eauto].
Qed.

#[export] Instance Disk_BlockDeviceLaws : BlockDeviceLaws Disk.
Proof.
  refine {| dev_ok := Disk_ok |}; simpl.
  - intros d [[? _] _ _]. by apply Z.div_pos.
  - intros d i Hok Hi. exists (disk_get d i). split; [by apply disk_read_ok|by apply disk_get_ok].
  - intros d i b Hok Hi Hb. destruct (disk_write_ok d i b Hok Hi Hb) as [E Hok'].
    eexists. split; [exact E|]. split_and!; [done|done| |].
    + rewrite disk_read_ok by done. unfold disk_get; simpl. by rewrite lookup_insert_eq.
    + intros j Hne Hj. rewrite !disk_read_ok by done. unfold disk_get; simpl. by rewrite lookup_insert_ne.
Defined.

Lemma disk_empty_ok n : 0 <= n < 2 ^ 55 -> Disk_ok (mkDisk (n * 512) ∅).
Proof.
  intros. constructor; simpl; [unfold in_width; lia|apply Z_mod_mult|by intros].
Qed.

Lemma disk_total n m : total_blocks (mkDisk (n * 512) m) = n.
Proof. simpl. unfold BLOCK_SIZE. by rewrite Z.div_mul. Qed.
