(* ===== verification/INodeCache.v ===== *)
(** * The inode cache ([src/filesystem/src/inode_cache.rs])

    A write-back cache of inodes: [inodes] holds what has been read, [dirty] the
    indices handed out for mutation since the last drain.  The operations that
    hand out a reference return the inode; [cache_store] is the assignment
    through a mutable reference. *)
From S2P Require Import Prelude Bitmap Bytes Layout INode BlockDev.

Record INodeCache := mkCache {
  c_inodes : list (option INode);
  c_dirty : Bitmap;
  c_layout : option Layout;
}.

(** [Default]: what [mem::take] leaves behind. *)
Definition cache_default : INodeCache := mkCache [] (mkBitmap 0 []) None.

Definition cache_new (layout : Layout) (inode_count : Z) : INodeCache :=
  mkCache [] (bitmap_new inode_count) (Some layout).

(** [resize_with(index + 1, Default::default)] when the vector is too short. *)
Definition resize_for (inodes : list (option INode)) (i : INodeIndex) : list (option INode) :=
  if zlen inodes <=? i
  then inodes ++ replicate (Z.to_nat (i + 1) - length inodes) None
  else inodes.

(** The assignment [*inode = ...] through the reference [get_mut] returned. *)
Definition cache_store (c : INodeCache) (i : INodeIndex) (inode : INode) : INodeCache :=
  mkCache (<[Z.to_nat i := Some inode]> (c_inodes c)) (c_dirty c) (c_layout c).

Section Device.
Context {D : Type} `{BlockDevice D}.

Definition cache_read_from_disk (c : INodeCache) (i : INodeIndex) (device : D) : comp INode :=
  layout ← unwrap (c_layout c);
  '(block_index, byte_offset) ← inode_to_block layout i;
  buf ← read_block device block_index;
  '(inode, _) ← read_from (reader_at buf byte_offset);
  Ret inode.

(** The part [get] and [get_mut] share: make sure the inode is in the cache. *)
Definition cache_fetch (c : INodeCache) (i : INodeIndex) (device : D) : comp (INode * INodeCache) :=
  let c := mkCache (resize_for (c_inodes c) i) (c_dirty c) (c_layout c) in
  slot ← index (c_inodes c) i;
  match slot with
  | Some inode => Ret (inode, c)
  | None =>
      inode ← cache_read_from_disk c i device;
      Ret (inode, cache_store c i inode)
  end.

Definition cache_get (c : INodeCache) (i : INodeIndex) (device : D) : comp (INode * INodeCache) :=
  cache_fetch c i device.

Definition cache_get_mut (c : INodeCache) (i : INodeIndex) (device : D) : comp (INode * INodeCache) :=
  '(inode, c) ← cache_fetch c i device;
  dirty ← bitmap_set (c_dirty c) i;
  Ret (inode, mkCache (c_inodes c) dirty (c_layout c)).
End Device.

Definition cache_remove (c : INodeCache) (i : INodeIndex) : comp INodeCache :=
  index (c_inodes c) i ;;
  dirty ← bitmap_unset (c_dirty c) i;
  Ret (mkCache (<[Z.to_nat i := None]> (c_inodes c)) dirty (c_layout c)).

Definition register_new_inode (c : INodeCache) (i : INodeIndex) (inode : INode) : comp INodeCache :=
  let inodes := resize_for (c_inodes c) i in
  index inodes i ;;
  Ret (mkCache (<[Z.to_nat i := Some inode]> inodes) (c_dirty c) (c_layout c)).

Fixpoint drain_items (inodes : list (option INode)) (xs : list Z) : comp (list (INodeIndex * INode)) :=
  match xs with
  | [] => Ret []
  | x :: xs =>
      let idx := as_u32 x in
      slot ← index inodes idx;
      inode ← unwrap slot;
      rest ← drain_items inodes xs;
      Ret ((idx, inode) :: rest)
  end.

(** [drain] run to its end. *)
Definition cache_drain (c : INodeCache) : comp (list (INodeIndex * INode) * INodeCache) :=
  '(xs, dirty) ← drain_ones (c_dirty c);
  items ← drain_items (c_inodes c) xs;
  Ret (items, mkCache (c_inodes c) dirty (c_layout c)).
