(* ===== verification/SuperBlock.v ===== *)
(** * The superblock and filesystem errors ([src/filesystem/src/filesystem.rs])

    The error type, the versioned superblock with its on-disk format, its
    construction from a layout and its validation at mount time. *)
From S2P Require Import Prelude Bitmap Bytes Layout INode.

Inductive Error :=
| NotADirectory
| IsDirectory
| FileTooLarge
| NoSpaceLeft
| EntryExists
| EmptyName
| NameTooLong
| NotFound
| NotEmpty
| NoFreeInodeBlocks
| NoFreeInodes
| OperationNotSupported
| CorruptedRoot
| InvalidSuperblock
| DeviceTooSmall
| UnsupportedFilesystemVersion (v : Z).

#[export] Instance Error_eq_dec : EqDecision Error.
Proof. solve_decision. Defined.

Definition MAX_INODES : Z := 4096.
Definition MAGIC : Z := 0x4e4f4d454c.
Definition FILESYSTEM_VERSION : Z := 2.
Definition SUPERBLOCK_ENCODED_SIZE : Z := 8 + 12 * 4.

Record SuperBlock := mkSuperBlock {
  sb_magic : Z;
  sb_version : Z;
  sb_block_size : Z;
  sb_total_blocks : Z;
  sb_inode_count : Z;
  sb_inode_bitmap_start : Z;
  sb_inode_bitmap_blocks : Z;
  sb_data_bitmap_start : Z;
  sb_data_bitmap_blocks : Z;
  sb_inode_table_start : Z;
  sb_inode_table_blocks : Z;
  sb_data_start : Z;
  sb_data_blocks : Z;
}.

Definition SuperBlock_write_to (sb : SuperBlock) (w : ByteWriter) : comp ByteWriter :=
  w ← write_u64 w (sb_magic sb);
  w ← write_u32 w (sb_version sb);
  w ← write_u32 w (sb_block_size sb);
  w ← write_u32 w (sb_total_blocks sb);
  w ← write_u32 w (sb_inode_count sb);
  w ← write_u32 w (sb_inode_bitmap_start sb);
  w ← write_u32 w (sb_inode_bitmap_blocks sb);
  w ← write_u32 w (sb_data_bitmap_start sb);
  w ← write_u32 w (sb_data_bitmap_blocks sb);
  w ← write_u32 w (sb_inode_table_start sb);
  w ← write_u32 w (sb_inode_table_blocks sb);
  w ← write_u32 w (sb_data_start sb);
  write_u32 w (sb_data_blocks sb).

Definition SuperBlock_read_from (r : ByteReader) : comp (SuperBlock * ByteReader) :=
  '(magic, r) ← read_u64 r;
  '(version, r) ← read_u32 r;
  '(block_size, r) ← read_u32 r;
  '(total_blocks, r) ← read_u32 r;
  '(inode_count, r) ← read_u32 r;
  '(inode_bitmap_start, r) ← read_u32 r;
  '(inode_bitmap_blocks, r) ← read_u32 r;
  '(data_bitmap_start, r) ← read_u32 r;
  '(data_bitmap_blocks, r) ← read_u32 r;
  '(inode_table_start, r) ← read_u32 r;
  '(inode_table_blocks, r) ← read_u32 r;
  '(data_start, r) ← read_u32 r;
  '(data_blocks, r) ← read_u32 r;
  Ret (mkSuperBlock magic version block_size total_blocks inode_count inode_bitmap_start
         inode_bitmap_blocks data_bitmap_start data_bitmap_blocks inode_table_start
         inode_table_blocks data_start data_blocks, r).

#[export] Instance SuperBlock_DiskFormat : DiskFormat SuperBlock := {
  write_to := SuperBlock_write_to;
  read_from := SuperBlock_read_from;
}.

Definition from_layout (total_blocks inode_count : Z) (layout : Layout) : SuperBlock :=
  mkSuperBlock MAGIC FILESYSTEM_VERSION (as_u32 BLOCK_SIZE) (as_u32 total_blocks)
    (as_u32 inode_count)
    (as_u32 (inode_bitmap_start layout)) (as_u32 (inode_bitmap_blocks layout))
    (as_u32 (data_bitmap_start layout)) (as_u32 (data_bitmap_blocks layout))
    (as_u32 (inode_table_start layout)) (as_u32 (inode_table_blocks layout))
    (as_u32 (data_start layout)) (as_u32 (data_blocks layout)).

(** The [bitmap_capacity] closure of [validate]. *)
Definition bitmap_capacity (blocks : Z) : option Z :=
  bytes ← checked_mul blocks BLOCK_SIZE; checked_mul bytes 8.

(** [capacity.is_none_or(|capacity| capacity < needed)]. *)
Definition lacks_capacity (capacity : option Z) (needed : Z) : bool :=
  match capacity with None => true | Some c => c <? needed end.

Definition validate (sb : SuperBlock) (device_blocks : Z) : comp (result Error Layout) :=
  if negb (sb_magic sb =? MAGIC) then Ret (Err InvalidSuperblock)
  else if negb (sb_version sb =? FILESYSTEM_VERSION)
  then Ret (Err (UnsupportedFilesystemVersion (sb_version sb)))
  else if negb (sb_block_size sb =? BLOCK_SIZE) || negb (sb_total_blocks sb =? device_blocks)
  then Ret (Err InvalidSuperblock)
  else
    let inode_count := sb_inode_count sb in
    let layout := mkLayout
      (sb_inode_bitmap_start sb) (sb_inode_bitmap_blocks sb)
      (sb_data_bitmap_start sb) (sb_data_bitmap_blocks sb)
      (sb_inode_table_start sb) (sb_inode_table_blocks sb)
      (sb_data_start sb) (sb_data_blocks sb) in
    let? inode_bitmap_end :=
      Ret (ok_or (checked_add (inode_bitmap_start layout) (inode_bitmap_blocks layout)) InvalidSuperblock) in
    let? data_bitmap_end :=
      Ret (ok_or (checked_add (data_bitmap_start layout) (data_bitmap_blocks layout)) InvalidSuperblock) in
    let? inode_table_end :=
      Ret (ok_or (checked_add (inode_table_start layout) (inode_table_blocks layout)) InvalidSuperblock) in
    let? data_end :=
      Ret (ok_or (checked_add (data_start layout) (data_blocks layout)) InvalidSuperblock) in
    if negb (inode_bitmap_start layout =? 1)
       || negb (data_bitmap_start layout =? inode_bitmap_end)
       || negb (inode_table_start layout =? data_bitmap_end)
       || negb (data_start layout =? inode_table_end)
       || negb (data_end =? device_blocks)
    then Ret (Err InvalidSuperblock)
    else
      let? inode_table_capacity :=
        Ret (ok_or (checked_mul (inode_table_blocks layout) INODES_PER_BLOCK) InvalidSuperblock) in
      if (inode_count =? 0)
         || lacks_capacity (bitmap_capacity (inode_bitmap_blocks layout)) inode_count
         || lacks_capacity (bitmap_capacity (data_bitmap_blocks layout)) (data_blocks layout)
         || (inode_table_capacity <? inode_count)
      then Ret (Err InvalidSuperblock)
      else
        canonical ← layout_new device_blocks inode_count;
        match canonical with
        | None => Ret (Err InvalidSuperblock)
        | Some canonical =>
            if bool_decide (layout = canonical) then Ret (Ok layout)
            else Ret (Err InvalidSuperblock)
        end.

(** ** The on-disk format *)
#[export] Instance SuperBlock_eq_dec : EqDecision SuperBlock.
Proof. solve_decision. Defined.

(** The twelve 32-bit fields in disk order. *)
Definition sb_fields (sb : SuperBlock) : list Z :=
  [sb_version sb; sb_block_size sb; sb_total_blocks sb; sb_inode_count sb;
   sb_inode_bitmap_start sb; sb_inode_bitmap_blocks sb; sb_data_bitmap_start sb;
   sb_data_bitmap_blocks sb; sb_inode_table_start sb; sb_inode_table_blocks sb;
   sb_data_start sb; sb_data_blocks sb].

Record sb_ok (sb : SuperBlock) : Prop := {
  sb_ok_magic : is_usize (sb_magic sb);
  sb_ok_fields : Forall is_u32 (sb_fields sb);
}.

Definition encode_fields (vs : list Z) : list Z := concat (map (to_le_bytes 4) vs).
Definition encode_sb (sb : SuperBlock) : list Z :=
  to_le_bytes 8 (sb_magic sb) ++ encode_fields (sb_fields sb).

Lemma zlen_encode_fields vs : zlen (encode_fields vs) = 4 * zlen vs.
Proof.
  induction vs as [|v vs IH]; [done|].
  change (encode_fields (v :: vs)) with (to_le_bytes 4 v ++ encode_fields vs).
  rewrite zlen_app, zlen_to_le_bytes, zlen_cons, IH. lia.
Qed.

Lemma zlen_encode_sb sb : zlen (encode_sb sb) = 56.
Proof. unfold encode_sb. by rewrite zlen_app, zlen_to_le_bytes, zlen_encode_fields. Qed.

Lemma encode_sb_bytes sb : Forall is_u8 (encode_sb sb).
Proof.
  unfold encode_sb, encode_fields. apply Forall_app. split; [apply to_le_bytes_range|].
  apply Forall_concat, Forall_map, Forall_true. intros. apply to_le_bytes_range.
Qed.

Fixpoint write_fields (vs : list Z) (w : ByteWriter) : comp ByteWriter :=
  match vs with
  | [] => Ret w
  | v :: vs => w ← write_u32 w v; write_fields vs w
  end.

Lemma write_fields_emit vs w :
  room w (4 * zlen vs) -> write_fields vs w = Ret (emit w (encode_fields vs)).
Proof.
  revert w. induction vs as [|v vs IH]; intros w Hroom.
  - unfold emit, encode_fields, splice; simpl. destruct w as [bytes pos]; simpl.
    rewrite zlen_nil, Nat.add_0_r, take_drop, Z.add_0_r. done.
  - rewrite zlen_cons in Hroom. pose proof (zlen_nonneg vs). cbn [write_fields].
    rewrite write_u32_emit by (eapply room_weaken; [|done]; lia). cbn [mbind comp_bind].
    rewrite IH.
    + rewrite emit_emit; [done|]. rewrite zlen_encode_fields, zlen_to_le_bytes.
      eapply room_weaken; [|done]. lia.
    + apply room_emit; [lia|]. rewrite zlen_to_le_bytes. eapply room_weaken; [|done]. lia.
Qed.

Lemma SuperBlock_write_to_fields sb w :
  SuperBlock_write_to sb w = (w ← write_u64 w (sb_magic sb); write_fields (sb_fields sb) w).
Proof.
  unfold SuperBlock_write_to, sb_fields. cbn [write_fields].
  destruct (write_u64 _ _); [|done..]. cbn [mbind comp_bind].
  repeat (destruct (write_u32 _ _); cbn [mbind comp_bind]; [|done..]). done.
Qed.

Lemma SuperBlock_write_spec sb w :
  room w 56 -> SuperBlock_write_to sb w = Ret (emit w (encode_sb sb)).
Proof.
  intros Hroom. rewrite SuperBlock_write_to_fields.
  rewrite write_u64_emit by (eapply room_weaken; [|done]; lia). cbn [mbind comp_bind].
  rewrite write_fields_emit by (apply room_emit; [done|]; by rewrite zlen_to_le_bytes).
  rewrite emit_emit; [done|]. by rewrite zlen_to_le_bytes, zlen_encode_fields.
Qed.

(** The [i]-th 32-bit field of an encoded superblock. *)
Definition field_at (i : nat) (bs : list Z) : Z := from_le_bytes (take 4 (drop (8 + 4 * i) bs)).
Definition decode_sb (bs : list Z) : SuperBlock :=
  mkSuperBlock (from_le_bytes (take 8 bs)) (field_at 0 bs) (field_at 1 bs) (field_at 2 bs)
    (field_at 3 bs) (field_at 4 bs) (field_at 5 bs) (field_at 6 bs) (field_at 7 bs)
    (field_at 8 bs) (field_at 9 bs) (field_at 10 bs) (field_at 11 bs).

Lemma SuperBlock_read_spec r bs :
  zlen bs = 56 -> holds r bs -> exists r', SuperBlock_read_from r = Ret (decode_sb bs, r').
Proof.
  intros Hl Hh. unfold SuperBlock_read_from.
  destruct (read_u64_raw r bs) as [E Hh1]; [lia|done|]. rewrite E. clear E Hh. cbn [mbind comp_bind].
  do 12 (apply read_u32_raw in Hh1 as [E Hh1];
         [rewrite E; clear E; cbn [mbind comp_bind]; rewrite drop_drop in Hh1
         |unfold zlen in *; rewrite length_drop; lia]).
  eexists. unfold decode_sb, field_at. reflexivity.
Qed.

Lemma field_at_fields i pre vs :
  length pre = 8%nat -> (i < length vs)%nat -> Forall is_u32 vs ->
  vs !! i = Some (field_at i (pre ++ encode_fields vs)).
Proof.
  intros Hp Hi Hf. unfold field_at. rewrite <- drop_drop, drop_app_length' by done. clear Hp pre.
  revert i Hi. induction Hf as [|v vs Hv _ IH]; intros i Hi; [simpl in Hi; lia|].
  change (encode_fields (v :: vs)) with (to_le_bytes 4 v ++ encode_fields vs).
  destruct i as [|i]; simpl in Hi.
  - rewrite drop_0. destruct (take_drop_app_le 4 v (encode_fields vs) Hv) as [-> _]. done.
  - replace (4 * S i)%nat with (4 + 4 * i)%nat by lia. rewrite <- drop_drop.
    destruct (take_drop_app_le 4 v (encode_fields vs) Hv) as [_ ->]. simpl. apply IH. lia.
Qed.

Lemma decode_encode_sb sb : sb_ok sb -> decode_sb (encode_sb sb) = sb.
Proof.
  intros [Hm Hf]. unfold decode_sb, encode_sb.
  destruct (take_drop_app_le 8 (sb_magic sb) (encode_fields (sb_fields sb)) Hm) as [-> _].
  assert (Hfield : forall i v, sb_fields sb !! i = Some v ->
    field_at i (to_le_bytes 8 (sb_magic sb) ++ encode_fields (sb_fields sb)) = v).
  { intros i v Hv. apply lookup_lt_Some in Hv as Hi.
    rewrite (field_at_fields i (to_le_bytes 8 (sb_magic sb)) (sb_fields sb)) in Hv by
      (done || apply length_to_le_bytes). congruence. }
  destruct sb. cbn [sb_magic]. f_equal; by apply Hfield.
Qed.

#[export] Instance SuperBlock_DiskFormatLaws : DiskFormatLaws SuperBlock.
Proof.
  refine {| disk_size := 56; disk_ok := sb_ok; encode := encode_sb; decode := decode_sb |}.
  - lia.
  - intros x _. apply zlen_encode_sb.
  - intros x _. apply encode_sb_bytes.
  - intros bs Hl Hb. unfold zlen in Hl. constructor.
    + apply (from_le_bytes_width 8); [unfold zlen; rewrite length_take; lia|by apply Forall_take].
    + unfold sb_fields, decode_sb, field_at. cbn [sb_version sb_block_size sb_total_blocks
        sb_inode_count sb_inode_bitmap_start sb_inode_bitmap_blocks sb_data_bitmap_start
        sb_data_bitmap_blocks sb_inode_table_start sb_inode_table_blocks sb_data_start sb_data_blocks].
      repeat (apply Forall_cons; split;
        [apply (from_le_bytes_width 4);
         [unfold zlen; rewrite length_take, length_drop; lia|by apply Forall_take, Forall_drop]|]).
      constructor.
  - apply decode_encode_sb.
  - intros x w Hok Hp Hr. simpl. rewrite SuperBlock_write_spec by done.
    unfold emit. by rewrite zlen_encode_sb.
  - intros r bs Hp Hh. simpl. pose proof (slice_length _ _ _ _ Hp Hh).
    apply SuperBlock_read_spec; [lia|]. split; [done|]. by replace (zlen bs) with 56 by lia.
Defined.

(** ** Validation *)
Lemma as_u32_small x : is_u32 x -> as_u32 x = x.
Proof. intros [? ?]. by apply Z.mod_small. Qed.

(** On a device of [u32] size no field of a well-formed layout is truncated. *)
Lemma layout_wf_fields total n l :
  layout_wf total n l -> is_u32 total ->
  Forall is_u32 [inode_bitmap_start l; inode_bitmap_blocks l; data_bitmap_start l;
    data_bitmap_blocks l; inode_table_start l; inode_table_blocks l; data_start l; data_blocks l].
Proof.
  intros [] [? ?].
  pose proof (div_ceil_nonneg n BITS_PER_BLOCK ltac:(lia) ltac:(done)).
  pose proof (div_ceil_nonneg (data_blocks l) BITS_PER_BLOCK ltac:(lia) ltac:(done)).
  pose proof (div_ceil_nonneg n INODES_PER_BLOCK ltac:(lia) ltac:(done)).
  repeat (apply Forall_cons; split; [unfold in_width in *; lia|]). constructor.
Qed.

Lemma from_layout_exact total n l :
  layout_wf total n l -> is_u32 total -> is_u32 n ->
  from_layout total n l =
    mkSuperBlock MAGIC FILESYSTEM_VERSION BLOCK_SIZE total n
      (inode_bitmap_start l) (inode_bitmap_blocks l) (data_bitmap_start l) (data_bitmap_blocks l)
      (inode_table_start l) (inode_table_blocks l) (data_start l) (data_blocks l).
Proof.
  intros Hwf Ht Hn. pose proof (layout_wf_fields _ _ _ Hwf Ht) as Hf.
  repeat (apply Forall_cons in Hf as [? Hf]).
  unfold from_layout. by rewrite !as_u32_small by done.
Qed.

Lemma from_layout_ok total n l :
  layout_wf total n l -> is_u32 total -> is_u32 n -> sb_ok (from_layout total n l).
Proof.
  intros Hwf Ht Hn. rewrite (from_layout_exact total n l) by done.
  pose proof (layout_wf_fields _ _ _ Hwf Ht) as Hf.
  repeat (apply Forall_cons in Hf as [? Hf]).
  constructor; [by vm_compute|]. unfold sb_fields; simpl.
  repeat (apply Forall_cons; split; [done || by vm_compute|]). constructor.
Qed.

(** The checks of [validate] that precede the comparison with the canonical
    layout all pass on a well-formed layout. *)
Lemma bitmap_capacity_enough blocks n :
  0 <= blocks < 2 ^ 32 -> n <= 4096 * blocks -> lacks_capacity (bitmap_capacity blocks) n = false.
Proof.
  intros. unfold bitmap_capacity, checked_mul, BLOCK_SIZE, usize_max, max_of.
  rewrite (proj2 (Z.leb_le _ _)) by lia. simpl. rewrite (proj2 (Z.leb_le _ _)) by lia. simpl.
  apply Z.ltb_ge. lia.
Qed.

Lemma validate_from_layout total n l :
  is_u32 total -> is_u32 n -> 0 < n -> layout_new total n = Ret (Some l) ->
  validate (from_layout total n l) total = Ret (Ok l).
Proof.
  intros Ht Hn Hpos El. assert (Hwf : layout_wf total n l).
  { apply layout_new_inv; [unfold in_width in *; lia..|done]. }
  rewrite (from_layout_exact total n l) by done.
  pose proof (layout_wf_fields _ _ _ Hwf Ht) as Hf. repeat (apply Forall_cons in Hf as [? Hf]). clear Hf.
  unfold validate. cbn [sb_magic sb_version sb_block_size sb_total_blocks sb_inode_count
    sb_inode_bitmap_start sb_inode_bitmap_blocks sb_data_bitmap_start sb_data_bitmap_blocks
    sb_inode_table_start sb_inode_table_blocks sb_data_start sb_data_blocks
    inode_bitmap_start inode_bitmap_blocks data_bitmap_start data_bitmap_blocks
    inode_table_start inode_table_blocks data_start data_blocks].
  rewrite !Z.eqb_refl. cbn [negb orb].
  unfold checked_add, checked_mul, usize_max, max_of, in_width in *. rewrite INODES_PER_BLOCK_val.
  repeat (rewrite (proj2 (Z.leb_le _ (2 ^ 64 - 1))) by lia; cbn [ok_or mbind comp_bind]).
  destruct Hwf as [? ? ? ? ? Hib Hdb Hit ? ?].
  pose proof (div_ceil_bounds n BITS_PER_BLOCK ltac:(lia) ltac:(done)).
  pose proof (div_ceil_bounds (data_blocks l) BITS_PER_BLOCK ltac:(lia) ltac:(done)).
  pose proof (div_ceil_bounds n INODES_PER_BLOCK ltac:(lia) ltac:(done)).
  rewrite <- Hib, <- Hdb, <- Hit in *. change BITS_PER_BLOCK with 4096 in *. rewrite INODES_PER_BLOCK_val in *.
  repeat (rewrite (proj2 (Z.eqb_eq _ _)) by lia; cbn [negb orb]).
  rewrite !bitmap_capacity_enough by lia.
  rewrite (proj2 (Z.eqb_neq _ _)), (proj2 (Z.ltb_ge _ _)) by lia. cbn [negb orb].
  rewrite El. cbn [mbind comp_bind]. destruct l; simpl. by rewrite bool_decide_true.
Qed.

Lemma validate_inv sb total l :
  sb_ok sb -> is_u32 total -> validate sb total = Ret (Ok l) ->
  sb = from_layout total (sb_inode_count sb) l /\ 0 < sb_inode_count sb /\
  layout_new total (sb_inode_count sb) = Ret (Some l).
Proof.
  intros [_ Hf] Ht. unfold validate.
  destruct (sb_magic sb =? MAGIC) eqn:Em; [|done]. destruct (sb_version sb =? _) eqn:Ev; [|done].
  cbn [negb]. destruct (_ || _) eqn:Et; [done|].
  apply orb_false_iff in Et as [Eb Et]. apply negb_false_iff in Eb, Et.
  intros H. repeat (apply bind_ret_inv in H as ([] & _ & H); [|done]).
  destruct (_ || _) eqn:Eo in H; [done|]. clear Eo.
  apply bind_ret_inv in H as ([] & _ & H); [|done].
  destruct (_ || _) eqn:Ec in H; [done|]. rewrite !orb_false_iff in Ec. destruct Ec as [[[En _] _] _].
  apply bind_ret_inv in H as ([canonical|] & El & H); [|done].
  case_bool_decide as Heq; [|done]. injection H as <-.
  rewrite <- Heq in El. unfold sb_fields in Hf. repeat (apply Forall_cons in Hf as [? Hf]).
  assert (is_usize total /\ is_usize (sb_inode_count sb)) as [Ht' Hn'] by (unfold in_width in *; lia).
  pose proof (layout_new_inv _ _ _ Ht' Hn' El) as Hwf.
  rewrite (from_layout_exact _ _ _ Hwf) by done.
  cbn. destruct sb; simpl in *. unfold in_width in *. split_and!; [f_equal; lia|lia|done].
Qed.

(** ** Properties *)

(** C27: On a device of [u32] size, [SuperBlock::validate] accepts a superblock
    exactly when it is the one [flush] writes ([from_layout]) for a positive
    inode count and the canonical layout of that device and count, and then
    returns that layout: no other combination of region bounds mounts. *)
Theorem validate_accepts_exactly_canonical sb total l :
  sb_ok sb -> is_u32 total ->
  validate sb total = Ret (Ok l) <->
  sb = from_layout total (sb_inode_count sb) l /\ 0 < sb_inode_count sb /\
  layout_new total (sb_inode_count sb) = Ret (Some l).
Proof.
  intros Hsb Ht. split; [by apply validate_inv|]. intros (E & Hpos & El).
  assert (is_u32 (sb_inode_count sb)).
  { destruct Hsb as [_ Hf]. unfold sb_fields in Hf. by do 3 apply Forall_cons in Hf as [_ Hf]; apply Forall_cons in Hf as [? _]. }
  rewrite E. by apply validate_from_layout.
Qed.

Lemma validate_accepts_exactly_canonical_witness :
  exists l, validate (from_layout 2048 4096 l) 2048 = Ret (Ok l) /\
    layout_new 2048 4096 = Ret (Some l).
Proof.
  set (l0 := mkLayout 1 1 2 1 3 586 589 1459).
  assert (E : layout_new 2048 4096 = Ret (Some l0)) by (by vm_compute).
  exists l0. split; [|done].
  apply (validate_accepts_exactly_canonical (from_layout 2048 4096 l0) 2048 l0).
  - constructor; [by vm_compute|]. repeat constructor; by vm_compute.
  - by vm_compute.
  - split_and!; [by vm_compute|by vm_compute|exact E].
Defined.
