(* ===== verification/Filesystem.v ===== *)
(** * The filesystem ([src/filesystem/src/filesystem.rs])

    Every operation of [Filesystem<Dev>], from the block buffer up to
    formatting, mounting, creating, writing, reading, removing, listing and
    flushing.  An operation takes the filesystem and returns its result
    together with the filesystem it leaves, also when the result is an error:
    what the code changed before an early return stays changed.  Log output is
    modelled for mounting only, in [BootLog]. *)
From S2P Require Import Prelude Bitmap Bytes Layout INode DirEntry BlockDev INodeCache SuperBlock.

Definition DIR_ENTRY_SIZE : Z := size_of_DirEntry.
Definition SLASH : Z := 47.
Definition DOT : Z := 46.

(** ** Buffers *)
Definition Buffer_new : list Z := replicate 512 0.

Definition read_struct_at (T : Type) `{DiskFormat T} (buf : list Z) (offset : Z) : comp T :=
  '(x, _) ← read_from (reader_at buf offset); Ret x.

Definition write_struct_at {T : Type} `{DiskFormat T} (buf : list Z) (value : T) (offset : Z)
    : comp (list Z) :=
  w ← write_to value (writer_at buf offset); Ret (w_bytes w).

Definition clear_struct_at (size_of_T : Z) (buf : list Z) (offset : Z) : comp (list Z) :=
  copy_to_slice buf offset (offset + size_of_T) (replicate (Z.to_nat size_of_T) 0).

Definition clear_buffer (buf : list Z) : list Z := replicate (length buf) 0.

Inductive Entry := EFile | EDirectory.

Record ResolvedPath := mkResolved {
  rp_parent : INodeIndex;
  rp_basename : list Z;
  rp_basename_inode : INodeIndex;
}.

Record Filesystem (D : Type) := mkFs {
  block_device : D;
  inode_bitmap : Bitmap;
  data_bitmap : Bitmap;
  inode_cache : INodeCache;
  fs_layout : Layout;
}.
Arguments mkFs {D}.
Arguments block_device {D}.
Arguments inode_bitmap {D}.
Arguments data_bitmap {D}.
Arguments inode_cache {D}.
Arguments fs_layout {D}.

Section Fs.
Context {D : Type} `{BlockDevice D}.
Implicit Types (fs : Filesystem D) (dev : D).

Definition with_device fs dev := mkFs dev (inode_bitmap fs) (data_bitmap fs) (inode_cache fs) (fs_layout fs).
Definition with_inode_bitmap fs b := mkFs (block_device fs) b (data_bitmap fs) (inode_cache fs) (fs_layout fs).
Definition with_data_bitmap fs b := mkFs (block_device fs) (inode_bitmap fs) b (inode_cache fs) (fs_layout fs).
Definition with_cache fs c := mkFs (block_device fs) (inode_bitmap fs) (data_bitmap fs) c (fs_layout fs).

(** Assignment through the inode reference that [get_mut] handed out. *)
Definition store_inode fs (i : INodeIndex) (inode : INode) : Filesystem D :=
  with_cache fs (cache_store (inode_cache fs) i inode).

(** ** Block access *)
Definition modify_block {R : Type} (dev : D) (i : BlockIndex) (f : list Z -> comp (R * list Z))
    : comp (R * D) :=
  buf ← read_block dev i;
  '(result, buf) ← f buf;
  dev ← write_block dev i buf;
  Ret (result, dev).

(** *** Bitmaps on disk *)

(** [buf.chunks_exact(4).take(n)], each chunk decoded. *)
Fixpoint chunk_words (n : nat) (buf : list Z) : list Z :=
  match n with
  | O => []
  | S n =>
      if zlen buf <? 4 then []
      else from_le_bytes (take 4 buf) :: chunk_words n (drop 4 buf)
  end.

Fixpoint read_words (dev : D) (offsets : list nat) (start word_count : Z) (words : list Z)
    : comp (list Z) :=
  match offsets with
  | [] => Ret words
  | offset :: offsets =>
      i ← start +! Z.of_nat offset;
      buf ← read_block dev (as_u32 i);
      remaining_words ← word_count -! zlen words;
      read_words dev offsets start word_count
        (words ++ chunk_words (Z.to_nat remaining_words) buf)
  end.

Definition read_bitmap (dev : D) (start blocks logical_len : Z) : comp (result Error Bitmap) :=
  let word_count := div_ceil logical_len 32 in
  let? bytes_needed := Ret (ok_or (checked_mul word_count 4) InvalidSuperblock) in
  let? region_bytes := Ret (ok_or (checked_mul blocks BLOCK_SIZE) InvalidSuperblock) in
  if region_bytes <? bytes_needed then Ret (Err InvalidSuperblock)
  else
    let blocks_needed := div_ceil bytes_needed BLOCK_SIZE in
    words ← read_words dev (seq 0 (Z.to_nat blocks_needed)) start word_count [];
    Ret (match from_words logical_len words with
         | Ok b => Ok b
         | Err _ => Err InvalidSuperblock
         end).

(** One block of the bitmap: the words that fit, then zeros; and the words left. *)
Fixpoint fill_words (n : nat) (buf words : list Z) : list Z * list Z :=
  match n, words with
  | S n, word :: words =>
      let '(rest, left_) := fill_words n (drop 4 buf) words in
      (to_le_bytes 4 word ++ rest, left_)
  | _, _ => (buf, words)
  end.

Fixpoint write_bitmap_blocks (dev : D) (offsets : list nat) (start : Z) (words : list Z)
    : comp (list Z * D) :=
  match offsets with
  | [] => Ret (words, dev)
  | offset :: offsets =>
      let '(buf, words) := fill_words 128 (replicate 512 0) words in
      i ← start +! Z.of_nat offset;
      dev ← write_block dev (as_u32 i) buf;
      write_bitmap_blocks dev offsets start words
  end.

Definition write_bitmap (dev : D) (start blocks : Z) (bitmap : Bitmap) : comp D :=
  assert (zlen (as_words bitmap) * 4 <=? blocks * BLOCK_SIZE) ;;
  '(words, dev) ← write_bitmap_blocks dev (seq 0 (Z.to_nat blocks)) start (as_words bitmap);
  assert (zlen words =? 0) ;;
  Ret dev.

(** ** Superblock and inodes *)
Definition read_superblock (dev : D) : comp (result Error SuperBlock) :=
  if total_blocks dev =? 0 then Ret (Err InvalidSuperblock)
  else
    buf ← read_block dev 0;
    bytes ← slice buf 0 SUPERBLOCK_ENCODED_SIZE;
    '(sb, _) ← read_from (reader_new bytes);
    Ret (Ok sb).

Definition write_superblock fs (superblock : SuperBlock) : comp (Filesystem D) :=
  '(_, dev) ← modify_block (block_device fs) 0 (fun buf =>
    let buf := clear_buffer buf in
    head ← slice buf 0 SUPERBLOCK_ENCODED_SIZE;
    w ← write_to superblock (writer_new head);
    Ret (tt, splice buf 0 (w_bytes w)));
  Ret (with_device fs dev).

Definition validate_root_inode fs : comp (result Error unit) :=
  '(i, offset) ← inode_to_block (fs_layout fs) 0;
  buf ← read_block (block_device fs) i;
  root_node ← read_struct_at INode buf offset;
  if negb (in_is_directory root_node) then Ret (Err CorruptedRoot) else Ret (Ok tt).

Definition write_inode_to_disk fs (inode_index : INodeIndex) (inode : INode) : comp (Filesystem D) :=
  '(block_index, byte_offset) ← inode_to_block (fs_layout fs) inode_index;
  '(_, dev) ← modify_block (block_device fs) block_index (fun buf =>
    buf ← write_struct_at buf inode byte_offset; Ret (tt, buf));
  Ret (with_device fs dev).

Definition new_inode fs (inode : INode) : comp (option INodeIndex * Filesystem D) :=
  match (free ← find_free (inode_bitmap fs); try_u32 free) with
  | None => Ret (None, fs)
  | Some free =>
      bitmap ← bitmap_set (inode_bitmap fs) free;
      fs ← write_inode_to_disk (with_inode_bitmap fs bitmap) free inode;
      cache ← register_new_inode (inode_cache fs) free inode;
      Ret (Some free, with_cache fs cache)
  end.

Definition lookup_inode fs (i : INodeIndex) : comp (INode * Filesystem D) :=
  '(inode, cache) ← cache_get (inode_cache fs) i (block_device fs);
  Ret (inode, with_cache fs cache).

Definition lookup_inode_mut fs (i : INodeIndex) : comp (INode * Filesystem D) :=
  '(inode, cache) ← cache_get_mut (inode_cache fs) i (block_device fs);
  Ret (inode, with_cache fs cache).

(** ** Directories *)
Fixpoint read_entries (n : nat) (i : Z) (buf : list Z) : comp (list DirEntry) :=
  match n with
  | O => Ret []
  | S n =>
      let start := i * size_of_DirEntry in
      e ← read_struct_at DirEntry buf start;
      es ← read_entries n (i + 1) buf;
      Ret (e :: es)
  end.

Fixpoint read_dir_blocks (dev : D) (blocks : list BlockIndex) (max_items : Z) (res : list DirEntry)
    : comp (list DirEntry) :=
  match blocks with
  | [] => Ret res
  | block_index :: blocks =>
      buf ← read_block dev block_index;
      left_ ← max_items -! zlen res;
      let items_in_block := Z.min left_ DIR_ENTRY_PER_BLOCK in
      es ← read_entries (Z.to_nat items_in_block) 0 buf;
      let res := res ++ es in
      if zlen res =? max_items then Ret res
      else read_dir_blocks dev blocks max_items res
  end.

Definition read_dir_entry fs (inode_index : INodeIndex) : comp (list DirEntry * Filesystem D) :=
  '(inode, fs) ← lookup_inode fs inode_index;
  if (in_size inode =? 0) || negb (in_is_directory inode) then Ret ([], fs)
  else
    max_items ← current_dir_entries inode;
    res ← read_dir_blocks (block_device fs) (omap to_block (used_blocks inode)) max_items [];
    Ret (res, fs).

Definition byte_compare (s entry : list Z) : bool :=
  match entry with
  | b :: rest => if b =? SLASH then bool_decide (s = rest) else bool_decide (s = entry)
  | [] => bool_decide (s = entry)
  end.

Definition find_entry (name : list Z) (entries : list DirEntry) : option DirEntry :=
  List.find (fun e => byte_compare name (DirEntry_name e)) entries.

(** The walk [resolve_path] and [new_dir_entry] share: from directory [dir] down
    the path components [parts]. *)
Fixpoint walk fs (dir : INodeIndex) (parts : list (list Z)) : comp (result Error INodeIndex * Filesystem D) :=
  match parts with
  | [] => Ret (Ok dir, fs)
  | part :: parts =>
      '(dir_entries, fs) ← read_dir_entry fs dir;
      match find_entry part dir_entries with
      | None => Ret (Err NotFound, fs)
      | Some next =>
          '(inode, fs) ← lookup_inode fs (de_inode next);
          if negb (in_is_directory inode) then Ret (Err NotADirectory, fs)
          else walk fs (de_inode next) parts
      end
  end.

Definition path_parts (path : list Z) : list (list Z) :=
  List.filter (fun s => negb (bool_decide (s = []))) (split_on SLASH path).

Definition resolve_path fs (path : list Z) : comp (result Error ResolvedPath * Filesystem D) :=
  let '(path, basename) := default (path, path) (rsplit_once SLASH path) in
  let? (parent_dir, fs) := walk fs 0 (path_parts path) in
  '(dir_entries, fs) ← read_dir_entry fs parent_dir;
  match find_entry basename dir_entries with
  | None => Ret (Err NotFound, fs)
  | Some file => Ret (Ok (mkResolved parent_dir basename (de_inode file)), fs)
  end.

(** The [if block.is_empty() { ... }] that [write_dir_entry] and
    [append_to_file] share: slot [k] of [inode] gets the first free data block;
    the block to use, and the inode with it. *)
Definition ensure_block fs (inode_index : INodeIndex) (inode : INode) (k : Z) (block : DataBlockIndex)
    : comp (result Error (DataBlockIndex * INode) * Filesystem D) :=
  if dbi_is_empty block then
    match find_free (data_bitmap fs) with
    | None => Ret (Err NoSpaceLeft, fs)
    | Some free =>
        free_block_index ← data_block (fs_layout fs) free;
        bitmap ← bitmap_set (data_bitmap fs) free;
        let inode := set_block inode k free_block_index in
        Ret (Ok (free_block_index, inode),
             with_data_bitmap (store_inode fs inode_index inode) bitmap)
    end
  else Ret (Ok (block, inode), fs).

Definition write_dir_entry fs (entry : DirEntry) (inode_index : INodeIndex)
    : comp (result Error unit * Filesystem D) :=
  '(inode, fs) ← lookup_inode_mut fs inode_index;
  if negb (in_is_directory inode) then Ret (Err NotADirectory, fs)
  else
    let slot := write_slot inode in
    match ws_block slot with
    | None => Ret (Err NoFreeInodeBlocks, fs)
    | Some (k, block) =>
        let? (block_inode, fs) := ensure_block fs inode_index inode k block in
        let '(block, inode) := block_inode in
        block_index ← unwrap (to_block block);
        '(_, dev) ← modify_block (block_device fs) block_index (fun buf =>
          buf ← write_struct_at buf entry (ws_byte_offset slot); Ret (tt, buf));
        inode ← inode_advance inode DIR_ENTRY_SIZE;
        Ret (Ok tt, store_inode (with_device fs dev) inode_index inode)
    end.

(** [self.write_dir_entry(..).unwrap()]. *)
Definition write_dir_entry_unwrap fs (entry : DirEntry) (i : INodeIndex) : comp (Filesystem D) :=
  '(r, fs) ← write_dir_entry fs entry i;
  match r with Ok _ => Ret fs | Err _ => Panic end.

(** [parts.pop()]: the last component and the ones before it. *)
Definition pop_last {A} (l : list A) : option (A * list A) :=
  match rev l with [] => None | x :: r => Some (x, rev r) end.

Definition new_dir_entry fs (path : list Z) (entry_type : Entry)
    : comp (result Error INodeIndex * Filesystem D) :=
  match pop_last (path_parts path) with
  | None => Ret (Err EmptyName, fs)
  | Some (new_entry_name, parts) =>
      if 24 <? zlen new_entry_name then Ret (Err NameTooLong, fs)
      else
        let? (current, fs) := walk fs 0 parts in
        '(parent_inode, fs) ← lookup_inode fs current;
        if negb (has_space parent_inode) then Ret (Err NoFreeInodeBlocks, fs)
        else
          '(entries, fs) ← read_dir_entry fs current;
          if existsb (fun e => byte_compare new_entry_name (DirEntry_name e)) entries
          then Ret (Err EntryExists, fs)
          else
            let inode := match entry_type with
                         | EFile => new_empty_file
                         | EDirectory => new_empty_directory
                         end in
            '(idx, fs) ← new_inode fs inode;
            match idx with
            | None => Ret (Err NoFreeInodes, fs)
            | Some inode_index =>
                fs ← write_dir_entry_unwrap fs (DirEntry_new new_entry_name inode_index) current;
                match entry_type with
                | EFile => Ret (Ok inode_index, fs)
                | EDirectory =>
                    fs ← write_dir_entry_unwrap fs (DirEntry_new [DOT] inode_index) inode_index;
                    fs ← write_dir_entry_unwrap fs (DirEntry_new [DOT; DOT] current) inode_index;
                    Ret (Ok inode_index, fs)
                end
            end
  end.

Definition mkdir fs path := new_dir_entry fs path EDirectory.
Definition create_file fs path := new_dir_entry fs path EFile.

Definition create_empty_root fs : comp (Filesystem D) :=
  '(idx, fs) ← new_inode fs new_empty_directory;
  root_inode_index ← unwrap idx;
  fs ← write_dir_entry_unwrap fs (DirEntry_new [DOT] root_inode_index) root_inode_index;
  write_dir_entry_unwrap fs (DirEntry_new [DOT; DOT] root_inode_index) root_inode_index.

(** ** File contents *)

(** The [while] loop of [append_to_file]. *)
Fixpoint append_loop (fuel : nat) fs (i : INodeIndex) (inode : INode) (bytes : list Z)
    (total_bytes bytes_written : Z) : comp (result Error Z * Filesystem D) :=
  match fuel with
  | O => NoFuel
  | S fuel =>
      if total_bytes =? 0 then Ret (Ok bytes_written, fs)
      else
        let slot := write_slot inode in
        match ws_block slot with
        | None => Ret (Err FileTooLarge, fs)
        | Some (k, block) =>
            let? (block_inode, fs) := ensure_block fs i inode k block in
            let '(block, inode) := block_inode in
            let bytes_to_write := Z.min total_bytes (ws_capacity slot) in
            block_index ← unwrap (to_block block);
            '(_, dev) ← modify_block (block_device fs) block_index (fun buf =>
              let write_start := ws_byte_offset slot in
              write_end ← write_start +! bytes_to_write;
              let read_start := bytes_written in
              read_end ← read_start +! bytes_to_write;
              src ← slice bytes read_start read_end;
              buf ← copy_to_slice buf write_start write_end src;
              Ret (tt, buf));
            inode ← inode_advance inode bytes_to_write;
            let fs := store_inode (with_device fs dev) i inode in
            total_bytes ← total_bytes -! bytes_to_write;
            bytes_written ← bytes_written +! bytes_to_write;
            append_loop fuel fs i inode bytes total_bytes bytes_written
        end
  end.

(** Every round of the loop writes at least one byte, so [length bytes + 1]
    rounds are enough ([append_loop_run]). *)
Definition append_to_file fs (path bytes : list Z) : comp (result Error Z * Filesystem D) :=
  let? (resolved, fs) := resolve_path fs path in
  let i := rp_basename_inode resolved in
  '(inode, fs) ← lookup_inode_mut fs i;
  if in_is_directory inode then Ret (Err IsDirectory, fs)
  else
    len ← in_size inode +! zlen bytes;
    if 16 * BLOCK_SIZE <? len then Ret (Err FileTooLarge, fs)
    else append_loop (S (length bytes)) fs i inode bytes (zlen bytes) 0.

Definition write_to_file fs path bytes := append_to_file fs path bytes.

Fixpoint read_file_blocks dev (blocks : list DataBlockIndex) (total_bytes : Z) (string : list Z)
    : comp (list Z) :=
  match blocks with
  | [] => Ret string
  | b :: blocks =>
      block ← unwrap (to_block b);
      buf ← read_block dev block;
      let valid_bytes := Z.min total_bytes BLOCK_SIZE in
      total_bytes ← total_bytes -! valid_bytes;
      bytes ← slice buf 0 valid_bytes;
      s ← unwrap (from_utf8 bytes);
      read_file_blocks dev blocks total_bytes (string ++ s)
  end.

Definition read_file fs (path : list Z) : comp (result Error (list Z) * Filesystem D) :=
  let? (resolved, fs) := resolve_path fs path in
  '(inode, fs) ← lookup_inode_mut fs (rp_basename_inode resolved);
  if in_is_directory inode then Ret (Err IsDirectory, fs)
  else
    string ← read_file_blocks (block_device fs) (used_blocks inode) (in_size inode) [];
    Ret (Ok string, fs).

(** ** The directory iterator *)
Record DirEntryReader := mkDirReader {
  dr_inode : INode;
  dr_block_cursor : Z;
  dr_buf : list Z;
  dr_buf_pos : Z;
  dr_buf_len : Z;
  dr_total : Z;
  dr_remaining : Z;
}.

Record PositionDirEntry := mkPosition {
  pd_entry : DirEntry;
  pd_block_index : BlockIndex;
  pd_byte_offset : Z;
  pd_logical_index : Z;
}.

Definition DirEntryReader_new (inode : INode) : comp DirEntryReader :=
  total ← current_dir_entries inode;
  Ret (mkDirReader inode 0 Buffer_new 0 0 total total).

(** [load_next_block]; the sixteen slots of the inode bound its loop. *)
Fixpoint load_next_block (fuel : nat) dev (r : DirEntryReader) : comp (bool * DirEntryReader) :=
  match fuel with
  | O => NoFuel
  | S fuel =>
      if dr_block_cursor r <? INODE_BLOCKS then
        slot ← inode_block (dr_inode r) (dr_block_cursor r);
        let r := mkDirReader (dr_inode r) (dr_block_cursor r + 1) (dr_buf r) (dr_buf_pos r)
                   (dr_buf_len r) (dr_total r) (dr_remaining r) in
        match to_block slot with
        | Some block =>
            buf ← read_block dev block;
            Ret (true, mkDirReader (dr_inode r) (dr_block_cursor r) buf 0
                         (Z.min (dr_remaining r) DIR_ENTRY_PER_BLOCK) (dr_total r) (dr_remaining r))
        | None => load_next_block fuel dev r
        end
      else Ret (false, r)
  end.

Definition DirEntryReader_next dev (r : DirEntryReader)
    : comp (option PositionDirEntry * DirEntryReader) :=
  if dr_remaining r =? 0 then Ret (None, r)
  else
    '(loaded, r) ← (if dr_buf_len r <=? dr_buf_pos r then load_next_block 17 dev r
                    else Ret (true, r));
    if negb loaded then Ret (None, r)
    else
      let offset := dr_buf_pos r * size_of_DirEntry in
      entry ← read_struct_at DirEntry (dr_buf r) offset;
      remaining ← dr_remaining r -! 1;
      let r := mkDirReader (dr_inode r) (dr_block_cursor r) (dr_buf r) (dr_buf_pos r + 1)
                 (dr_buf_len r) (dr_total r) remaining in
      cursor ← dr_block_cursor r -! 1;
      slot ← inode_block (dr_inode r) cursor;
      match to_block slot with
      | None => Ret (None, r)
      | Some block_index =>
          l ← dr_total r -! dr_remaining r;
          logical_index ← l -! 1;
          Ret (Some (mkPosition entry block_index ((dr_buf_pos r - 1) * size_of_DirEntry)
                       logical_index), r)
      end.

(** [Iterator::find] on the reader. *)
Fixpoint dir_reader_find (fuel : nat) dev (p : PositionDirEntry -> bool) (r : DirEntryReader)
    : comp (option PositionDirEntry) :=
  match fuel with
  | O => NoFuel
  | S fuel =>
      '(item, r) ← DirEntryReader_next dev r;
      match item with
      | None => Ret None
      | Some e => if p e then Ret (Some e) else dir_reader_find fuel dev p r
      end
  end.

(** ** Removal *)

(** "Free the blocks of the deleted inode." *)
Fixpoint free_blocks fs (blocks : list DataBlockIndex) : comp (Filesystem D) :=
  match blocks with
  | [] => Ret fs
  | block :: blocks =>
      block_index ← unwrap (to_block block);
      '(_, dev) ← modify_block (block_device fs) block_index (fun buf => Ret (tt, clear_buffer buf));
      bit ← bitmap_index block (fs_layout fs);
      bitmap ← bitmap_unset (data_bitmap fs) bit;
      free_blocks (with_data_bitmap (with_device fs dev) bitmap) blocks
  end.

Definition remove_dir_entry fs (path : list Z) : comp (result Error unit * Filesystem D) :=
  let? (resolved, fs) := resolve_path fs path in
  let to_remove := rp_basename resolved in
  '(to_remove_inode, fs) ← lookup_inode fs (rp_basename_inode resolved);
  '(parent_inode, fs) ← lookup_inode fs (rp_parent resolved);
  if in_is_directory to_remove_inode then Ret (Err OperationNotSupported, fs)
  else
    num_parent_entries ← current_dir_entries parent_inode;
    reader ← DirEntryReader_new parent_inode;
    found ← dir_reader_find (Z.to_nat num_parent_entries + 1) (block_device fs)
      (fun e => bool_decide (DirEntry_name (pd_entry e) = to_remove)) reader;
    match found with
    | None => Ret (Err NotFound, fs)
    | Some found =>
        last_index ← num_parent_entries -! 1;
        let last_block_slot := last_index / DIR_ENTRY_PER_BLOCK in
        let last_block_offset := last_index mod DIR_ENTRY_PER_BLOCK * DIR_ENTRY_SIZE in
        last_block ← inode_block parent_inode last_block_slot;
        match to_block last_block with
        | None => Ret (Err NotFound, fs)
        | Some last_block_index =>
            '(last_entry, dev) ← modify_block (block_device fs) last_block_index (fun buf =>
              entry ← read_struct_at DirEntry buf last_block_offset;
              buf ← clear_struct_at size_of_DirEntry buf last_block_offset;
              Ret (entry, buf));
            dev ← (if negb (pd_logical_index found =? last_index) then
                     '(_, dev) ← modify_block dev (pd_block_index found) (fun buf =>
                       buf ← write_struct_at buf last_entry (pd_byte_offset found);
                       Ret (tt, buf));
                     Ret dev
                   else Ret dev);
            let fs := with_device fs dev in
            fs ← (if is_multiple_of last_index DIR_ENTRY_PER_BLOCK then
                    bit ← bitmap_index last_block (fs_layout fs);
                    bitmap ← bitmap_unset (data_bitmap fs) bit;
                    '(inode, fs) ← lookup_inode_mut (with_data_bitmap fs bitmap) (rp_parent resolved);
                    slot ← inode_block inode last_block_slot;
                    Ret (store_inode fs (rp_parent resolved)
                           (set_block inode last_block_slot (dbi_clear slot)))
                  else Ret fs);
            '(inode, fs) ← lookup_inode_mut fs (rp_parent resolved);
            inode ← inode_shrink inode size_of_DirEntry;
            let fs := store_inode fs (rp_parent resolved) inode in
            fs ← free_blocks fs (used_blocks to_remove_inode);
            bitmap ← bitmap_unset (inode_bitmap fs) (rp_basename_inode resolved);
            cache ← cache_remove (inode_cache fs) (rp_basename_inode resolved);
            Ret (Ok tt, with_cache (with_inode_bitmap fs bitmap) cache)
        end
    end.

(** ** Listings *)
Definition entry_display (inode : INode) (name : list Z) : list Z * list Z * list Z :=
  let type_char := if in_is_directory inode then str "d" else str "f" in
  let size_str := if in_is_directory inode then str "-" else show_z (in_size inode) in
  let display_name := if in_is_directory inode then name ++ str "/" else name in
  (type_char, size_str, display_name).

Definition NL : Z := 10.

Fixpoint dump_entries fs (entries : list DirEntry) (out : list Z) : comp (list Z * Filesystem D) :=
  match entries with
  | [] => Ret (out, fs)
  | entry :: entries =>
      let name := DirEntry_name entry in
      if bool_decide (name = []) then dump_entries fs entries out
      else
        '(entry_inode, fs) ← lookup_inode fs (de_inode entry);
        let '(type_char, size_str, display_name) := entry_display entry_inode name in
        dump_entries fs entries
          (out ++ str "  " ++ type_char ++ str "     [" ++ pad_left 3 (show_z (de_inode entry)) ++
           str "]  " ++ pad_left 9 size_str ++ str "  " ++ display_name ++ [NL])
  end.

Definition dump_dir fs (path out : list Z) : comp (result Error (list Z) * Filesystem D) :=
  let? (inode_index, fs) :=
    (if bool_decide (path = str "/") then Ret (Ok INodeIndex_root, fs)
     else
       let? (resolved, fs) := resolve_path fs path in
       Ret (Ok (rp_basename_inode resolved), fs)) in
  '(inode, fs) ← lookup_inode fs inode_index;
  if negb (in_is_directory inode) then Ret (Err NotADirectory, fs)
  else
    '(entries, fs) ← read_dir_entry fs inode_index;
    let out := out ++ str "  TYPE  INODE       SIZE  NAME" ++ [NL] ++
                      str "  ----  -----  ---------  ----" ++ [NL] in
    '(out, fs) ← dump_entries fs entries out;
    Ret (Ok out, fs).

(** The children [tree] descends into: names that do not start with a dot. *)
Definition visible (entries : list DirEntry) : list DirEntry :=
  List.filter (fun e => negb (starts_with (DirEntry_name e) [DOT])) entries.

(** [for (i, child) in children.iter().enumerate() { inner(.., i == count - 1, ..) }]. *)
Definition tree_children (inner : Filesystem D -> DirEntry -> bool -> list Z -> comp (list Z * Filesystem D))
  : Filesystem D -> list DirEntry -> list Z -> comp (list Z * Filesystem D) :=
  fix go fs children out :=
    match children with
    | [] => Ret (out, fs)
    | child :: rest =>
        '(out, fs) ← inner fs child (bool_decide (rest = [])) out;
        go fs rest out
    end.

(** [inner] of [tree]; the fuel bounds the depth of the directory tree. *)
Fixpoint tree_inner (fuel : nat) (prefix : list Z) fs (entry : DirEntry) (is_last : bool) (out : list Z)
    : comp (list Z * Filesystem D) :=
  match fuel with
  | O => NoFuel
  | S fuel =>
      let connector := if is_last then str "└── " else str "├── " in
      '(entry_inode, fs) ← lookup_inode fs (de_inode entry);
      let '(type_char, size_str, name) := entry_display entry_inode (DirEntry_name entry) in
      let out := out ++ prefix ++ connector ++ type_char ++ str "  " ++ pad_left 9 size_str ++
                 str "  " ++ name ++ [NL] in
      if in_is_directory entry_inode then
        let child_prefix := prefix ++ (if is_last then str " " else str "│") ++ str "   " in
        '(entries, fs) ← read_dir_entry fs (de_inode entry);
        tree_children (tree_inner fuel child_prefix) fs (visible entries) out
      else Ret (out, fs)
  end.

Definition tree (fuel : nat) fs (out : list Z) : comp (list Z * Filesystem D) :=
  let out := out ++ str "/" ++ [NL] in
  '(entries, fs) ← read_dir_entry fs 0;
  tree_children (tree_inner fuel []) fs (visible entries) out.

(** ** Flushing, formatting, mounting *)
Fixpoint write_inodes fs (items : list (INodeIndex * INode)) : comp (Filesystem D) :=
  match items with
  | [] => Ret fs
  | (idx, inode) :: items =>
      fs ← write_inode_to_disk fs idx inode;
      write_inodes fs items
  end.

Definition flush fs : comp (Filesystem D) :=
  let cache := inode_cache fs in
  let fs := with_cache fs cache_default in
  '(items, cache) ← cache_drain cache;
  fs ← write_inodes fs items;
  let fs := with_cache fs cache in
  let superblock := from_layout (total_blocks (block_device fs)) (bm_len (inode_bitmap fs)) (fs_layout fs) in
  fs ← write_superblock fs superblock;
  let layout := fs_layout fs in
  dev ← write_bitmap (block_device fs) (inode_bitmap_start layout) (inode_bitmap_blocks layout)
          (inode_bitmap fs);
  dev ← write_bitmap dev (data_bitmap_start layout) (data_bitmap_blocks layout) (data_bitmap fs);
  Ret (with_device fs dev).

(** [Filesystem::new]: mounting. *)
Definition Filesystem_new dev : comp (result Error (Filesystem D)) :=
  let? sb := read_superblock dev in
  let? layout := validate sb (total_blocks dev) in
  let inode_count := sb_inode_count sb in
  let? inode_bitmap := read_bitmap dev (inode_bitmap_start layout) (inode_bitmap_blocks layout) inode_count in
  let? data_bitmap := read_bitmap dev (data_bitmap_start layout) (data_bitmap_blocks layout) (data_blocks layout) in
  let fs := mkFs dev inode_bitmap data_bitmap (cache_new layout inode_count) layout in
  let? ok := validate_root_inode fs in
  Ret (Ok fs).

(** [Filesystem::format]; the device the caller passed in is returned with its
    new contents. *)
Definition format dev : comp (result Error unit * D) :=
  let total := total_blocks dev in
  match try_u32 total with
  | None => Ret (Err DeviceTooSmall, dev)
  | Some _ =>
      l ← layout_new total MAX_INODES;
      match l with
      | None => Ret (Err DeviceTooSmall, dev)
      | Some layout =>
          let fs := mkFs dev (bitmap_new MAX_INODES) (bitmap_new (data_blocks layout))
                      (cache_new layout MAX_INODES) layout in
          fs ← create_empty_root fs;
          fs ← flush fs;
          Ret (Ok tt, block_device fs)
      end
  end.
End Fs.
