(* ===== verification/FsBase.v ===== *)
(** * Blocks and what is stored in them

    Facts about [Filesystem.v] at the level of blocks: records inside a block,
    what a write does to the device ([dev_upd]), and the bitmaps on disk. *)
From S2P Require Import Prelude Bitmap Bytes Layout INode DirEntry BlockDev INodeCache SuperBlock Filesystem.

(** ** Records inside a block *)
Section Records.
Context {T : Type} `{DiskFormatLaws T}.

Definition struct_at (b : list Z) (off : Z) : T :=
  decode (take (Z.to_nat (disk_size T)) (drop (Z.to_nat off) b)).

Lemma read_struct_at_spec b off :
  zlen b = 512 -> 0 <= off -> off + disk_size T <= 512 ->
  read_struct_at T b off = Ret (struct_at b off).
Proof.
  intros Hb Ho Hle. unfold read_struct_at, reader_at. pose proof disk_size_pos.
  destruct (read_from_spec (mkReader b off) (take (Z.to_nat (disk_size T)) (drop (Z.to_nat off) b)))
    as [r' E]; simpl; [done| |].
  - rewrite slice_ok by lia. by replace (off + disk_size T - off) with (disk_size T) by lia.
  - rewrite E. done.
Qed.

Lemma struct_at_ok b off :
  block_ok b -> 0 <= off -> off + disk_size T <= 512 -> disk_ok (struct_at b off).
Proof.
  intros [Hl Hb] Ho Hle. pose proof disk_size_pos. apply decode_ok.
  - unfold zlen. rewrite length_take, length_drop. lia.
  - by apply Forall_take, Forall_drop.
Qed.

Lemma write_struct_at_spec b (x : T) off :
  zlen b = 512 -> disk_ok x -> 0 <= off -> off + disk_size T <= 512 ->
  write_struct_at b x off = Ret (splice b off (encode x)).
Proof.
  intros Hb Hx Ho Hle. unfold write_struct_at. rewrite write_to_spec; simpl; [done|done|lia..].
Qed.

Lemma splice_encode_ok b (x : T) off :
  block_ok b -> disk_ok x -> 0 <= off -> off + disk_size T <= 512 ->
  block_ok (splice b off (encode x)).
Proof.
  intros [Hl Hb] Hx Ho Hle. split.
  - rewrite length_splice; [done|lia|]. rewrite encode_length by done. unfold zlen. lia.
  - apply Forall_splice; [done|]. by apply encode_bytes.
Qed.

Lemma struct_at_splice_eq b (x : T) off :
  zlen b = 512 -> disk_ok x -> 0 <= off -> off + disk_size T <= 512 ->
  struct_at (splice b off (encode x)) off = x.
Proof.
  intros Hb Hx Ho Hle. pose proof disk_size_pos. unfold struct_at.
  pose proof (encode_length x Hx) as Hlen.
  pose proof (slice_splice_eq b off (encode x) (off + disk_size T)) as E.
  rewrite slice_ok in E by (rewrite ?zlen_splice; lia).
  replace (off + disk_size T - off) with (disk_size T) in E by lia.
  injection (E ltac:(lia) ltac:(lia) ltac:(lia)) as ->. by apply decode_encode.
Qed.
End Records.
Arguments struct_at T {_ _} b off : simpl never.

(** A write elsewhere in the block leaves a record alone. *)
Lemma struct_at_splice_ne (T : Type) `{DiskFormatLaws T} b off a v :
  zlen b = 512 -> 0 <= off -> off + disk_size T <= 512 ->
  0 <= a -> a + zlen v <= 512 -> off + disk_size T <= a \/ a + zlen v <= off ->
  struct_at T (splice b a v) off = struct_at T b off.
Proof.
  intros Hb Ho Hle Ha Hv Hd. pose proof (disk_size_pos (T := T)). unfold struct_at. f_equal.
  pose proof (slice_splice_ne b a v off (off + disk_size T)) as E.
  rewrite !slice_ok in E by (rewrite ?zlen_splice; lia).
  replace (off + disk_size T - off) with (disk_size T) in E by lia.
  injection (E ltac:(lia) ltac:(lia) ltac:(lia) ltac:(lia)) as ->. done.
Qed.

Lemma block_ok_zlen b : block_ok b -> zlen b = 512.
Proof. intros [Hl _]. unfold zlen. lia. Qed.
#[export] Hint Resolve block_ok_zlen : lemon.

Lemma clear_buffer_ok b : block_ok b -> block_ok (clear_buffer b).
Proof.
  intros [Hl _]. unfold clear_buffer. rewrite Hl. split; [done|]. by apply Forall_replicate.
Qed.

(** ** Devices *)
Section Device.
Context {D : Type} `{BlockDeviceLaws D}.
Implicit Types (dev : D) (fs : Filesystem D) (l : Layout).

(** Block [i] of a device. *)
Definition blk dev (i : Z) : list Z :=
  match read_block dev i with Ret b => b | _ => zero_block end.

Lemma read_blk dev i :
  dev_ok dev -> 0 <= i < total_blocks dev -> read_block dev i = Ret (blk dev i) /\ block_ok (blk dev i).
Proof.
  intros Hok Hi. destruct (dev_read dev i Hok Hi) as (b & E & Hb). unfold blk. by rewrite E.
Qed.

(** [dev'] is [dev] with the blocks of a set changed as [f] says. *)
Record dev_upd (dev dev' : D) (f : Z -> list Z) : Prop := {
  du_ok : dev_ok dev';
  du_total : total_blocks dev' = total_blocks dev;
  du_blk j : 0 <= j < total_blocks dev -> blk dev' j = f j;
}.

Definition put (i : Z) (b : list Z) (f : Z -> list Z) : Z -> list Z :=
  fun j => if j =? i then b else f j.

Lemma write_blk dev i b :
  dev_ok dev -> 0 <= i < total_blocks dev -> block_ok b ->
  exists dev', write_block dev i b = Ret dev' /\ dev_upd dev dev' (put i b (blk dev)).
Proof.
  intros Hok Hi Hb. destruct (dev_write dev i b Hok Hi Hb) as (dev' & E & Hok' & Ht & Hr & Hne).
  exists dev'. split; [done|]. constructor; [done..|]. intros j Hj. unfold put, blk.
  zcase; [subst; by rewrite Hr|by rewrite Hne].
Qed.

Lemma modify_blk {R} dev i (f : list Z -> comp (R * list Z)) r b :
  dev_ok dev -> 0 <= i < total_blocks dev -> f (blk dev i) = Ret (r, b) -> block_ok b ->
  exists dev', modify_block dev i f = Ret (r, dev') /\ dev_upd dev dev' (put i b (blk dev)).
Proof.
  intros Hok Hi Ef Hb. destruct (read_blk dev i Hok Hi) as [Er _].
  destruct (write_blk dev i b Hok Hi Hb) as (dev' & Ew & Hu).
  exists dev'. split; [|done]. unfold modify_block. rewrite Er. cbn [mbind comp_bind].
  rewrite Ef. cbn [mbind comp_bind]. rewrite Ew. done.
Qed.

Lemma dev_upd_refl dev : dev_ok dev -> dev_upd dev dev (blk dev).
Proof. by constructor. Qed.

Lemma dev_upd_trans d1 d2 d3 f g :
  dev_upd d1 d2 f -> dev_upd d2 d3 g -> dev_upd d1 d3 g.
Proof.
  intros [] []. constructor; [done|congruence|]. intros j Hj. apply du_blk1. lia.
Qed.

(** *** Bitmaps on disk *)
Definition bitmap_block (words : list Z) : list Z := fst (fill_words 128 (replicate 512 0) words).

Lemma fill_words_spec n words :
  snd (fill_words n (replicate (4 * n) 0) words) = drop n words /\
  length (fst (fill_words n (replicate (4 * n) 0) words)) = (4 * n)%nat /\
  Forall is_u8 (fst (fill_words n (replicate (4 * n) 0) words)).
Proof.
  revert words. induction n as [|n IH]; intros words; [by destruct words|].
  destruct words as [|w words].
  { cbn [fill_words fst snd]. rewrite length_replicate. split_and!; [done|lia|]. by apply Forall_replicate. }
  cbn [fill_words]. replace (4 * S n)%nat with (4 + 4 * n)%nat by lia. rewrite drop_replicate.
  replace (4 + 4 * n - 4)%nat with (4 * n)%nat by lia. specialize (IH words).
  destruct (fill_words n (replicate (4 * n) 0) words) as [rest left_]. cbn [fst snd] in *.
  destruct IH as (-> & Hl & Hb). rewrite length_app, length_to_le_bytes, Hl. split_and!; [done|lia|].
  apply Forall_app. split; [apply to_le_bytes_range|done].
Qed.

Lemma chunk_words_fill m n words :
  (m `min` n <= length words)%nat -> Forall is_u32 words ->
  chunk_words m (fst (fill_words n (replicate (4 * n) 0) words)) = take (m `min` n) words.
Proof.
  revert m words. induction n as [|n IH]; intros m words Hm Hw.
  { rewrite Nat.min_0_r, take_0. destruct m, words; done. }
  destruct m as [|m]; [done|]. destruct words as [|w words]; [simpl in Hm; lia|].
  apply Forall_cons in Hw as [Hw Hws]. specialize (IH m words ltac:(simpl in Hm; lia) Hws).
  cbn [fill_words]. replace (4 * S n)%nat with (4 + 4 * n)%nat by lia. rewrite drop_replicate.
  replace (4 + 4 * n - 4)%nat with (4 * n)%nat by lia.
  destruct (fill_words n (replicate (4 * n) 0) words) as [rest left_]. cbn [fst] in *.
  cbn [chunk_words]. rewrite zlen_app, zlen_to_le_bytes. pose proof (zlen_nonneg rest).
  rewrite (proj2 (Z.ltb_ge _ _)) by lia.
  destruct (take_drop_app_le 4 w rest Hw) as [-> ->]. by rewrite IH.
Qed.

Lemma bitmap_block_ok words : block_ok (bitmap_block words).
Proof.
  unfold bitmap_block. destruct (fill_words_spec 128 words) as (_ & Hl & Hb). by split.
Qed.

(** The blocks of a bitmap region once [words] has been written there from
    offset [o] on. *)
Definition bitmap_region (start o k : Z) (words : list Z) (f : Z -> list Z) : Z -> list Z :=
  fun j => if (start + o <=? j) && (j <? start + o + k)
           then bitmap_block (drop (128 * Z.to_nat (j - start - o)) words) else f j.

Lemma bitmap_region_in start o k words f j :
  start + o <= j < start + o + k ->
  bitmap_region start o k words f j = bitmap_block (drop (128 * Z.to_nat (j - start - o)) words).
Proof. intros. unfold bitmap_region. by rewrite (proj2 (Z.leb_le _ _)), (proj2 (Z.ltb_lt _ _)) by lia. Qed.

Lemma bitmap_region_out start o k words f j :
  j < start + o \/ start + o + k <= j -> bitmap_region start o k words f j = f j.
Proof. intros. unfold bitmap_region. destruct (_ && _) eqn:E; [lia|done]. Qed.

Lemma write_bitmap_blocks_spec k : forall o dev start words,
  dev_ok dev -> is_u32 (total_blocks dev) -> 0 <= start ->
  start + Z.of_nat (o + k) <= total_blocks dev ->
  exists dev', write_bitmap_blocks dev (seq o k) start words = Ret (drop (128 * k) words, dev') /\
    dev_upd dev dev' (bitmap_region start (Z.of_nat o) (Z.of_nat k) words (blk dev)).
Proof.
  induction k as [|k IH]; intros o dev start words Hok Ht Hs Hle.
  { exists dev. split; [done|]. constructor; [done..|]. intros j Hj. by rewrite bitmap_region_out by lia. }
  cbn [seq write_bitmap_blocks]. destruct (fill_words 128 (replicate 512 0) words) as [buf rest] eqn:Ef.
  assert (Hbuf : buf = bitmap_block words) by (unfold bitmap_block; by rewrite Ef).
  assert (Hrest : rest = drop 128 words).
  { destruct (fill_words_spec 128 words) as (E & _). change (4 * 128)%nat with 512%nat in E. by rewrite Ef in E. }
  unfold in_width in Ht. rewrite add_ovf_ok by (unfold max_of; lia). cbn [mbind comp_bind].
  rewrite as_u32_small by (unfold in_width; lia).
  destruct (write_blk dev (start + Z.of_nat o) buf) as (dev1 & E1 & [Hok1 Ht1 Hb1]);
    [done|lia|subst; apply bitmap_block_ok|].
  rewrite E1. cbn [mbind comp_bind].
  destruct (IH (S o) dev1 start rest) as (dev2 & E2 & [Hok2 Ht2 Hb2]); [done|by rewrite Ht1|done|lia|].
  exists dev2. rewrite E2. split; [subst rest; rewrite drop_drop; do 3 f_equal; lia|].
  constructor; [done|congruence|]. intros j Hj. rewrite Hb2 by lia.
  destruct (decide (start + Z.of_nat o < j < start + Z.of_nat o + Z.of_nat (S k))).
  { rewrite !bitmap_region_in by lia. subst rest. rewrite drop_drop. do 2 f_equal. lia. }
  rewrite (bitmap_region_out _ (Z.of_nat (S o))), Hb1 by lia. unfold put. zcase.
  - rewrite bitmap_region_in by lia. subst. rewrite <- (drop_0 words) at 1. do 2 f_equal. lia.
  - by rewrite bitmap_region_out by lia.
Qed.

Lemma read_words_spec k : forall o dev start words acc,
  dev_ok dev -> is_u32 (total_blocks dev) -> 0 <= start ->
  start + Z.of_nat (o + k) <= total_blocks dev -> Forall is_u32 words ->
  acc = take (128 * o) words -> zlen words <= 128 * Z.of_nat (o + k) ->
  128 * (Z.of_nat (o + k) - 1) < zlen words ->
  (forall j, start + Z.of_nat o <= j < start + Z.of_nat (o + k) ->
     blk dev j = bitmap_block (drop (128 * Z.to_nat (j - start)) words)) ->
  read_words dev (seq o k) start (zlen words) acc = Ret words.
Proof.
  induction k as [|k IH]; intros o dev start words acc Hok Ht Hs Hle Hw Hacc Hlen Hmin Hblk.
  { simpl. rewrite Hacc, take_ge; [done|unfold zlen in *; lia]. }
  cbn [seq read_words]. unfold in_width in Ht.
  rewrite add_ovf_ok by (unfold max_of; lia). cbn [mbind comp_bind].
  rewrite as_u32_small by (unfold in_width; lia).
  destruct (read_blk dev (start + Z.of_nat o)) as [-> _]; [done|lia|]. cbn [mbind comp_bind].
  assert (Hla : zlen acc = 128 * Z.of_nat o).
  { subst acc. unfold zlen in *. rewrite length_take. lia. }
  rewrite sub_ovf_ok by lia. cbn [mbind comp_bind].
  rewrite Hblk by lia. replace (Z.to_nat (start + Z.of_nat o - start)) with o by lia.
  unfold bitmap_block. change 512%nat with (4 * 128)%nat.
  rewrite chunk_words_fill; [|rewrite length_drop; unfold zlen in *; lia|by apply Forall_drop].
  apply IH; try done; try lia; [|intros; apply Hblk; lia].
  rewrite Hla, Hacc. replace (128 * S o)%nat with (128 * o + 128)%nat by lia.
  rewrite <- (take_take_drop words (128 * o) 128). f_equal.
  destruct (Z.le_gt_cases 128 (zlen words - 128 * Z.of_nat o)); unfold zlen in *.
  - f_equal. lia.
  - rewrite !take_ge; [done|rewrite length_drop; lia..].
Qed.

Lemma div_ceil_words m : 0 <= m -> div_ceil (div_ceil m 32 * 4) 512 = div_ceil m 4096.
Proof.
  intros. pose proof (div_ceil_bounds m 32 ltac:(lia) ltac:(lia)).
  pose proof (div_ceil_bounds m 4096 ltac:(lia) ltac:(lia)).
  apply div_ceil_unique; lia.
Qed.

(** Writing a bitmap changes exactly the blocks of its region. *)
Lemma write_bitmap_spec dev start blocks b :
  dev_ok dev -> is_u32 (total_blocks dev) -> 0 <= start -> bm_wf b -> bm_len b <= 4096 * blocks ->
  start + blocks <= total_blocks dev -> 0 <= blocks ->
  exists dev', write_bitmap dev start blocks b = Ret dev' /\
    dev_upd dev dev' (bitmap_region start 0 blocks (as_words b) (blk dev)).
Proof.
  intros Hok Ht Hs Hwf Hlen Hle Hbs. unfold write_bitmap.
  pose proof (bm_wf_len _ Hwf). pose proof (bm_wf_words _ Hwf) as Hw.
  pose proof (div_ceil_bounds (bm_len b) 32 ltac:(lia) ltac:(lia)).
  change BITS_PER_WORD with 32 in Hw. unfold as_words.
  rewrite (proj2 (Z.leb_le _ _)) by (rewrite Hw; unfold BLOCK_SIZE; lia). cbn [assert mbind comp_bind].
  destruct (write_bitmap_blocks_spec (Z.to_nat blocks) 0 dev start (bm_words b)) as (dev' & E & Hu);
    [done..|lia|].
  rewrite E. cbn [mbind comp_bind].
  rewrite drop_ge by (unfold zlen in *; lia). cbn. exists dev'. split; [done|].
  rewrite Z2Nat.id in Hu by done. exact Hu.
Qed.

Lemma read_bitmap_spec dev start blocks b :
  dev_ok dev -> is_u32 (total_blocks dev) -> 0 <= start -> bm_wf b ->
  blocks = div_ceil (bm_len b) 4096 -> start + blocks <= total_blocks dev ->
  (forall j, start <= j < start + blocks ->
     blk dev j = bitmap_block (drop (128 * Z.to_nat (j - start)) (as_words b))) ->
  read_bitmap dev start blocks (bm_len b) = Ret (Ok b).
Proof.
  intros Hok Ht Hs Hwf Hbs Hle Hblk. unfold in_width in Ht.
  pose proof (bm_wf_len _ Hwf). pose proof (bm_wf_words _ Hwf) as Hw. change BITS_PER_WORD with 32 in Hw.
  pose proof (div_ceil_bounds (bm_len b) 32 ltac:(lia) ltac:(lia)).
  pose proof (div_ceil_bounds (bm_len b) 4096 ltac:(lia) ltac:(lia)). rewrite <- Hbs in *.
  unfold read_bitmap, checked_mul, usize_max, max_of, BLOCK_SIZE.
  rewrite !(proj2 (Z.leb_le _ (2 ^ 64 - 1))) by lia. cbn [ok_or mbind comp_bind].
  rewrite (proj2 (Z.ltb_ge _ _)) by lia. rewrite div_ceil_words, <- Hbs, <- Hw by done.
  change (bm_words b) with (as_words b).
  rewrite read_words_spec; try done; try (unfold as_words in *; lia).
  - cbn [mbind comp_bind]. by rewrite from_words_as_words.
  - apply (bm_wf_range _ Hwf).
  - intros j Hj. apply Hblk. lia.
Qed.

Lemma dev_upd_ext d1 d2 f g :
  dev_upd d1 d2 f -> (forall j, 0 <= j < total_blocks d1 -> f j = g j) -> dev_upd d1 d2 g.
Proof. intros [] E. constructor; [done..|]. intros j Hj. rewrite <- E by done. auto. Qed.
End Device.
