(* ===== verification/FsState.v ===== *)
(** * The state of a mounted filesystem

    The structural invariant [fs_ok], the inode table seen through the cache
    ([fs_inode]), and [fs_equiv], which relates filesystems with the same
    logical content whatever is cached or already on disk.  Lookups, inode
    writes, [flush] and mounting are specified against them. *)
From S2P Require Import Prelude Bitmap Bytes Layout INode DirEntry BlockDev INodeCache SuperBlock Filesystem FsBase.

Abbreviation inode_count fs := (bm_len (inode_bitmap fs)).

Section State.
Context {D : Type} `{BlockDeviceLaws D}.
Implicit Types (dev : D) (fs : Filesystem D) (l : Layout) (c : INodeCache).

(** ** The inode table on disk *)
Definition inode_block_of l (i : Z) : Z := inode_table_start l + i / 7.
Definition inode_offset (i : Z) : Z := i mod 7 * 72.

Definition disk_inode dev l (i : Z) : INode := struct_at INode (blk dev (inode_block_of l i)) (inode_offset i).

(** Geometry of a device that carries a filesystem: a canonical layout for the
    device's size and a positive inode count, everything of [u32] range. *)
Record geometry (total n : Z) (l : Layout) : Prop := {
  geo_total : is_u32 total;
  geo_count : 0 < n < 2 ^ 32;
  geo_canonical : layout_new total n = Ret (Some l);
}.

Lemma geometry_wf total n l : geometry total n l -> layout_wf total n l.
Proof. intros [Ht Hn E]. apply layout_new_inv; [unfold in_width in *; lia..|done]. Qed.

Lemma inode_offset_range i : 0 <= inode_offset i /\ inode_offset i + disk_size INode <= 512.
Proof. unfold inode_offset. simpl. pose proof (Z.mod_pos_bound i 7 ltac:(lia)). lia. Qed.

Lemma geometry_inode total n l i :
  geometry total n l -> 0 <= i < n ->
  inode_to_block l i = Ret (inode_block_of l i, inode_offset i) /\
  inode_table_start l <= inode_block_of l i < data_start l /\ 0 < inode_table_start l /\
  data_start l < total.
Proof.
  intros Hg Hi. pose proof (geometry_wf _ _ _ Hg) as Hwf. destruct Hg as [[_ Ht] _ _].
  destruct (inode_to_block_spec total n l i Hwf) as (E & Hb & _); [unfold u32_max, max_of; lia|done|].
  destruct (layout_wf_bounds _ _ _ Hwf) as (? & _ & ? & _). done.
Qed.

Lemma disk_inode_ok dev l n i :
  dev_ok dev -> geometry (total_blocks dev) n l -> 0 <= i < n -> inode_ok (disk_inode dev l i).
Proof.
  intros Hok Hg Hi. destruct (geometry_inode _ _ _ i Hg Hi) as (_ & ? & ? & ?).
  destruct (inode_offset_range i).
  pose proof (struct_at_ok (T := INode) (blk dev (inode_block_of l i)) (inode_offset i)) as Hx.
  apply Hx; [|done..]. apply read_blk; [done|lia].
Qed.

(** ** The cache *)
Definition cached c (i : Z) : option INode :=
  match c_inodes c !! Z.to_nat i with Some (Some x) => Some x | _ => None end.

(** Cached inodes are well formed; one that is not dirty agrees with the disk;
    every dirty index is cached. *)
Record cache_ok dev l (n : Z) c : Prop := {
  co_layout : c_layout c = Some l;
  co_dirty_wf : bm_wf (c_dirty c);
  co_dirty_len : bm_len (c_dirty c) = n;
  co_len : zlen (c_inodes c) <= n;
  co_inode i x : 0 <= i -> cached c i = Some x -> inode_ok x;
  co_clean i x : 0 <= i -> cached c i = Some x -> bm_test (c_dirty c) i = false -> disk_inode dev l i = x;
  co_dirty i : 0 <= i -> bm_test (c_dirty c) i = true -> is_Some (cached c i);
}.

Record fs_ok fs : Prop := {
  fo_dev : dev_ok (block_device fs);
  fo_geo : geometry (total_blocks (block_device fs)) (bm_len (inode_bitmap fs)) (fs_layout fs);
  fo_ibm : bm_wf (inode_bitmap fs);
  fo_dbm : bm_wf (data_bitmap fs);
  fo_dlen : bm_len (data_bitmap fs) = data_blocks (fs_layout fs);
  fo_cache : cache_ok (block_device fs) (fs_layout fs) (bm_len (inode_bitmap fs)) (inode_cache fs);
}.

(** The inode the filesystem works with: the cached one, or the one on disk. *)
Definition fs_inode fs (i : Z) : INode :=
  match cached (inode_cache fs) i with
  | Some x => x
  | None => disk_inode (block_device fs) (fs_layout fs) i
  end.

(** Same logical content: bitmaps, inodes and data blocks. *)
Record fs_equiv fs1 fs2 : Prop := {
  fe_total : total_blocks (block_device fs1) = total_blocks (block_device fs2);
  fe_layout : fs_layout fs1 = fs_layout fs2;
  fe_ibm : inode_bitmap fs1 = inode_bitmap fs2;
  fe_dbm : data_bitmap fs1 = data_bitmap fs2;
  fe_inode i : 0 <= i < inode_count fs1 -> fs_inode fs1 i = fs_inode fs2 i;
  fe_data j : data_start (fs_layout fs1) <= j < total_blocks (block_device fs1) ->
    blk (block_device fs1) j = blk (block_device fs2) j;
}.

#[export] Instance fs_equiv_equivalence : Equivalence fs_equiv.
Proof.
  split.
  - by constructor.
  - intros x y []. constructor; try congruence.
    + intros. symmetry. apply fe_inode0. congruence.
    + intros. symmetry. apply fe_data0. by rewrite fe_layout0, fe_total0.
  - intros x y z [] []. constructor; try congruence.
    + intros. rewrite fe_inode0 by done. apply fe_inode1. congruence.
    + intros. rewrite fe_data0 by done. apply fe_data1. by rewrite <- fe_layout0, <- fe_total0.
Qed.

Lemma fs_inode_ok fs i : fs_ok fs -> 0 <= i < inode_count fs -> inode_ok (fs_inode fs i).
Proof.
  intros [] Hi. unfold fs_inode. destruct (cached _ _) eqn:E.
  - eapply co_inode; [done| |done]. lia.
  - by eapply disk_inode_ok.
Qed.

(** *** Looking an inode up *)
Lemma cached_resize c i j :
  cached (mkCache (resize_for (c_inodes c) i) (c_dirty c) (c_layout c)) j = cached c j.
Proof.
  unfold cached, resize_for; simpl. zcase; [|done].
  destruct (decide (Z.to_nat j < length (c_inodes c))%nat).
  - by rewrite lookup_app_l.
  - rewrite lookup_app_r, (lookup_ge_None_2 (c_inodes c)) by lia.
    destruct (_ !! _) eqn:E; [|done]. by apply lookup_replicate in E as [-> _].
Qed.

Lemma cached_insert inodes d lo i j x :
  0 <= i < zlen inodes -> 0 <= j ->
  cached (mkCache (<[Z.to_nat i := x]> inodes) d lo) j =
    if j =? i then x else cached (mkCache inodes d lo) j.
Proof.
  intros Hi Hj. unfold cached, zlen in *; simpl. zcase.
  - subst. rewrite list_lookup_insert_eq by lia. by destruct x.
  - rewrite list_lookup_insert_ne by lia. done.
Qed.

Lemma zlen_resize inodes i : 0 <= i -> zlen (resize_for inodes i) = Z.max (zlen inodes) (i + 1).
Proof. intros. unfold resize_for. zcase; rewrite ?zlen_app, ?zlen_replicate; unfold zlen in *; lia. Qed.

(** Fetching returns the current inode and leaves it in the cache. *)
Lemma cache_fetch_spec dev l n c i :
  dev_ok dev -> geometry (total_blocks dev) n l -> cache_ok dev l n c -> 0 <= i < n ->
  let x := match cached c i with Some x => x | None => disk_inode dev l i end in
  exists c', cache_fetch c i dev = Ret (x, c') /\ cache_ok dev l n c' /\ c_dirty c' = c_dirty c /\
    forall j, 0 <= j -> cached c' j = if j =? i then Some x else cached c j.
Proof.
  intros Hok Hg Hc Hi. cbv zeta. unfold cache_fetch.
  set (c1 := mkCache (resize_for (c_inodes c) i) (c_dirty c) (c_layout c)).
  assert (Hlen : zlen (c_inodes c1) = Z.max (zlen (c_inodes c)) (i + 1)) by (apply zlen_resize; lia).
  pose proof (co_len _ _ _ _ Hc).
  destruct (lookup_lt_is_Some_2 (c_inodes c1) (Z.to_nat i)) as [slot Hslot]; [unfold zlen in *; lia|].
  rewrite (index_ok _ _ _ Hslot). cbn [mbind comp_bind].
  assert (Hcs : cached c i = slot).
  { rewrite <- (cached_resize c i i). fold c1. unfold cached. rewrite Hslot. by destruct slot. }
  rewrite Hcs. destruct slot as [x|].
  - exists c1. split; [done|]. split_and!; [|done|].
    + destruct Hc. constructor; try done; try lia; intros j; unfold c1; rewrite ?cached_resize; eauto.
    + intros j Hj. unfold c1. rewrite cached_resize. zcase; [by subst|done].
  - unfold cache_read_from_disk. change (c_layout c1) with (c_layout c). rewrite (co_layout _ _ _ _ Hc).
    cbn [unwrap mbind comp_bind]. destruct (geometry_inode _ _ _ i Hg Hi) as (E & Hb1 & Hb2 & Hb3).
    rewrite E. cbn [mbind comp_bind]. destruct (read_blk dev (inode_block_of l i)) as [-> Hbk]; [done|lia|].
    cbn [mbind comp_bind]. destruct (inode_offset_range i) as [Ho Ho'].
    pose proof (read_struct_at_spec (T := INode) _ (inode_offset i) (block_ok_zlen _ Hbk) Ho Ho') as Er.
    unfold read_struct_at in Er. apply bind_ret_inv in Er as ([x r] & -> & [= ->]). cbn [mbind comp_bind].
    fold (disk_inode dev l i). eexists. split; [done|].
    assert (Hcached : forall j, 0 <= j ->
      cached (cache_store c1 i (disk_inode dev l i)) j =
        if j =? i then Some (disk_inode dev l i) else cached c j).
    { intros j Hj. unfold cache_store. rewrite cached_insert by lia. zcase; [done|].
      apply (cached_resize c i j). }
    split_and!; [|done|done].
    destruct Hc. constructor; try done.
    + unfold cache_store, zlen; cbn [c_inodes]. rewrite length_insert. unfold zlen in *. lia.
    + intros j x Hj. rewrite Hcached by done. zcase; [intros [= <-]|eauto].
      subst. by eapply disk_inode_ok.
    + intros j x Hj. rewrite Hcached by done. zcase; [intros [= <-]; by subst|eauto].
    + intros j Hj Hd. rewrite Hcached by done. zcase; [done|eauto].
Qed.

Lemma fs_equiv_cache fs c :
  (forall i, 0 <= i < inode_count fs -> fs_inode (with_cache fs c) i = fs_inode fs i) ->
  fs_equiv fs (with_cache fs c).
Proof. intros E. constructor; try done. intros i Hi. by rewrite E. Qed.

Lemma lookup_inode_spec fs i :
  fs_ok fs -> 0 <= i < inode_count fs ->
  exists fs', lookup_inode fs i = Ret (fs_inode fs i, fs') /\ fs_ok fs' /\ fs_equiv fs fs' /\
    block_device fs' = block_device fs.
Proof.
  intros Hfs Hi. pose proof Hfs as [].
  destruct (cache_fetch_spec _ _ _ _ i fo_dev0 fo_geo0 fo_cache0 Hi) as (c' & E & Hc' & Hd & Hj).
  exists (with_cache fs c'). unfold lookup_inode, cache_get. fold (fs_inode fs i) in E, Hj. rewrite E.
  split; [done|]. split_and!; [by constructor| |done].
  apply fs_equiv_cache. intros j Hj'. unfold fs_inode at 1; simpl. rewrite Hj by lia.
  zcase; [by subst|done].
Qed.

(** [i] has been handed out for mutation: it is cached and dirty. *)
Definition borrowed fs (i : Z) : Prop :=
  cached (inode_cache fs) i = Some (fs_inode fs i) /\ bm_test (c_dirty (inode_cache fs)) i = true.

Lemma lookup_inode_mut_spec fs i :
  fs_ok fs -> 0 <= i < inode_count fs ->
  exists fs', lookup_inode_mut fs i = Ret (fs_inode fs i, fs') /\ fs_ok fs' /\ fs_equiv fs fs' /\
    block_device fs' = block_device fs /\ borrowed fs' i.
Proof.
  intros Hfs Hi. pose proof Hfs as [].
  destruct (cache_fetch_spec _ _ _ _ i fo_dev0 fo_geo0 fo_cache0 Hi) as (c' & E & Hc' & Hd & Hj).
  fold (fs_inode fs i) in E, Hj.
  unfold lookup_inode_mut, cache_get_mut. rewrite E. cbn [mbind comp_bind].
  destruct (bitmap_set_spec (c_dirty c') i) as (d' & Ed & Hwf' & Hlen' & Ht');
    [by eapply co_dirty_wf|rewrite (co_dirty_len _ _ _ _ Hc'); done|].
  rewrite Ed. cbn [mbind comp_bind].
  set (c2 := mkCache (c_inodes c') d' (c_layout c')).
  assert (Hc2 : forall j, cached c2 j = cached c' j) by done.
  assert (Heq : forall j, 0 <= j -> fs_inode (with_cache fs c2) j = fs_inode fs j).
  { intros j Hj'. unfold fs_inode at 1; simpl. rewrite Hc2, Hj by lia. zcase; [by subst|done]. }
  exists (with_cache fs c2). split; [done|]. split_and!.
  - constructor; try done. simpl. destruct Hc'. constructor; try done; simpl.
    + congruence.
    + intros j x Hj' Hx Hf. rewrite Ht' in Hf by done. apply orb_false_iff in Hf as [_ Hf]. eauto.
    + intros j Hj'. rewrite Ht', Hc2 by done. zcase; [|eauto].
      subst. intros _. rewrite Hj, Z.eqb_refl by done. done.
  - apply fs_equiv_cache. intros j Hj'. apply Heq. lia.
  - done.
  - split; simpl; [rewrite Heq, Hc2, Hj, Z.eqb_refl by lia; done|]. rewrite Ht', Z.eqb_refl by lia. done.
Qed.

(** Assigning through a mutable reference changes that inode only. *)
Lemma store_inode_spec fs i x :
  fs_ok fs -> 0 <= i < inode_count fs -> borrowed fs i -> inode_ok x ->
  fs_ok (store_inode fs i x) /\ borrowed (store_inode fs i x) i /\
  forall j, 0 <= j -> fs_inode (store_inode fs i x) j = if j =? i then x else fs_inode fs j.
Proof.
  intros Hfs Hi [Hb Hd] Hx. pose proof Hfs as [].
  assert (Hlt : 0 <= i < zlen (c_inodes (inode_cache fs))).
  { unfold cached in Hb. destruct (c_inodes _ !! _) eqn:E; [|done].
    apply lookup_lt_Some in E. unfold zlen. lia. }
  assert (Hc : forall j, 0 <= j ->
    cached (cache_store (inode_cache fs) i x) j = if j =? i then Some x else cached (inode_cache fs) j).
  { intros j Hj. unfold cache_store. rewrite cached_insert by done. done. }
  assert (Hin : forall j, 0 <= j -> fs_inode (store_inode fs i x) j = if j =? i then x else fs_inode fs j).
  { intros j Hj. unfold fs_inode at 1. simpl. rewrite Hc by done. by zcase. }
  split_and!; [|split|done].
  - constructor; try done. simpl. destruct fo_cache0. constructor; try done; simpl.
    + unfold zlen in *. by rewrite length_insert.
    + intros j y Hj. rewrite Hc by done. zcase; [by intros [= <-]|eauto].
    + intros j y Hj. rewrite Hc by done. zcase; [subst; congruence|eauto].
    + intros j Hj Hdj. rewrite Hc by done. zcase; [done|eauto].
  - rewrite Hin, Z.eqb_refl by lia. simpl. by rewrite Hc, Z.eqb_refl by lia.
  - done.
Qed.

(** ** Writing the inode table *)

(** [dev'] is [dev] with its inode table changed to [g]. *)
Record table_upd dev dev' l (n : Z) (g : Z -> INode) : Prop := {
  tu_ok : dev_ok dev';
  tu_total : total_blocks dev' = total_blocks dev;
  tu_inode i : 0 <= i < n -> disk_inode dev' l i = g i;
  tu_rest j : 0 <= j < total_blocks dev -> j < inode_table_start l \/ data_start l <= j ->
    blk dev' j = blk dev j;
}.

Lemma write_inode_to_disk_spec fs n i x :
  dev_ok (block_device fs) -> geometry (total_blocks (block_device fs)) n (fs_layout fs) ->
  0 <= i < n -> inode_ok x ->
  exists dev', write_inode_to_disk fs i x = Ret (with_device fs dev') /\
    table_upd (block_device fs) dev' (fs_layout fs) n
      (fun j => if j =? i then x else disk_inode (block_device fs) (fs_layout fs) j).
Proof.
  intros Hok Hg Hi Hx. set (l := fs_layout fs) in *. set (dev := block_device fs) in *.
  destruct (geometry_inode _ _ _ i Hg Hi) as (E & Hb1 & Hb2 & Hb3).
  destruct (inode_offset_range i) as [Ho Ho'].
  destruct (read_blk dev (inode_block_of l i)) as [_ Hbk]; [done|lia|].
  pose proof (write_struct_at_spec (T := INode) _ x _ (block_ok_zlen _ Hbk) Hx Ho Ho') as Ew.
  pose proof (splice_encode_ok (T := INode) _ x _ Hbk Hx Ho Ho') as Hb'.
  destruct (modify_blk dev (inode_block_of l i)
    (fun buf => buf ← write_struct_at buf x (inode_offset i); Ret (tt, buf)) tt
    (splice (blk dev (inode_block_of l i)) (inode_offset i) (encode x)))
    as (dev' & Em & [Hok' Ht' Hblk]); [done|lia|by rewrite Ew|done|].
  exists dev'. unfold write_inode_to_disk. fold l dev. rewrite E. cbn [mbind comp_bind].
  rewrite Em. split; [done|]. constructor; [done..| |].
  - intros j Hj. destruct (geometry_inode _ _ _ j Hg Hj) as (_ & Hc1 & _ & _).
    destruct (inode_offset_range j) as [Hoj Hoj'].
    unfold disk_inode. rewrite Hblk by lia. unfold put.
    destruct (Z.eqb_spec j i) as [->|Hne]; [rewrite Z.eqb_refl; by apply (struct_at_splice_eq (T := INode)); [apply block_ok_zlen|..]|].
    destruct (Z.eqb_spec (inode_block_of l j) (inode_block_of l i)) as [Heq|]; [|done]. rewrite Heq.
    pose proof (encode_length (T := INode) x Hx) as Hlen.
    apply (struct_at_splice_ne INode); try done; [by apply block_ok_zlen|lia|].
    rewrite Hlen. unfold inode_block_of, inode_offset in *. simpl in *.
    pose proof (Z.div_mod i 7 ltac:(lia)). pose proof (Z.div_mod j 7 ltac:(lia)). lia.
  - intros j Hj Hout. rewrite Hblk by done. unfold put. zcase; [lia|done].
Qed.

Lemma write_inodes_spec items : forall fs n (g : Z -> INode),
  dev_ok (block_device fs) -> geometry (total_blocks (block_device fs)) n (fs_layout fs) ->
  Forall (fun p => 0 <= fst p < n /\ inode_ok (snd p) /\ snd p = g (fst p)) items ->
  exists dev', write_inodes fs items = Ret (with_device fs dev') /\
    table_upd (block_device fs) dev' (fs_layout fs) n
      (fun j => if decide (j ∈ items.*1) then g j else disk_inode (block_device fs) (fs_layout fs) j).
Proof.
  induction items as [|[i x] items IH]; intros fs n g Hok Hg Hf.
  { exists (block_device fs). split; [by destruct fs|]. constructor; [done..| |done].
    intros i Hi. rewrite decide_False; [done|]. apply not_elem_of_nil. }
  apply Forall_cons in Hf as [(Hi & Hx & Hxg) Hf]. simpl in Hi, Hx, Hxg. cbn [write_inodes].
  destruct (write_inode_to_disk_spec fs n i x) as (d1 & -> & [Hok1 Ht1 Hin1 Hr1]); [done..|].
  cbn [mbind comp_bind].
  destruct (IH (with_device fs d1) n g) as (d2 & -> & [Hok2 Ht2 Hin2 Hr2]); [done| |done|].
  { simpl. by rewrite Ht1. }
  simpl in *. exists d2. split; [done|]. constructor; [done|congruence| |].
  - intros j Hj. rewrite Hin2 by done. destruct (decide (j ∈ items.*1)) as [Hin|Hin].
    + rewrite decide_True; [done|]. by apply list_elem_of_further.
    + rewrite Hin1 by done. zcase.
      * rewrite decide_True; [by subst|]. subst. apply list_elem_of_here.
      * rewrite decide_False; [done|]. by rewrite not_elem_of_cons.
  - intros j Hj Hout. rewrite Hr2, Hr1 by (done || lia). done.
Qed.

Lemma drain_items_spec c xs g :
  Forall (fun x => is_u32 x /\ cached c x = Some (g x)) xs ->
  drain_items (c_inodes c) xs = Ret (map (fun x => (x, g x)) xs).
Proof.
  induction 1 as [|x xs [Hx Hg] _ IH]; [done|]. cbn [drain_items].
  rewrite as_u32_small by done. unfold cached in Hg.
  destruct (c_inodes c !! Z.to_nat x) as [[y|]|] eqn:E; [|done..].
  rewrite (index_ok _ _ _ E). cbn [mbind comp_bind unwrap]. rewrite IH. simpl. congruence.
Qed.

(** ** The superblock on disk *)
Lemma splice_all (l v : list Z) : length l = length v -> splice l 0 v = v.
Proof. intros E. unfold splice. simpl. rewrite drop_ge by lia. by rewrite app_nil_r. Qed.

Lemma write_superblock_spec fs sb :
  dev_ok (block_device fs) -> 0 < total_blocks (block_device fs) -> sb_ok sb ->
  exists dev' b, write_superblock fs sb = Ret (with_device fs dev') /\
    dev_upd (block_device fs) dev' (put 0 b (blk (block_device fs))) /\
    block_ok b /\ struct_at SuperBlock b 0 = sb.
Proof.
  intros Hok Ht Hsb. destruct (read_blk (block_device fs) 0) as [_ Hbk]; [done|lia|].
  pose proof (clear_buffer_ok _ Hbk) as Hc. pose proof (block_ok_zlen _ Hc) as Hcl.
  set (b := splice (clear_buffer (blk (block_device fs) 0)) 0 (encode sb)).
  assert (Hb : block_ok b) by (apply (splice_encode_ok (T := SuperBlock)); done).
  destruct (modify_blk (block_device fs) 0 (fun buf =>
    let buf := clear_buffer buf in
    head ← slice buf 0 SUPERBLOCK_ENCODED_SIZE;
    w ← write_to sb (writer_new head);
    Ret (tt, splice buf 0 (w_bytes w))) tt b) as (dev' & Em & Hu); [done|lia| |done|].
  - cbv zeta. rewrite slice_ok by (unfold SUPERBLOCK_ENCODED_SIZE; lia). cbn [mbind comp_bind].
    destruct Hc as [Hlen _].
    rewrite write_to_spec; [|done|done|].
    + cbn [mbind comp_bind w_bytes writer_new w_pos]. unfold b. do 3 f_equal.
      apply splice_all. pose proof (zlen_encode_sb sb) as El. unfold zlen in El.
      change (encode sb) with (encode_sb sb). rewrite length_take, length_drop, Hlen.
      unfold SUPERBLOCK_ENCODED_SIZE. lia.
    + simpl. unfold zlen. rewrite length_take, length_drop, Hlen. done.
  - exists dev', b. unfold write_superblock. cbv zeta in Em. rewrite Em. split_and!; [done..|].
    unfold b. by apply (struct_at_splice_eq (T := SuperBlock)).
Qed.

Lemma read_superblock_spec dev :
  dev_ok dev -> 0 < total_blocks dev ->
  read_superblock dev = Ret (Ok (struct_at SuperBlock (blk dev 0) 0)).
Proof.
  intros Hok Ht. unfold read_superblock. rewrite (proj2 (Z.eqb_neq _ _)) by lia.
  destruct (read_blk dev 0) as [-> Hbk]; [done|lia|]. cbn [mbind comp_bind].
  pose proof (block_ok_zlen _ Hbk) as Hl. destruct Hbk as [Hlen _].
  rewrite slice_ok by (unfold SUPERBLOCK_ENCODED_SIZE; lia). cbn [mbind comp_bind].
  set (bs := take _ (drop _ _)). assert (Hbs : zlen bs = 56).
  { unfold bs, zlen. rewrite length_take, length_drop, Hlen. done. }
  destruct (read_from_spec (T := SuperBlock) (reader_new bs) bs) as [r' E]; [done| |].
  - simpl. rewrite slice_ok by lia. simpl. f_equal. apply take_ge. unfold zlen in Hbs. lia.
  - rewrite E. done.
Qed.

(** ** Flushing and mounting *)

(** Everything the filesystem knows is on its device. *)
Record flushed fs : Prop := {
  fl_super : struct_at SuperBlock (blk (block_device fs) 0) 0 =
    from_layout (total_blocks (block_device fs)) (inode_count fs) (fs_layout fs);
  fl_ibm j : inode_bitmap_start (fs_layout fs) <= j < inode_bitmap_start (fs_layout fs) + inode_bitmap_blocks (fs_layout fs) ->
    blk (block_device fs) j =
      bitmap_block (drop (128 * Z.to_nat (j - inode_bitmap_start (fs_layout fs))) (as_words (inode_bitmap fs)));
  fl_dbm j : data_bitmap_start (fs_layout fs) <= j < data_bitmap_start (fs_layout fs) + data_bitmap_blocks (fs_layout fs) ->
    blk (block_device fs) j =
      bitmap_block (drop (128 * Z.to_nat (j - data_bitmap_start (fs_layout fs))) (as_words (data_bitmap fs)));
  fl_inode i : 0 <= i < inode_count fs ->
    disk_inode (block_device fs) (fs_layout fs) i = fs_inode fs i;
}.

(** The regions in order. *)
Lemma geometry_regions total n l :
  geometry total n l ->
  inode_bitmap_start l = 1 /\ 0 <= inode_bitmap_blocks l /\
  data_bitmap_start l = 1 + inode_bitmap_blocks l /\ 0 <= data_bitmap_blocks l /\
  inode_table_start l = data_bitmap_start l + data_bitmap_blocks l /\
  inode_table_start l <= data_start l /\ data_start l + data_blocks l = total /\ 0 < data_blocks l /\
  inode_bitmap_blocks l = div_ceil n 4096 /\ data_bitmap_blocks l = div_ceil (data_blocks l) 4096 /\
  n <= 4096 * inode_bitmap_blocks l /\ data_blocks l <= 4096 * data_bitmap_blocks l.
Proof.
  intros Hg. pose proof (geometry_wf _ _ _ Hg) as []. change BITS_PER_BLOCK with 4096 in *.
  pose proof (div_ceil_nonneg n 4096 ltac:(lia) ltac:(done)).
  pose proof (div_ceil_nonneg (data_blocks l) 4096 ltac:(lia) ltac:(done)).
  pose proof (div_ceil_nonneg n INODES_PER_BLOCK ltac:(lia) ltac:(done)).
  pose proof (div_ceil_bounds n 4096 ltac:(lia) ltac:(lia)).
  pose proof (div_ceil_bounds (data_blocks l) 4096 ltac:(lia) ltac:(lia)).
  lia.
Qed.

(** The cache part of [flush]: every dirty inode reaches the table. *)
Lemma flush_inodes_spec fs :
  fs_ok fs ->
  exists items cache dev', cache_drain (inode_cache fs) = Ret (items, cache) /\
    write_inodes (with_cache fs cache_default) items =
      Ret (with_cache (with_device fs dev') cache_default) /\
    table_upd (block_device fs) dev' (fs_layout fs) (inode_count fs) (fs_inode fs) /\
    cache_ok dev' (fs_layout fs) (inode_count fs) cache /\
    (forall i, cached cache i = cached (inode_cache fs) i).
Proof.
  intros Hfs. pose proof Hfs as []. pose proof fo_cache0 as [].
  destruct (drain_ones_run _ co_dirty_wf0) as (xs & d' & Ed & Hwf' & Hl' & _ & Hxs & Hclear).
  assert (Hf : Forall (fun x => is_u32 x /\ cached (inode_cache fs) x = Some (fs_inode fs x)) xs).
  { apply Forall_forall. intros x [Hx Ht]%Hxs. pose proof (bm_test_lt _ _ co_dirty_wf0 Hx Ht).
    destruct (geo_count _ _ _ fo_geo0). split; [unfold in_width; lia|].
    destruct (co_dirty0 x Hx Ht) as [y Hy]. unfold fs_inode. by rewrite Hy. }
  destruct (write_inodes_spec (map (fun x => (x, fs_inode fs x)) xs) (with_cache fs cache_default)
    (inode_count fs) (fs_inode fs)) as (dev' & Ew & Hu); [done..| |].
  { apply Forall_map, Forall_forall. intros x Hin. apply Hxs in Hin as [Hx Ht]. simpl.
    pose proof (bm_test_lt _ _ co_dirty_wf0 Hx Ht). split_and!; [lia|lia| |done].
    apply fs_inode_ok; [done|lia]. }
  assert (Hu' : table_upd (block_device fs) dev' (fs_layout fs) (inode_count fs) (fs_inode fs)).
  { destruct Hu as [Hok Ht Hin Hr]. constructor; try done. intros i Hi. rewrite Hin by done.
    simpl. case_decide as Hdec; [done|]. unfold fs_inode. destruct (cached _ i) as [y|] eqn:Ec; [|done].
    apply co_clean0; [lia|done|]. apply not_true_is_false. intros Ht'. apply Hdec.
    rewrite map_map. simpl. rewrite map_id. apply Hxs. split; [lia|done]. }
  eexists _, (mkCache (c_inodes (inode_cache fs)) d' (c_layout (inode_cache fs))), dev'. split.
  { unfold cache_drain. rewrite Ed. cbn [mbind comp_bind].
    rewrite (drain_items_spec _ _ (fs_inode fs)) by done. done. }
  split; [exact Ew|]. split_and!; [done| |done].
  destruct Hu' as [_ _ Hin _]. constructor; simpl; try done; try congruence.
  intros i x Hi Hx _. change (cached (inode_cache fs) i = Some x) in Hx.
  assert (i < inode_count fs).
  { unfold cached in Hx. destruct (c_inodes _ !! _) eqn:E; [|done].
    apply lookup_lt_Some in E. unfold zlen in *. lia. }
  rewrite Hin by lia. unfold fs_inode. by rewrite Hx.
Qed.

(** Blocks [start..start+blocks) hold the words of [b]. *)
Definition holds_bitmap dev (start blocks : Z) (b : Bitmap) : Prop :=
  forall j, start <= j < start + blocks ->
    blk dev j = bitmap_block (drop (128 * Z.to_nat (j - start)) (as_words b)).

Lemma bitmap_region_holds dev dev' start blocks b :
  dev_upd dev dev' (bitmap_region start 0 blocks (as_words b) (blk dev)) ->
  0 <= start -> start + blocks <= total_blocks dev -> holds_bitmap dev' start blocks b.
Proof.
  intros [_ _ Hb] Hs Hle j Hj. rewrite Hb, bitmap_region_in by lia. do 2 f_equal. lia.
Qed.

Lemma flush_spec fs :
  fs_ok fs ->
  exists fs', flush fs = Ret fs' /\ fs_ok fs' /\ fs_equiv fs fs' /\ flushed fs'.
Proof.
  intros Hfs. pose proof Hfs as [].
  destruct (geometry_regions _ _ _ fo_geo0) as (R1 & R2 & R3 & R4 & R5 & R6 & R7 & R8 & R9 & R10 & R11 & R12).
  destruct (flush_inodes_spec fs Hfs) as (items & cache & d1 & Ed & Ew & [Hok1 Ht1 Hin1 Hr1] & Hc1 & Hcd).
  set (l := fs_layout fs) in *. set (n := inode_count fs) in *.
  pose proof (geo_total _ _ _ fo_geo0) as Htot.
  pose proof (geo_count _ _ _ fo_geo0) as Hn.
  destruct (write_superblock_spec (with_cache (with_device fs d1) cache) (from_layout (total_blocks d1) n l))
    as (d2 & b & Es & [Hok2 Ht2 Hb2] & Hbok & Hsb); [done|simpl; lia| |].
  { rewrite Ht1. apply from_layout_ok; [by apply geometry_wf|done|unfold in_width; lia]. }
  simpl in Ht2, Hb2.
  destruct (write_bitmap_spec d2 (inode_bitmap_start l) (inode_bitmap_blocks l) (inode_bitmap fs))
    as (d3 & E3 & Hu3); [done|by rewrite Ht2, Ht1|lia|done|fold n; lia|rewrite Ht2, Ht1; lia|done|].
  pose proof (bitmap_region_holds _ _ _ _ _ Hu3 ltac:(lia) ltac:(rewrite Ht2, Ht1; lia)) as Hib3.
  destruct Hu3 as [Hok3 Ht3 Hb3].
  destruct (write_bitmap_spec d3 (data_bitmap_start l) (data_bitmap_blocks l) (data_bitmap fs))
    as (d4 & E4 & Hu4);
    [done|by rewrite Ht3, Ht2, Ht1|lia|done|rewrite fo_dlen0; lia|rewrite Ht3, Ht2, Ht1; lia|done|].
  pose proof (bitmap_region_holds _ _ _ _ _ Hu4 ltac:(lia) ltac:(rewrite Ht3, Ht2, Ht1; lia)) as Hdb4.
  destruct Hu4 as [Hok4 Ht4 Hb4].
  assert (Ht : total_blocks d4 = total_blocks (block_device fs)) by congruence.
  assert (Hrest : forall j, inode_table_start l <= j < total_blocks (block_device fs) -> blk d4 j = blk d1 j).
  { intros j Hj. rewrite Hb4, bitmap_region_out by lia. rewrite Hb3, bitmap_region_out by lia.
    rewrite Hb2 by lia. unfold put. zcase; [lia|done]. }
  assert (Hdi : forall i, 0 <= i < n -> disk_inode d4 l i = disk_inode d1 l i).
  { intros i Hi. destruct (geometry_inode _ _ _ i fo_geo0 Hi) as (_ & ? & ? & ?).
    unfold disk_inode. rewrite Hrest by (lia). done. }
  set (fs' := with_device (with_cache (with_device fs d1) cache) d4).
  assert (Hin : forall i, 0 <= i < n -> fs_inode fs i = fs_inode fs' i).
  { intros i Hi. unfold fs_inode at 2. simpl. rewrite Hcd. fold l.
    destruct (cached (inode_cache fs) i) eqn:Ec; [unfold fs_inode; by rewrite Ec|].
    by rewrite Hdi, Hin1 by done. }
  exists fs'. split_and!.
  - unfold flush. rewrite Ed. cbn [mbind comp_bind]. rewrite Ew. cbn [mbind comp_bind].
    change (with_cache (with_cache (with_device fs d1) cache_default) cache) with (with_cache (with_device fs d1) cache).
    cbn [block_device inode_bitmap fs_layout with_cache with_device].
    fold n l. unfold with_cache, with_device in Es |- *. cbn [block_device inode_bitmap data_bitmap inode_cache fs_layout] in Es |- *.
    rewrite Es. cbn [mbind comp_bind block_device inode_bitmap data_bitmap inode_cache fs_layout].
    fold l. rewrite E3. cbn [mbind comp_bind]. rewrite E4. done.
  - constructor; simpl; try done.
    + by rewrite Ht.
    + destruct Hc1. constructor; try done. intros i x Hi Hx Hd.
      assert (i < n).
      { unfold cached in Hx. destruct (c_inodes _ !! _) eqn:E; [|done].
        apply lookup_lt_Some in E. unfold zlen in *. lia. }
      rewrite Hdi by lia. by apply co_clean0.
  - constructor; simpl; try done.
    intros j Hj. fold l in Hj. rewrite Hrest, Hr1 by lia. done.
  - constructor; simpl; fold l n.
    + rewrite Hb4, bitmap_region_out by lia. rewrite Hb3, bitmap_region_out by lia.
      rewrite Hb2 by lia. unfold put. by rewrite Z.eqb_refl, Hsb, Ht, Ht1.
    + intros j Hj. rewrite Hb4, bitmap_region_out by lia. by apply Hib3.
    + exact Hdb4.
    + intros i Hi. rewrite <- Hin by done. rewrite Hdi by done. by apply Hin1.
Qed.

Lemma validate_root_spec fs :
  fs_ok fs ->
  validate_root_inode fs =
    Ret (if in_is_directory (disk_inode (block_device fs) (fs_layout fs) 0) then Ok tt else Err CorruptedRoot).
Proof.
  intros []. destruct (geo_count _ _ _ fo_geo0).
  destruct (geometry_inode _ _ _ 0 fo_geo0) as (E & ? & ? & ?); [lia|].
  unfold validate_root_inode. rewrite E. cbn [mbind comp_bind].
  destruct (read_blk (block_device fs) (inode_block_of (fs_layout fs) 0)) as [-> Hbk]; [done|lia|].
  cbn [mbind comp_bind]. destruct (inode_offset_range 0).
  rewrite read_struct_at_spec by (done || by apply block_ok_zlen). cbn [mbind comp_bind].
  fold (disk_inode (block_device fs) (fs_layout fs) 0). by destruct (in_is_directory _).
Qed.

Lemma cache_new_ok dev l n : 0 <= n -> cache_ok dev l n (cache_new l n).
Proof.
  intros. constructor; simpl; try done.
  - by apply bitmap_new_wf.
  - intros i _. unfold bitmap_new. by rewrite bm_test_replicate.
Qed.

(** Mounting a flushed device gives the same logical filesystem. *)
Lemma mount_flushed fs :
  fs_ok fs -> flushed fs -> in_is_directory (fs_inode fs 0) = true ->
  exists fs', Filesystem_new (block_device fs) = Ret (Ok fs') /\ fs_ok fs' /\ fs_equiv fs fs' /\
    block_device fs' = block_device fs.
Proof.
  intros Hfs [Hs Hi Hd Hin] Hroot. pose proof Hfs as [].
  destruct (geometry_regions _ _ _ fo_geo0) as (R1 & R2 & R3 & R4 & R5 & R6 & R7 & R8 & R9 & R10 & R11 & R12).
  pose proof fo_geo0 as [Htot Hn Hcan].
  assert (Hnu : is_u32 (inode_count fs)) by (unfold in_width; lia).
  set (fs' := mkFs (block_device fs) (inode_bitmap fs) (data_bitmap fs)
                (cache_new (fs_layout fs) (inode_count fs)) (fs_layout fs)).
  assert (Hok' : fs_ok fs').
  { constructor; simpl; try done. apply cache_new_ok. lia. }
  exists fs'. split_and!; [|done| |done].
  - unfold Filesystem_new. rewrite read_superblock_spec by (done || lia). rewrite Hs. cbn [mbind comp_bind].
    rewrite validate_from_layout by (done || lia). cbn [mbind comp_bind].
    rewrite from_layout_exact by (done || by apply geometry_wf). cbn [sb_inode_count].
    rewrite (read_bitmap_spec _ _ _ (inode_bitmap fs)) by (done || lia). cbn [mbind comp_bind].
    rewrite <- fo_dlen0.
    rewrite (read_bitmap_spec _ _ _ (data_bitmap fs)) by (done || lia || rewrite fo_dlen0; lia).
    cbn [mbind comp_bind]. fold fs'. rewrite validate_root_spec by done.
    change (disk_inode (block_device fs') (fs_layout fs') 0) with (disk_inode (block_device fs) (fs_layout fs) 0).
    rewrite Hin, Hroot by lia. done.
  - constructor; try done. intros i Hi'. rewrite <- Hin by done. done.
Qed.
End State.
