(* ===== verification/FsFiles.v ===== *)
(** * File contents

    What is in a file: the bytes its inode's blocks hold, up to its size.
    Allocation of a block, the write loop of [append_to_file] and the read loop
    of [read_file] are specified against it. *)
From S2P Require Import Prelude Bitmap Bytes Layout INode DirEntry BlockDev INodeCache SuperBlock Filesystem FsBase FsState.

(** ** Contents of an inode over a block store *)

(** Byte [p] of an inode whose blocks are found by [f]. *)
Definition byte_at (f : Z -> list Z) (x : INode) (p : Z) : Z :=
  match in_blocks x !! Z.to_nat (p / 512) with
  | Some (Some b) => default 0 (f b !! Z.to_nat (p mod 512))
  | _ => 0
  end.

Definition bytes_between (f : Z -> list Z) (x : INode) (a n : Z) : list Z :=
  (fun p => byte_at f x (a + Z.of_nat p)) <$> seq 0 (Z.to_nat n).

Definition content (f : Z -> list Z) (x : INode) : list Z := bytes_between f x 0 (in_size x).

(** The slots in use are exactly those the size needs. *)
Record inode_shape (x : INode) : Prop := {
  is_size : 0 <= in_size x <= 8192;
  is_slots k b : in_blocks x !! k = Some b -> is_Some b <-> 512 * Z.of_nat k < in_size x;
}.

(** The blocks of [x] are data blocks marked in use. *)
Definition blocks_live (l : Layout) (total : Z) (db : Bitmap) (x : INode) : Prop :=
  forall k b, in_blocks x !! k = Some (Some b) ->
    data_start l <= b < total /\ bm_test db (b - data_start l) = true.

(** No block is used for two slots of [x]. *)
Definition blocks_distinct (x : INode) : Prop :=
  forall k1 k2 b, in_blocks x !! k1 = Some (Some b) -> in_blocks x !! k2 = Some (Some b) -> k1 = k2.

Lemma zlen_bytes_between f x a n : 0 <= n -> zlen (bytes_between f x a n) = n.
Proof. intros. unfold bytes_between, zlen. rewrite length_fmap, length_seq. lia. Qed.

Lemma bytes_between_app f x a m n :
  0 <= m -> 0 <= n ->
  bytes_between f x a (m + n) = bytes_between f x a m ++ bytes_between f x (a + m) n.
Proof.
  intros. unfold bytes_between. rewrite Z2Nat.inj_add, seq_app, fmap_app by done. f_equal.
  replace (0 + Z.to_nat m)%nat with (Z.to_nat m + 0)%nat by lia.
  rewrite <- fmap_add_seq, <- list_fmap_compose.
  apply list_fmap_ext. intros k p _. simpl. f_equal. lia.
Qed.

Lemma bytes_between_ext f g x y a n :
  (forall p, a <= p < a + n -> byte_at f x p = byte_at g y p) ->
  bytes_between f x a n = bytes_between g y a n.
Proof. intros E. unfold bytes_between. apply list_fmap_ext. intros k p [-> Hp]%lookup_seq. apply E. lia. Qed.

Lemma bytes_between_list f x a n (bs : list Z) :
  zlen bs = n -> (forall k v, bs !! k = Some v -> byte_at f x (a + Z.of_nat k) = v) ->
  bytes_between f x a n = bs.
Proof.
  intros <- E. unfold bytes_between, zlen. rewrite Nat2Z.id.
  apply list_eq_same_length with (length bs); [done|by rewrite length_fmap, length_seq|].
  intros k v w Hk Hv Hw. apply list_lookup_fmap_Some_1 in Hv as (p & -> & Hp).
  apply lookup_seq in Hp as [-> _]. by apply E.
Qed.

Lemma bytes_between_blocks f g x y a n :
  in_blocks x = in_blocks y ->
  (forall k b, in_blocks y !! k = Some (Some b) -> f b = g b) ->
  bytes_between f x a n = bytes_between g y a n.
Proof.
  intros Eb E. apply bytes_between_ext. intros p _. unfold byte_at. rewrite Eb.
  destruct (in_blocks y !! _) as [[b|]|] eqn:Ek; [|done..]. by rewrite (E _ _ Ek).
Qed.

Lemma bytes_between_used f x y n :
  (forall k, 512 * Z.of_nat k < n ->
     exists b, in_blocks x !! k = Some (Some b) /\ in_blocks y !! k = Some (Some b)) ->
  bytes_between f x 0 n = bytes_between f y 0 n.
Proof.
  intros E. apply bytes_between_ext. intros p Hp. unfold byte_at.
  pose proof (Z.div_mod p 512 ltac:(lia)). pose proof (Z.mod_pos_bound p 512 ltac:(lia)).
  pose proof (Z.div_pos p 512). destruct (E (Z.to_nat (p / 512))) as (b & -> & ->); [lia|done].
Qed.

(** *** One step of the write loop, on contents

    Writing [chunk] at the end of [x] inside the block the end lies in appends
    [chunk] to the contents. *)
Lemma content_append f x b chunk :
  let s := in_size x in
  0 <= s -> blocks_distinct x -> in_blocks x !! Z.to_nat (s / 512) = Some (Some b) ->
  zlen (f b) = 512 -> s mod 512 + zlen chunk <= 512 ->
  let f' := put b (splice (f b) (s mod 512) chunk) f in
  bytes_between f' x 0 (s + zlen chunk) = content f x ++ chunk.
Proof.
  cbv zeta. intros Hs Hd Hb Hfb Hle. pose proof (zlen_nonneg chunk).
  pose proof (Z.div_mod (in_size x) 512 ltac:(lia)). pose proof (Z.mod_pos_bound (in_size x) 512 ltac:(lia)).
  rewrite bytes_between_app by lia. f_equal.
  - apply bytes_between_ext. intros p Hp. unfold byte_at.
    destruct (in_blocks x !! Z.to_nat (p / 512)) as [[c|]|] eqn:E; [|done..].
    unfold put. zcase; [|done]. subst c. rewrite lookup_splice by lia. rewrite decide_False; [done|].
    pose proof (Hd _ _ _ E Hb) as Hk. pose proof (Z.div_mod p 512 ltac:(lia)).
    pose proof (Z.mod_pos_bound p 512 ltac:(lia)). pose proof (Z.div_pos p 512). 
    pose proof (Z.div_pos (in_size x) 512). lia.
  - apply bytes_between_list; [done|]. intros k v Hv. pose proof (lookup_lt_Some _ _ _ Hv) as Hk.
    unfold zlen in *. replace (0 + in_size x + Z.of_nat k) with (512 * (in_size x / 512) + (in_size x mod 512 + Z.of_nat k)) by lia.
    unfold byte_at. rewrite <- (Z.div_unique _ 512 (in_size x / 512) (in_size x mod 512 + Z.of_nat k)),
      <- (Z.mod_unique _ 512 (in_size x / 512) (in_size x mod 512 + Z.of_nat k)) by lia.
    rewrite Hb. unfold put. rewrite Z.eqb_refl, lookup_splice by (unfold zlen; lia).
    rewrite decide_True by lia.
    replace (Z.to_nat (in_size x mod 512 + Z.of_nat k) - Z.to_nat (in_size x mod 512))%nat with k by lia.
    by rewrite Hv.
Qed.

(** A block of another inode does not matter. *)
Lemma content_put f x b v :
  (forall k, in_blocks x !! k <> Some (Some b)) -> content (put b v f) x = content f x.
Proof.
  intros Hne. apply bytes_between_ext. intros p _. unfold byte_at.
  destruct (in_blocks x !! _) as [[c|]|] eqn:E; [|done..]. unfold put. zcase; [|done].
  subst. by apply Hne in E.
Qed.

(** ** Growing a file or directory *)
Section Grow.
Context {D : Type} `{BlockDeviceLaws D}.
Implicit Types (dev : D) (fs : Filesystem D).

Definition fs_content fs (i : Z) : list Z := content (blk (block_device fs)) (fs_inode fs i).

(** The invariant of one inode in use. *)
Record inode_inv fs (i : Z) : Prop := {
  ii_range : 0 <= i < inode_count fs;
  ii_shape : inode_shape (fs_inode fs i);
  ii_distinct : blocks_distinct (fs_inode fs i);
  ii_live : blocks_live (fs_layout fs) (total_blocks (block_device fs)) (data_bitmap fs) (fs_inode fs i);
}.

(** [fs'] is [fs] with [chunk] appended to inode [i]; blocks were only taken
    from the free ones, and nothing else changed. *)
Record grown fs fs' (i : Z) (chunk : list Z) : Prop := {
  gr_ok : fs_ok fs';
  gr_total : total_blocks (block_device fs') = total_blocks (block_device fs);
  gr_layout : fs_layout fs' = fs_layout fs;
  gr_ibm : inode_bitmap fs' = inode_bitmap fs;
  gr_others j : 0 <= j < inode_count fs -> j <> i -> fs_inode fs' j = fs_inode fs j;
  gr_dir : in_is_directory (fs_inode fs' i) = in_is_directory (fs_inode fs i);
  gr_size : in_size (fs_inode fs' i) = in_size (fs_inode fs i) + zlen chunk;
  gr_inv : inode_inv fs' i;
  gr_content : fs_content fs' i = fs_content fs i ++ chunk;
  gr_mono v : 0 <= v -> bm_test (data_bitmap fs) v = true -> bm_test (data_bitmap fs') v = true;
  gr_keep k b : in_blocks (fs_inode fs i) !! k = Some (Some b) -> in_blocks (fs_inode fs' i) !! k = Some (Some b);
  gr_fresh k b : in_blocks (fs_inode fs' i) !! k = Some (Some b) ->
    in_blocks (fs_inode fs i) !! k = Some (Some b) \/ bm_test (data_bitmap fs) (b - data_start (fs_layout fs)) = false;
  gr_noleak v : 0 <= v -> bm_test (data_bitmap fs') v = true ->
    bm_test (data_bitmap fs) v = true \/
    exists k, in_blocks (fs_inode fs' i) !! k = Some (Some (data_start (fs_layout fs) + v));
  gr_data j : data_start (fs_layout fs) <= j < total_blocks (block_device fs) ->
    (forall k, in_blocks (fs_inode fs' i) !! k <> Some (Some j)) ->
    blk (block_device fs') j = blk (block_device fs) j;
}.

Lemma content_ext f g x :
  (forall k b, in_blocks x !! k = Some (Some b) -> f b = g b) -> content f x = content g x.
Proof. intros E. by apply bytes_between_blocks. Qed.

Lemma fs_content_equiv fs fs' i :
  fs_equiv fs fs' -> inode_inv fs i -> fs_content fs' i = fs_content fs i.
Proof.
  intros [Ht Hl Hib Hdb Hin Hd] [Hr _ _ Hlive]. unfold fs_content. rewrite <- Hin by done.
  apply content_ext. intros k b Hb. destruct (Hlive k b Hb) as [Hrange _]. symmetry. by apply Hd.
Qed.

Lemma inode_inv_equiv fs fs' i : fs_equiv fs fs' -> inode_inv fs i -> inode_inv fs' i.
Proof.
  intros [Ht Hl Hib Hdb Hin Hd] [Hr Hs Hdis Hlive].
  constructor; rewrite <- ?Hin, <- ?Hl, <- ?Ht, <- ?Hdb, <- ?Hib by done; done.
Qed.

Lemma grown_equiv fs fs' i : fs_ok fs' -> fs_equiv fs fs' -> inode_inv fs i -> grown fs fs' i [].
Proof.
  intros Hok He Hii. pose proof (inode_inv_equiv _ _ _ He Hii). pose proof (fs_content_equiv _ _ _ He Hii) as Hc.
  pose proof (ii_range _ _ Hii) as Hr. destruct He as [Ht Hl Hib Hdb Hin Hd].
  constructor; rewrite ?zlen_nil, ?app_nil_r, ?Z.add_0_r, <- ?Hin, <- ?Hdb by done; try done; eauto.
  - intros j Hj _. symmetry. by apply Hin.
  - intros j Hj _. symmetry. by apply Hd.
Qed.

Lemma grown_trans fs1 fs2 fs3 i c1 c2 :
  inode_inv fs1 i -> grown fs1 fs2 i c1 -> grown fs2 fs3 i c2 -> grown fs1 fs3 i (c1 ++ c2).
Proof.
  intros Hi [Hok1 Ht1 Hl1 Hib1 Ho1 Hd1 Hs1 Hi1 Hc1 Hm1 Hk1 Hf1 Hn1 Hda1] [Hok2 Ht2 Hl2 Hib2 Ho2 Hd2 Hs2 Hi2 Hc2 Hm2 Hk2 Hf2 Hn2 Hda2].
  rewrite Ht1, Hl1, Hib1 in *. constructor; try congruence; eauto.
  - intros j Hj Hne. rewrite Ho2 by done. auto.
  - rewrite Hs2, Hs1, zlen_app. lia.
  - by rewrite Hc2, Hc1, app_assoc.
  - intros k b Hb. destruct (Hf2 k b Hb) as [Hb'|Hfree]; [auto|]. right.
    destruct (bm_test (data_bitmap fs1) _) eqn:E; [|done].
    destruct (ii_live _ _ Hi2 k b Hb) as [Hr _]. rewrite Hl2 in Hr.
    apply Hm1 in E; [congruence|lia].
  - intros v Hv Ht3. destruct (Hn2 v Hv Ht3) as [H2|]; [|auto].
    destruct (Hn1 v Hv H2) as [|[k Hk]]; [auto|]. right. exists k. by apply Hk2.
  - intros j Hj Hne. rewrite Hda2 by done. apply Hda1; [done|]. intros k Hk. by apply Hk2, Hne in Hk.
Qed.

(** *** Its pieces *)

(** Writing a data block leaves the inode table alone. *)
Lemma data_write_ok fs dev' b v :
  fs_ok fs -> data_start (fs_layout fs) <= b < total_blocks (block_device fs) ->
  dev_upd (block_device fs) dev' (put b v (blk (block_device fs))) ->
  fs_ok (with_device fs dev') /\
  (forall i, 0 <= i < inode_count fs -> fs_inode (with_device fs dev') i = fs_inode fs i) /\
  (forall i, 0 <= i < inode_count fs -> borrowed fs i -> borrowed (with_device fs dev') i).
Proof.
  intros Hfs Hb [Hok Ht Hu]. pose proof Hfs as [].
  assert (Hdi : forall i, 0 <= i < inode_count fs ->
    disk_inode dev' (fs_layout fs) i = disk_inode (block_device fs) (fs_layout fs) i).
  { intros i Hi. destruct (geometry_inode _ _ _ i fo_geo Hi) as (_ & ? & ? & ?). unfold disk_inode.
    rewrite Hu by lia. unfold put. zcase; [lia|done]. }
  assert (Hin : forall i, 0 <= i < inode_count fs -> fs_inode (with_device fs dev') i = fs_inode fs i).
  { intros i Hi. unfold fs_inode. simpl. by rewrite Hdi. }
  split_and!; [|done|].
  - constructor; simpl; try done; [by rewrite Ht|]. destruct fo_cache. constructor; try done.
    intros i x Hi Hx Hd. rewrite Hdi; [by apply co_clean|]. split; [done|].
    unfold cached in Hx. destruct (c_inodes _ !! _) eqn:E; [|done].
    apply lookup_lt_Some in E. unfold zlen in *. lia.
  - intros i Hi [H1 H2]. split; [|done]. by rewrite Hin.
Qed.

Lemma with_data_bitmap_ok fs db :
  fs_ok fs -> bm_wf db -> bm_len db = bm_len (data_bitmap fs) -> fs_ok (with_data_bitmap fs db).
Proof. intros [] Hwf Hl. constructor; simpl; try done. congruence. Qed.

Lemma set_block_ok x k b : inode_ok x -> 0 < b < 2 ^ 32 -> inode_ok (set_block x k (Some b)).
Proof.
  intros [] Hb. constructor; simpl; [done|by rewrite length_insert|].
  apply Forall_insert; [done|]. done.
Qed.

Lemma data_block_addr fs v :
  fs_ok fs -> 0 <= v < bm_len (data_bitmap fs) ->
  data_block (fs_layout fs) v = Ret (Some (data_start (fs_layout fs) + v)) /\
  bitmap_index (Some (data_start (fs_layout fs) + v)) (fs_layout fs) = Ret v /\
  data_start (fs_layout fs) <= data_start (fs_layout fs) + v < total_blocks (block_device fs) /\
  0 < data_start (fs_layout fs) /\ total_blocks (block_device fs) < 2 ^ 32.
Proof.
  intros [] Hv. destruct (geometry_regions _ _ _ fo_geo) as (R1 & R2 & R3 & R4 & R5 & R6 & R7 & R8 & _).
  pose proof (geo_total _ _ _ fo_geo) as [_ Ht].
  destruct (data_block_spec _ _ _ v (geometry_wf _ _ _ fo_geo)) as [E1 E2];
    [unfold u32_max, max_of; lia|lia|]. split_and!; (done || lia).
Qed.

(** [ensure_block] on the write slot: no space, or a block to write to; in the
    second case the allocation is visible in the inode and the bitmap only. *)
Lemma ensure_block_spec fs i k ob :
  fs_ok fs -> inode_inv fs i -> borrowed fs i ->
  in_blocks (fs_inode fs i) !! Z.to_nat k = Some ob -> 0 <= k ->
  (ob = None /\ find_free (data_bitmap fs) = None /\
   ensure_block fs i (fs_inode fs i) k ob = Ret (Err NoSpaceLeft, fs)) \/
  exists b x1 fs1, ensure_block fs i (fs_inode fs i) k ob = Ret (Ok (Some b, x1), fs1) /\
    x1 = set_block (fs_inode fs i) k (Some b) /\ inode_ok x1 /\
    data_start (fs_layout fs) <= b < total_blocks (block_device fs) /\
    fs_ok fs1 /\ borrowed fs1 i /\ block_device fs1 = block_device fs /\ fs_layout fs1 = fs_layout fs /\
    inode_bitmap fs1 = inode_bitmap fs /\
    (forall j, 0 <= j -> fs_inode fs1 j = if j =? i then x1 else fs_inode fs j) /\
    (ob = Some b \/ ob = None /\ bm_test (data_bitmap fs) (b - data_start (fs_layout fs)) = false) /\
    (forall v, 0 <= v -> bm_test (data_bitmap fs1) v =
       (v =? b - data_start (fs_layout fs)) || bm_test (data_bitmap fs) v).
Proof.
  intros Hfs Hii Hbor Hob Hk. pose proof (ii_range _ _ Hii) as Hi.
  pose proof (fs_inode_ok _ _ Hfs Hi) as Hx. unfold ensure_block. destruct ob as [b|]; simpl.
  - right. destruct (ii_live _ _ Hii _ _ Hob) as [Hr Hl].
    assert (E : set_block (fs_inode fs i) k (Some b) = fs_inode fs i).
    { unfold set_block. rewrite list_insert_id by done. by destruct (fs_inode fs i). }
    exists b, (fs_inode fs i), fs. split_and!; try done; auto; try lia.
    + intros j Hj. zcase; by subst.
    + intros v Hv. zcase; [by subst|done].
  - destruct (find_free (data_bitmap fs)) as [v|] eqn:Ef; [|by left]. right.
    destruct (find_free_some _ _ (fo_dbm _ Hfs) Ef) as (Hv & Hfree & _).
    destruct (data_block_addr fs v Hfs Hv) as (E1 & _ & Hr & Hp & Ht). rewrite E1. cbn [mbind comp_bind].
    destruct (bitmap_set_spec _ v (fo_dbm _ Hfs) Hv) as (db' & E2 & Hwf' & Hl' & Htest). rewrite E2.
    cbn [mbind comp_bind].
    assert (Hx1 : inode_ok (set_block (fs_inode fs i) k (Some (data_start (fs_layout fs) + v))))
      by (apply set_block_ok; [done|lia]).
    destruct (store_inode_spec fs i _ Hfs Hi Hbor Hx1) as (Hok1 & Hbor1 & Hin1).
    eexists _, _, _. split; [done|]. split_and!; try done; try lia.
    + by apply with_data_bitmap_ok.
    + right. split; [done|]. by replace (data_start (fs_layout fs) + v - data_start (fs_layout fs)) with v by lia.
    + intros u Hu. simpl. rewrite Htest by done.
      by replace (data_start (fs_layout fs) + v - data_start (fs_layout fs)) with v by lia.
Qed.

(** One write at the end of inode [i], from the outcome of [ensure_block] to the
    stored inode. *)
Lemma grow_store fs fs1 dev' i ob b x1 chunk :
  let x := fs_inode fs i in
  let k := in_size x / 512 in
  let x2 := mkINode (in_size x + zlen chunk) (in_blocks x1) (in_is_directory x) in
  let fs2 := store_inode (with_device fs1 dev') i x2 in
  fs_ok fs -> inode_inv fs i -> in_blocks x !! Z.to_nat k = Some ob ->
  0 < zlen chunk -> in_size x mod 512 + zlen chunk <= 512 -> in_size x + zlen chunk <= 8192 ->
  x1 = set_block x k (Some b) -> inode_ok x1 ->
  data_start (fs_layout fs) <= b < total_blocks (block_device fs) ->
  fs_ok fs1 -> borrowed fs1 i -> block_device fs1 = block_device fs -> fs_layout fs1 = fs_layout fs ->
  inode_bitmap fs1 = inode_bitmap fs ->
  (forall j, 0 <= j -> fs_inode fs1 j = if j =? i then x1 else fs_inode fs j) ->
  (ob = Some b \/ ob = None /\ bm_test (data_bitmap fs) (b - data_start (fs_layout fs)) = false) ->
  (forall v, 0 <= v -> bm_test (data_bitmap fs1) v =
     (v =? b - data_start (fs_layout fs)) || bm_test (data_bitmap fs) v) ->
  dev_upd (block_device fs) dev' (put b (splice (blk (block_device fs) b) (in_size x mod 512) chunk) (blk (block_device fs))) ->
  grown fs fs2 i chunk /\ borrowed fs2 i /\ fs_inode fs2 i = x2.
Proof.
  cbv zeta. set (x := fs_inode fs i). set (k := in_size x / 512).
  intros Hfs Hii Hob Hpos Hoff Hmax Hx1 Hx1ok Hb Hfs1 Hbor1 Hdev1 Hlay1 Hib1 Hin1 Hcase Hdb1 Hu.
  pose proof (ii_range _ _ Hii) as Hi. destruct (ii_shape _ _ Hii) as [Hsz Hslots]. fold x in Hsz, Hslots.
  pose proof (Z.div_mod (in_size x) 512 ltac:(lia)) as Hdm.
  pose proof (Z.mod_pos_bound (in_size x) 512 ltac:(lia)). fold k in Hdm.
  assert (Hk : 0 <= k < 16) by lia.
  destruct (data_write_ok fs1 dev' b _ Hfs1 ltac:(rewrite Hlay1, Hdev1; lia) ltac:(rewrite Hdev1; exact Hu))
    as (Hok2 & Hin2 & Hbor2).
  rewrite Hib1 in Hin2, Hbor2. specialize (Hbor2 i Hi Hbor1).
  set (x2 := mkINode (in_size x + zlen chunk) (in_blocks x1) (in_is_directory x)).
  assert (Hx2 : inode_ok x2).
  { destruct Hx1ok. constructor; simpl; try done. unfold in_width. lia. }
  destruct (store_inode_spec (with_device fs1 dev') i x2 Hok2 ltac:(simpl; by rewrite Hib1) Hbor2 Hx2)
    as (Hok3 & Hbor3 & Hin3).
  set (fs2 := store_inode (with_device fs1 dev') i x2) in *.
  assert (Hi2 : fs_inode fs2 i = x2) by (rewrite Hin3, Z.eqb_refl by lia; done).
  assert (Hlen : Z.of_nat (length (in_blocks x)) = 16).
  { pose proof (fs_inode_ok _ _ Hfs Hi) as []. fold x in inode_ok_blocks. lia. }
  assert (Hlt : (Z.to_nat k < length (in_blocks x))%nat) by lia.
  assert (Hblk : forall j c, in_blocks x2 !! j = Some c ->
            (j = Z.to_nat k /\ c = Some b) \/ (j <> Z.to_nat k /\ in_blocks x !! j = Some c)).
  { intros j c. simpl. rewrite Hx1. simpl. destruct (decide (j = Z.to_nat k)) as [->|].
    - rewrite list_lookup_insert_eq by exact Hlt. intros [= <-]. by left.
    - rewrite list_lookup_insert_ne by done. by right. }
  assert (Hblk_k : in_blocks x2 !! Z.to_nat k = Some (Some b)).
  { simpl. rewrite Hx1. simpl. rewrite list_lookup_insert_eq by exact Hlt. done. }
  assert (Hkeep : forall j c, in_blocks x !! j = Some (Some c) -> in_blocks x2 !! j = Some (Some c)).
  { intros j c Hj. simpl. rewrite Hx1. simpl. destruct (decide (j = Z.to_nat k)) as [->|].
    - rewrite list_lookup_insert_eq by exact Hlt. f_equal. destruct Hcase as [|[]]; congruence.
    - by rewrite list_lookup_insert_ne. }
  destruct (data_write_ok fs dev' b _ Hfs Hb Hu) as (_ & _ & _).
  assert (Hnew : forall j, j <> Z.to_nat k -> in_blocks x !! j <> Some (Some b)).
  { intros j Hne Hj. destruct Hcase as [->|[-> Hfree]].
    - apply Hne. by apply (ii_distinct _ _ Hii _ _ b).
    - destruct (ii_live _ _ Hii _ _ Hj). congruence. }
  assert (Hinv : inode_inv fs2 i).
  { constructor; rewrite ?Hi2.
    - simpl. by rewrite Hib1.
    - constructor; simpl; [lia|]. intros j c Hj.
      destruct (Hblk j c Hj) as [[-> ->]|[Hne Hj']].
      + split; [lia|by eauto].
      + rewrite (Hslots _ _ Hj'). split; lia.
    - intros j1 j2 c E1 E2. destruct (Hblk _ _ E1) as [[-> [= ->]]|[Hn1 E1']], (Hblk _ _ E2) as [[-> E]|[Hn2 E2']];
        try done; simplify_eq; try (by exfalso; eapply Hnew).
      by apply (ii_distinct _ _ Hii _ _ c).
    - intros j c Hj. simpl. rewrite Hlay1, (du_total _ _ _ Hu).
      destruct (Hblk _ _ Hj) as [[-> [= ->]]|[Hn Hj']].
      + split; [done|]. rewrite Hdb1 by lia. by rewrite Z.eqb_refl.
      + destruct (ii_live _ _ Hii _ _ Hj') as [Hr Hl]. split; [done|].
        rewrite Hdb1, Hl by lia. apply orb_true_r. }
  assert (Hds : 0 <= data_start (fs_layout fs)).
  { pose proof (geo_count _ _ _ (fo_geo _ Hfs)).
    destruct (geometry_inode _ _ _ 0 (fo_geo _ Hfs)) as (_ & ? & ? & _); lia. }
  split; [|done].
  constructor; rewrite ?Hi2; try done; simpl.
  - apply (du_total _ _ _ Hu).
  - intros j Hj Hne. rewrite Hin3 by lia. rewrite (proj2 (Z.eqb_neq _ _)) by done.
    rewrite Hin2 by done. rewrite Hin1 by lia. by rewrite (proj2 (Z.eqb_neq _ _)).
  - unfold fs_content. rewrite Hi2. fold x. change (block_device fs2) with dev'. destruct (geometry_regions _ _ _ (fo_geo _ Hfs)) as (_ & _ & _ & _ & _ & R6 & _).
    assert (Hxd : blocks_distinct x2) by (pose proof (ii_distinct _ _ Hinv) as Hs; by rewrite Hi2 in Hs).
    destruct (read_blk (block_device fs) b (fo_dev _ Hfs)) as [_ Hbk]; [lia|].
    set (y := mkINode (in_size x) (in_blocks x1) (in_is_directory x)).
    transitivity (content (blk (block_device fs)) y ++ chunk).
    + rewrite <- (content_append (blk (block_device fs)) y b chunk).
      * apply bytes_between_blocks; [done|]. intros j c Hj. rewrite (du_blk _ _ _ Hu); [done|].
        destruct (ii_live _ _ Hinv j c) as [Hr _]; [by rewrite Hi2|].
        simpl in Hr. rewrite Hlay1, (du_total _ _ _ Hu) in Hr. lia.
      * simpl. lia.
      * exact Hxd.
      * exact Hblk_k.
      * by apply block_ok_zlen.
      * exact Hoff.
    + f_equal. apply (bytes_between_used _ y x). change (in_size y) with (in_size x).
      intros j Hj. destruct (lookup_lt_is_Some_2 (in_blocks x) j) as [c Hc];
        [apply Nat2Z.inj_lt; change (Z.of_nat j < Z.of_nat (length (in_blocks x))); lia|].
      destruct (proj2 (Hslots _ _ Hc)) as [c' ->]; [lia|]. exists c'.
      split; [by apply Hkeep|done].
  - intros v Hv Ht. rewrite Hdb1, Ht by done. apply orb_true_r.
  - intros j c Hj. destruct (Hblk _ _ Hj) as [[-> [= ->]]|[_ Hj']]; [|by left].
    destruct Hcase as [->|[_ Hfree]]; [left; done|by right].
  - intros v Hv. rewrite Hdb1 by done. zcase; simpl; [|by left]. intros _. right.
    exists (Z.to_nat k). change (in_blocks x1) with (in_blocks x2). rewrite Hblk_k. do 2 f_equal. lia.
  - intros j Hj Hne. rewrite (du_blk _ _ _ Hu) by lia. unfold put. zcase; [|done].
    subst. by apply Hne in Hblk_k.
Qed.

Lemma slice_mid (bs : list Z) a n :
  0 <= a -> 0 <= n -> a + n <= zlen bs ->
  slice bs a (a + n) = Ret (take (Z.to_nat n) (drop (Z.to_nat a) bs)) /\
  zlen (take (Z.to_nat n) (drop (Z.to_nat a) bs)) = n.
Proof.
  intros. rewrite slice_ok by lia. replace (a + n - a) with n by lia. split; [done|].
  unfold zlen in *. rewrite length_take, length_drop. lia.
Qed.

Lemma write_slot_in fs i :
  fs_ok fs -> inode_inv fs i -> in_size (fs_inode fs i) < 8192 ->
  exists ob, in_blocks (fs_inode fs i) !! Z.to_nat (in_size (fs_inode fs i) / 512) = Some ob /\
    write_slot (fs_inode fs i) =
      mkWriteSlot (Some (in_size (fs_inode fs i) / 512, ob)) (in_size (fs_inode fs i) mod 512)
        (512 - in_size (fs_inode fs i) mod 512).
Proof.
  intros Hfs Hii Hlt. pose proof (ii_range _ _ Hii) as Hi. destruct (ii_shape _ _ Hii) as [Hsz _].
  pose proof (fs_inode_ok _ _ Hfs Hi) as [_ Hl _].
  assert (0 <= in_size (fs_inode fs i) / 512 < 16).
  { split; [apply Z.div_pos; lia|]. apply Z.div_lt_upper_bound; lia. }
  destruct (lookup_lt_is_Some_2 (in_blocks (fs_inode fs i)) (Z.to_nat (in_size (fs_inode fs i) / 512)))
    as [ob Hob]; [lia|].
  exists ob. split; [done|]. unfold write_slot, BLOCK_SIZE. by rewrite Hob.
Qed.

Lemma inode_advance_spec x m :
  0 <= in_size x -> 0 <= m <= 8192 -> in_size x + m <= 8192 ->
  inode_advance x m = Ret (mkINode (in_size x + m) (in_blocks x) (in_is_directory x)).
Proof.
  intros. unfold inode_advance. rewrite as_u32_small by (unfold in_width; lia).
  by rewrite add_ovf_ok by (unfold max_of; lia).
Qed.

(** The write loop: the first [w] bytes that are left are appended; all of them,
    or as many as there was room for. *)
Lemma append_loop_run fuel : forall fs i (bytes : list Z) total written,
  fs_ok fs -> inode_inv fs i -> borrowed fs i -> Forall is_u8 bytes ->
  0 <= total -> 0 <= written -> written + total = zlen bytes -> zlen bytes <= 8192 ->
  in_size (fs_inode fs i) + total <= 8192 -> (Z.to_nat total < fuel)%nat ->
  exists res fs' w, append_loop fuel fs i (fs_inode fs i) bytes total written = Ret (res, fs') /\
    0 <= w <= total /\
    grown fs fs' i (take (Z.to_nat w) (drop (Z.to_nat written) bytes)) /\
    ((res = Ok (zlen bytes) /\ w = total) \/
     (res = Err NoSpaceLeft /\ w < total /\ (in_size (fs_inode fs i) + w) mod 512 = 0 /\
      find_free (data_bitmap fs') = None)).
Proof.
  induction fuel as [|fuel IH]; intros fs i bytes total written Hfs Hii Hbor Hu8 Ht Hw Hsum Hmax Hcap Hfuel; [lia|].
  cbn [append_loop]. destruct (Z.eqb_spec total 0) as [->|Hne].
  { exists (Ok written), fs, 0. split; [done|]. split; [lia|]. split; [|left; split; [f_equal; lia|done]].
    rewrite take_0. by apply grown_equiv. }
  destruct (ii_shape _ _ Hii) as [Hsz _].
  destruct (write_slot_in fs i Hfs Hii) as (ob & Hob & ->); [lia|]. cbn [ws_block ws_byte_offset ws_capacity].
  set (x := fs_inode fs i) in *. pose proof (Z.mod_pos_bound (in_size x) 512 ltac:(lia)) as Hmod.
  destruct (ensure_block_spec fs i (in_size x / 512) ob Hfs Hii Hbor Hob) as
    [(-> & Hfull & E)|(b & x1 & fs1 & E & Hx1 & Hx1ok & Hb & Hfs1 & Hbor1 & Hdev1 & Hlay1 & Hib1 & Hin1 & Hcase & Hdb1)];
    [apply Z.div_pos; lia| |]; fold x in E; rewrite E; cbn [mbind comp_bind].
  { eexists _, fs, 0. split; [done|]. split; [lia|]. split; [rewrite take_0; by apply grown_equiv|].
    right. split_and!; [done|lia| |done]. rewrite Z.add_0_r.
    pose proof (proj2 (is_slots _ (ii_shape _ _ Hii) _ _ Hob)) as Hs. fold x in Hs.
    pose proof (Z.div_pos (in_size x) 512). pose proof (Z.div_mod (in_size x) 512 ltac:(lia)).
    destruct (Z.eq_dec (in_size x mod 512) 0); [done|]. destruct Hs as [? [=]]. lia. }
  set (m := Z.min total (512 - in_size x mod 512)). assert (Hm : 0 < m <= total) by lia.
  destruct (slice_mid bytes written m) as [Esl Hsl]; [lia..|].
  set (chunk := take (Z.to_nat m) (drop (Z.to_nat written) bytes)) in *.
  cbn [to_block unwrap mbind comp_bind]. rewrite Hdev1.
  destruct (read_blk (block_device fs) b (fo_dev _ Hfs)) as [_ Hbk].
  { pose proof (geo_count _ _ _ (fo_geo _ Hfs)).
    destruct (geometry_inode _ _ _ 0 (fo_geo _ Hfs)) as (_ & ? & ? & _); lia. }
  destruct (modify_blk (block_device fs) b (fun buf =>
      write_end ← in_size x mod 512 +! m; read_end ← written +! m;
      src ← slice bytes written read_end; buf ← copy_to_slice buf (in_size x mod 512) write_end src;
      Ret (tt, buf)) tt (splice (blk (block_device fs) b) (in_size x mod 512) chunk))
    as (dev' & Em & Hu); [apply (fo_dev _ Hfs)| | | |].
  { pose proof (geo_count _ _ _ (fo_geo _ Hfs)).
    destruct (geometry_inode _ _ _ 0 (fo_geo _ Hfs)) as (_ & ? & ? & _); lia. }
  { rewrite !add_ovf_ok by (unfold max_of; lia). cbn [mbind comp_bind]. rewrite Esl. cbn [mbind comp_bind].
    rewrite copy_to_slice_ok; [done| |lia]. rewrite (block_ok_zlen _ Hbk). lia. }
  { destruct Hbk as [Hl Hb8]. split; [rewrite length_splice; [done|lia|unfold zlen in *; lia]|].
    apply Forall_splice; [done|]. by apply Forall_take, Forall_drop. }
  rewrite Em. cbn [mbind comp_bind].
  assert (Hsx : in_size x1 = in_size x) by (by rewrite Hx1).
  rewrite inode_advance_spec by lia. cbn [mbind comp_bind].
  destruct (grow_store fs fs1 dev' i ob b x1 chunk) as (Hg & Hbor2 & Hi2); try done; try (fold x; lia).
  rewrite sub_ovf_ok, add_ovf_ok by (unfold max_of; lia). cbn [mbind comp_bind].
  replace (mkINode (in_size x1 + m) (in_blocks x1) (in_is_directory x1))
    with (mkINode (in_size x + zlen chunk) (in_blocks x1) (in_is_directory x))
    by (rewrite Hsl, Hx1; done).
  fold x in Hg, Hi2, Hbor2. set (fs2 := store_inode _ _ _) in *. rewrite <- Hi2.
  assert (Hs2 : in_size (fs_inode fs2 i) = in_size x + m) by (rewrite Hi2; simpl; lia).
  destruct (IH fs2 i bytes (total - m) (written + m)) as (res & fs' & w & E' & Hw' & Hg' & Hres);
    try done; try lia; [apply Hg|apply Hg|].
  exists res, fs', (m + w). split; [done|]. split; [lia|].
  split; [|destruct Hres as [[-> ->]|(-> & ? & Hfill & ?)]; [left|right]; split_and!; try done; try lia;
             rewrite Hs2 in Hfill; by rewrite Z.add_assoc].
  rewrite Z2Nat.inj_add, <- take_take_drop, drop_drop by lia.
  rewrite <- Z2Nat.inj_add by lia. by eapply grown_trans.
Qed.

(** ** Reading *)

(** [read_file_blocks] over the blocks [bs] gives the first [total] bytes they
    hold, provided every block's part is UTF-8 by itself. *)
Definition blocks_bytes (f : Z -> list Z) (bs : list Z) (total : Z) : list Z :=
  take (Z.to_nat total) (concat (map f bs)).

Lemma utf8_ascii (bs : list Z) : Forall (fun b => 0 <= b < 128) bs -> utf8_valid bs = true.
Proof.
  induction 1 as [|b bs Hb _ IH]; [done|]. simpl. by rewrite (proj2 (Z.ltb_lt _ _)) by lia.
Qed.

Lemma read_file_blocks_spec dev bs : forall total acc,
  dev_ok dev -> Forall (fun b => 0 <= b < total_blocks dev) bs -> 0 <= total ->
  Forall (fun b => 0 <= b < 128) (blocks_bytes (blk dev) bs total) ->
  read_file_blocks dev (map Some bs) total acc = Ret (acc ++ blocks_bytes (blk dev) bs total).
Proof.
  induction bs as [|b bs IH]; intros total acc Hok Hf Ht Hascii.
  { unfold blocks_bytes. simpl. by rewrite take_nil, app_nil_r. }
  apply Forall_cons in Hf as [Hb Hf]. cbn [map read_file_blocks to_block unwrap mbind comp_bind].
  destruct (read_blk dev b Hok Hb) as [-> Hbk]. pose proof (block_ok_zlen _ Hbk) as Hbl. destruct Hbk as [Hlen _].
  cbn [mbind comp_bind]. unfold BLOCK_SIZE. rewrite sub_ovf_ok by lia. cbn [mbind comp_bind].
  rewrite slice_ok by lia. cbn [mbind comp_bind]. rewrite drop_0, Z.sub_0_r.
  assert (E : blocks_bytes (blk dev) (b :: bs) total =
    take (Z.to_nat (Z.min total 512)) (blk dev b) ++ blocks_bytes (blk dev) bs (total - Z.min total 512)).
  { unfold blocks_bytes. cbn [map concat]. rewrite take_app, Hlen. f_equal.
    - destruct (Z.le_gt_cases total 512); [do 2 f_equal; lia|]. rewrite !take_ge by lia. done.
    - f_equal. lia. }
  rewrite E in Hascii |- *. apply Forall_app in Hascii as [Ha1 Ha2].
  unfold from_utf8. rewrite utf8_ascii by done. cbn [unwrap mbind comp_bind].
  rewrite IH by (done || lia). by rewrite <- app_assoc.
Qed.

(** The blocks in use, in order. *)
Definition block_list (x : INode) : list Z := omap id (in_blocks x).

Lemma used_blocks_list x : used_blocks x = map Some (block_list x).
Proof.
  unfold used_blocks, block_list. induction (in_blocks x) as [|[b|] bs IH]; simpl; by rewrite ?IH.
Qed.

Lemma concat_lookup (f : Z -> list Z) bs (k r : nat) :
  Forall (fun b => length (f b) = 512%nat) bs -> (r < 512)%nat ->
  concat (map f bs) !! (512 * k + r)%nat = (b ← bs !! k; f b !! r).
Proof.
  intros Hf Hr. revert k. induction Hf as [|b bs Hb _ IH]; intros k; [done|]. cbn [map concat].
  destruct k as [|k].
  - rewrite lookup_app_l by lia. done.
  - rewrite lookup_app_r by lia. simpl. rewrite <- IH. f_equal. lia.
Qed.

Lemma omap_all_none {A} (l : list (option A)) :
  (forall j o, l !! j = Some o -> o = None) -> omap id l = [].
Proof.
  induction l as [|o l IH]; intros Hl; [done|]. rewrite (Hl 0%nat o eq_refl). simpl.
  apply IH. intros j. apply (Hl (S j)).
Qed.

Lemma omap_prefix_lookup {A} (l : list (option A)) (m k : nat) :
  (forall j o, l !! j = Some o -> is_Some o <-> (j < m)%nat) -> omap id l !! k = mjoin (l !! k).
Proof.
  revert m k. induction l as [|[a|] l IH]; intros m k Hp; [done| |].
  - destruct k as [|k]; [done|]. apply (IH (m - 1)%nat). intros j o Hj. rewrite (Hp (S j) o Hj). lia.
  - assert (Hnone : forall j o, (None :: l) !! j = Some o -> o = None).
    { intros j o Hj. destruct (decide (m = 0%nat)) as [->|Hm].
      - destruct o; [|done]. apply Hp in Hj as [Hj _]. specialize (Hj ltac:(by eauto)). lia.
      - destruct (Hp 0%nat None eq_refl) as [_ Hm0]. destruct (Hm0 ltac:(lia)) as [? [=]]. }
    rewrite omap_all_none by done. destruct ((None :: l) !! k) as [o|] eqn:E; [|done].
    by rewrite (Hnone _ _ E).
Qed.

Lemma content_blocks f x :
  inode_shape x -> Forall (fun b => length (f b) = 512%nat) (block_list x) -> length (in_blocks x) = 16%nat ->
  content f x = blocks_bytes f (block_list x) (in_size x).
Proof.
  intros [Hs Hslots] Hf Hlen.
  set (m := Z.to_nat ((in_size x + 511) / 512)).
  pose proof (Z.div_mod (in_size x + 511) 512 ltac:(lia)). pose proof (Z.mod_pos_bound (in_size x + 511) 512 ltac:(lia)).
  assert (Hpre : forall j o, in_blocks x !! j = Some o -> is_Some o <-> (j < m)%nat).
  { intros j o Ho. rewrite (Hslots _ _ Ho). lia. }
  assert (Hget : forall k r, 512 * Z.of_nat k + Z.of_nat r < in_size x -> (r < 512)%nat ->
    exists b v, in_blocks x !! k = Some (Some b) /\ f b !! r = Some v /\
      concat (map f (block_list x)) !! (512 * k + r)%nat = Some v).
  { intros k r Hkr Hr. destruct (lookup_lt_is_Some_2 (in_blocks x) k) as [o Ho]; [lia|].
    destruct (proj2 (Hpre _ _ Ho)) as [b ->]; [lia|].
    assert (Hb : block_list x !! k = Some b) by (unfold block_list; by rewrite (omap_prefix_lookup _ m), Ho).
    pose proof (Forall_lookup_1 _ _ _ _ Hf Hb) as Hl. simpl in Hl.
    destruct (lookup_lt_is_Some_2 (f b) r) as [v Hv]; [lia|].
    exists b, v. split_and!; [done..|]. rewrite concat_lookup, Hb by done. done. }
  apply list_eq. intros p. unfold content, bytes_between, blocks_bytes. rewrite list_lookup_fmap.
  destruct (decide (p < Z.to_nat (in_size x))%nat) as [Hp|Hp].
  - rewrite lookup_seq_lt, lookup_take_lt by done. simpl.
    pose proof (Nat.div_mod p 512 ltac:(lia)) as Hdm. pose proof (Nat.mod_upper_bound p 512 ltac:(lia)).
    destruct (Hget (p / 512)%nat (p mod 512)%nat) as (b & v & Hb & Hv & Hc); [lia|done|].
    rewrite <- Hdm in Hc. rewrite Hc. f_equal. unfold byte_at. rewrite Z.add_0_l.
    replace (Z.to_nat (Z.of_nat p / 512)) with (p / 512)%nat by (change 512 with (Z.of_nat 512); rewrite <- Nat2Z.inj_div; lia).
    rewrite Hb. replace (Z.to_nat (Z.of_nat p mod 512)) with (p mod 512)%nat by (change 512 with (Z.of_nat 512); rewrite <- Nat2Z.inj_mod; lia).
    by rewrite Hv.
  - rewrite lookup_seq_ge, lookup_take_ge by lia. done.
Qed.

Lemma inode_blocks_bytes fs i :
  fs_ok fs -> inode_inv fs i ->
  Forall (fun b => 0 <= b < total_blocks (block_device fs)) (block_list (fs_inode fs i)) /\
  fs_content fs i = blocks_bytes (blk (block_device fs)) (block_list (fs_inode fs i)) (in_size (fs_inode fs i)).
Proof.
  intros Hfs Hii. pose proof (ii_range _ _ Hii) as Hi.
  pose proof (fs_inode_ok _ _ Hfs Hi) as [_ Hlen _].
  pose proof (geo_count _ _ _ (fo_geo _ Hfs)).
  destruct (geometry_inode _ _ _ 0 (fo_geo _ Hfs)) as (_ & ? & ? & _); [lia|].
  assert (Hbl : Forall (fun b => 0 <= b < total_blocks (block_device fs)) (block_list (fs_inode fs i))).
  { apply Forall_forall. intros b Hb. apply list_elem_of_omap in Hb as (o & Ho & E). unfold id in E. subst o.
    apply list_elem_of_lookup in Ho as [k Hk]. destruct (ii_live _ _ Hii k b Hk). lia. }
  split; [done|]. apply content_blocks; [apply Hii| |done]. eapply Forall_impl; [exact Hbl|].
  intros b Hb. simpl in Hb. by destruct (read_blk _ b (fo_dev _ Hfs) Hb) as [_ []].
Qed.

Lemma read_file_content fs i acc :
  fs_ok fs -> inode_inv fs i -> Forall (fun b => 0 <= b < 128) (fs_content fs i) ->
  read_file_blocks (block_device fs) (used_blocks (fs_inode fs i)) (in_size (fs_inode fs i)) acc =
    Ret (acc ++ fs_content fs i).
Proof.
  intros Hfs Hii Hascii. destruct (inode_blocks_bytes fs i Hfs Hii) as [Hbl E].
  rewrite used_blocks_list, read_file_blocks_spec; [by rewrite E|apply (fo_dev _ Hfs)|done| |by rewrite <- E].
  destruct (ii_shape _ _ Hii). lia.
Qed.

(** The first block's part is decoded on its own. *)
Lemma read_file_content_bad fs i acc :
  fs_ok fs -> inode_inv fs i -> utf8_valid (take 512 (fs_content fs i)) = false ->
  read_file_blocks (block_device fs) (used_blocks (fs_inode fs i)) (in_size (fs_inode fs i)) acc = Panic.
Proof.
  intros Hfs Hii Hbad. destruct (inode_blocks_bytes fs i Hfs Hii) as [Hbl E].
  destruct (ii_shape _ _ Hii) as [Hsz _]. rewrite E in Hbad. rewrite used_blocks_list.
  unfold blocks_bytes in Hbad. destruct (block_list (fs_inode fs i)) as [|b bs]; [cbn [map concat] in Hbad; by rewrite !take_nil in Hbad|].
  apply Forall_cons in Hbl as [Hb _]. cbn [map read_file_blocks to_block unwrap mbind comp_bind].
  destruct (read_blk (block_device fs) b (fo_dev _ Hfs) Hb) as [-> Hbk]. pose proof (block_ok_zlen _ Hbk) as Hl.
  destruct Hbk as [Hlen _]. cbn [mbind comp_bind]. unfold BLOCK_SIZE. rewrite sub_ovf_ok by lia. cbn [mbind comp_bind].
  rewrite slice_ok by lia. cbn [mbind comp_bind]. rewrite drop_0, Z.sub_0_r.
  cbn [map concat] in Hbad. rewrite take_take, take_app_le in Hbad by lia.
  unfold from_utf8. replace (Z.to_nat (Z.min (in_size (fs_inode fs i)) 512))
    with (512 `min` Z.to_nat (in_size (fs_inode fs i)))%nat by lia. by rewrite Hbad.
Qed.
End Grow.
