(* ===== verification/FsDirs.v ===== *)
(** * Directories

    The entries of a directory, as its contents decoded; what [read_dir_entry],
    the path walk and [resolve_path] return, as pure functions of the entries;
    and what [write_dir_entry] and [new_inode] do. *)
From S2P Require Import Prelude Bitmap Bytes Layout INode DirEntry BlockDev INodeCache SuperBlock Filesystem FsBase FsState FsFiles.

(** ** Entries *)
Fixpoint decode_entries (n : nat) (bs : list Z) : list DirEntry :=
  match n with
  | O => []
  | S n => decode_dir_entry (take 28 bs) :: decode_entries n (drop 28 bs)
  end.

Lemma length_decode_entries n bs : length (decode_entries n bs) = n.
Proof. revert bs. induction n; intros; simpl; auto. Qed.

Lemma decode_entries_snoc n bs e :
  length bs = (28 * n)%nat -> dir_entry_ok e ->
  decode_entries (S n) (bs ++ encode_dir_entry e) = decode_entries n bs ++ [e].
Proof.
  intros Hl He. pose proof (zlen_encode_dir_entry e He) as Hz. unfold zlen in Hz. revert bs Hl.
  induction n as [|n IH]; intros bs Hl.
  - destruct bs; [|done]. cbn [decode_entries app]. rewrite take_ge by lia.
    by rewrite decode_encode_dir_entry.
  - cbn [decode_entries app]. rewrite take_app_le, drop_app_le by lia. cbn [decode_entries] in IH.
    rewrite <- (IH (drop 28 bs)) by (rewrite length_drop; lia). done.
Qed.

Lemma decode_entries_take n bs : decode_entries n (take (28 * n) bs) = decode_entries n bs.
Proof.
  revert bs. induction n as [|n IH]; intros bs; [done|]. cbn [decode_entries]. f_equal.
  - rewrite take_take. do 2 f_equal. lia.
  - replace (28 * S n)%nat with (28 + 28 * n)%nat by lia.
    rewrite skipn_firstn_comm. replace (28 + 28 * n - 28)%nat with (28 * n)%nat by lia. apply IH.
Qed.

Lemma decode_entries_ok n bs :
  (28 * n <= length bs)%nat -> Forall is_u8 bs -> Forall dir_entry_ok (decode_entries n bs).
Proof.
  revert bs. induction n as [|n IH]; intros bs Hl Hb; [constructor|]. cbn [decode_entries]. constructor.
  - pose proof (decode_ok (T := DirEntry) (take 28 bs)) as Hd. apply Hd; [|by apply Forall_take].
    unfold zlen. rewrite length_take. change (disk_size DirEntry) with 28. lia.
  - apply IH; [rewrite length_drop; lia|by apply Forall_drop].
Qed.

Section Dirs.
Context {D : Type} `{BlockDeviceLaws D}.
Implicit Types (dev : D) (fs : Filesystem D).

Lemma read_entries_spec n : forall i buf,
  zlen buf = 512 -> 0 <= i -> 28 * (i + Z.of_nat n) <= 512 ->
  read_entries n i buf = Ret (decode_entries n (drop (Z.to_nat (28 * i)) buf)).
Proof.
  induction n as [|n IH]; intros i buf Hb Hi Hle; [done|]. cbn [read_entries decode_entries].
  unfold size_of_DirEntry. pose proof (read_struct_at_spec (T := DirEntry) buf (i * 28) Hb) as E.
  rewrite E by (simpl; lia). cbn [mbind comp_bind]. rewrite IH by lia. cbn [mbind comp_bind].
  unfold struct_at. do 2 f_equal.
  - change (decode (T := DirEntry)) with decode_dir_entry. do 2 f_equal. f_equal. lia.
  - rewrite drop_drop. do 2 f_equal. lia.
Qed.

(** The directories the program can make: entries fill at most one block, and
    the size counts whole entries. *)
Definition dir_shape (x : INode) : Prop := in_size x mod 28 = 0 /\ in_size x <= 504.

Definition entry_count (x : INode) : nat := Z.to_nat (in_size x / 28).

(** The entries of directory [i]; none for anything else. *)
Definition fs_entries fs (i : Z) : list DirEntry :=
  if in_is_directory (fs_inode fs i)
  then decode_entries (entry_count (fs_inode fs i)) (fs_content fs i) else [].

Record dir_inv fs (i : Z) : Prop := {
  di_inode : inode_inv fs i;
  di_shape : in_is_directory (fs_inode fs i) = true -> dir_shape (fs_inode fs i);
}.

Lemma dir_blocks fs i :
  fs_ok fs -> dir_inv fs i -> in_is_directory (fs_inode fs i) = true -> 0 < in_size (fs_inode fs i) ->
  exists b, block_list (fs_inode fs i) = [b] /\
    data_start (fs_layout fs) <= b < total_blocks (block_device fs) /\
    fs_content fs i = take (Z.to_nat (in_size (fs_inode fs i))) (blk (block_device fs) b).
Proof.
  intros Hfs [Hii Hsh] Hd Hpos. destruct (Hsh Hd) as [_ Hle]. pose proof (ii_range _ _ Hii) as Hi.
  pose proof (fs_inode_ok _ _ Hfs Hi) as [_ Hlen _]. pose proof (ii_shape _ _ Hii) as [_ Hslots].
  destruct (lookup_lt_is_Some_2 (in_blocks (fs_inode fs i)) 0) as [o Ho]; [lia|].
  destruct (proj2 (Hslots _ _ Ho)) as [b ->]; [lia|].
  assert (Hbl : block_list (fs_inode fs i) = [b]).
  { unfold block_list. destruct (in_blocks (fs_inode fs i)) as [|o l] eqn:E; [done|].
    injection Ho as ->. simpl. f_equal. apply omap_all_none. intros j o Hj.
    destruct o as [c|]; [|done]. destruct (Hslots (S j) (Some c)) as [Hc _]; [done|].
    specialize (Hc ltac:(by eauto)). lia. }
  destruct (ii_live _ _ Hii _ _ Ho) as [Hr _]. exists b. split_and!; [done|lia|lia|].
  unfold fs_content. rewrite content_blocks; [|apply Hii| |done].
  - unfold blocks_bytes. rewrite Hbl. simpl. by rewrite app_nil_r.
  - rewrite Hbl. repeat constructor.
    pose proof (geo_count _ _ _ (fo_geo _ Hfs)).
    destruct (geometry_inode _ _ _ 0 (fo_geo _ Hfs)) as (_ & ? & ? & _); [lia|].
    by destruct (read_blk (block_device fs) b (fo_dev _ Hfs)) as [_ []]; [lia|].
Qed.

Lemma dir_inv_equiv fs fs' i : fs_equiv fs fs' -> dir_inv fs i -> dir_inv fs' i.
Proof.
  intros He [Hii Hs]. constructor; [by eapply inode_inv_equiv|].
  by rewrite <- (fe_inode _ _ He) by apply (ii_range _ _ Hii).
Qed.

Lemma fs_entries_equiv fs fs' i : fs_equiv fs fs' -> inode_inv fs i -> fs_entries fs' i = fs_entries fs i.
Proof.
  intros He Hii. unfold fs_entries. rewrite (fs_content_equiv fs fs') by done.
  by rewrite <- (fe_inode _ _ He) by apply (ii_range _ _ Hii).
Qed.

Lemma entry_count_28 x : 0 <= in_size x -> in_size x mod 28 = 0 -> Z.of_nat (entry_count x) * 28 = in_size x.
Proof.
  intros. unfold entry_count. pose proof (Z.div_mod (in_size x) 28 ltac:(lia)).
  pose proof (Z.div_pos (in_size x) 28). lia.
Qed.

Lemma read_dir_entry_spec fs i :
  fs_ok fs -> dir_inv fs i ->
  exists fs', read_dir_entry fs i = Ret (fs_entries fs i, fs') /\ fs_ok fs' /\ fs_equiv fs fs'.
Proof.
  intros Hfs Hdi. pose proof (di_inode _ _ Hdi) as Hii. pose proof (ii_range _ _ Hii) as Hi.
  destruct (lookup_inode_spec fs i Hfs Hi) as (fs' & E & Hok' & He & Hdev). exists fs'. split; [|done].
  unfold read_dir_entry. rewrite E. cbn [mbind comp_bind]. unfold fs_entries.
  destruct (in_is_directory (fs_inode fs i)) eqn:Hd; [|by rewrite orb_true_r].
  destruct (di_shape _ _ Hdi Hd) as [Hm Hle]. destruct (ii_shape _ _ Hii) as [Hs _]. 
  pose proof (entry_count_28 (fs_inode fs i) ltac:(lia) Hm) as Hcount.
  destruct (Z.eqb_spec (in_size (fs_inode fs i)) 0) as [Hz|Hne]; cbn [orb negb].
  { assert (entry_count (fs_inode fs i) = 0%nat) as -> by lia. done. }
  destruct (dir_blocks fs i Hfs Hdi Hd) as (b & Hbl & Hb & Hc); [lia|].
  unfold current_dir_entries. rewrite Hd. cbn [assert mbind comp_bind].
  rewrite used_blocks_list, Hbl. unfold to_block. cbn [map omap list_omap read_dir_blocks].
  pose proof (geo_count _ _ _ (fo_geo _ Hfs)).
  destruct (geometry_inode _ _ _ 0 (fo_geo _ Hfs)) as (_ & ? & ? & _); [lia|].
  rewrite Hdev. destruct (read_blk (block_device fs) b (fo_dev _ Hfs)) as [Er Hbk]; [lia|].
  rewrite Er. cbn [mbind comp_bind]. unfold size_of_DirEntry. rewrite DIR_ENTRY_PER_BLOCK_val.
  assert (Hdiv : in_size (fs_inode fs i) / 28 = Z.of_nat (entry_count (fs_inode fs i))).
  { unfold entry_count. pose proof (Z.div_pos (in_size (fs_inode fs i)) 28). lia. }
  change (@zlen DirEntry []) with 0. rewrite Hdiv, sub_ovf_ok by lia. cbn [mbind comp_bind]. rewrite Z.sub_0_r.
  rewrite Z.min_l by lia. rewrite Nat2Z.id. 
  rewrite read_entries_spec by (done || lia || by apply block_ok_zlen). cbn [mbind comp_bind app].
  unfold zlen. rewrite length_decode_entries, Z.eqb_refl. cbn [mbind comp_bind].
  change (Z.to_nat (28 * 0)) with 0%nat. rewrite drop_0, Hc.
  replace (Z.to_nat (in_size (fs_inode fs i))) with (28 * entry_count (fs_inode fs i))%nat by lia.
  by rewrite decode_entries_take.
Qed.

(** ** Allocation of inodes *)
Definition allocated fs (i : Z) : Prop := 0 <= i /\ bm_test (inode_bitmap fs) i = true.

Lemma allocated_range fs i : fs_ok fs -> allocated fs i -> 0 <= i < inode_count fs.
Proof. intros Hfs [Hi Ht]. split; [done|]. by apply bm_test_lt; [apply (fo_ibm _ Hfs)|..]. Qed.

(** Block [b] belongs to inode [i]. *)
Definition owns fs (i b : Z) : Prop := exists k, in_blocks (fs_inode fs i) !! k = Some (Some b).

(** The invariant of a filesystem: every allocated inode is well formed,
    directory entries lead to allocated inodes, no block belongs to two inodes,
    and a data block is marked in use only if it belongs to one. *)
Record tree_inv fs : Prop := {
  ti_ok : fs_ok fs;
  ti_root : allocated fs 0 /\ in_is_directory (fs_inode fs 0) = true;
  ti_dir i : allocated fs i -> dir_inv fs i;
  ti_entry i e : allocated fs i -> e ∈ fs_entries fs i -> allocated fs (de_inode e);
  ti_owner i j b : allocated fs i -> allocated fs j -> owns fs i b -> owns fs j b -> i = j;
  ti_used v : 0 <= v -> bm_test (data_bitmap fs) v = true ->
    exists i, allocated fs i /\ owns fs i (data_start (fs_layout fs) + v);
}.

Lemma allocated_equiv fs fs' i : fs_equiv fs fs' -> allocated fs i <-> allocated fs' i.
Proof. intros He. unfold allocated. by rewrite (fe_ibm _ _ He). Qed.

Lemma owns_equiv fs fs' i b : fs_equiv fs fs' -> 0 <= i < inode_count fs -> owns fs' i b <-> owns fs i b.
Proof. intros He Hi. unfold owns. by rewrite (fe_inode _ _ He). Qed.

Lemma tree_inv_equiv fs fs' : fs_ok fs' -> fs_equiv fs fs' -> tree_inv fs -> tree_inv fs'.
Proof.
  intros Hok He [Hok0 [Hr Hrd] Hdir Hent Hown Hused].
  assert (Ha : forall i, allocated fs' i -> allocated fs i) by (intros i; apply (allocated_equiv _ _ _ He)).
  constructor; [done|split; [by apply (allocated_equiv _ _ _ He)|]| | | |].
  - rewrite <- (fe_inode _ _ He); [done|]. by apply allocated_range.
  - intros i Hi%Ha. eapply dir_inv_equiv; eauto.
  - intros i e Hi%Ha Hin.
    rewrite (fs_entries_equiv _ _ _ He (di_inode _ _ (Hdir _ Hi))) in Hin.
    apply (allocated_equiv _ _ _ He). eauto.
  - intros i j b Hi%Ha Hj%Ha. rewrite !(owns_equiv _ _ _ _ He) by (by apply allocated_range). eauto.
  - intros v Hv. rewrite <- (fe_dbm _ _ He), <- (fe_layout _ _ He). intros Ht.
    destruct (Hused v Hv Ht) as (i & Hi & Ho). exists i. split; [by apply (allocated_equiv _ _ _ He)|].
    apply (owns_equiv _ _ _ _ He); [by apply allocated_range|done].
Qed.

(** ** Paths *)

(** The walk as a function of the directories. *)
Fixpoint walk_spec fs (dir : Z) (parts : list (list Z)) : result Error Z :=
  match parts with
  | [] => Ok dir
  | part :: parts =>
      match find_entry part (fs_entries fs dir) with
      | None => Err NotFound
      | Some next =>
          if in_is_directory (fs_inode fs (de_inode next)) then walk_spec fs (de_inode next) parts
          else Err NotADirectory
      end
  end.

Definition resolve_spec fs (path : list Z) : result Error ResolvedPath :=
  let '(path, basename) := default (path, path) (rsplit_once SLASH path) in
  match walk_spec fs 0 (path_parts path) with
  | Err e => Err e
  | Ok parent =>
      match find_entry basename (fs_entries fs parent) with
      | None => Err NotFound
      | Some file => Ok (mkResolved parent basename (de_inode file))
      end
  end.

Lemma find_entry_some name es e : find_entry name es = Some e -> e ∈ es /\ byte_compare name (DirEntry_name e) = true.
Proof. intros E. apply List.find_some in E as [Hin ?]. split; [by apply list_elem_of_In|done]. Qed.

Lemma walk_spec_equiv fs fs' parts : tree_inv fs -> fs_equiv fs fs' -> forall dir,
  allocated fs dir -> walk_spec fs' dir parts = walk_spec fs dir parts.
Proof.
  intros Hti He. induction parts as [|p parts IH]; intros dir Ha; [done|]. cbn [walk_spec].
  rewrite (fs_entries_equiv _ _ _ He (di_inode _ _ (ti_dir _ Hti _ Ha))).
  destruct (find_entry p _) as [e|] eqn:E; [|done]. apply find_entry_some in E as [Hin _].
  pose proof (ti_entry _ Hti _ _ Ha Hin) as Hae.
  rewrite <- (fe_inode _ _ He) by (apply allocated_range; [apply Hti|done]).
  by destruct (in_is_directory _); [apply IH|].
Qed.

Lemma walk_spec_allocated fs parts : tree_inv fs -> forall dir d,
  allocated fs dir -> in_is_directory (fs_inode fs dir) = true -> walk_spec fs dir parts = Ok d ->
  allocated fs d /\ in_is_directory (fs_inode fs d) = true.
Proof.
  intros Hti. induction parts as [|p parts IH]; intros dir d Ha Hd E; simpl in E; [by injection E as <-|].
  destruct (find_entry p _) as [e|] eqn:Ef; [|done]. apply find_entry_some in Ef as [Hin _].
  pose proof (ti_entry _ Hti _ _ Ha Hin) as Hae.
  destruct (in_is_directory (fs_inode fs (de_inode e))) eqn:Hde; [|done]. eauto.
Qed.

Lemma walk_snoc fs parts dir d name e :
  walk_spec fs dir parts = Ok d -> find_entry name (fs_entries fs d) = Some e ->
  in_is_directory (fs_inode fs (de_inode e)) = true -> walk_spec fs dir (parts ++ [name]) = Ok (de_inode e).
Proof.
  revert dir. induction parts as [|p parts IH]; intros dir; simpl; [by intros [= ->] -> ->|].
  destruct (find_entry p _) as [x|]; [|done]. destruct (in_is_directory (fs_inode fs (de_inode x))); [|done]. apply IH.
Qed.

Lemma walk_run parts : forall fs dir,
  tree_inv fs -> allocated fs dir ->
  exists fs', walk fs dir parts = Ret (walk_spec fs dir parts, fs') /\ fs_ok fs' /\ fs_equiv fs fs'.
Proof.
  induction parts as [|p parts IH]; intros fs dir Hti Ha.
  { exists fs. split; [done|]. split; [apply Hti|done]. }
  cbn [walk walk_spec].
  destruct (read_dir_entry_spec fs dir (ti_ok _ Hti) (ti_dir _ Hti _ Ha)) as (f1 & -> & Hok1 & He1).
  cbn [mbind comp_bind]. destruct (find_entry p (fs_entries fs dir)) as [e|] eqn:Ef; [|by exists f1].
  apply find_entry_some in Ef as [Hin _]. pose proof (ti_entry _ Hti _ _ Ha Hin) as Hae.
  pose proof (allocated_range _ _ (ti_ok _ Hti) Hae) as Hr.
  destruct (lookup_inode_spec f1 (de_inode e) Hok1) as (f2 & E2 & Hok2 & He2 & _); [by rewrite <- (fe_ibm _ _ He1)|].
  rewrite E2. cbn [mbind comp_bind]. rewrite <- (fe_inode _ _ He1) by done.
  assert (He : fs_equiv fs f2) by (by transitivity f1).
  destruct (in_is_directory (fs_inode fs (de_inode e))); cbn [negb]; [|by exists f2].
  destruct (IH f2 (de_inode e)) as (f3 & E3 & Hok3 & He3);
    [by apply (tree_inv_equiv fs)|by apply (allocated_equiv _ _ _ He)|].
  exists f3. rewrite E3, (walk_spec_equiv fs f2) by done. split_and!; [done..|by transitivity f2].
Qed.

Lemma resolve_path_run fs path :
  tree_inv fs ->
  exists fs', resolve_path fs path = Ret (resolve_spec fs path, fs') /\ fs_ok fs' /\ fs_equiv fs fs'.
Proof.
  intros Hti. pose proof (ti_root _ Hti) as [Hra Hrd]. unfold resolve_path, resolve_spec.
  destruct (default (path, path) _) as [dirs basename].
  destruct (walk_run (path_parts dirs) fs 0 Hti Hra) as (f1 & -> & Hok1 & He1). cbn [mbind comp_bind].
  destruct (walk_spec fs 0 (path_parts dirs)) as [parent|e] eqn:Ew; [|by exists f1].
  destruct (walk_spec_allocated fs _ Hti 0 parent Hra Hrd Ew) as [Hpa _].
  destruct (read_dir_entry_spec f1 parent Hok1) as (f2 & -> & Hok2 & He2).
  { apply (dir_inv_equiv fs); [done|]. by apply (ti_dir _ Hti). }
  cbn [mbind comp_bind]. rewrite (fs_entries_equiv _ _ _ He1 (di_inode _ _ (ti_dir _ Hti _ Hpa))).
  exists f2. split; [by destruct (find_entry _ _)|]. split; [done|by transitivity f1].
Qed.

Lemma resolve_spec_allocated fs path r :
  tree_inv fs -> resolve_spec fs path = Ok r ->
  allocated fs (rp_parent r) /\ allocated fs (rp_basename_inode r) /\
  in_is_directory (fs_inode fs (rp_parent r)) = true.
Proof.
  intros Hti. pose proof (ti_root _ Hti) as [Hra Hrd]. unfold resolve_spec.
  destruct (default (path, path) _) as [dirs basename].
  destruct (walk_spec fs 0 (path_parts dirs)) as [parent|] eqn:Ew; [|done].
  destruct (find_entry basename _) as [e|] eqn:Ef; [|done]. intros [= <-]. simpl.
  destruct (walk_spec_allocated fs _ Hti 0 parent Hra Hrd Ew) as [Hpa Hpd].
  apply find_entry_some in Ef as [Hin _]. split_and!; [done| |done]. by eapply (ti_entry _ Hti).
Qed.

(** ** Growing one inode inside the tree *)

(** The other inodes keep their contents. *)
Lemma grown_frame fs fs' i chunk j :
  tree_inv fs -> allocated fs i -> grown fs fs' i chunk -> allocated fs j -> j <> i ->
  fs_inode fs' j = fs_inode fs j /\ fs_content fs' j = fs_content fs j /\
  fs_entries fs' j = fs_entries fs j /\ dir_inv fs' j.
Proof.
  intros Hti Hi Hg Hj Hne. pose proof (ti_ok _ Hti) as Hok.
  pose proof (allocated_range _ _ Hok Hj) as Hjr.
  pose proof (gr_others _ _ _ _ Hg j Hjr Hne) as Ein.
  pose proof (ti_dir _ Hti _ Hj) as [Hii Hsh].
  assert (Hc : fs_content fs' j = fs_content fs j).
  { unfold fs_content. rewrite Ein. apply content_ext. intros k b Hb.
    destruct (ii_live _ _ Hii k b Hb) as [Hr Hl]. apply (gr_data _ _ _ _ Hg); [done|].
    intros k' Hk'. destruct (gr_fresh _ _ _ _ Hg _ _ Hk') as [Hold|Hfree]; [|congruence].
    apply Hne. apply (ti_owner _ Hti j i b); [done..|by exists k|by exists k']. }
  split_and!; [done..| |].
  - unfold fs_entries. by rewrite Hc, Ein.
  - constructor; [|by rewrite Ein]. destruct Hii as [Hr Hs Hd Hlive].
    constructor; rewrite ?Ein; [by rewrite (gr_ibm _ _ _ _ Hg)|done..|].
    intros k b Hb. destruct (Hlive k b Hb) as [Hb1 Hb2].
    rewrite (gr_layout _ _ _ _ Hg), (gr_total _ _ _ _ Hg). split; [done|].
    apply (gr_mono _ _ _ _ Hg); [lia|done].
Qed.

Lemma grown_allocated fs fs' i chunk j : grown fs fs' i chunk -> allocated fs' j <-> allocated fs j.
Proof. intros Hg. unfold allocated. by rewrite (gr_ibm _ _ _ _ Hg). Qed.

(** The invariant survives, provided the grown inode itself stays a proper
    directory when it is one. *)
Lemma grown_tree fs fs' i chunk :
  tree_inv fs -> allocated fs i -> grown fs fs' i chunk ->
  (in_is_directory (fs_inode fs i) = true -> dir_shape (fs_inode fs' i)) ->
  (forall e, e ∈ fs_entries fs' i -> allocated fs (de_inode e)) ->
  tree_inv fs'.
Proof.
  intros Hti Hi Hg Hsh Hents. pose proof (ti_ok _ Hti) as Hok. pose proof (ti_root _ Hti) as [Hr Hrd].
  assert (Ha : forall j, allocated fs' j <-> allocated fs j) by (intros; by eapply grown_allocated).
  assert (Howns : forall j b, allocated fs j -> owns fs' j b ->
    owns fs j b \/ j = i /\ bm_test (data_bitmap fs) (b - data_start (fs_layout fs)) = false).
  { intros j b Hj [k Hk]. destruct (Z.eq_dec j i) as [->|Hne].
    - destruct (gr_fresh _ _ _ _ Hg _ _ Hk); [left; by exists k|by right].
    - left. exists k. by rewrite <- (gr_others _ _ _ _ Hg) by (done || by apply allocated_range). }
  assert (Hlive : forall j b, allocated fs j -> owns fs j b -> bm_test (data_bitmap fs) (b - data_start (fs_layout fs)) = true).
  { intros j b Hj [k Hk]. by apply (ii_live _ _ (di_inode _ _ (ti_dir _ Hti _ Hj)) k b). }
  constructor.
  - apply Hg.
  - split; [by apply Ha|]. destruct (Z.eq_dec 0 i) as [<-|Hne].
    + by rewrite (gr_dir _ _ _ _ Hg).
    + by rewrite (gr_others _ _ _ _ Hg) by (done || by apply allocated_range).
  - intros j Hj%Ha. destruct (Z.eq_dec j i) as [->|Hne].
    + constructor; [apply Hg|]. by rewrite (gr_dir _ _ _ _ Hg).
    + by apply (grown_frame fs fs' i chunk j).
  - intros j e Hj%Ha Hin. apply Ha. destruct (Z.eq_dec j i) as [->|Hne]; [by apply Hents|].
    destruct (grown_frame fs fs' i chunk j) as (_ & _ & E & _); [done..|]. rewrite E in Hin.
    by eapply (ti_entry _ Hti).
  - intros j1 j2 b Hj1%Ha Hj2%Ha H1 H2.
    destruct (Howns _ _ Hj1 H1) as [O1|[-> F1]], (Howns _ _ Hj2 H2) as [O2|[-> F2]].
    + by apply (ti_owner _ Hti j1 j2 b).
    + rewrite (Hlive _ _ Hj1 O1) in F2. done.
    + rewrite (Hlive _ _ Hj2 O2) in F1. done.
    + done.
  - intros v Hv Ht. rewrite (gr_layout _ _ _ _ Hg).
    destruct (gr_noleak _ _ _ _ Hg v Hv Ht) as [Hold|[k Hk]].
    + destruct (ti_used _ Hti v Hv Hold) as (j & Hj & [k Hk]). exists j. split; [by apply Ha|].
      destruct (Z.eq_dec j i) as [->|Hne]; [exists k; by apply (gr_keep _ _ _ _ Hg)|].
      exists k. by rewrite (gr_others _ _ _ _ Hg) by (done || by apply allocated_range).
    + exists i. split; [by apply Ha|]. by exists k.
Qed.

(** A file of the tree may grow by anything. *)
Lemma grown_tree_file fs fs' i chunk :
  tree_inv fs -> allocated fs i -> in_is_directory (fs_inode fs i) = false -> grown fs fs' i chunk ->
  tree_inv fs'.
Proof.
  intros Hti Hi Hd Hg. apply (grown_tree fs fs' i chunk); try done.
  - by rewrite Hd.
  - intros e. unfold fs_entries. rewrite (gr_dir _ _ _ _ Hg), Hd. intros He. by apply not_elem_of_nil in He.
Qed.
End Dirs.
