(* ===== verification/FsCreate.v ===== *)
(** * Creating files and directories

    [write_dir_entry], [new_inode] and [new_dir_entry] against the tree
    invariant: which errors are reported, what a successful creation changes,
    and the two states in which creation panics. *)
From S2P Require Import Prelude Bitmap Bytes Layout INode DirEntry BlockDev INodeCache SuperBlock Filesystem FsBase FsState FsFiles FsDirs.

Section Create.
Context {D : Type} `{BlockDeviceLaws D}.
Implicit Types (dev : D) (fs : Filesystem D).

Lemma data_start_pos fs : fs_ok fs -> 0 < data_start (fs_layout fs) < total_blocks (block_device fs).
Proof.
  intros Hfs. pose proof (geo_count _ _ _ (fo_geo _ Hfs)).
  destruct (geometry_inode _ _ _ 0 (fo_geo _ Hfs)) as (_ & ? & ? & ?); lia.
Qed.

(** ** Writing an entry *)
Lemma write_dir_entry_spec fs i e :
  fs_ok fs -> dir_inv fs i -> in_is_directory (fs_inode fs i) = true ->
  in_size (fs_inode fs i) < 504 -> dir_entry_ok e ->
  exists res fs', write_dir_entry fs e i = Ret (res, fs') /\
    ((res = Ok tt /\ grown fs fs' i (encode_dir_entry e)) \/
     (res = Err NoSpaceLeft /\ fs_ok fs' /\ fs_equiv fs fs' /\
      in_size (fs_inode fs i) = 0 /\ find_free (data_bitmap fs) = None)).
Proof.
  intros Hfs [Hii Hsh] Hd Hlt He. destruct (Hsh Hd) as [Hm _]. pose proof (ii_range _ _ Hii) as Hi.
  destruct (lookup_inode_mut_spec fs i Hfs Hi) as (f0 & E0 & Hok0 & He0 & Hdev0 & Hbor0).
  unfold write_dir_entry. rewrite E0. cbn [mbind comp_bind]. rewrite Hd. cbn [negb].
  rewrite (fe_inode _ _ He0) in Hm, Hd, Hlt |- * by done.
  pose proof (inode_inv_equiv _ _ _ He0 Hii) as Hii0. destruct (ii_shape _ _ Hii0) as [Hsz Hslots].
  destruct (write_slot_in f0 i Hok0 Hii0) as (ob & Hob & Es); [lia|]. rewrite Es. cbn [ws_block ws_byte_offset].
  set (x := fs_inode f0 i) in *. set (chunk := encode_dir_entry e).
  assert (Hcl : zlen chunk = 28) by (by apply zlen_encode_dir_entry).
  assert (Hsize : in_size x <= 476).
  { pose proof (Z.div_mod (in_size x) 28 ltac:(lia)). lia. }
  assert (Hk : in_size x / 512 = 0) by (apply Z.div_small; lia).
  assert (Hmod : in_size x mod 512 = in_size x) by (apply Z.mod_small; lia).
  destruct (ensure_block_spec f0 i (in_size x / 512) ob Hok0 Hii0 Hbor0 Hob) as
    [(-> & Hfull & E)|(b & x1 & fs1 & E & Hx1 & Hx1ok & Hb & Hfs1 & Hbor1 & Hdev1 & Hlay1 & Hib1 & Hin1 & Hcase & Hdb1)];
    [lia| |]; fold x in E; rewrite E; cbn [mbind comp_bind].
  - eexists _, f0. split; [done|]. right. split_and!; [done..| |by rewrite (fe_dbm _ _ He0)].
    rewrite Hk in Hob. apply Hslots in Hob as Hs0. destruct (Z.lt_ge_cases 0 (in_size x)); [|lia].
    destruct Hs0 as [_ Hs0]. destruct (Hs0 ltac:(lia)) as [? [=]].
  - cbn [to_block unwrap mbind comp_bind]. rewrite Hdev1.
    pose proof (data_start_pos _ Hok0) as Hds.
    destruct (read_blk (block_device f0) b (fo_dev _ Hok0)) as [_ Hbk]; [lia|].
    pose proof (write_struct_at_spec (T := DirEntry) (blk (block_device f0) b) e (in_size x mod 512)
      (block_ok_zlen _ Hbk) He ltac:(lia) ltac:(simpl; lia)) as Ew.
    pose proof (splice_encode_ok (T := DirEntry) (blk (block_device f0) b) e (in_size x mod 512)
      Hbk He ltac:(lia) ltac:(simpl; lia)) as Hbok'.
    destruct (modify_blk (block_device f0) b (fun buf =>
      buf ← write_struct_at buf e (in_size x mod 512); Ret (tt, buf)) tt
      (splice (blk (block_device f0) b) (in_size x mod 512) chunk)) as (dev' & Em & Hu);
      [apply (fo_dev _ Hok0)|lia|by rewrite Ew|exact Hbok'|].
    rewrite Em. cbn [mbind comp_bind].
    assert (Hsx : in_size x1 = in_size x) by (by rewrite Hx1).
    change DIR_ENTRY_SIZE with 28. rewrite inode_advance_spec by lia. cbn [mbind comp_bind].
    destruct (grow_store f0 fs1 dev' i ob b x1 chunk) as (Hg & _ & _); try done; try (fold x; lia).
    replace (mkINode (in_size x1 + 28) (in_blocks x1) (in_is_directory x1))
      with (mkINode (in_size x + zlen chunk) (in_blocks x1) (in_is_directory x))
      by (rewrite Hcl, Hx1; done).
    eexists _, _. split; [done|]. left. split; [done|].
    apply (grown_trans fs f0 _ i [] chunk Hii); [by apply grown_equiv|exact Hg].
Qed.

(** What growing by an encoded entry means for the listing. *)
Lemma grown_entries fs fs' i e :
  fs_ok fs -> dir_inv fs i -> in_is_directory (fs_inode fs i) = true -> in_size (fs_inode fs i) < 504 ->
  dir_entry_ok e -> grown fs fs' i (encode_dir_entry e) ->
  fs_entries fs' i = fs_entries fs i ++ [e] /\ dir_shape (fs_inode fs' i).
Proof.
  intros Hfs [Hii Hsh] Hd Hlt He Hg. destruct (Hsh Hd) as [Hm _]. destruct (ii_shape _ _ Hii) as [Hsz _].
  pose proof (gr_size _ _ _ _ Hg) as Es. rewrite zlen_encode_dir_entry in Es by done.
  pose proof (Z.div_mod (in_size (fs_inode fs i)) 28 ltac:(lia)).
  assert (Hm' : in_size (fs_inode fs' i) mod 28 = 0).
  { rewrite Es. replace (in_size (fs_inode fs i) + 28) with (in_size (fs_inode fs i) + 1 * 28) by lia. by rewrite Z_mod_plus_full. }
  split; [|split; [done|lia]].
  unfold fs_entries. rewrite (gr_dir _ _ _ _ Hg), Hd, (gr_content _ _ _ _ Hg).
  pose proof (entry_count_28 _ (proj1 Hsz) Hm). pose proof (entry_count_28 (fs_inode fs' i) ltac:(lia) Hm').
  replace (entry_count (fs_inode fs' i)) with (S (entry_count (fs_inode fs i))) by lia.
  apply decode_entries_snoc; [|done].
  pose proof (zlen_bytes_between (blk (block_device fs)) (fs_inode fs i) 0 _ (proj1 Hsz)) as Hl.
  unfold zlen in Hl. unfold fs_content, content. lia.
Qed.

(** The nineteenth entry does not fit and the code panics. *)
Lemma write_dir_entry_full fs i e :
  fs_ok fs -> dir_inv fs i -> in_is_directory (fs_inode fs i) = true -> in_size (fs_inode fs i) = 504 ->
  dir_entry_ok e -> write_dir_entry fs e i = Panic.
Proof.
  intros Hfs [Hii Hsh] Hd Hs He. pose proof (ii_range _ _ Hii) as Hi.
  destruct (lookup_inode_mut_spec fs i Hfs Hi) as (f0 & E0 & Hok0 & He0 & Hdev0 & Hbor0).
  unfold write_dir_entry. rewrite E0. cbn [mbind comp_bind]. rewrite Hd. cbn [negb].
  rewrite (fe_inode _ _ He0) in Hd, Hs |- * by done.
  pose proof (inode_inv_equiv _ _ _ He0 Hii) as Hii0. destruct (ii_shape _ _ Hii0) as [_ Hslots].
  destruct (write_slot_in f0 i Hok0 Hii0) as (ob & Hob & ->); [lia|]. rewrite Hs in Hob |- *.
  cbn [ws_block ws_byte_offset]. change (504 / 512) with 0 in *. change (504 mod 512) with 504.
  destruct (proj2 (Hslots _ _ Hob)) as [b ->]; [lia|]. cbn [ensure_block dbi_is_empty mbind comp_bind to_block unwrap].
  pose proof (data_start_pos _ Hok0) as Hds. destruct (ii_live _ _ Hii0 _ _ Hob) as [Hb _].
  destruct (read_blk (block_device f0) b (fo_dev _ Hok0)) as [Er Hbk]; [lia|].
  unfold modify_block. rewrite Er. cbn [mbind comp_bind]. pose proof (block_ok_zlen _ Hbk) as Hl.
  unfold write_struct_at. simpl write_to. unfold DirEntry_write_to, write_bytes, writer_at.
  cbn [w_bytes w_pos]. rewrite copy_to_slice_panics; [done|].
  destruct He as [Hn _ _]. unfold zlen in *. lia.
Qed.

(** ** A new inode *)
Record inode_added fs fs' (i : Z) (x : INode) : Prop := {
  ia_ok : fs_ok fs';
  ia_range : 0 <= i < inode_count fs;
  ia_free : bm_test (inode_bitmap fs) i = false;
  ia_total : total_blocks (block_device fs') = total_blocks (block_device fs);
  ia_layout : fs_layout fs' = fs_layout fs;
  ia_dbm : data_bitmap fs' = data_bitmap fs;
  ia_len : inode_count fs' = inode_count fs;
  ia_ibm v : 0 <= v -> bm_test (inode_bitmap fs') v = (v =? i) || bm_test (inode_bitmap fs) v;
  ia_inode j : 0 <= j < inode_count fs -> fs_inode fs' j = if j =? i then x else fs_inode fs j;
  ia_data j : data_start (fs_layout fs) <= j < total_blocks (block_device fs) ->
    blk (block_device fs') j = blk (block_device fs) j;
}.

Lemma new_inode_spec fs x :
  fs_ok fs -> inode_ok x ->
  match find_free (inode_bitmap fs) with
  | None => new_inode fs x = Ret (None, fs)
  | Some i => exists fs', new_inode fs x = Ret (Some i, fs') /\ inode_added fs fs' i x
  end.
Proof.
  intros Hfs Hx. pose proof Hfs as []. unfold new_inode.
  destruct (find_free (inode_bitmap fs)) as [i|] eqn:Ef; [|done].
  destruct (find_free_some _ _ fo_ibm Ef) as (Hi & Hfree & _). destruct (geo_count _ _ _ fo_geo) as [_ Hn].
  simpl. unfold try_u32, u32_max, max_of. rewrite (proj2 (Z.leb_le _ _)) by lia.
  destruct (bitmap_set_spec _ i fo_ibm Hi) as (ib' & E1 & Hwf' & Hlen' & Htest'). rewrite E1. cbn [mbind comp_bind].
  destruct (write_inode_to_disk_spec (with_inode_bitmap fs ib') (inode_count fs) i x) as (dev' & E2 & [Hok2 Ht2 Hin2 Hr2]);
    [done..|]. rewrite E2. cbn [mbind comp_bind]. simpl in Ht2, Hin2, Hr2. cbn [inode_cache with_device with_inode_bitmap].
  assert (Hlen : zlen (resize_for (c_inodes (inode_cache fs)) i) = Z.max (zlen (c_inodes (inode_cache fs))) (i + 1))
    by (apply zlen_resize; lia).
  unfold register_new_inode.
  destruct (lookup_lt_is_Some_2 (resize_for (c_inodes (inode_cache fs)) i) (Z.to_nat i)) as [slot Hslot];
    [unfold zlen in *; lia|].
  rewrite (index_ok _ _ _ Hslot). cbn [mbind comp_bind].
  set (c := mkCache (<[Z.to_nat i := Some x]> (resize_for (c_inodes (inode_cache fs)) i))
              (c_dirty (inode_cache fs)) (c_layout (inode_cache fs))).
  assert (Hc : forall j, 0 <= j -> cached c j = if j =? i then Some x else cached (inode_cache fs) j).
  { intros j Hj. unfold c. rewrite cached_insert by lia. zcase; [done|]. apply cached_resize. }
  eexists. split; [done|].
  assert (Hinodes : forall j, 0 <= j < inode_count fs ->
    fs_inode (with_cache (with_device (with_inode_bitmap fs ib') dev') c) j = if j =? i then x else fs_inode fs j).
  { intros j Hj. unfold fs_inode. simpl. rewrite Hc by lia. zcase; [done|].
    rewrite Hin2 by done. by rewrite (proj2 (Z.eqb_neq _ _)). }
  constructor; try done; simpl.
  - constructor; simpl; try done.
    + rewrite Ht2, Hlen'. done.
    + rewrite Hlen'. destruct fo_cache. constructor; simpl; try done.
      * unfold zlen in *. rewrite length_insert. lia.
      * intros j y Hj. rewrite Hc by done. zcase; [by intros [= <-]|eauto].
      * intros j y Hj Hy Hd. pose proof Hy as Hy'. rewrite Hc in Hy by done.
        assert (j < inode_count fs).
        { unfold cached in Hy'. destruct (c_inodes c !! Z.to_nat j) eqn:E; [|done].
          apply lookup_lt_Some in E. simpl in E. rewrite length_insert in E. unfold zlen in *. lia. }
        rewrite Hin2 by lia. destruct (Z.eqb_spec j i); [by injection Hy as <-|by apply co_clean].
      * intros j Hj Hd. rewrite Hc by done. zcase; [done|eauto].
  - intros j Hj. apply Hr2; [|lia]. pose proof (data_start_pos _ Hfs). lia.
Qed.

Lemma empty_inode_inv fs i d :
  0 <= i < inode_count fs -> fs_inode fs i = mkINode 0 (replicate 16 None) d -> dir_inv fs i /\ fs_content fs i = [] /\
    fs_entries fs i = [].
Proof.
  intros Hi E. assert (Hnone : forall k b, in_blocks (fs_inode fs i) !! k <> Some (Some b)).
  { intros k b. rewrite E. cbn [in_blocks]. intros Hk. by apply lookup_replicate in Hk as []. }
  split_and!.
  - constructor; [|by rewrite E]. constructor; [done| | |].
    + rewrite E. constructor; [done|]. intros k b Hk. apply lookup_replicate in Hk as [-> _]. simpl.
      split; [by intros []|lia].
    + intros k1 k2 b Hk. by apply Hnone in Hk.
    + intros k b Hk. by apply Hnone in Hk.
  - unfold fs_content. by rewrite E.
  - unfold fs_entries. rewrite E. by destruct d.
Qed.

(** Adding an empty inode keeps the tree, and every old inode as it was. *)
Lemma inode_added_tree fs fs' i d :
  tree_inv fs -> inode_added fs fs' i (mkINode 0 (replicate 16 None) d) ->
  tree_inv fs' /\ (forall j, allocated fs' j <-> j = i \/ allocated fs j) /\ ~ allocated fs i /\
  (forall j, allocated fs j -> fs_inode fs' j = fs_inode fs j /\ fs_content fs' j = fs_content fs j /\
     fs_entries fs' j = fs_entries fs j) /\
  fs_content fs' i = [] /\ fs_entries fs' i = [].
Proof.
  intros Hti Hia. pose proof (ti_ok _ Hti) as Hok. pose proof (ia_range _ _ _ _ Hia) as Hi.
  pose proof (ia_free _ _ _ _ Hia) as Hfree.
  assert (Hnot : ~ allocated fs i) by (intros [_ ?]; congruence).
  assert (Ha : forall j, allocated fs' j <-> j = i \/ allocated fs j).
  { intros j. unfold allocated. split.
    - intros [Hj Ht]. rewrite (ia_ibm _ _ _ _ Hia) in Ht by done. destruct (Z.eqb_spec j i); [by left|by right].
    - intros [->|[Hj Ht]]; (split; [lia|]); rewrite (ia_ibm _ _ _ _ Hia) by lia; [by rewrite Z.eqb_refl|].
      rewrite Ht. apply orb_true_r. }
  assert (Hold : forall j, allocated fs j -> fs_inode fs' j = fs_inode fs j /\
    fs_content fs' j = fs_content fs j /\ fs_entries fs' j = fs_entries fs j).
  { intros j Hj. pose proof (allocated_range _ _ Hok Hj) as Hjr.
    assert (Hin : fs_inode fs' j = fs_inode fs j).
    { rewrite (ia_inode _ _ _ _ Hia) by done. zcase; [by subst|done]. }
    assert (Hc : fs_content fs' j = fs_content fs j).
    { unfold fs_content. rewrite Hin. apply content_ext. intros k b Hb. apply (ia_data _ _ _ _ Hia).
      by apply (ii_live _ _ (di_inode _ _ (ti_dir _ Hti _ Hj)) k b). }
    split_and!; [done..|]. unfold fs_entries. by rewrite Hin, Hc. }
  assert (Hnew : fs_inode fs' i = mkINode 0 (replicate 16 None) d).
  { rewrite (ia_inode _ _ _ _ Hia) by done. by rewrite Z.eqb_refl. }
  destruct (empty_inode_inv fs' i d) as (Hdi & Hc & Hents); [by rewrite (ia_len _ _ _ _ Hia)|done|].
  assert (Hown : forall j b, allocated fs' j -> owns fs' j b -> allocated fs j /\ owns fs j b).
  { intros j b Hj [k Hk]. apply Ha in Hj as [->|Hj].
    - rewrite Hnew in Hk. cbn [in_blocks] in Hk. by apply lookup_replicate in Hk as [].
    - destruct (Hold j Hj) as (E & _). rewrite E in Hk. split; [done|by exists k]. }
  split_and!; try done. pose proof (ti_root _ Hti) as [Hr Hrd]. constructor.
  - apply Hia.
  - split; [apply Ha; by right|]. destruct (Hold 0 Hr) as (-> & _). done.
  - intros j [->|Hj]%Ha; [done|]. destruct (Hold j Hj) as (E & _).
    pose proof (ti_dir _ Hti _ Hj) as [[Hjr Hs Hdis Hlive] Hsh].
    constructor; [constructor|]; rewrite ?E; try done; [by rewrite (ia_len _ _ _ _ Hia)|].
    by rewrite (ia_layout _ _ _ _ Hia), (ia_total _ _ _ _ Hia), (ia_dbm _ _ _ _ Hia).
  - intros j e [->|Hj]%Ha Hin; [rewrite Hents in Hin; by apply not_elem_of_nil in Hin|].
    destruct (Hold j Hj) as (_ & _ & E). rewrite E in Hin. apply Ha. right. by eapply (ti_entry _ Hti).
  - intros j1 j2 b H1 H2 O1 O2. destruct (Hown _ _ H1 O1), (Hown _ _ H2 O2). by apply (ti_owner _ Hti j1 j2 b).
  - intros v Hv. rewrite (ia_dbm _ _ _ _ Hia), (ia_layout _ _ _ _ Hia). intros Ht.
    destruct (ti_used _ Hti v Hv Ht) as (j & Hj & k & Hk). exists j. split; [apply Ha; by right|].
    exists k. destruct (Hold j Hj) as (-> & _). done.
Qed.

(** ** [new_dir_entry] *)

(** What the checks of [new_dir_entry] decide: an error, or the parent
    directory, the name and the inode index of the new entry. *)
Definition create_check fs (path : list Z) : result Error (Z * list Z * Z) :=
  match pop_last (path_parts path) with
  | None => Err EmptyName
  | Some (name, dirs) =>
      if 24 <? zlen name then Err NameTooLong
      else match walk_spec fs 0 dirs with
           | Err e => Err e
           | Ok d =>
               if negb (has_space (fs_inode fs d)) then Err NoFreeInodeBlocks
               else if existsb (fun e => byte_compare name (DirEntry_name e)) (fs_entries fs d)
               then Err EntryExists
               else match find_free (inode_bitmap fs) with
                    | None => Err NoFreeInodes
                    | Some i => Ok (d, name, i)
                    end
           end
  end.

(** The inode an [Entry] starts with. *)
Definition empty_inode (t : Entry) : INode :=
  mkINode 0 (replicate 16 None) (match t with EFile => false | EDirectory => true end).

(** The rest of [new_dir_entry], once the inode exists. *)
Definition link_new fs (t : Entry) (d : Z) (name : list Z) (i : Z) : comp (result Error Z * Filesystem D) :=
  fs ← write_dir_entry_unwrap fs (DirEntry_new name i) d;
  match t with
  | EFile => Ret (Ok i, fs)
  | EDirectory =>
      fs ← write_dir_entry_unwrap fs (DirEntry_new [DOT] i) i;
      fs ← write_dir_entry_unwrap fs (DirEntry_new [DOT; DOT] d) i;
      Ret (Ok i, fs)
  end.

Lemma find_free_some_none fs i : fs_ok fs -> find_free (inode_bitmap fs) = Some i -> 0 <= i < 2 ^ 32.
Proof.
  intros Hfs E. destruct (find_free_some _ _ (fo_ibm _ Hfs) E) as (? & _).
  pose proof (geo_count _ _ _ (fo_geo _ Hfs)). lia.
Qed.

Lemma new_dir_entry_run fs path t :
  tree_inv fs ->
  match create_check fs path with
  | Err e => exists fs', new_dir_entry fs path t = Ret (Err e, fs') /\ fs_ok fs' /\ fs_equiv fs fs'
  | Ok (d, name, i) =>
      allocated fs d /\ in_is_directory (fs_inode fs d) = true /\ zlen name <= 24 /\ is_u32 i /\
      (forall p, Forall p path -> Forall p name) /\
      exists fs1, inode_added fs fs1 i (empty_inode t) /\ new_dir_entry fs path t = link_new fs1 t d name i
  end.
Proof.
  intros Hti. pose proof (ti_root _ Hti) as [Hra Hrd]. unfold create_check, new_dir_entry.
  destruct (pop_last (path_parts path)) as [[name dirs]|] eqn:Ep; [|exists fs; by split; [|split; [apply Hti|]]].
  destruct (Z.ltb_spec 24 (zlen name)); [exists fs; by split; [|split; [apply Hti|]]|].
  destruct (walk_run dirs fs 0 Hti Hra) as (f1 & -> & Hok1 & He1). cbn [mbind comp_bind].
  destruct (walk_spec fs 0 dirs) as [d|] eqn:Ew; [|by exists f1].
  destruct (walk_spec_allocated fs _ Hti 0 d Hra Hrd Ew) as [Hda Hdd].
  pose proof (allocated_range _ _ (ti_ok _ Hti) Hda) as Hdr.
  destruct (lookup_inode_spec f1 d Hok1) as (f2 & -> & Hok2 & He2 & _); [by rewrite <- (fe_ibm _ _ He1)|].
  cbn [mbind comp_bind]. rewrite <- (fe_inode _ _ He1) by done.
  assert (He : fs_equiv fs f2) by (by transitivity f1).
  destruct (has_space (fs_inode fs d)) eqn:Hs; cbn [negb]; [|by exists f2].
  pose proof (ti_dir _ Hti _ Hda) as Hdi.
  destruct (read_dir_entry_spec f2 d Hok2) as (f3 & -> & Hok3 & He3); [by apply (dir_inv_equiv fs)|].
  cbn [mbind comp_bind]. rewrite (fs_entries_equiv _ _ _ He (di_inode _ _ Hdi)).
  assert (He' : fs_equiv fs f3) by (by transitivity f2).
  destruct (existsb _ _) eqn:Hex; [by exists f3|].
  pose proof (new_inode_spec f3 (empty_inode t) Hok3 (new_empty_inode_ok _)) as Hn.
  rewrite <- (fe_ibm _ _ He') in Hn.
  assert (Et : match t with EFile => new_empty_file | EDirectory => new_empty_directory end = empty_inode t) by (by destruct t).
  rewrite Et. destruct (find_free (inode_bitmap fs)) as [i|] eqn:Ef.
  - destruct Hn as (f4 & -> & Hia). cbn [mbind comp_bind]. split_and!; try done; try lia.
    + pose proof (find_free_some_none _ _ (ti_ok _ Hti) Ef). unfold in_width. lia.
    + intros p Hp. unfold pop_last in Ep. destruct (rev (path_parts path)) as [|x r] eqn:Er; [done|]. injection Ep as -> _.
      assert (Hin : In name (path_parts path)) by (apply in_rev; rewrite Er; by left).
      apply List.filter_In in Hin as [Hin _]. revert Hin. clear -Hp. generalize dependent name.
      induction Hp as [|b path Hb Hp IH]; intros name; simpl; [by intros [<-|[]]; constructor|].
      destruct (b =? SLASH); [intros [<-|Hin]; [constructor|by apply IH]|].
      destruct (split_on SLASH path) as [|q qs] eqn:Eq; simpl; [by intros [<-|[]]; repeat constructor|].
      intros [<-|Hin]; [constructor; [done|]; apply IH; by left|apply IH; by right].
    + exists f4. split; [|done]. destruct He' as [Ht Hl Hib Hdb Hin Hd]. destruct Hia.
      rewrite <- Hib, <- Hl, <- Ht, <- Hdb in *.
      constructor; try done.
      * intros j Hj. rewrite ia_inode0 by done. zcase; [done|]. by rewrite Hin.
      * intros j Hj. rewrite ia_data0 by done. by rewrite Hd.
  - rewrite Hn. cbn [mbind comp_bind]. exists f3. done.
Qed.

(** ** Linking the new inode *)

(** One entry written to a directory that has room for it. *)
Record entry_added fs fs' (i : Z) (e : DirEntry) : Prop := {
  ea_tree : tree_inv fs';
  ea_entries : fs_entries fs' i = fs_entries fs i ++ [e];
  ea_dir : in_is_directory (fs_inode fs' i) = in_is_directory (fs_inode fs i);
  ea_size : in_size (fs_inode fs' i) = in_size (fs_inode fs i) + 28;
  ea_allocated j : allocated fs' j <-> allocated fs j;
  ea_layout : fs_layout fs' = fs_layout fs;
  ea_count : inode_count fs' = inode_count fs;
  ea_frame j : allocated fs j -> j <> i ->
    fs_inode fs' j = fs_inode fs j /\ fs_content fs' j = fs_content fs j /\ fs_entries fs' j = fs_entries fs j;
  ea_full : find_free (data_bitmap fs) = None -> find_free (data_bitmap fs') = None;
  ea_free : 0 < in_size (fs_inode fs i) ->
    find_free (data_bitmap fs) <> None -> find_free (data_bitmap fs') <> None;
}.

Lemma grown_full fs fs' i chunk :
  fs_ok fs -> grown fs fs' i chunk ->
  find_free (data_bitmap fs) = None -> find_free (data_bitmap fs') = None.
Proof.
  intros Hfs Hg Hnone. destruct (find_free (data_bitmap fs')) as [v|] eqn:Ef; [|done].
  pose proof (gr_ok _ _ _ _ Hg) as Hok'.
  destruct (find_free_some _ _ (fo_dbm _ Hok') Ef) as (Hv & Hfree & _).
  rewrite (fo_dlen _ Hok'), (gr_layout _ _ _ _ Hg), <- (fo_dlen _ Hfs) in Hv.
  pose proof (find_free_none _ (fo_dbm _ Hfs) Hnone v Hv) as Hset.
  rewrite (gr_mono _ _ _ _ Hg v) in Hfree; [done|lia|done].
Qed.

Lemma dir_grown_free fs fs' i e :
  fs_ok fs -> dir_inv fs i -> in_is_directory (fs_inode fs i) = true -> 0 < in_size (fs_inode fs i) < 504 ->
  dir_entry_ok e -> grown fs fs' i (encode_dir_entry e) ->
  find_free (data_bitmap fs) <> None -> find_free (data_bitmap fs') <> None.
Proof.
  intros Hfs Hdi Hd Hsz He Hg Hsome Hnone. pose proof (gr_ok _ _ _ _ Hg) as Hok'.
  destruct (find_free (data_bitmap fs)) as [v|] eqn:Ef; [|done].
  destruct (find_free_some _ _ (fo_dbm _ Hfs) Ef) as (Hv & Hfree & _).
  pose proof (find_free_none _ (fo_dbm _ Hok') Hnone v) as Hset.
  rewrite (fo_dlen _ Hok'), (gr_layout _ _ _ _ Hg), <- (fo_dlen _ Hfs) in Hset.
  destruct (gr_noleak _ _ _ _ Hg v) as [Hold|[k Hk]]; [lia|by apply Hset|congruence|].
  destruct (grown_entries fs fs' i e) as [_ [_ Hle]]; try done; [lia|].
  destruct (ii_shape _ _ (gr_inv _ _ _ _ Hg)) as [_ Hslots'].
  destruct (Hslots' _ _ Hk) as [Hk0 _]. specialize (Hk0 ltac:(by eauto)).
  assert (k = 0%nat) as -> by lia.
  destruct (ii_shape _ _ (di_inode _ _ Hdi)) as [_ Hslots].
  pose proof (ii_range _ _ (di_inode _ _ Hdi)) as Hi. pose proof (fs_inode_ok _ _ Hfs Hi) as [_ Hlen _].
  destruct (lookup_lt_is_Some_2 (in_blocks (fs_inode fs i)) 0) as [o Ho]; [lia|].
  destruct (proj2 (Hslots _ _ Ho)) as [b ->]; [lia|].
  pose proof (gr_keep _ _ _ _ Hg _ _ Ho) as Hkeep. rewrite Hk in Hkeep. injection Hkeep as <-.
  destruct (ii_live _ _ (di_inode _ _ Hdi) _ _ Ho) as [_ Hl].
  replace (data_start (fs_layout fs) + v - data_start (fs_layout fs)) with v in Hl by lia. congruence.
Qed.

Lemma write_dir_entry_unwrap_ok fs i e :
  tree_inv fs -> allocated fs i -> in_is_directory (fs_inode fs i) = true ->
  in_size (fs_inode fs i) < 504 -> dir_entry_ok e -> allocated fs (de_inode e) ->
  0 < in_size (fs_inode fs i) \/ find_free (data_bitmap fs) <> None ->
  exists fs', write_dir_entry_unwrap fs e i = Ret fs' /\ entry_added fs fs' i e.
Proof.
  intros Hti Hi Hd Hlt He Hea Hroom. pose proof (ti_dir _ Hti _ Hi) as Hdi. pose proof (ti_ok _ Hti) as Hok.
  destruct (write_dir_entry_spec fs i e) as (res & fs' & E & [[-> Hg]|(-> & _ & _ & Hz & Hfull)]);
    [done..| |destruct Hroom; [lia|done]].
  destruct (grown_entries fs fs' i e) as [Hents Hsh]; [done..|].
  exists fs'. unfold write_dir_entry_unwrap. rewrite E. split; [done|].
  constructor; try done.
  - apply (grown_tree fs fs' i (encode_dir_entry e)); try done.
    intros e'. rewrite Hents, elem_of_app, list_elem_of_singleton. intros [Hin| ->]; [|done].
    by apply (ti_entry _ Hti i).
  - apply Hg.
  - rewrite (gr_size _ _ _ _ Hg). by rewrite zlen_encode_dir_entry.
  - intros j. by eapply grown_allocated.
  - apply Hg.
  - by rewrite (gr_ibm _ _ _ _ Hg).
  - intros j Hj Hne. destruct (grown_frame fs fs' i (encode_dir_entry e) j) as (? & ? & ? & _); done.
  - by eapply grown_full.
  - intros Hpos. by eapply dir_grown_free.
Qed.

Lemma write_dir_entry_unwrap_full fs i e :
  tree_inv fs -> allocated fs i -> in_is_directory (fs_inode fs i) = true ->
  in_size (fs_inode fs i) = 0 -> dir_entry_ok e -> find_free (data_bitmap fs) = None ->
  write_dir_entry_unwrap fs e i = Panic.
Proof.
  intros Hti Hi Hd Hs He Hfull. pose proof (ti_dir _ Hti _ Hi) as Hdi. pose proof (ti_ok _ Hti) as Hok.
  destruct (write_dir_entry_spec fs i e) as (res & fs' & E & [[-> Hg]|(-> & _)]); try done; [lia| |].
  - destruct (di_shape _ _ Hdi Hd) as [Hm _]. pose proof (gr_inv _ _ _ _ Hg) as Hii'.
    pose proof (grown_full _ _ _ _ Hok Hg Hfull) as Hfull'.
    exfalso. pose proof (gr_size _ _ _ _ Hg) as Es. rewrite zlen_encode_dir_entry in Es by done.
    destruct (ii_shape _ _ Hii') as [_ Hslots']. pose proof (ii_range _ _ Hii') as Hi'.
    pose proof (fs_inode_ok _ _ (gr_ok _ _ _ _ Hg) Hi') as [_ Hlen _].
    destruct (lookup_lt_is_Some_2 (in_blocks (fs_inode fs' i)) 0) as [o Ho]; [lia|].
    destruct (proj2 (Hslots' _ _ Ho)) as [b ->]; [lia|].
    destruct (gr_fresh _ _ _ _ Hg _ _ Ho) as [Hold|Hfree].
    + destruct (ii_shape _ _ (di_inode _ _ Hdi)) as [_ Hslots].
      destruct (Hslots _ _ Hold) as [Hk _]. specialize (Hk ltac:(by eauto)). lia.
    + destruct (ii_live _ _ Hii' _ _ Ho) as [Hb _].
      rewrite (gr_layout _ _ _ _ Hg), (gr_total _ _ _ _ Hg) in Hb.
      rewrite (find_free_none _ (fo_dbm _ Hok) Hfull) in Hfree; [done|].
      rewrite (fo_dlen _ Hok). destruct (geometry_regions _ _ _ (fo_geo _ Hok)) as (_ & _ & _ & _ & _ & _ & ? & _). lia.
  - unfold write_dir_entry_unwrap. by rewrite E.
Qed.

(** A new file or directory [i] called [name] in directory [d]. *)
Record created fs fs' (t : Entry) (d : Z) (name : list Z) (i : Z) : Prop := {
  cr_tree : tree_inv fs';
  cr_new : ~ allocated fs i;
  cr_allocated j : allocated fs' j <-> j = i \/ allocated fs j;
  cr_layout : fs_layout fs' = fs_layout fs;
  cr_count : inode_count fs' = inode_count fs;
  cr_parent : fs_entries fs' d = fs_entries fs d ++ [DirEntry_new name i];
  cr_kind : in_is_directory (fs_inode fs' i) = match t with EFile => false | EDirectory => true end;
  cr_node : match t with
            | EFile => fs_content fs' i = []
            | EDirectory => fs_entries fs' i = [DirEntry_new [DOT] i; DirEntry_new [DOT; DOT] d]
            end;
  cr_frame j : allocated fs j -> j <> d ->
    fs_inode fs' j = fs_inode fs j /\ fs_content fs' j = fs_content fs j /\ fs_entries fs' j = fs_entries fs j;
}.

Lemma link_new_file fs fs1 d name i :
  tree_inv fs -> inode_added fs fs1 i (empty_inode EFile) ->
  allocated fs d -> in_is_directory (fs_inode fs d) = true -> 0 < in_size (fs_inode fs d) < 504 ->
  zlen name <= 24 -> Forall is_u8 name -> is_u32 i ->
  exists fs', link_new fs1 EFile d name i = Ret (Ok i, fs') /\ created fs fs' EFile d name i.
Proof.
  intros Hti Hia Hd Hdd Hsz Hl Hb Hi.
  destruct (inode_added_tree fs fs1 i false Hti Hia) as (Hti1 & Ha1 & Hnew & Hold & Hc1 & He1).
  destruct (Hold d Hd) as (Ed & Ecd & Eed).
  assert (Hne : d <> i) by (intros ->; done).
  pose proof (ia_inode _ _ _ _ Hia i (ia_range _ _ _ _ Hia)) as Ei. rewrite Z.eqb_refl in Ei.
  destruct (write_dir_entry_unwrap_ok fs1 d (DirEntry_new name i)) as (fs' & E & Hea);
    try done; rewrite ?Ed; try done; try lia; [by apply Ha1; right|by apply DirEntry_new_ok|by apply Ha1; left|].
  exists fs'. unfold link_new. rewrite E. split; [done|].
  destruct (ea_frame _ _ _ _ Hea i) as (F1 & F2 & F3); [by apply Ha1; left|done|].
  constructor; try done.
  - apply Hea.
  - intros j. by rewrite (ea_allocated _ _ _ _ Hea).
  - by rewrite (ea_layout _ _ _ _ Hea), (ia_layout _ _ _ _ Hia).
  - by rewrite (ea_count _ _ _ _ Hea), (ia_len _ _ _ _ Hia).
  - by rewrite (ea_entries _ _ _ _ Hea), Eed.
  - by rewrite F1, Ei.
  - by rewrite F2.
  - intros j Hj Hjd. destruct (ea_frame _ _ _ _ Hea j) as (G1 & G2 & G3); [by apply Ha1; right|done|].
    destruct (Hold j Hj) as (-> & -> & ->) || rewrite G1, G2, G3; by destruct (Hold j Hj) as (-> & -> & ->).
Qed.

Lemma link_new_directory fs fs1 d name i :
  tree_inv fs -> inode_added fs fs1 i (empty_inode EDirectory) ->
  allocated fs d -> in_is_directory (fs_inode fs d) = true -> 0 < in_size (fs_inode fs d) < 504 ->
  zlen name <= 24 -> Forall is_u8 name -> is_u32 i -> is_u32 d ->
  (find_free (data_bitmap fs) = None /\ link_new fs1 EDirectory d name i = Panic) \/
  (find_free (data_bitmap fs) <> None /\
   exists fs', link_new fs1 EDirectory d name i = Ret (Ok i, fs') /\ created fs fs' EDirectory d name i).
Proof.
  intros Hti Hia Hd Hdd Hsz Hl Hb Hi Hdu.
  destruct (inode_added_tree fs fs1 i true Hti Hia) as (Hti1 & Ha1 & Hnew & Hold & Hc1 & He1).
  destruct (Hold d Hd) as (Ed & Ecd & Eed).
  assert (Hne : d <> i) by (intros ->; done).
  pose proof (ia_inode _ _ _ _ Hia i (ia_range _ _ _ _ Hia)) as Ei. rewrite Z.eqb_refl in Ei.
  destruct (write_dir_entry_unwrap_ok fs1 d (DirEntry_new name i)) as (fs2 & E2 & Hea2);
    try done; rewrite ?Ed; try done; try lia; [by apply Ha1; right|by apply DirEntry_new_ok|by apply Ha1; left|].
  unfold link_new. rewrite E2. cbn [mbind comp_bind].
  destruct (ea_frame _ _ _ _ Hea2 i) as (F1 & F2 & F3); [by apply Ha1; left|done|].
  assert (Hia2 : allocated fs2 i) by (apply Hea2, Ha1; by left).
  assert (Hda2 : allocated fs2 d) by (apply Hea2, Ha1; by right).
  rewrite Ei in F1.
  assert (Hdot : dir_entry_ok (DirEntry_new [DOT] i)).
  { apply DirEntry_new_ok; [done| |done]. by repeat constructor. }
  assert (Hdots : dir_entry_ok (DirEntry_new [DOT; DOT] d)).
  { apply DirEntry_new_ok; [done| |done]. by repeat constructor. }
  rewrite <- (ia_dbm _ _ _ _ Hia).
  destruct (find_free (data_bitmap fs1)) as [v|] eqn:Efree.
  - right. split; [done|].
    assert (Hroom2 : find_free (data_bitmap fs2) <> None) by (apply (ea_free _ _ _ _ Hea2); [rewrite Ed; lia|by rewrite Efree]).
    destruct (write_dir_entry_unwrap_ok fs2 i (DirEntry_new [DOT] i)) as (fs3 & E3 & Hea3);
      try done; rewrite ?F1; try done; [apply Hea2|by right|].
    rewrite E3. cbn [mbind comp_bind].
    assert (Hia3 : allocated fs3 i) by (by apply Hea3).
    assert (Hs3 : in_size (fs_inode fs3 i) = 28) by (rewrite (ea_size _ _ _ _ Hea3), F1; done).
    destruct (write_dir_entry_unwrap_ok fs3 i (DirEntry_new [DOT; DOT] d)) as (fs4 & E4 & Hea4);
      try done; rewrite ?Hs3; try done; [apply Hea3|by rewrite (ea_dir _ _ _ _ Hea3), F1|by apply Hea3|by left|].
    rewrite E4. exists fs4. split; [done|].
    destruct (ea_frame _ _ _ _ Hea3 d) as (G1 & G2 & G3); [done..|].
    destruct (ea_frame _ _ _ _ Hea4 d) as (K1 & K2 & K3); [by apply Hea3|done|].
    constructor; try done.
    + apply Hea4.
    + intros j. by rewrite (ea_allocated _ _ _ _ Hea4), (ea_allocated _ _ _ _ Hea3), (ea_allocated _ _ _ _ Hea2).
    + by rewrite (ea_layout _ _ _ _ Hea4), (ea_layout _ _ _ _ Hea3), (ea_layout _ _ _ _ Hea2), (ia_layout _ _ _ _ Hia).
    + by rewrite (ea_count _ _ _ _ Hea4), (ea_count _ _ _ _ Hea3), (ea_count _ _ _ _ Hea2), (ia_len _ _ _ _ Hia).
    + by rewrite K3, G3, (ea_entries _ _ _ _ Hea2), Eed.
    + by rewrite (ea_dir _ _ _ _ Hea4), (ea_dir _ _ _ _ Hea3), F1.
    + by rewrite (ea_entries _ _ _ _ Hea4), (ea_entries _ _ _ _ Hea3), F3, He1.
    + intros j Hj Hjd. assert (Hji : j <> i) by (intros ->; done).
      destruct (ea_frame _ _ _ _ Hea2 j) as (A1 & A2 & A3); [by apply Ha1; right|done|].
      destruct (ea_frame _ _ _ _ Hea3 j) as (B1 & B2 & B3); [apply Hea2, Ha1; by right|done|].
      destruct (ea_frame _ _ _ _ Hea4 j) as (C1 & C2 & C3); [apply Hea3, Hea2, Ha1; by right|done|].
      rewrite C1, C2, C3, B1, B2, B3, A1, A2, A3. by destruct (Hold j Hj) as (-> & -> & ->).
  - left. split; [done|]. rewrite write_dir_entry_unwrap_full; try done; rewrite ?F1; try done; [apply Hea2|].
    by apply (ea_full _ _ _ _ Hea2).
Qed.

(** A full parent. *)
Lemma link_new_full fs fs1 t d name i :
  tree_inv fs -> inode_added fs fs1 i (empty_inode t) ->
  allocated fs d -> in_is_directory (fs_inode fs d) = true -> in_size (fs_inode fs d) = 504 ->
  zlen name <= 24 -> Forall is_u8 name -> is_u32 i -> link_new fs1 t d name i = Panic.
Proof.
  intros Hti Hia Hd Hdd Hsz Hl Hb Hi.
  destruct (inode_added_tree fs fs1 i _ Hti Hia) as (Hti1 & Ha1 & Hnew & Hold & Hc1 & He1).
  destruct (Hold d Hd) as (Ed & _).
  unfold link_new, write_dir_entry_unwrap. rewrite write_dir_entry_full; [done|apply Hti1| | | |by apply DirEntry_new_ok].
  - apply (ti_dir _ Hti1). apply Ha1. by right.
  - by rewrite Ed.
  - by rewrite Ed.
Qed.
End Create.
