(* ===== verification/FsFormat.v ===== *)
(** * Formatting

    [format] from a blank device to an empty tree, and a concrete formatted
    RAM disk on which the other files evaluate their examples. *)
From S2P Require Import Prelude Bitmap Bytes Layout INode DirEntry BlockDev INodeCache SuperBlock Filesystem FsBase FsState FsFiles FsDirs FsCreate.

Section Format.
Context {D : Type} `{BlockDeviceLaws D}.
Implicit Types (dev : D) (fs : Filesystem D).

Definition blank dev (l : Layout) : Filesystem D :=
  mkFs dev (bitmap_new MAX_INODES) (bitmap_new (data_blocks l)) (cache_new l MAX_INODES) l.

Lemma blank_ok dev l :
  dev_ok dev -> is_u32 (total_blocks dev) -> layout_new (total_blocks dev) MAX_INODES = Ret (Some l) ->
  fs_ok (blank dev l).
Proof.
  intros Hok Ht El. assert (Hg : geometry (total_blocks dev) MAX_INODES l) by (by constructor).
  pose proof (geometry_regions _ _ _ Hg) as (_ & _ & _ & _ & _ & _ & _ & Hpos & _).
  constructor; simpl; try done.
  - by apply bitmap_new_wf.
  - apply bitmap_new_wf. lia.
  - by apply cache_new_ok.
Qed.

Lemma bitmap_new_find_free n : 0 < n -> find_free (bitmap_new n) = Some 0.
Proof.
  intros Hn. pose proof (bitmap_new_wf n ltac:(lia)) as Hwf.
  assert (Hempty : forall j, bm_test (bitmap_new n) j = false) by (intros; apply bm_test_replicate).
  destruct (find_free (bitmap_new n)) as [i|] eqn:E.
  - destruct (find_free_some _ _ Hwf E) as (Hi & _ & Hlow).
    destruct (Z.eq_dec i 0) as [->|]; [done|].
    specialize (Hlow 0 ltac:(lia)). by rewrite Hempty in Hlow.
  - pose proof (find_free_none _ Hwf E 0) as Hset. rewrite Hempty in Hset.
    simpl in Hset. by specialize (Hset ltac:(lia)).
Qed.

(** The first inode makes a tree of a blank filesystem. *)
Lemma first_inode_tree fs fs' :
  fs_ok fs -> (forall j, bm_test (inode_bitmap fs) j = false) -> (forall v, bm_test (data_bitmap fs) v = false) ->
  inode_added fs fs' 0 (empty_inode EDirectory) ->
  tree_inv fs' /\ (forall j, allocated fs' j <-> j = 0) /\ fs_entries fs' 0 = [] /\
  fs_inode fs' 0 = empty_inode EDirectory.
Proof.
  intros Hok Hi Hd Hia. pose proof (ia_range _ _ _ _ Hia) as Hr.
  assert (Ha : forall j, allocated fs' j <-> j = 0).
  { intros j. unfold allocated. split.
    - intros [Hj Ht]. rewrite (ia_ibm _ _ _ _ Hia), Hi in Ht by done. by destruct (Z.eqb_spec j 0).
    - intros ->. split; [lia|]. by rewrite (ia_ibm _ _ _ _ Hia). }
  assert (Hnew : fs_inode fs' 0 = empty_inode EDirectory) by (by rewrite (ia_inode _ _ _ _ Hia)).
  destruct (empty_inode_inv fs' 0 true) as (Hdi & Hc & Hents); [by rewrite (ia_len _ _ _ _ Hia)|done|].
  split_and!; try done. constructor.
  - apply Hia.
  - split; [by apply Ha|]. by rewrite Hnew.
  - by intros j ->%Ha.
  - intros j e ->%Ha. rewrite Hents. intros Hin. by apply not_elem_of_nil in Hin.
  - by intros i j b ->%Ha ->%Ha.
  - intros v Hv. by rewrite (ia_dbm _ _ _ _ Hia), Hd.
Qed.

Definition root_entries : list DirEntry := [DirEntry_new [DOT] 0; DirEntry_new [DOT; DOT] 0].

(** A filesystem that holds nothing but its root. *)
Record empty_tree fs : Prop := {
  et_tree : tree_inv fs;
  et_allocated j : allocated fs j <-> j = 0;
  et_entries : fs_entries fs 0 = root_entries;
}.

Lemma create_empty_root_spec dev l :
  dev_ok dev -> is_u32 (total_blocks dev) -> layout_new (total_blocks dev) MAX_INODES = Ret (Some l) ->
  exists fs, create_empty_root (blank dev l) = Ret fs /\ fs_layout fs = l /\ inode_count fs = MAX_INODES /\ empty_tree fs.
Proof.
  intros Hok Ht El. pose proof (blank_ok dev l Hok Ht El) as Hfs.
  pose proof (geometry_regions _ _ _ (fo_geo _ Hfs)) as (_ & _ & _ & _ & _ & _ & _ & Hpos & _). simpl in Hpos.
  pose proof (new_inode_spec (blank dev l) (empty_inode EDirectory) Hfs (new_empty_inode_ok _)) as Hn.
  change (inode_bitmap (blank dev l)) with (bitmap_new MAX_INODES) in Hn.
  rewrite bitmap_new_find_free in Hn by done. destruct Hn as (f1 & E1 & Hia).
  destruct (first_inode_tree _ f1 Hfs) as (Hti1 & Ha1 & Hents1 & Hroot1); [|..|done|];
    [intros; apply bm_test_replicate..|].
  unfold create_empty_root. change new_empty_directory with (empty_inode EDirectory).
  rewrite E1. cbn [mbind comp_bind unwrap].
  assert (Hdot : dir_entry_ok (DirEntry_new [DOT] 0)) by (apply DirEntry_new_ok; [done|by repeat constructor|done]).
  assert (Hdots : dir_entry_ok (DirEntry_new [DOT; DOT] 0)) by (apply DirEntry_new_ok; [done|by repeat constructor|done]).
  destruct (write_dir_entry_unwrap_ok f1 0 (DirEntry_new [DOT] 0)) as (f2 & E2 & Hea2);
    try done; rewrite ?Hroot1; try done; [by apply Ha1..| |].
  { right. rewrite (ia_dbm _ _ _ _ Hia).
    change (data_bitmap (blank dev l)) with (bitmap_new (data_blocks l)). by rewrite bitmap_new_find_free. }
  rewrite E2. cbn [mbind comp_bind].
  assert (Ha2 : forall j, allocated f2 j <-> j = 0) by (intros; by rewrite (ea_allocated _ _ _ _ Hea2), Ha1).
  assert (Hs2 : in_size (fs_inode f2 0) = 28) by (by rewrite (ea_size _ _ _ _ Hea2), Hroot1).
  destruct (write_dir_entry_unwrap_ok f2 0 (DirEntry_new [DOT; DOT] 0)) as (f3 & E3 & Hea3);
    try done; rewrite ?Hs2; try done; [apply Hea2|by apply Ha2|by rewrite (ea_dir _ _ _ _ Hea2), Hroot1|by apply Ha2|by left|].
  exists f3. split; [done|]. split.
  { by rewrite (ea_layout _ _ _ _ Hea3), (ea_layout _ _ _ _ Hea2), (ia_layout _ _ _ _ Hia). }
  split.
  { by rewrite (ea_count _ _ _ _ Hea3), (ea_count _ _ _ _ Hea2), (ia_len _ _ _ _ Hia). }
  constructor.
  - apply Hea3.
  - intros j. by rewrite (ea_allocated _ _ _ _ Hea3), Ha2.
  - by rewrite (ea_entries _ _ _ _ Hea3), (ea_entries _ _ _ _ Hea2), Hents1.
Qed.

Lemma empty_tree_equiv fs fs' : fs_ok fs' -> fs_equiv fs fs' -> empty_tree fs -> empty_tree fs'.
Proof.
  intros Hok He [Ht Ha Hents]. constructor.
  - by apply (tree_inv_equiv fs).
  - intros j. by rewrite <- (allocated_equiv _ _ _ He).
  - rewrite (fs_entries_equiv fs fs'); [done..|]. apply (di_inode _ _ (ti_dir _ Ht 0 ltac:(by apply Ha))).
Qed.

Lemma format_spec dev l :
  dev_ok dev -> is_u32 (total_blocks dev) -> layout_new (total_blocks dev) MAX_INODES = Ret (Some l) ->
  exists dev' fs, format dev = Ret (Ok tt, dev') /\ Filesystem_new dev' = Ret (Ok fs) /\
    block_device fs = dev' /\ fs_layout fs = l /\ inode_count fs = MAX_INODES /\ empty_tree fs.
Proof.
  intros Hok Ht El. destruct (create_empty_root_spec dev l Hok Ht El) as (f1 & E1 & Hl1 & Hn1 & Het1).
  pose proof (et_tree _ Het1) as Hti1. destruct (ti_root _ Hti1) as [_ Hrd].
  destruct (flush_spec f1 (ti_ok _ Hti1)) as (f2 & E2 & Hok2 & He2 & Hfl2).
  destruct (mount_flushed f2 Hok2 Hfl2) as (f3 & E3 & Hok3 & He3 & Hd3).
  { rewrite <- (fe_inode _ _ He2); [done|]. apply allocated_range; [apply Hti1|]. by apply Het1. }
  assert (He13 : fs_equiv f1 f3) by (by transitivity f2).
  exists (block_device f2), f3. split_and!; [|done|done|by rewrite <- (fe_layout _ _ He13)|by rewrite <- (fe_ibm _ _ He13)|].
  - unfold format. unfold try_u32, u32_max. destruct Ht. rewrite (proj2 (Z.leb_le _ _)) by (unfold max_of; lia).
    rewrite El. cbn [mbind comp_bind]. fold (blank dev l). rewrite E1. cbn [mbind comp_bind].
    rewrite E2. done.
  - by apply (empty_tree_equiv f1).
Qed.
End Format.

(** ** A formatted RAM disk *)
Definition sample_disk : Disk := mkDisk (700 * 512) ∅.

Definition sample_fs : Filesystem Disk :=
  match ('(_, dev) ← format sample_disk; Filesystem_new dev) with
  | Ret (Ok fs) => fs
  | _ => blank sample_disk (mkLayout 0 0 0 0 0 0 0 0)
  end.

Lemma sample_empty_tree : empty_tree sample_fs.
Proof.
  destruct (format_spec sample_disk (mkLayout 1 1 2 1 3 586 589 111)) as (dev' & fs & E1 & E2 & _ & _ & _ & Het).
  - apply disk_empty_ok. lia.
  - by vm_compute.
  - by vm_compute.
  - unfold sample_fs. rewrite E1. cbn [mbind comp_bind]. by rewrite E2.
Qed.
