(* ===== verification/FsProps.v ===== *)
(** * What the filesystem guarantees

    The theorems about whole operations of [Filesystem]: formatting and
    mounting, flushing, creating, appending, reading, and the states in which
    the code panics.  [tree_inv] (FsDirs) is the invariant; [fs_content] and
    [fs_entries] are what files and directories hold. *)
From S2P Require Import Prelude Bitmap Bytes Layout INode DirEntry BlockDev INodeCache SuperBlock Filesystem FsBase FsState FsFiles FsDirs FsCreate FsFormat.

Section Ops.
Context {D : Type} `{BlockDeviceLaws D}.
Implicit Types (dev : D) (fs : Filesystem D).

Lemma resolved_file fs path r :
  tree_inv fs -> resolve_spec fs path = Ok r -> 0 <= rp_basename_inode r < inode_count fs /\
  inode_inv fs (rp_basename_inode r).
Proof.
  intros Hti E. destruct (resolve_spec_allocated fs path r Hti E) as (_ & Ha & _).
  split; [apply allocated_range; [apply Hti|done]|apply (ti_dir _ Hti _ Ha)].
Qed.

(** What [append_to_file] does after the path was resolved and the inode borrowed. *)
Lemma append_to_file_run fs path bytes :
  tree_inv fs -> Forall is_u8 bytes -> zlen bytes < 2 ^ 63 ->
  exists res fs', append_to_file fs path bytes = Ret (res, fs') /\ tree_inv fs' /\
    match resolve_spec fs path with
    | Err e => res = Err e /\ fs_equiv fs fs'
    | Ok r =>
        let i := rp_basename_inode r in
        if in_is_directory (fs_inode fs i) then res = Err IsDirectory /\ fs_equiv fs fs'
        else if 8192 <? in_size (fs_inode fs i) + zlen bytes then res = Err FileTooLarge /\ fs_equiv fs fs'
        else exists w, 0 <= w <= zlen bytes /\ grown fs fs' i (take (Z.to_nat w) bytes) /\
          ((res = Ok (zlen bytes) /\ w = zlen bytes) \/
           (res = Err NoSpaceLeft /\ w < zlen bytes /\ (in_size (fs_inode fs i) + w) mod 512 = 0 /\
            find_free (data_bitmap fs') = None))
    end.
Proof.
  intros Hti Hu8 Hlen. unfold append_to_file.
  destruct (resolve_path_run fs path Hti) as (f1 & -> & Hok1 & He1). cbn [mbind comp_bind].
  destruct (resolve_spec fs path) as [r|e] eqn:Er;
    [|exists (Err e), f1; split_and!; [done|by apply (tree_inv_equiv fs)|done..]].
  destruct (resolved_file fs path r Hti Er) as [Hi Hii]. cbv zeta. set (i := rp_basename_inode r) in *.
  destruct (lookup_inode_mut_spec f1 i Hok1) as (f2 & -> & Hok2 & He2 & _ & Hbor2); [by rewrite <- (fe_ibm _ _ He1)|].
  cbn [mbind comp_bind]. rewrite <- (fe_inode _ _ He1) by done.
  assert (He : fs_equiv fs f2) by (by transitivity f1).
  pose proof (tree_inv_equiv fs f2 Hok2 He Hti) as Hti2.
  destruct (in_is_directory (fs_inode fs i)) eqn:Hd; [by eexists _, f2; split_and!|].
  destruct (ii_shape _ _ Hii) as [Hsz _]. pose proof (zlen_nonneg bytes).
  rewrite add_ovf_ok by (unfold max_of; lia). cbn [mbind comp_bind]. change (16 * BLOCK_SIZE) with 8192.
  destruct (Z.ltb_spec 8192 (in_size (fs_inode fs i) + zlen bytes)); [by eexists _, f2; split_and!|].
  assert (Ein : fs_inode f2 i = fs_inode fs i) by (by rewrite (fe_inode _ _ He)).
  destruct (append_loop_run (S (length bytes)) f2 i bytes (zlen bytes) 0) as (res & fs' & w & E & Hw & Hg & Hres);
    try done; try lia; [by apply (inode_inv_equiv fs)|by rewrite Ein|unfold zlen; lia|].
  rewrite Ein in E, Hres. rewrite drop_0 in Hg.
  assert (Hg' : grown fs fs' i (take (Z.to_nat w) bytes)).
  { apply (grown_trans fs f2 _ i [] _ Hii); [by apply grown_equiv|done]. }
  destruct (resolve_spec_allocated fs path r Hti Er) as (_ & Ha & _).
  exists res, fs'. split; [done|]. split; [by eapply (grown_tree_file fs fs' i)|]. exists w. done.
Qed.

Lemma read_file_run fs path :
  tree_inv fs ->
  match resolve_spec fs path with
  | Err e => exists fs', read_file fs path = Ret (Err e, fs') /\ fs_ok fs' /\ fs_equiv fs fs'
  | Ok r =>
      let i := rp_basename_inode r in
      exists fs', fs_ok fs' /\ fs_equiv fs fs' /\
      read_file fs path =
        if in_is_directory (fs_inode fs i) then Ret (Err IsDirectory, fs')
        else string ← read_file_blocks (block_device fs') (used_blocks (fs_inode fs' i)) (in_size (fs_inode fs' i)) [];
             Ret (Ok string, fs')
  end.
Proof.
  intros Hti. unfold read_file.
  destruct (resolve_path_run fs path Hti) as (f1 & -> & Hok1 & He1). cbn [mbind comp_bind].
  destruct (resolve_spec fs path) as [r|e] eqn:Er; [|by exists f1].
  destruct (resolved_file fs path r Hti Er) as [Hi Hii]. cbv zeta. set (i := rp_basename_inode r) in *.
  destruct (lookup_inode_mut_spec f1 i Hok1) as (f2 & -> & Hok2 & He2 & _ & Hbor2); [by rewrite <- (fe_ibm _ _ He1)|].
  cbn [mbind comp_bind]. rewrite <- (fe_inode _ _ He1) by done.
  assert (He : fs_equiv fs f2) by (by transitivity f1).
  exists f2. split_and!; [done..|]. by rewrite (fe_inode _ _ He) by done.
Qed.

Lemma create_file_run fs path d name i :
  tree_inv fs -> Forall is_u8 path -> create_check fs path = Ok (d, name, i) ->
  0 < in_size (fs_inode fs d) < 504 ->
  exists fs', create_file fs path = Ret (Ok i, fs') /\ created fs fs' EFile d name i.
Proof.
  intros Hti Hp Hc Hsz. pose proof (new_dir_entry_run fs path EFile Hti) as Hn. rewrite Hc in Hn.
  destruct Hn as (Hd & Hdd & Hl & Hi & Hname & fs1 & Hia & E). unfold create_file. rewrite E.
  apply (link_new_file fs fs1); auto.
Qed.

Lemma mkdir_run fs path d name i :
  tree_inv fs -> Forall is_u8 path -> create_check fs path = Ok (d, name, i) ->
  0 < in_size (fs_inode fs d) < 504 -> find_free (data_bitmap fs) <> None ->
  exists fs', mkdir fs path = Ret (Ok i, fs') /\ created fs fs' EDirectory d name i.
Proof.
  intros Hti Hp Hc Hsz Hfree. pose proof (new_dir_entry_run fs path EDirectory Hti) as Hn. rewrite Hc in Hn.
  destruct Hn as (Hd & Hdd & Hl & Hi & Hname & fs1 & Hia & E). unfold mkdir. rewrite E.
  destruct (link_new_directory fs fs1 d name i) as [[]|[_ ?]]; auto; [|done].
  pose proof (allocated_range _ _ (ti_ok _ Hti) Hd). pose proof (geo_count _ _ _ (fo_geo _ (ti_ok _ Hti))).
  unfold in_width. lia.
Qed.
End Ops.

(** ** Properties *)

(** C22: Formatting any device of [u32] size on which a layout exists succeeds,
    and mounting the formatted device succeeds and shows a tree with exactly one
    allocated inode, the root directory, whose entries are "." and "..". *)
Theorem format_then_mount {D : Type} `{BlockDeviceLaws D} (dev : D) l :
  dev_ok dev -> is_u32 (total_blocks dev) -> layout_new (total_blocks dev) MAX_INODES = Ret (Some l) ->
  exists dev' fs, format dev = Ret (Ok tt, dev') /\ Filesystem_new dev' = Ret (Ok fs) /\
    tree_inv fs /\ (forall j, allocated fs j <-> j = 0) /\ fs_entries fs 0 = root_entries.
Proof.
  intros Hok Ht El. destruct (format_spec dev l Hok Ht El) as (dev' & fs & E1 & E2 & _ & _ & _ & Het). exists dev', fs.
  split; [exact E1|]. split; [exact E2|]. split; [apply Het|]. split; apply Het.
Qed.

Lemma format_then_mount_witness :
  exists dev' fs, format sample_disk = Ret (Ok tt, dev') /\ Filesystem_new dev' = Ret (Ok fs) /\
    fs_entries fs 0 = root_entries.
Proof.
  destruct (format_then_mount sample_disk (mkLayout 1 1 2 1 3 586 589 111)) as (dev' & fs & E1 & E2 & _ & _ & E3).
  - apply disk_empty_ok. lia.
  - by vm_compute.
  - by vm_compute.
  - exists dev', fs. split; [exact E1|]. split; [exact E2|exact E3].
Defined.

(** C8: Flushing a filesystem that satisfies the invariant never fails, and
    mounting the device it leaves gives a filesystem with the same bitmaps,
    inodes and data blocks, hence the same files and directories: nothing that
    was only in the inode cache is lost. *)
Theorem flush_then_mount {D : Type} `{BlockDeviceLaws D} (fs : Filesystem D) :
  tree_inv fs ->
  exists fs' fs'', flush fs = Ret fs' /\ Filesystem_new (block_device fs') = Ret (Ok fs'') /\
    fs_equiv fs fs'' /\ tree_inv fs''.
Proof.
  intros Hti. destruct (ti_root _ Hti) as [Hr Hrd].
  destruct (flush_spec fs (ti_ok _ Hti)) as (f2 & E2 & Hok2 & He2 & Hfl2).
  destruct (mount_flushed f2 Hok2 Hfl2) as (f3 & E3 & Hok3 & He3 & _).
  { rewrite <- (fe_inode _ _ He2); [done|]. by apply allocated_range; [apply Hti|]. }
  assert (He : fs_equiv fs f3) by (by transitivity f2).
  exists f2, f3. split_and!; [done..|]. by apply (tree_inv_equiv fs).
Qed.

(** A RAM disk with an empty file /a. *)
Definition sample_path : list Z := str "/a".
Definition sample_fs_a : Filesystem Disk :=
  match create_file sample_fs sample_path with Ret (_, fs) => fs | _ => sample_fs end.

Lemma sample_check : create_check sample_fs sample_path = Ok (0, str "a", 1).
Proof. by vm_compute. Qed.

Lemma sample_path_bytes : Forall is_u8 sample_path.
Proof. repeat (apply Forall_cons; split; [by vm_compute|]). constructor. Qed.

Lemma sample_a_tree : tree_inv sample_fs_a.
Proof.
  destruct (create_file_run sample_fs sample_path 0 (str "a") 1) as (fs' & E & Hcr).
  - apply sample_empty_tree.
  - apply sample_path_bytes.
  - apply sample_check.
  - by vm_compute.
  - unfold sample_fs_a. rewrite E. apply Hcr.
Qed.

Lemma flush_then_mount_witness :
  exists fs' fs'', flush sample_fs_a = Ret fs' /\ Filesystem_new (block_device fs') = Ret (Ok fs'') /\
    fs_equiv sample_fs_a fs''.
Proof.
  destruct (flush_then_mount sample_fs_a sample_a_tree) as (fs' & fs'' & E1 & E2 & He & _).
  exists fs', fs''. split; [exact E1|]. split; [exact E2|exact He].
Defined.

(** C2: Appending to a file.  An unresolvable path, a directory and a file that
    would exceed 8192 bytes are reported and change nothing.  Otherwise a prefix
    of the bytes is appended to exactly that file, in blocks that were free:
    all of the bytes with result [Ok], or, when the data blocks run out, as many
    as fit with result [NoSpaceLeft] and no free block left.  Every other file
    and directory keeps its contents, and the invariant is preserved. *)
Theorem append_to_file_appends {D : Type} `{BlockDeviceLaws D} (fs : Filesystem D) path bytes :
  tree_inv fs -> Forall is_u8 bytes -> zlen bytes < 2 ^ 63 ->
  exists res fs', append_to_file fs path bytes = Ret (res, fs') /\ tree_inv fs' /\
    match resolve_spec fs path with
    | Err e => res = Err e /\ fs_equiv fs fs'
    | Ok r =>
        let i := rp_basename_inode r in
        if in_is_directory (fs_inode fs i) then res = Err IsDirectory /\ fs_equiv fs fs'
        else if 8192 <? in_size (fs_inode fs i) + zlen bytes then res = Err FileTooLarge /\ fs_equiv fs fs'
        else exists w, 0 <= w <= zlen bytes /\
          fs_content fs' i = fs_content fs i ++ take (Z.to_nat w) bytes /\
          (forall j, allocated fs j -> j <> i ->
             fs_content fs' j = fs_content fs j /\ fs_entries fs' j = fs_entries fs j) /\
          (forall j, allocated fs' j <-> allocated fs j) /\
          ((res = Ok (zlen bytes) /\ w = zlen bytes) \/
           (res = Err NoSpaceLeft /\ w < zlen bytes /\ find_free (data_bitmap fs') = None))
    end.
Proof.
  intros Hti Hu8 Hlen. destruct (append_to_file_run fs path bytes Hti Hu8 Hlen) as (res & fs' & E & Hti' & Hres).
  exists res, fs'. split_and!; [done..|]. destruct (resolve_spec fs path) as [r|] eqn:Er; [|done].
  destruct (resolve_spec_allocated fs path r Hti Er) as (_ & Ha & _).
  cbv zeta in Hres |- *. destruct (in_is_directory _); [done|]. destruct (8192 <? _); [done|].
  destruct Hres as (w & Hw & Hg & Hres). exists w. split_and!; try done; try lia.
  - apply Hg.
  - intros j Hj Hne. by destruct (grown_frame fs fs' _ _ j Hti Ha Hg Hj Hne) as (_ & ? & ? & _).
  - intros j. by eapply grown_allocated.
  - destruct Hres as [|(-> & ? & _ & ?)]; [by left|by right].
Qed.

Lemma append_to_file_appends_witness :
  exists fs', append_to_file sample_fs_a sample_path (str "hello") = Ret (Ok 5, fs') /\
    fs_content fs' 1 = str "hello".
Proof.
  destruct (append_to_file_appends sample_fs_a sample_path (str "hello")) as (res & fs' & E & _ & Hres).
  - apply sample_a_tree.
  - repeat (apply Forall_cons; split; [by vm_compute|]). constructor.
  - by vm_compute.
  - assert (Er : resolve_spec sample_fs_a sample_path = Ok (mkResolved 0 (str "a") 1)) by (by vm_compute).
    rewrite Er in Hres. cbv zeta in Hres. cbn [rp_basename_inode] in Hres.
    assert (Ed : in_is_directory (fs_inode sample_fs_a 1) = false) by (by vm_compute). rewrite Ed in Hres.
    assert (Es : (8192 <? in_size (fs_inode sample_fs_a 1) + zlen (str "hello")) = false) by (by vm_compute).
    rewrite Es in Hres. assert (Ec : fs_content sample_fs_a 1 = []) by (by vm_compute). rewrite Ec in Hres.
    destruct Hres as (w & Hw & Hc & _ & _ & [[-> ->]|(-> & Hlt & Hfull)]).
    + exists fs'. split; [exact E|]. rewrite Hc. reflexivity.
    + exfalso. assert (Hrun : match append_to_file sample_fs_a sample_path (str "hello") with
                              | Ret (Ok _, _) => True | _ => False end) by (by vm_compute).
      by rewrite E in Hrun.
Defined.

(** C25: Reading a file whose contents are ASCII returns exactly its contents; an
    unresolvable path or a directory is reported.  Reading changes no file,
    directory or bitmap. *)
Theorem read_file_returns_content {D : Type} `{BlockDeviceLaws D} (fs : Filesystem D) path :
  tree_inv fs ->
  match resolve_spec fs path with
  | Err e => exists fs', read_file fs path = Ret (Err e, fs') /\ fs_equiv fs fs'
  | Ok r =>
      let i := rp_basename_inode r in
      if in_is_directory (fs_inode fs i)
      then exists fs', read_file fs path = Ret (Err IsDirectory, fs') /\ fs_equiv fs fs'
      else Forall (fun b => 0 <= b < 128) (fs_content fs i) ->
        exists fs', read_file fs path = Ret (Ok (fs_content fs i), fs') /\ fs_equiv fs fs'
  end.
Proof.
  intros Hti. pose proof (read_file_run fs path Hti) as Hr.
  destruct (resolve_spec fs path) as [r|e] eqn:Er; [|destruct Hr as (fs' & ? & _ & ?); eauto].
  cbv zeta in Hr |- *. destruct Hr as (fs' & Hok' & He & ->). set (i := rp_basename_inode r) in *.
  destruct (in_is_directory (fs_inode fs i)); [eauto|]. intros Hascii.
  destruct (resolved_file fs path r Hti Er) as [_ Hii].
  rewrite <- (fs_content_equiv fs fs' i He Hii) in Hascii |- *.
  rewrite read_file_content by (done || by apply (inode_inv_equiv fs)). eauto.
Qed.

Lemma hello_ascii : Forall (fun b => 0 <= b < 128) (str "hello").
Proof. repeat (apply Forall_cons; split; [by vm_compute|]). constructor. Qed.

(** The sample disk after "hello" was appended to /a. *)
Definition sample_fs_hello : Filesystem Disk :=
  match append_to_file sample_fs_a sample_path (str "hello") with Ret (_, fs) => fs | _ => sample_fs_a end.

Lemma sample_hello_tree : tree_inv sample_fs_hello.
Proof.
  destruct (append_to_file_run sample_fs_a sample_path (str "hello")) as (res & fs' & E & Hti & _).
  - apply sample_a_tree.
  - repeat (apply Forall_cons; split; [by vm_compute|]). constructor.
  - by vm_compute.
  - unfold sample_fs_hello. by rewrite E.
Qed.

Lemma read_file_returns_content_witness :
  exists fs', read_file sample_fs_hello sample_path = Ret (Ok (str "hello"), fs').
Proof.
  pose proof (read_file_returns_content sample_fs_hello sample_path sample_hello_tree) as Hr.
  assert (Er : resolve_spec sample_fs_hello sample_path = Ok (mkResolved 0 (str "a") 1)) by (by vm_compute).
  rewrite Er in Hr. cbv zeta in Hr. cbn [rp_basename_inode] in Hr.
  assert (Ed : in_is_directory (fs_inode sample_fs_hello 1) = false) by (by vm_compute). rewrite Ed in Hr.
  assert (Ec : fs_content sample_fs_hello 1 = str "hello") by (by vm_compute). rewrite Ec in Hr.
  destruct (Hr hello_ascii) as (fs' & E & _). exists fs'. exact E.
Defined.

(** C14: When the checks pass and the parent directory has fewer than 18 entries,
    [create_file] and [mkdir] succeed (the latter if a data block is free) with
    the lowest free inode: the parent's listing gains exactly the new entry at
    its end, the new file is empty, the new directory holds "." for itself and
    ".." for its parent, no other file or directory changes, and the invariant
    is preserved. *)
Theorem create_links_new_inode {D : Type} `{BlockDeviceLaws D} (fs : Filesystem D) path d name i :
  tree_inv fs -> Forall is_u8 path -> create_check fs path = Ok (d, name, i) ->
  0 < in_size (fs_inode fs d) < 504 ->
  (exists fs', create_file fs path = Ret (Ok i, fs') /\ created fs fs' EFile d name i) /\
  (find_free (data_bitmap fs) <> None ->
   exists fs', mkdir fs path = Ret (Ok i, fs') /\ created fs fs' EDirectory d name i).
Proof.
  intros Hti Hp Hc Hsz. split; [by eapply create_file_run|by eapply mkdir_run].
Qed.

Lemma create_links_new_inode_witness :
  exists fs' : Filesystem Disk, create_file sample_fs sample_path = Ret (Ok 1, fs') /\
    fs_entries fs' 0 = fs_entries sample_fs 0 ++ [DirEntry_new (str "a") 1].
Proof.
  destruct (create_links_new_inode sample_fs sample_path 0 (str "a") 1) as [(fs' & E & Hcr) _].
  - apply sample_empty_tree.
  - apply sample_path_bytes.
  - apply sample_check.
  - by vm_compute.
  - exists fs'. split; [exact E|apply Hcr].
Defined.

(** C30: When a check of [new_dir_entry] fails (no name, a name above 24 bytes, a
    missing or non-directory path component, a parent without a free block slot,
    an existing entry of that name, no free inode) that error is returned and
    the filesystem's files, directories and bitmaps are unchanged. *)
Theorem create_rejects_without_effect {D : Type} `{BlockDeviceLaws D} (fs : Filesystem D) path t e :
  tree_inv fs -> create_check fs path = Err e ->
  exists fs', new_dir_entry fs path t = Ret (Err e, fs') /\ fs_equiv fs fs' /\ tree_inv fs'.
Proof.
  intros Hti Hc. pose proof (new_dir_entry_run fs path t Hti) as Hn. rewrite Hc in Hn.
  destruct Hn as (fs' & E & Hok & He). exists fs'. split_and!; [done..|]. by apply (tree_inv_equiv fs).
Qed.

Lemma create_rejects_without_effect_witness :
  exists fs' : Filesystem Disk, mkdir sample_fs_a sample_path = Ret (Err EntryExists, fs').
Proof.
  destruct (create_rejects_without_effect sample_fs_a sample_path EDirectory EntryExists) as (fs' & E & _).
  - apply sample_a_tree.
  - by vm_compute.
  - exists fs'. exact E.
Defined.

(** C39: A directory that holds 18 entries cannot take another one: the
    nineteenth would straddle the end of its first block, and instead of
    returning an error [create_file] and [mkdir] panic. *)
Theorem nineteenth_entry_panics {D : Type} `{BlockDeviceLaws D} (fs : Filesystem D) path t d name i :
  tree_inv fs -> Forall is_u8 path -> create_check fs path = Ok (d, name, i) ->
  length (fs_entries fs d) = 18%nat ->
  new_dir_entry fs path t = Panic.
Proof.
  intros Hti Hp Hc Hlen. pose proof (new_dir_entry_run fs path t Hti) as Hn. rewrite Hc in Hn.
  destruct Hn as (Hd & Hdd & Hl & Hi & Hname & fs1 & Hia & E). rewrite E.
  pose proof (ti_dir _ Hti _ Hd) as Hdi. destruct (di_shape _ _ Hdi Hdd) as [Hm Hle].
  destruct (ii_shape _ _ (di_inode _ _ Hdi)) as [Hsz _].
  unfold fs_entries in Hlen. rewrite Hdd, length_decode_entries in Hlen.
  pose proof (entry_count_28 (fs_inode fs d) ltac:(lia) Hm).
  apply (link_new_full fs fs1); auto. lia.
Qed.

(** Sixteen files in the root directory, on a formatted disk. *)
Definition sample_fs_full : Filesystem Disk :=
  fold_left (fun fs b => match create_file fs [SLASH; b] with Ret (_, fs) => fs | _ => fs end)
    (map (fun k => 97 + Z.of_nat k) (seq 0 16)) sample_fs.

Lemma create_step (fs : Filesystem Disk) path d name i :
  tree_inv fs -> Forall is_u8 path -> create_check fs path = Ok (d, name, i) ->
  0 < in_size (fs_inode fs d) < 504 ->
  tree_inv (match create_file fs path with Ret (_, fs) => fs | _ => fs end).
Proof. intros Hti Hp Hc Hs. destruct (create_file_run fs path d name i) as (fs' & -> & Hcr); [done..|apply Hcr]. Qed.

(** [create_step] along a list of names, with its side conditions as one
    computed test. *)
Definition creatable (fs : Filesystem Disk) (b : Z) : bool :=
  match create_check fs [SLASH; b] with
  | Ok (d, _, _) => (0 <? in_size (fs_inode fs d)) && (in_size (fs_inode fs d) <? 504) && (0 <=? b) && (b <? 256)
  | Err _ => false
  end.

Fixpoint all_creatable (fs : Filesystem Disk) (bs : list Z) : bool :=
  match bs with
  | [] => true
  | b :: bs => creatable fs b &&
      all_creatable (match create_file fs [SLASH; b] with Ret (_, fs) => fs | _ => fs end) bs
  end.

Lemma create_steps bs : forall fs : Filesystem Disk,
  tree_inv fs -> all_creatable fs bs = true ->
  tree_inv (fold_left (fun fs b => match create_file fs [SLASH; b] with Ret (_, fs) => fs | _ => fs end) bs fs).
Proof.
  induction bs as [|b bs IH]; intros fs Hti Hc; [done|]. cbn [all_creatable] in Hc.
  apply andb_true_iff in Hc as [Hb Hbs]. cbn [fold_left]. apply IH; [|done].
  unfold creatable in Hb. destruct (create_check fs [SLASH; b]) as [[[d name] i]|] eqn:E; [|done].
  apply (create_step fs _ d name i); try done; [|lia].
  repeat (apply Forall_cons; split; [unfold in_width; lia || by vm_compute|]). constructor.
Qed.

Lemma sample_full_tree : tree_inv sample_fs_full.
Proof. apply create_steps; [apply sample_empty_tree|by vm_compute]. Qed.

Lemma nineteenth_entry_panics_witness : create_file sample_fs_full (str "/z") = Panic.
Proof.
  apply (nineteenth_entry_panics sample_fs_full (str "/z") EFile 0 (str "z") 17).
  - apply sample_full_tree.
  - repeat (apply Forall_cons; split; [by vm_compute|]). constructor.
  - by vm_compute.
  - by vm_compute.
Defined.

(** When no data block is free, [mkdir] of a directory that passes every
    check does not report [NoSpaceLeft]: the inode is taken, the entry is
    written, and then the code panics because the new directory has no block
    for "." and "..". *)
Theorem mkdir_without_space_panics {D : Type} `{BlockDeviceLaws D} (fs : Filesystem D) path d name i :
  tree_inv fs -> Forall is_u8 path -> create_check fs path = Ok (d, name, i) ->
  0 < in_size (fs_inode fs d) < 504 -> find_free (data_bitmap fs) = None ->
  mkdir fs path = Panic.
Proof.
  intros Hti Hp Hc Hsz Hfull. pose proof (new_dir_entry_run fs path EDirectory Hti) as Hn. rewrite Hc in Hn.
  destruct Hn as (Hd & Hdd & Hl & Hi & Hname & fs1 & Hia & E). unfold mkdir. rewrite E.
  destruct (link_new_directory fs fs1 d name i) as [[]|[]]; auto; [|done].
  pose proof (allocated_range _ _ (ti_ok _ Hti) Hd). pose proof (geo_count _ _ _ (fo_geo _ (ti_ok _ Hti))).
  unfold in_width. lia.
Qed.

(** The smallest device that can be formatted has one data block, which the
    root directory takes. *)
Definition tiny_disk : Disk := mkDisk (590 * 512) ∅.
Definition tiny_fs : Filesystem Disk :=
  match ('(_, dev) ← format tiny_disk; Filesystem_new dev) with
  | Ret (Ok fs) => fs
  | _ => sample_fs
  end.

Lemma tiny_empty_tree : empty_tree tiny_fs.
Proof.
  destruct (format_spec tiny_disk (mkLayout 1 1 2 1 3 586 589 1)) as (dev' & fs & E1 & E2 & _ & _ & _ & Het).
  - apply disk_empty_ok. lia.
  - by vm_compute.
  - by vm_compute.
  - unfold tiny_fs. rewrite E1. cbn [mbind comp_bind]. by rewrite E2.
Qed.

Lemma mkdir_without_space_panics_witness : mkdir tiny_fs sample_path = Panic.
Proof.
  apply (mkdir_without_space_panics tiny_fs sample_path 0 (str "a") 1).
  - apply tiny_empty_tree.
  - apply sample_path_bytes.
  - by vm_compute.
  - by vm_compute.
  - by vm_compute.
Defined.

(** [read_file] decodes block by block: if the bytes in the first block are
    not UTF-8 by themselves it panics, although the file as a whole may be. *)
Theorem read_file_splits_characters {D : Type} `{BlockDeviceLaws D} (fs : Filesystem D) path r :
  tree_inv fs -> resolve_spec fs path = Ok r ->
  in_is_directory (fs_inode fs (rp_basename_inode r)) = false ->
  utf8_valid (take 512 (fs_content fs (rp_basename_inode r))) = false ->
  read_file fs path = Panic.
Proof.
  intros Hti Er Hd Hbad. pose proof (read_file_run fs path Hti) as Hr. rewrite Er in Hr. cbv zeta in Hr.
  destruct Hr as (fs' & Hok' & He & ->). destruct (resolved_file fs path r Hti Er) as [_ Hii].
  set (i := rp_basename_inode r) in *. rewrite Hd.
  rewrite <- (fs_content_equiv fs fs' i He Hii) in Hbad.
  by rewrite (read_file_content_bad fs' i []) by (done || by apply (inode_inv_equiv fs)).
Qed.

(** "A" 511 times and then the two bytes of U+00E9. *)
Definition split_text : list Z := replicate 511 65 ++ [195; 169].

Lemma split_text_bytes : Forall is_u8 split_text.
Proof.
  apply Forall_app. split; [by apply Forall_replicate|].
  repeat (apply Forall_cons; split; [by vm_compute|]). constructor.
Qed.

Definition sample_fs_split : Filesystem Disk :=
  match append_to_file sample_fs_a sample_path split_text with Ret (_, fs) => fs | _ => sample_fs_a end.

Lemma sample_split_tree : tree_inv sample_fs_split.
Proof.
  destruct (append_to_file_run sample_fs_a sample_path split_text) as (res & fs' & E & Hti & _).
  - apply sample_a_tree.
  - apply split_text_bytes.
  - by vm_compute.
  - unfold sample_fs_split. by rewrite E.
Qed.

Lemma read_file_splits_characters_witness :
  utf8_valid (fs_content sample_fs_split 1) = true /\ read_file sample_fs_split sample_path = Panic.
Proof.
  split; [by vm_compute|].
  apply (read_file_splits_characters sample_fs_split sample_path (mkResolved 0 (str "a") 1)).
  - apply sample_split_tree.
  - by vm_compute.
  - by vm_compute.
  - by vm_compute.
Defined.
