(* ===== verification/FsUsage.v ===== *)
(** * What a filesystem holds, counted

    Inodes and data blocks in use as functions of the tree.  [tree_inv] makes
    the data bitmap's count the number of blocks the file sizes need, so
    whether an operation finds space can be read off the sizes, and a tree of a
    known size fits in a device of a known size. *)
From S2P Require Import Prelude Bitmap Bytes Layout INode DirEntry BlockDev INodeCache SuperBlock Filesystem FsBase FsState FsFiles FsDirs FsCreate FsFormat FsProps.

(** ** Sums over the indices below [n] *)
Definition tally (n : Z) (f : Z -> Z) : Z := foldr (fun j acc => f j + acc) 0 (seqZ 0 n).

Lemma foldr_ext_in (l : list Z) f g :
  (forall j, j ∈ l -> f j = g j) -> foldr (fun j acc => f j + acc) 0 l = foldr (fun j acc => g j + acc) 0 l.
Proof.
  induction l as [|j l IH]; intros E; [done|]. simpl.
  rewrite (E j) by (by left). f_equal. apply IH. intros k Hk. apply E. by right.
Qed.

Lemma tally_ext n f g : (forall j, 0 <= j < n -> f j = g j) -> tally n f = tally n g.
Proof. intros E. apply foldr_ext_in. intros j Hj%elem_of_seqZ. apply E. lia. Qed.

Lemma tally_upd n f g i :
  0 <= i < n -> (forall j, 0 <= j < n -> j <> i -> g j = f j) -> tally n g = tally n f - f i + g i.
Proof.
  intros Hi E. unfold tally.
  assert (Hin : i ∈ seqZ 0 n) by (apply elem_of_seqZ; lia).
  assert (Hl : forall j, j ∈ seqZ 0 n -> j <> i -> g j = f j) by (intros j Hj%elem_of_seqZ ?; apply E; lia).
  pose proof (NoDup_seqZ 0 n) as Hnd. revert Hin Hl Hnd. generalize (seqZ 0 n) as l.
  induction l as [|k l IH]; intros Hin Hl Hnd; [by apply not_elem_of_nil in Hin|]. simpl.
  apply NoDup_cons in Hnd as [Hk Hnd]. destruct (decide (k = i)) as [->|Hne].
  - rewrite (foldr_ext_in l g f); [lia|]. intros j Hj. apply Hl; [by right|]. by intros ->.
  - rewrite (Hl k) by (by left || done). rewrite IH; [lia| |intros j Hj; apply Hl; by right|done].
    by apply elem_of_cons in Hin as [->|].
Qed.

Lemma tally_le n f g : (forall j, 0 <= j < n -> f j <= g j) -> tally n f <= tally n g.
Proof.
  intros Hle. unfold tally. assert (Hl : forall j, j ∈ seqZ 0 n -> f j <= g j) by (intros j Hj%elem_of_seqZ; apply Hle; lia).
  revert Hl. generalize (seqZ 0 n) as l. induction l as [|k l IH]; intros Hl; [done|]. simpl.
  specialize (Hl k ltac:(by left)) as Hk. specialize (IH ltac:(intros j Hj; apply Hl; by right)). lia.
Qed.

Lemma tally_const n c : 0 <= n -> tally n (fun _ => c) = n * c.
Proof.
  intros Hn. unfold tally. pose proof (length_seqZ 0 n) as Hlen. revert Hlen. generalize (seqZ 0 n) as l.
  intros l Hl. transitivity (zlen l * c); [|unfold zlen; by rewrite Hl, Z2Nat.id]. clear Hl.
  induction l as [|k l IH]; [done|]. simpl. rewrite IH, zlen_cons. lia.
Qed.

(** The members of a list of indices, counted by their property. *)
Lemma tally_filter n (P : Z -> bool) :
  tally n (fun j => if P j then 1 else 0) = zlen (List.filter P (seqZ 0 n)).
Proof.
  unfold tally. induction (seqZ 0 n) as [|k l IH]; [done|]. simpl. rewrite IH.
  destruct (P k); [by rewrite zlen_cons|done].
Qed.

Lemma tally_concat n (f : Z -> list Z) : tally n (fun j => zlen (f j)) = zlen (concat (map f (seqZ 0 n))).
Proof.
  unfold tally. induction (seqZ 0 n) as [|k l IH]; [done|]. simpl. by rewrite IH, zlen_app.
Qed.

Lemma NoDup_concat_map (f : Z -> list Z) (l : list Z) :
  NoDup l -> (forall i, i ∈ l -> NoDup (f i)) ->
  (forall i j b, i ∈ l -> j ∈ l -> b ∈ f i -> b ∈ f j -> i = j) -> NoDup (concat (map f l)).
Proof.
  induction l as [|i l IH]; intros Hnd Hf Hd; [constructor|]. apply NoDup_cons in Hnd as [Hi Hnd]. simpl.
  apply NoDup_app. split_and!.
  - apply Hf. by left.
  - intros b Hb Hin. apply list_elem_of_In, in_concat in Hin as (x & Hx & Hbx). apply in_map_iff in Hx as (j & <- & Hj).
    apply list_elem_of_In in Hj, Hbx. assert (i = j) as -> by (eapply (Hd i j b); [by left|by right|done..]). done.
  - apply IH; [done|intros; apply Hf; by right|]. intros j k b Hj Hk. apply Hd; by right.
Qed.

(** ** The blocks of one inode *)
Lemma length_omap_prefix {A} (l : list (option A)) (m : nat) :
  (m <= length l)%nat -> (forall j o, l !! j = Some o -> is_Some o <-> (j < m)%nat) -> length (omap id l) = m.
Proof.
  revert m. induction l as [|[a|] l IH]; intros m Hm Hp.
  - simpl in *. lia.
  - assert (0 < m)%nat by (by apply (Hp 0%nat (Some a) eq_refl)).
    change (S (length (omap id l)) = m). simpl in Hm. rewrite (IH (m - 1)%nat); [lia..|]. intros j o Hj. rewrite (Hp (S j) o Hj). lia.
  - destruct m as [|m]; [|destruct (proj2 (Hp 0%nat None eq_refl) ltac:(lia)) as [? [=]]].
    rewrite omap_all_none; [done|]. intros j o Hj. destruct o; [|done].
    pose proof (proj1 (Hp _ _ Hj) ltac:(by eauto)). lia.
Qed.

Lemma block_list_owns (x : INode) b : b ∈ block_list x <-> exists k, in_blocks x !! k = Some (Some b).
Proof.
  unfold block_list. rewrite list_elem_of_omap. split.
  - intros (o & Hin & Ho). simpl in Ho. subst o. by apply list_elem_of_lookup_1.
  - intros [k Hk]. exists (Some b). split; [by eapply list_elem_of_lookup_2|done].
Qed.

Lemma block_list_length x :
  inode_shape x -> length (in_blocks x) = 16%nat -> zlen (block_list x) = div_ceil (in_size x) 512.
Proof.
  intros [Hs Hslots] Hl. pose proof (div_ceil_bounds (in_size x) 512 ltac:(lia) ltac:(lia)) as Hd.
  unfold zlen, block_list. rewrite (length_omap_prefix _ (Z.to_nat (div_ceil (in_size x) 512))); [lia| |].
  - lia.
  - intros j o Ho. rewrite (Hslots _ _ Ho). lia.
Qed.

Lemma block_list_NoDup x : blocks_distinct x -> NoDup (block_list x).
Proof.
  unfold blocks_distinct, block_list. induction (in_blocks x) as [|[b|] l IH]; intros Hd; [constructor| |].
  - simpl. apply NoDup_cons. split.
    + intros (o & Hin & Ho)%list_elem_of_omap. simpl in Ho. subst o. apply list_elem_of_lookup_1 in Hin as [k Hk].
      by specialize (Hd 0%nat (S k) b eq_refl Hk).
    + apply IH. intros k1 k2 c H1 H2. by specialize (Hd (S k1) (S k2) c H1 H2) as [=].
  - apply IH. intros k1 k2 c H1 H2. by specialize (Hd (S k1) (S k2) c H1 H2) as [=].
Qed.

(** ** Usage of a filesystem *)
Section Usage.
Context {D : Type} `{BlockDeviceLaws D}.
Implicit Types (dev : D) (fs : Filesystem D).

Definition inodes_used fs : Z := tally (inode_count fs) (fun j => if bm_test (inode_bitmap fs) j then 1 else 0).

(** The blocks inode [j] needs for its size; none if it is free. *)
Definition blocks_needed fs (j : Z) : Z :=
  if bm_test (inode_bitmap fs) j then div_ceil (in_size (fs_inode fs j)) 512 else 0.
Definition blocks_used fs : Z := tally (inode_count fs) (blocks_needed fs).

Definition blocks_marked fs : Z :=
  tally (data_blocks (fs_layout fs)) (fun v => if bm_test (data_bitmap fs) v then 1 else 0).

Definition owned_blocks fs (j : Z) : list Z :=
  if bm_test (inode_bitmap fs) j then block_list (fs_inode fs j) else [].

Lemma owned_blocks_length fs j : tree_inv fs -> 0 <= j < inode_count fs -> zlen (owned_blocks fs j) = blocks_needed fs j.
Proof.
  intros Hti Hj. unfold owned_blocks, blocks_needed. destruct (bm_test _ _) eqn:Ht; [|done].
  destruct (ti_dir _ Hti j) as [Hii _]; [split; [lia|done]|].
  apply block_list_length; [apply Hii|]. by destruct (fs_inode_ok _ _ (ti_ok _ Hti) Hj).
Qed.

(** The marked blocks are the owned ones. *)
Lemma blocks_marked_used fs : tree_inv fs -> blocks_marked fs = blocks_used fs.
Proof.
  intros Hti. pose proof (ti_ok _ Hti) as Hok.
  destruct (geometry_regions _ _ _ (fo_geo _ Hok)) as (_ & _ & _ & _ & _ & _ & Hend & _).
  unfold blocks_marked, blocks_used. rewrite tally_filter.
  rewrite <- (tally_ext _ (fun j => zlen (owned_blocks fs j))) by (intros; by apply owned_blocks_length).
  rewrite tally_concat. set (ds := data_start (fs_layout fs)) in *.
  transitivity (zlen (map (Z.add ds) (List.filter (bm_test (data_bitmap fs)) (seqZ 0 (data_blocks (fs_layout fs))))));
    [unfold zlen; by rewrite length_map|].
  unfold zlen. f_equal. apply Permutation_length, NoDup_Permutation.
  - apply NoDup_fmap_2_strong; [intros; lia|]. apply NoDup_ListNoDup, List.NoDup_filter, NoDup_ListNoDup, NoDup_seqZ.
  - apply NoDup_concat_map; [apply NoDup_seqZ| |].
    + intros i Hi%elem_of_seqZ. unfold owned_blocks. destruct (bm_test _ _) eqn:Ht; [|constructor].
      apply block_list_NoDup. by destruct (ti_dir _ Hti i) as [[] _]; [split; [lia|]|].
    + intros i j b Hi%elem_of_seqZ Hj%elem_of_seqZ. unfold owned_blocks.
      destruct (bm_test _ i) eqn:Hti'; [|by intros ?%not_elem_of_nil].
      destruct (bm_test _ j) eqn:Htj; [|by intros _ ?%not_elem_of_nil].
      rewrite !block_list_owns. intros Hbi Hbj. eapply (ti_owner _ Hti i j b); try done; split; done || lia.
  - intros b. rewrite list_elem_of_fmap, list_elem_of_In, in_concat. split.
    + intros (v & -> & [Hv Hb]%list_elem_of_In%List.filter_In). apply list_elem_of_In, elem_of_seqZ in Hv.
      destruct (ti_used _ Hti v) as (i & Ha & Ho); [lia|done|]. pose proof (allocated_range _ _ Hok Ha).
      exists (owned_blocks fs i). split; [apply in_map, list_elem_of_In, elem_of_seqZ; lia|].
      apply list_elem_of_In. unfold owned_blocks. destruct Ha as [_ ->]. by apply block_list_owns.
    + intros (l & (i & <- & Hi)%in_map_iff & Hb%list_elem_of_In). apply list_elem_of_In, elem_of_seqZ in Hi.
      unfold owned_blocks in Hb. destruct (bm_test _ i) eqn:Ht; [|by apply not_elem_of_nil in Hb].
      apply block_list_owns in Hb as [k Hk]. destruct (ti_dir _ Hti i) as [Hii _]; [split; [lia|done]|].
      destruct (ii_live _ _ Hii _ _ Hk) as [Hr Hl]. exists (b - ds). split; [lia|].
      apply list_elem_of_In, List.filter_In. split; [apply list_elem_of_In, elem_of_seqZ; lia|done].
Qed.

(** ** Free space *)
Lemma free_block_exists fs :
  tree_inv fs -> blocks_used fs < data_blocks (fs_layout fs) -> find_free (data_bitmap fs) <> None.
Proof.
  intros Hti Hlt Hnone. pose proof (ti_ok _ Hti) as Hok. rewrite <- (blocks_marked_used fs Hti) in Hlt.
  destruct (geometry_regions _ _ _ (fo_geo _ Hok)) as (_ & _ & _ & _ & _ & _ & _ & Hpos & _).
  unfold blocks_marked in Hlt. rewrite (tally_ext _ _ (fun _ => 1)), tally_const in Hlt; [lia..|].
  intros v Hv. rewrite (find_free_none _ (fo_dbm _ Hok) Hnone); [done|]. by rewrite (fo_dlen _ Hok).
Qed.

Lemma no_free_block fs :
  tree_inv fs -> find_free (data_bitmap fs) = None -> data_blocks (fs_layout fs) <= blocks_used fs.
Proof.
  intros Hti Hnone. destruct (Z.lt_ge_cases (blocks_used fs) (data_blocks (fs_layout fs))) as [Hlt|]; [|done].
  by apply free_block_exists in Hlt.
Qed.

Lemma free_inode_exists fs : fs_ok fs -> inodes_used fs < inode_count fs -> is_Some (find_free (inode_bitmap fs)).
Proof.
  intros Hok Hlt. destruct (find_free (inode_bitmap fs)) eqn:Hnone; [by eexists|].
  pose proof (geo_count _ _ _ (fo_geo _ Hok)). unfold inodes_used in Hlt.
  rewrite (tally_ext _ _ (fun _ => 1)), tally_const in Hlt; [lia..|].
  intros v Hv. by rewrite (find_free_none _ (fo_ibm _ Hok) Hnone).
Qed.

(** ** How the operations change it *)
Lemma allocated_test fs j : 0 <= j -> bm_test (inode_bitmap fs) j = true <-> allocated fs j.
Proof. intros Hj. unfold allocated. intuition. Qed.

Lemma same_allocated_test fs fs' j :
  0 <= j -> (allocated fs' j <-> allocated fs j) -> bm_test (inode_bitmap fs') j = bm_test (inode_bitmap fs) j.
Proof. intros Hj Ha. apply eq_true_iff_eq. by rewrite !allocated_test. Qed.

Lemma usage_equiv fs fs' : fs_equiv fs fs' -> inodes_used fs' = inodes_used fs /\ blocks_used fs' = blocks_used fs.
Proof.
  intros He. unfold inodes_used, blocks_used. rewrite <- (fe_ibm _ _ He). split; [done|].
  apply tally_ext. intros j Hj. unfold blocks_needed. rewrite <- (fe_ibm _ _ He).
  by rewrite (fe_inode _ _ He).
Qed.

(** The size of a directory is the number of its entries. *)
Lemma dir_size fs i :
  dir_inv fs i -> in_is_directory (fs_inode fs i) = true ->
  in_size (fs_inode fs i) = 28 * zlen (fs_entries fs i) /\ in_size (fs_inode fs i) <= 504.
Proof.
  intros [Hii Hsh] Hd. destruct (Hsh Hd) as [Hm Hle]. destruct (ii_shape _ _ Hii) as [[Hs _] _].
  unfold fs_entries. rewrite Hd. unfold zlen. rewrite length_decode_entries.
  pose proof (entry_count_28 _ Hs Hm). lia.
Qed.

Lemma file_size fs i : inode_inv fs i -> in_size (fs_inode fs i) = zlen (fs_content fs i).
Proof. intros Hii. destruct (ii_shape _ _ Hii) as [[Hs _] _]. unfold fs_content, content. by rewrite zlen_bytes_between. Qed.

Lemma entries_dir fs i e : e ∈ fs_entries fs i -> in_is_directory (fs_inode fs i) = true.
Proof. unfold fs_entries. destruct (in_is_directory _); [done|]. by intros ?%not_elem_of_nil. Qed.

Lemma one_block n : 0 < n <= 512 -> div_ceil n 512 = 1.
Proof. intros. apply div_ceil_unique; lia. Qed.

Lemma created_usage fs fs' t d name i :
  tree_inv fs -> allocated fs d -> fs_entries fs d <> [] -> created fs fs' t d name i ->
  inodes_used fs' = inodes_used fs + 1 /\
  blocks_used fs' = blocks_used fs + match t with EFile => 0 | EDirectory => 1 end.
Proof.
  intros Hti Hd Hne Hcr. pose proof (cr_tree _ _ _ _ _ _ Hcr) as Hti'. pose proof (cr_new _ _ _ _ _ _ Hcr) as Hnew.
  assert (Hd' : allocated fs' d) by (apply Hcr; by right). assert (Hi' : allocated fs' i) by (apply Hcr; by left).
  pose proof (allocated_range _ _ (ti_ok _ Hti') Hi') as Hi. rewrite (cr_count _ _ _ _ _ _ Hcr) in Hi.
  assert (Htest : forall j, 0 <= j < inode_count fs -> j <> i -> bm_test (inode_bitmap fs') j = bm_test (inode_bitmap fs) j).
  { intros j Hj Hji. apply same_allocated_test; [lia|]. rewrite (cr_allocated _ _ _ _ _ _ Hcr). intuition. }
  assert (Hti1 : bm_test (inode_bitmap fs') i = true) by apply Hi'.
  assert (Hti0 : bm_test (inode_bitmap fs) i = false).
  { apply not_true_iff_false. intros ?. apply Hnew. split; [lia|done]. }
  unfold inodes_used, blocks_used. rewrite (cr_count _ _ _ _ _ _ Hcr). split.
  - rewrite (tally_upd _ (fun j => if bm_test (inode_bitmap fs) j then 1 else 0) _ i) by (intros; by rewrite ?Htest).
    by rewrite Hti1, Hti0, Z.sub_0_r.
  - assert (Hdd : forall f : Filesystem D, tree_inv f -> allocated f d -> fs_entries f d <> [] ->
      div_ceil (in_size (fs_inode f d)) 512 = 1).
    { intros f Hf Hfd Hfe. destruct (fs_entries f d) as [|e es] eqn:Ee; [done|].
      destruct (dir_size f d (ti_dir _ Hf _ Hfd)) as [Hs Hle]; [apply (entries_dir _ _ e); rewrite Ee; by left|].
      rewrite Ee, zlen_cons in Hs. pose proof (zlen_nonneg es). apply one_block. lia. }
    rewrite (tally_upd _ (blocks_needed fs) _ i); [|done|].
    + unfold blocks_needed. rewrite Hti1, Hti0. pose proof (ti_dir _ Hti' _ Hi') as Hdi.
      pose proof (cr_node _ _ _ _ _ _ Hcr) as Hnode. pose proof (cr_kind _ _ _ _ _ _ Hcr) as Hk. destruct t.
      * rewrite (file_size _ _ (di_inode _ _ Hdi)), Hnode. change (div_ceil (zlen []) 512) with 0. lia.
      * destruct (dir_size _ _ Hdi Hk) as [-> _]. rewrite Hnode, one_block by done. lia.
    + intros j Hj Hji. unfold blocks_needed. rewrite Htest by done. destruct (bm_test _ j) eqn:Hj'; [|done].
      destruct (decide (j = d)) as [->|Hjd].
      * rewrite !Hdd; [done..|]. rewrite (cr_parent _ _ _ _ _ _ Hcr). by destruct (fs_entries fs d).
      * destruct (cr_frame _ _ _ _ _ _ Hcr j) as (-> & _); [|done..]. split; [lia|done].
Qed.

Lemma grown_usage fs fs' i chunk :
  tree_inv fs -> allocated fs i -> grown fs fs' i chunk ->
  inodes_used fs' = inodes_used fs /\
  blocks_used fs' = blocks_used fs - div_ceil (in_size (fs_inode fs i)) 512 +
    div_ceil (in_size (fs_inode fs i) + zlen chunk) 512.
Proof.
  intros Hti Ha Hg. pose proof (allocated_range _ _ (ti_ok _ Hti) Ha) as Hi.
  unfold inodes_used, blocks_used. rewrite (gr_ibm _ _ _ _ Hg). split; [done|].
  rewrite (tally_upd _ (blocks_needed fs) _ i); [|done|].
  - unfold blocks_needed. rewrite (gr_ibm _ _ _ _ Hg). destruct Ha as [_ ->]. by rewrite (gr_size _ _ _ _ Hg).
  - intros j Hj Hji. unfold blocks_needed. rewrite (gr_ibm _ _ _ _ Hg). by rewrite (gr_others _ _ _ _ Hg).
Qed.

Lemma empty_usage fs : empty_tree fs -> inodes_used fs = 1 /\ blocks_used fs = 1.
Proof.
  intros [Hti Ha He]. destruct (ti_root _ Hti) as [Hr Hd]. pose proof (allocated_range _ _ (ti_ok _ Hti) Hr) as Hr00.
  assert (Ht : forall j, 0 <= j < inode_count fs -> j <> 0 -> bm_test (inode_bitmap fs) j = false).
  { intros j Hj Hne. apply not_true_iff_false. rewrite allocated_test, Ha by lia. done. }
  assert (Hz : tally (inode_count fs) (fun _ => 0) = 0) by (rewrite tally_const; lia).
  unfold inodes_used, blocks_used.
  rewrite (tally_upd _ (fun _ => 0) _ 0), Hz by (intros; by rewrite ?Ht).
  rewrite (tally_upd _ (fun _ => 0) (blocks_needed fs) 0), Hz; [|lia|].
  - unfold blocks_needed. pose proof Hr as [_ ->]. destruct (dir_size fs 0) as [Hs _]; [by apply (ti_dir _ Hti)|done|].
    rewrite He in Hs. rewrite Hs. done.
  - intros j Hj Hne. unfold blocks_needed. by rewrite Ht.
Qed.
End Usage.

(** ** The account *)

Lemma blocks_accounted {D : Type} `{BlockDeviceLaws D} (fs : Filesystem D) :
  tree_inv fs ->
  blocks_marked fs = blocks_used fs /\ blocks_used fs <= data_blocks (fs_layout fs) /\
  (find_free (data_bitmap fs) = None <-> blocks_used fs = data_blocks (fs_layout fs)).
Proof.
  intros Hti. pose proof (blocks_marked_used fs Hti) as Hm. pose proof (ti_ok _ Hti) as Hok.
  destruct (geometry_regions _ _ _ (fo_geo _ Hok)) as (_ & _ & _ & _ & _ & _ & _ & Hpos & _).
  pose proof (tally_const (data_blocks (fs_layout fs)) 1 ltac:(lia)) as Hone. rewrite Z.mul_1_r in Hone.
  assert (Hle : blocks_used fs <= data_blocks (fs_layout fs)).
  { rewrite <- Hm, <- Hone. apply tally_le. intros j _. by destruct (bm_test _ _). }
  split; [exact Hm|]. split; [exact Hle|]. split.
  - intros Hnone. pose proof (no_free_block fs Hti Hnone). lia.
  - intros E. destruct (find_free (data_bitmap fs)) as [v|] eqn:Ef; [|done]. exfalso.
    destruct (find_free_some _ _ (fo_dbm _ Hok) Ef) as (Hv & Hfree & _). rewrite (fo_dlen _ Hok) in Hv.
    enough (blocks_marked fs < data_blocks (fs_layout fs)) by lia. unfold blocks_marked.
    rewrite (tally_upd _ (fun w => if w =? v then 1 else if bm_test (data_bitmap fs) w then 1 else 0) _ v); [|done|].
    + rewrite Hfree, Z.eqb_refl. enough (tally (data_blocks (fs_layout fs))
        (fun w => if w =? v then 1 else if bm_test (data_bitmap fs) w then 1 else 0) <= tally (data_blocks (fs_layout fs)) (fun _ => 1)) by lia.
      apply tally_le. intros j _. destruct (j =? v); [done|]. by destruct (bm_test (data_bitmap fs) j).
    + intros j _ Hne. by rewrite (proj2 (Z.eqb_neq j v)).
Qed.

(** The bytes that still fit behind a file of size [size]: the rest of its last
    block and all the free blocks. *)
Definition room_behind {D : Type} `{BlockDevice D} (fs : Filesystem D) (size : Z) : Z :=
  512 * (div_ceil size 512 + (data_blocks (fs_layout fs) - blocks_used fs)) - size.

(** An append writes what fits. *)
Lemma grown_room {D : Type} `{BlockDeviceLaws D} (fs fs' : Filesystem D) i chunk n :
  tree_inv fs -> tree_inv fs' -> allocated fs i -> grown fs fs' i chunk -> zlen chunk <= n -> 0 <= in_size (fs_inode fs i) ->
  (zlen chunk < n -> (in_size (fs_inode fs i) + zlen chunk) mod 512 = 0 /\ find_free (data_bitmap fs') = None) ->
  zlen chunk = Z.min n (room_behind fs (in_size (fs_inode fs i))).
Proof.
  intros Hti Hti' Hi Hg Hle Hsz Hshort. destruct (grown_usage fs fs' i chunk Hti Hi Hg) as [_ Hu].
  destruct (blocks_accounted fs' Hti') as (_ & Hcap & Hfull). rewrite (gr_layout _ _ _ _ Hg) in Hcap, Hfull.
  set (size := in_size (fs_inode fs i)) in *. pose proof (zlen_nonneg chunk).
  pose proof (div_ceil_bounds (size + zlen chunk) 512 ltac:(lia) ltac:(lia)) as Hb. unfold room_behind.
  destruct (decide (zlen chunk = n)) as [Heq|Hne]; [lia|]. destruct Hshort as [Hmod Hnone]; [lia|]. apply Hfull in Hnone.
  assert (512 * div_ceil (size + zlen chunk) 512 = size + zlen chunk) by (Z.div_mod_to_equations; lia). lia.
Qed.
