(* ===== verification/FsRemove.v ===== *)
(** * Removing a file

    What [remove_dir_entry] does, piece by piece: the search with the directory
    iterator, the swap of the last entry into the gap, the release of the
    blocks, and the effect on the tree. *)
From S2P Require Import Prelude Bitmap Bytes Layout INode DirEntry BlockDev INodeCache SuperBlock Filesystem.
From S2P Require Import FsBase FsState FsFiles FsDirs FsCreate FsFormat FsProps FsUsage.

(** ** Swap and remove *)

(** Where entry [j] of the shortened list of [n - 1] entries was before. *)
Definition slot_of (k n j : nat) : nat := if decide (j = k) then (n - 1)%nat else j.

Lemma slot_of_inj k n j1 j2 :
  (j1 < n - 1)%nat -> (j2 < n - 1)%nat -> slot_of k n j1 = slot_of k n j2 -> j1 = j2.
Proof. unfold slot_of. repeat case_decide; lia. Qed.

Lemma slot_of_ne k n j : (j < n - 1)%nat -> slot_of k n j <> k.
Proof. unfold slot_of. case_decide; lia. Qed.

Section SwapRemove.
Context {A : Type}.
Implicit Types (l : list A).

Definition swap_remove (k : nat) l : list A :=
  match last l with
  | Some x => take (length l - 1) (<[k := x]> l)
  | None => l
  end.

Lemma length_swap_remove k l : length (swap_remove k l) = (length l - 1)%nat.
Proof.
  unfold swap_remove. destruct (last l) eqn:E; [rewrite length_take, length_insert; lia|].
  apply last_None in E as ->. done.
Qed.

Lemma lookup_swap_remove k l j :
  (j < length l - 1)%nat -> swap_remove k l !! j = l !! slot_of k (length l) j.
Proof.
  intros Hj. unfold swap_remove, slot_of. destruct (last l) eqn:E; [|apply last_None in E as ->; simpl in Hj; lia].
  rewrite lookup_take_lt by done. case_decide; subst.
  - rewrite list_lookup_insert_eq by lia. rewrite last_lookup in E. rewrite <- E. f_equal. lia.
  - by rewrite list_lookup_insert_ne.
Qed.

Lemma swap_remove_from k l j x :
  swap_remove k l !! j = Some x ->
  (j < length l - 1)%nat /\ l !! slot_of k (length l) j = Some x /\ slot_of k (length l) j <> k.
Proof.
  intros Hj. assert (Hlt : (j < length l - 1)%nat) by (rewrite <- (length_swap_remove k); by eapply lookup_lt_Some).
  rewrite lookup_swap_remove in Hj by done. split_and!; [done..|by apply slot_of_ne].
Qed.

(** The members that are left. *)
Lemma elem_of_swap_remove k l x :
  (k < length l)%nat -> x ∈ swap_remove k l <-> exists j, j <> k /\ l !! j = Some x.
Proof.
  intros Hk. rewrite list_elem_of_lookup. split.
  - intros [j (_ & ? & ?)%swap_remove_from]. eauto.
  - intros (j & Hne & Hj). pose proof (lookup_lt_Some _ _ _ Hj).
    destruct (decide (j = length l - 1)%nat) as [->|].
    + exists k. rewrite lookup_swap_remove by lia. unfold slot_of. by rewrite decide_True.
    + exists j. rewrite lookup_swap_remove by lia. unfold slot_of. by rewrite decide_False.
Qed.
End SwapRemove.

(** ** One block of entries *)
Lemma decode_entries_lookup n bs j :
  (j < n)%nat -> decode_entries n bs !! j = Some (struct_at DirEntry bs (28 * Z.of_nat j)).
Proof.
  intros Hj. replace (struct_at DirEntry bs (28 * Z.of_nat j)) with (decode_dir_entry (take 28 (drop (28 * j) bs)))
    by (unfold struct_at; do 3 f_equal; lia).
  revert n bs Hj. induction j as [|j IH]; intros [|n] bs Hj; try lia; [by rewrite Nat.mul_0_r, drop_0|].
  cbn [decode_entries]. change ((decode_dir_entry (take 28 bs) :: decode_entries n (drop 28 bs)) !! S j) with (decode_entries n (drop 28 bs) !! j).
  rewrite IH by lia. do 2 f_equal. rewrite drop_drop. do 2 f_equal. lia.
Qed.

(** The block after its last entry was cleared and entry [k] overwritten by it. *)
Definition removed_block (B : list Z) (n k : nat) : list Z :=
  let off := 28 * Z.of_nat (n - 1) in
  let B1 := splice B off (replicate 28 0) in
  if decide (k = n - 1)%nat then B1 else splice B1 (28 * Z.of_nat k) (encode (struct_at DirEntry B off)).

Section Removed.
Variables (B : list Z) (n : nat).
Hypotheses (HB : block_ok B) (Hn : (1 <= n <= 18)%nat).

Lemma cleared_ok : block_ok (splice B (28 * Z.of_nat (n - 1)) (replicate 28 0)).
Proof.
  destruct HB as [Hl Hb]. split.
  - rewrite length_splice; [done|lia|]. rewrite zlen_replicate. unfold zlen. lia.
  - apply Forall_splice; [done|]. by apply Forall_replicate.
Qed.

Lemma last_entry_ok : dir_entry_ok (struct_at DirEntry B (28 * Z.of_nat (n - 1))).
Proof.
  pose proof (struct_at_ok (T := DirEntry) B (28 * Z.of_nat (n - 1)) HB) as Hok.
  apply Hok; [lia|]. change (disk_size DirEntry) with 28. lia.
Qed.

Lemma clear_last : clear_struct_at size_of_DirEntry B (28 * Z.of_nat (n - 1)) =
  Ret (splice B (28 * Z.of_nat (n - 1)) (replicate 28 0)).
Proof.
  pose proof (block_ok_zlen _ HB). unfold clear_struct_at, size_of_DirEntry. change (Z.to_nat 28) with 28%nat.
  apply copy_to_slice_ok; [lia|]. rewrite zlen_replicate. lia.
Qed.

Variable (k : nat).
Hypothesis (Hk : (k < n)%nat).

Lemma removed_ok : block_ok (removed_block B n k).
Proof.
  unfold removed_block. destruct (decide _); [apply cleared_ok|].
  pose proof (splice_encode_ok (T := DirEntry) _ _ (28 * Z.of_nat k) cleared_ok last_entry_ok) as Hok.
  apply Hok; [lia|]. change (disk_size DirEntry) with 28. lia.
Qed.

Lemma removed_entries : decode_entries (n - 1) (removed_block B n k) = swap_remove k (decode_entries n B).
Proof.
  pose proof (block_ok_zlen _ HB) as HzB. pose proof (block_ok_zlen _ cleared_ok) as Hz1.
  apply list_eq. intros j. destruct (decide (j < n - 1)%nat) as [Hj|Hj].
  2:{ rewrite !lookup_ge_None_2; [done|rewrite length_swap_remove, length_decode_entries; lia|rewrite length_decode_entries; lia]. }
  rewrite decode_entries_lookup by done. rewrite lookup_swap_remove by (by rewrite length_decode_entries).
  rewrite length_decode_entries. unfold slot_of.
  assert (Hcl : struct_at DirEntry (splice B (28 * Z.of_nat (n - 1)) (replicate 28 0)) (28 * Z.of_nat j) =
    struct_at DirEntry B (28 * Z.of_nat j)).
  { apply (struct_at_splice_ne DirEntry); rewrite ?zlen_replicate; change (disk_size DirEntry) with 28; lia. }
  unfold removed_block. destruct (decide (k = n - 1)%nat) as [->|Hne].
  - rewrite decide_False, decode_entries_lookup by lia. by rewrite Hcl.
  - case_decide; subst; rewrite decode_entries_lookup by lia.
    + f_equal. pose proof (struct_at_splice_eq (T := DirEntry) _ _ (28 * Z.of_nat k) Hz1 last_entry_ok) as E.
      apply E; [lia|]. change (disk_size DirEntry) with 28. lia.
    + rewrite <- Hcl. f_equal. change (encode (T := DirEntry)) with encode_dir_entry.
      apply (struct_at_splice_ne DirEntry); rewrite ?(zlen_encode_dir_entry _ last_entry_ok);
        change (disk_size DirEntry) with 28; try done; lia.
Qed.
End Removed.

(** ** The directory iterator *)
Section Iterator.
Context {D : Type} `{BlockDeviceLaws D}.
Variables (dev : D) (x : INode) (b : Z) (n : nat).
Hypotheses (Hok : dev_ok dev) (Hb : 0 <= b < total_blocks dev) (Hn : (n <= 18)%nat).
Hypotheses (Hdir : in_is_directory x = true) (Hsize : in_size x = 28 * Z.of_nat n).
Hypothesis (Hslot : in_blocks x !! 0%nat = Some (Some b)).

(** The iterator after [m] entries of the directory's block. *)
Definition reader_at_entry (m : nat) : DirEntryReader :=
  mkDirReader x 1 (blk dev b) (Z.of_nat m) (Z.of_nat n) (Z.of_nat n) (Z.of_nat (n - m)).

Definition position (m : nat) (e : DirEntry) : PositionDirEntry := mkPosition e b (28 * Z.of_nat m) (Z.of_nat m).

Lemma reader_new_spec : DirEntryReader_new x = Ret (mkDirReader x 0 Buffer_new 0 0 (Z.of_nat n) (Z.of_nat n)).
Proof.
  unfold DirEntryReader_new, current_dir_entries. rewrite Hdir, Hsize. cbn [assert mbind comp_bind].
  unfold size_of_DirEntry. rewrite Z.mul_comm, Z.div_mul by done. done.
Qed.

Lemma reader_next_entry m :
  (m < n)%nat ->
  DirEntryReader_next dev (reader_at_entry m) =
    Ret (Some (position m (struct_at DirEntry (blk dev b) (28 * Z.of_nat m))), reader_at_entry (S m)).
Proof.
  intros Hm. unfold DirEntryReader_next, reader_at_entry.
  cbn [dr_remaining dr_buf_len dr_buf_pos dr_inode dr_buf dr_block_cursor dr_total].
  rewrite (proj2 (Z.eqb_neq _ _)), (proj2 (Z.leb_gt _ _)) by lia. cbn [negb mbind comp_bind].
  cbn [dr_remaining dr_buf_len dr_buf_pos dr_inode dr_buf dr_block_cursor dr_total].
  destruct (read_blk dev b Hok Hb) as [_ Hbk]. unfold size_of_DirEntry.
  pose proof (read_struct_at_spec (T := DirEntry) (blk dev b) (Z.of_nat m * 28) (block_ok_zlen _ Hbk)) as E.
  rewrite E by (change (disk_size DirEntry) with 28; lia). cbn [mbind comp_bind].
  rewrite !sub_ovf_ok by lia. cbn [mbind comp_bind]. unfold inode_block.
  rewrite (index_ok _ _ (Some b)) by exact Hslot. cbn [mbind comp_bind to_block].
  rewrite !sub_ovf_ok by lia. cbn [mbind comp_bind]. rewrite sub_ovf_ok by lia. cbn [mbind comp_bind].
  unfold position. do 3 f_equal; [|f_equal..]; try lia. f_equal; [f_equal; lia|lia..].
Qed.

Lemma load_first_block fuel :
  load_next_block (S fuel) dev (mkDirReader x 0 Buffer_new 0 0 (Z.of_nat n) (Z.of_nat n)) =
    Ret (true, mkDirReader x 1 (blk dev b) 0 (Z.of_nat n) (Z.of_nat n) (Z.of_nat n)).
Proof.
  cbn [load_next_block dr_block_cursor dr_inode]. change (0 <? INODE_BLOCKS) with true. cbn iota.
  unfold inode_block. rewrite (index_ok _ _ (Some b)) by exact Hslot. cbn [mbind comp_bind to_block].
  destruct (read_blk dev b Hok Hb) as [-> _]. cbn [mbind comp_bind].
  cbn [dr_remaining dr_buf_len dr_buf_pos dr_inode dr_buf dr_block_cursor dr_total].
  rewrite DIR_ENTRY_PER_BLOCK_val, Z.min_l by lia. done.
Qed.

Lemma reader_first_entry :
  (0 < n)%nat ->
  DirEntryReader_next dev (mkDirReader x 0 Buffer_new 0 0 (Z.of_nat n) (Z.of_nat n)) =
  DirEntryReader_next dev (reader_at_entry 0).
Proof.
  intros Hpos. unfold DirEntryReader_next, reader_at_entry. rewrite load_first_block.
  cbn [dr_remaining dr_buf_len dr_buf_pos]. rewrite Nat.sub_0_r. change (Z.of_nat 0) with 0.
  rewrite (proj2 (Z.leb_gt (Z.of_nat n) 0)), (proj2 (Z.eqb_neq (Z.of_nat n) 0)) by lia. done.
Qed.

Lemma dir_reader_find_entry (p : PositionDirEntry -> bool) (P : DirEntry -> Prop) `{!forall e, Decision (P e)} :
  (forall m e, p (position m e) = bool_decide (P e)) -> forall m fuel,
  (m <= n)%nat -> (n - m < fuel)%nat ->
  dir_reader_find fuel dev p (reader_at_entry m) =
    Ret ((fun '(j, e) => position (m + j) e) <$> list_find P (drop m (decode_entries n (blk dev b)))).
Proof.
  intros Hp m fuel. revert m. induction fuel as [|fuel IH]; intros m Hm Hf; [lia|]. cbn [dir_reader_find].
  destruct (decide (m = n)) as [->|Hne].
  { rewrite drop_ge by (by rewrite length_decode_entries). unfold DirEntryReader_next, reader_at_entry.
    cbn [dr_remaining]. by rewrite Nat.sub_diag. }
  rewrite reader_next_entry by lia. cbn [mbind comp_bind]. rewrite Hp.
  rewrite (drop_S _ (struct_at DirEntry (blk dev b) (28 * Z.of_nat m)) m) by (apply decode_entries_lookup; lia).
  cbn [list_find]. case_bool_decide.
  - rewrite decide_True by done. simpl. by rewrite Nat.add_0_r.
  - rewrite decide_False by done. rewrite IH by lia. destruct (list_find _ _) as [[j e]|]; [|done].
    simpl. do 3 f_equal. lia.
Qed.

(** The search finds the first entry that satisfies the test. *)
Lemma dir_reader_find_spec (p : PositionDirEntry -> bool) (P : DirEntry -> Prop) `{!forall e, Decision (P e)} :
  (forall m e, p (position m e) = bool_decide (P e)) -> (0 < n)%nat ->
  (reader ← DirEntryReader_new x; dir_reader_find (S n) dev p reader) =
    Ret ((fun '(j, e) => position j e) <$> list_find P (decode_entries n (blk dev b))).
Proof.
  intros Hp Hpos. rewrite reader_new_spec. cbn [mbind comp_bind].
  transitivity (dir_reader_find (S n) dev p (reader_at_entry 0)).
  - cbn [dir_reader_find]. by rewrite reader_first_entry.
  - rewrite (dir_reader_find_entry p P) by (done || lia). by rewrite drop_0.
Qed.
End Iterator.

(** ** Releasing blocks and inodes *)
Section Release.
Context {D : Type} `{BlockDeviceLaws D}.
Implicit Types (dev : D) (fs : Filesystem D) (c : INodeCache).

(** [fs'] is [fs] with the data blocks [bs] cleared and free. *)
Record released fs fs' (bs : list Z) : Prop := {
  re_ok : fs_ok fs';
  re_total : total_blocks (block_device fs') = total_blocks (block_device fs);
  re_layout : fs_layout fs' = fs_layout fs;
  re_ibm : inode_bitmap fs' = inode_bitmap fs;
  re_cache : inode_cache fs' = inode_cache fs;
  re_inode j : 0 <= j < inode_count fs -> fs_inode fs' j = fs_inode fs j;
  re_dbm v : 0 <= v -> bm_test (data_bitmap fs') v =
    bm_test (data_bitmap fs) v && negb (bool_decide (data_start (fs_layout fs) + v ∈ bs));
  re_data j : data_start (fs_layout fs) <= j < total_blocks (block_device fs) ->
    blk (block_device fs') j = if bool_decide (j ∈ bs) then replicate 512 0 else blk (block_device fs) j;
}.

Lemma free_blocks_run bs : forall fs,
  fs_ok fs -> Forall (fun b => data_start (fs_layout fs) <= b < total_blocks (block_device fs)) bs ->
  exists fs', free_blocks fs (map Some bs) = Ret fs' /\ released fs fs' bs.
Proof.
  induction bs as [|b bs IH]; intros fs Hfs Hf.
  { exists fs. split; [done|]. constructor; try done; intros; rewrite ?andb_true_r; done. }
  apply Forall_cons in Hf as [Hb Hf]. cbn [map free_blocks to_block unwrap mbind comp_bind].
  pose proof (data_start_pos _ Hfs) as Hds. destruct (read_blk (block_device fs) b (fo_dev _ Hfs)) as [_ Hbk]; [lia|].
  destruct (modify_blk (block_device fs) b (fun buf => Ret (tt, clear_buffer buf)) tt (clear_buffer (blk (block_device fs) b)))
    as (d1 & -> & Hu); [apply (fo_dev _ Hfs)|lia|done|by apply clear_buffer_ok|]. cbn [mbind comp_bind].
  destruct (data_write_ok fs d1 b _ Hfs Hb Hu) as (Hok1 & Hin1 & _).
  set (v := b - data_start (fs_layout fs)).
  assert (Hv : 0 <= v < bm_len (data_bitmap fs)).
  { rewrite (fo_dlen _ Hfs). destruct (geometry_regions _ _ _ (fo_geo _ Hfs)) as (_ & _ & _ & _ & _ & _ & ? & _). lia. }
  destruct (data_block_addr fs v Hfs Hv) as (_ & E1 & _).
  replace (data_start (fs_layout fs) + v) with b in E1 by lia. rewrite E1. cbn [mbind comp_bind].
  destruct (bitmap_unset_spec (data_bitmap fs) v (fo_dbm _ Hfs) Hv) as (db & -> & Hwf & Hlen & Htest). cbn [mbind comp_bind].
  assert (Hok2 : fs_ok (with_data_bitmap (with_device fs d1) db)) by (by apply with_data_bitmap_ok).
  destruct (IH _ Hok2) as (fs' & -> & Hr); [simpl; by rewrite (du_total _ _ _ Hu)|].
  exists fs'. split; [done|]. destruct Hr. simpl in *.
  constructor; try done.
  - by rewrite re_total0, (du_total _ _ _ Hu).
  - intros j Hj. rewrite re_inode0 by done. apply (Hin1 j Hj).
  - intros w Hw. rewrite re_dbm0, Htest by done. 
    rewrite (bool_decide_ext (data_start (fs_layout fs) + w ∈ b :: bs)
      (w = v \/ data_start (fs_layout fs) + w ∈ bs)) by (rewrite elem_of_cons; intuition lia).
    rewrite bool_decide_or. destruct (Z.eqb_spec w v) as [->|].
    + rewrite (bool_decide_true (v = v)) by done. cbn [negb orb andb]. by rewrite andb_false_r.
    + rewrite (bool_decide_false (w = v)) by done. done.
  - intros j Hj. rewrite re_data0 by (by rewrite (du_total _ _ _ Hu)).
    rewrite (du_blk _ _ _ Hu) by lia. unfold put, clear_buffer. destruct Hbk as [Hl _]. rewrite Hl.
    rewrite (bool_decide_ext (j ∈ b :: bs) (j = b \/ j ∈ bs)) by (by rewrite elem_of_cons). rewrite bool_decide_or.
    destruct (Z.eqb_spec j b) as [->|].
    + rewrite (bool_decide_true (b = b)) by done. by destruct (bool_decide _).
    + by rewrite (bool_decide_false (j = b)).
Qed.

(** *** The cache keeps what it has fetched *)
Definition cache_len fs : Z := zlen (c_inodes (inode_cache fs)).

Lemma cache_fetch_len c i dev x c' :
  0 <= i -> cache_fetch c i dev = Ret (x, c') -> zlen (c_inodes c') = Z.max (zlen (c_inodes c)) (i + 1).
Proof.
  intros Hi E. unfold cache_fetch in E. apply bind_ret_inv in E as (slot & _ & E).
  rewrite <- (zlen_resize (c_inodes c) i Hi). destruct slot as [y|].
  - by injection E as _ <-.
  - apply bind_ret_inv in E as (y & _ & E). injection E as _ <-. unfold cache_store, zlen. simpl. by rewrite length_insert.
Qed.

Lemma lookup_inode_len fs i x fs' :
  0 <= i -> lookup_inode fs i = Ret (x, fs') -> cache_len fs' = Z.max (cache_len fs) (i + 1).
Proof.
  intros Hi E. unfold lookup_inode in E. apply bind_ret_inv in E as ([y c] & E1 & [= <- <-]).
  by eapply cache_fetch_len.
Qed.

Lemma lookup_inode_mut_len fs i x fs' :
  0 <= i -> lookup_inode_mut fs i = Ret (x, fs') -> cache_len fs' = Z.max (cache_len fs) (i + 1).
Proof.
  intros Hi E. unfold lookup_inode_mut in E. apply bind_ret_inv in E as ([y c] & E1 & [= <- <-]).
  unfold cache_get_mut in E1. apply bind_ret_inv in E1 as ([z c1] & E1 & E2).
  apply bind_ret_inv in E2 as (d & _ & [= <- <-]). by eapply cache_fetch_len in E1.
Qed.

(** Giving an inode back: its bit is cleared and the cache forgets it. *)
Record inode_freed fs fs' (i : Z) : Prop := {
  if_ok : fs_ok fs';
  if_device : block_device fs' = block_device fs;
  if_layout : fs_layout fs' = fs_layout fs;
  if_dbm : data_bitmap fs' = data_bitmap fs;
  if_count : inode_count fs' = inode_count fs;
  if_ibm v : 0 <= v -> bm_test (inode_bitmap fs') v = negb (v =? i) && bm_test (inode_bitmap fs) v;
  if_inode j : 0 <= j -> j <> i -> fs_inode fs' j = fs_inode fs j;
}.

Lemma free_inode_run fs i :
  fs_ok fs -> 0 <= i < inode_count fs -> i < cache_len fs ->
  exists ib c, bitmap_unset (inode_bitmap fs) i = Ret ib /\ cache_remove (inode_cache fs) i = Ret c /\
    inode_freed fs (with_cache (with_inode_bitmap fs ib) c) i.
Proof.
  intros Hfs Hi Hlen. pose proof Hfs as []. unfold cache_len in Hlen.
  destruct (bitmap_unset_spec _ i fo_ibm Hi) as (ib & E1 & Hwf1 & Hl1 & Ht1).
  pose proof fo_cache as [].
  destruct (bitmap_unset_spec (c_dirty (inode_cache fs)) i) as (dd & E2 & Hwf2 & Hl2 & Ht2); [done|by rewrite co_dirty_len|].
  destruct (lookup_lt_is_Some_2 (c_inodes (inode_cache fs)) (Z.to_nat i)) as [slot Hslot]; [unfold zlen in *; lia|].
  set (c := mkCache (<[Z.to_nat i := None]> (c_inodes (inode_cache fs))) dd (c_layout (inode_cache fs))).
  exists ib, c. split; [done|]. split.
  { unfold cache_remove. rewrite (index_ok _ _ _ Hslot). cbn [mbind comp_bind]. by rewrite E2. }
  assert (Hc : forall j, 0 <= j -> cached c j = if j =? i then None else cached (inode_cache fs) j).
  { intros j Hj. unfold c. rewrite cached_insert by lia. by zcase. }
  constructor; simpl; try done.
  - constructor; simpl; try done; rewrite Hl1; [done|]. constructor; simpl; try done; try congruence.
    + unfold zlen in *. by rewrite length_insert.
    + intros j x Hj. rewrite Hc by done. zcase; [done|eauto].
    + intros j x Hj. rewrite Hc, Ht2 by done. zcase; [done|eauto].
    + intros j Hj. rewrite Hc, Ht2 by done. zcase; [done|eauto].
  - intros j Hj Hne. unfold fs_inode. simpl. rewrite Hc by done. by rewrite (proj2 (Z.eqb_neq _ _)).
Qed.
End Release.

(** ** Unlinking *)
Section Unlink.
Context {D : Type} `{BlockDeviceLaws D}.
Implicit Types (dev : D) (fs : Filesystem D).

(** The two block writes: the last entry is taken out and fills the gap. *)
Definition move_last_entry dev (found : PositionDirEntry) (last_index last_block_index last_block_offset : Z) : comp D :=
  '(last_entry, dev) ← modify_block dev last_block_index (fun buf =>
    entry ← read_struct_at DirEntry buf last_block_offset;
    buf ← clear_struct_at size_of_DirEntry buf last_block_offset;
    Ret (entry, buf));
  if negb (pd_logical_index found =? last_index) then
    '(_, dev) ← modify_block dev (pd_block_index found) (fun buf =>
      buf ← write_struct_at buf last_entry (pd_byte_offset found);
      Ret (tt, buf));
    Ret dev
  else Ret dev.

Lemma move_last_entry_run dev b (n k : nat) e :
  dev_ok dev -> 0 <= b < total_blocks dev -> (1 <= n <= 18)%nat -> (k < n)%nat ->
  exists dev', move_last_entry dev (position b k e) (Z.of_nat n - 1) b (28 * Z.of_nat (n - 1)) = Ret dev' /\
    dev_upd dev dev' (put b (removed_block (blk dev b) n k) (blk dev)).
Proof.
  intros Hok Hb Hn Hk. destruct (read_blk dev b Hok Hb) as [_ HB]. unfold move_last_entry, position.
  cbn [pd_logical_index pd_block_index pd_byte_offset].
  pose proof (read_struct_at_spec (T := DirEntry) (blk dev b) (28 * Z.of_nat (n - 1)) (block_ok_zlen _ HB)) as Er.
  pose proof (cleared_ok _ n HB Hn) as HB1. pose proof (last_entry_ok _ n HB Hn) as He.
  destruct (modify_blk dev b (fun buf =>
    entry ← read_struct_at DirEntry buf (28 * Z.of_nat (n - 1));
    buf ← clear_struct_at size_of_DirEntry buf (28 * Z.of_nat (n - 1));
    Ret (entry, buf)) (struct_at DirEntry (blk dev b) (28 * Z.of_nat (n - 1)))
    (splice (blk dev b) (28 * Z.of_nat (n - 1)) (replicate 28 0))) as (d1 & -> & Hu1);
    [done..| |done|].
  { rewrite Er by (change (disk_size DirEntry) with 28; lia). cbn [mbind comp_bind].
    by rewrite (clear_last _ n HB Hn). }
  cbn [mbind comp_bind]. pose proof (removed_ok _ n HB Hn k Hk) as Hr. unfold removed_block in *.
  destruct (Z.eqb_spec (Z.of_nat k) (Z.of_nat n - 1)) as [E|E]; cbn [negb].
  - exists d1. split; [done|]. by rewrite decide_True by lia.
  - rewrite decide_False in Hr |- * by lia. destruct Hu1 as [Hok1 Ht1 Hd1].
    destruct (modify_blk d1 b (fun buf =>
      buf ← write_struct_at buf (struct_at DirEntry (blk dev b) (28 * Z.of_nat (n - 1))) (28 * Z.of_nat k);
      Ret (tt, buf)) tt (splice (splice (blk dev b) (28 * Z.of_nat (n - 1)) (replicate 28 0)) (28 * Z.of_nat k)
        (encode (struct_at DirEntry (blk dev b) (28 * Z.of_nat (n - 1)))))) as (d2 & -> & [Hok2 Ht2 Hd2]); [done|lia| |done|].
    { rewrite Hd1 by lia. unfold put. rewrite Z.eqb_refl.
      pose proof (write_struct_at_spec (T := DirEntry) _ _ (28 * Z.of_nat k) (block_ok_zlen _ HB1) He) as Ew.
      by rewrite Ew by (change (disk_size DirEntry) with 28; lia). }
    exists d2. split; [done|]. constructor; [done|congruence|]. intros j Hj. rewrite Hd2 by lia. unfold put.
    destruct (Z.eqb_spec j b); [done|]. rewrite Hd1 by done. unfold put. by rewrite (proj2 (Z.eqb_neq _ _)).
Qed.

(** The rest of [remove_dir_entry], once the entry was found in the block of the parent. *)
Definition unlink fs (d i : Z) (parent_inode to_remove_inode : INode) (num_parent_entries : Z)
    (found : PositionDirEntry) : comp (result Error unit * Filesystem D) :=
  last_index ← num_parent_entries -! 1;
  let last_block_slot := last_index / DIR_ENTRY_PER_BLOCK in
  let last_block_offset := last_index mod DIR_ENTRY_PER_BLOCK * DIR_ENTRY_SIZE in
  last_block ← inode_block parent_inode last_block_slot;
  match to_block last_block with
  | None => Ret (Err NotFound, fs)
  | Some last_block_index =>
      dev ← move_last_entry (block_device fs) found last_index last_block_index last_block_offset;
      let fs := with_device fs dev in
      fs ← (if is_multiple_of last_index DIR_ENTRY_PER_BLOCK then
              bit ← bitmap_index last_block (fs_layout fs);
              bitmap ← bitmap_unset (data_bitmap fs) bit;
              '(inode, fs) ← lookup_inode_mut (with_data_bitmap fs bitmap) d;
              slot ← inode_block inode last_block_slot;
              Ret (store_inode fs d (set_block inode last_block_slot (dbi_clear slot)))
            else Ret fs);
      '(inode, fs) ← lookup_inode_mut fs d;
      inode ← inode_shrink inode size_of_DirEntry;
      let fs := store_inode fs d inode in
      fs ← free_blocks fs (used_blocks to_remove_inode);
      bitmap ← bitmap_unset (inode_bitmap fs) i;
      cache ← cache_remove (inode_cache fs) i;
      Ret (Ok tt, with_cache (with_inode_bitmap fs bitmap) cache)
  end.

Lemma remove_dir_entry_unlink fs path :
  remove_dir_entry fs path =
  (let? (resolved, fs) := resolve_path fs path in
   '(to_remove_inode, fs) ← lookup_inode fs (rp_basename_inode resolved);
   '(parent_inode, fs) ← lookup_inode fs (rp_parent resolved);
   if in_is_directory to_remove_inode then Ret (Err OperationNotSupported, fs)
   else
     num_parent_entries ← current_dir_entries parent_inode;
     found ← (reader ← DirEntryReader_new parent_inode;
              dir_reader_find (Z.to_nat num_parent_entries + 1) (block_device fs)
                (fun e => bool_decide (DirEntry_name (pd_entry e) = rp_basename resolved)) reader);
     match found with
     | None => Ret (Err NotFound, fs)
     | Some found =>
         unlink fs (rp_parent resolved) (rp_basename_inode resolved) parent_inode to_remove_inode num_parent_entries found
     end).
Proof.
  unfold remove_dir_entry. destruct (resolve_path fs path) as [[[r|e] f]| |]; [|done..]. cbn [mbind comp_bind].
  destruct (lookup_inode f _) as [[x f1]| |]; [|done..]. cbn [mbind comp_bind].
  destruct (lookup_inode f1 _) as [[y f2]| |]; [|done..]. cbn [mbind comp_bind].
  destruct (in_is_directory x); [done|]. destruct (current_dir_entries y) as [n| |]; [|done..]. cbn [mbind comp_bind].
  destruct (DirEntryReader_new y) as [rd| |]; [|done..]. cbn [mbind comp_bind].
  destruct (dir_reader_find _ _ _ rd) as [[found|]| |]; [|done..]. cbn [mbind comp_bind]. unfold unlink.
  destruct (n -! 1) as [m| |]; [|done..]. cbn [mbind comp_bind].
  destruct (inode_block y _) as [lb| |]; [|done..]. cbn [mbind comp_bind].
  destruct (to_block lb) as [bi|]; [|done]. unfold move_last_entry.
  destruct (modify_block (block_device f2) bi _) as [[le d1]| |]; [|done..]. done.
Qed.

(** [fs'] is [fs] with entry [k] of the [n] entries in block [b] of directory
    [d] taken out, and inode [i] and its blocks free. *)
Record unlinked fs fs' (d i b : Z) (n k : nat) : Prop := {
  ul_ok : fs_ok fs';
  ul_total : total_blocks (block_device fs') = total_blocks (block_device fs);
  ul_layout : fs_layout fs' = fs_layout fs;
  ul_count : inode_count fs' = inode_count fs;
  ul_ibm v : 0 <= v -> bm_test (inode_bitmap fs') v = negb (v =? i) && bm_test (inode_bitmap fs) v;
  ul_dbm v : 0 <= v -> bm_test (data_bitmap fs') v =
    bm_test (data_bitmap fs) v && negb (bool_decide (data_start (fs_layout fs) + v ∈ block_list (fs_inode fs i)));
  ul_parent : fs_inode fs' d = mkINode (28 * Z.of_nat (n - 1)) (in_blocks (fs_inode fs d)) true;
  ul_inode j : 0 <= j < inode_count fs -> j <> i -> j <> d -> fs_inode fs' j = fs_inode fs j;
  ul_data j : data_start (fs_layout fs) <= j < total_blocks (block_device fs) ->
    j ∉ block_list (fs_inode fs i) ->
    blk (block_device fs') j = put b (removed_block (blk (block_device fs) b) n k) (blk (block_device fs)) j;
}.

Lemma inode_shrink_entry x n :
  in_size x = 28 * Z.of_nat n -> (1 <= n)%nat -> in_is_directory x = true ->
  inode_shrink x size_of_DirEntry = Ret (mkINode (28 * Z.of_nat (n - 1)) (in_blocks x) true).
Proof.
  intros Hs Hn Hd. unfold inode_shrink, size_of_DirEntry. change (as_u32 28) with 28.
  rewrite sub_ovf_ok by lia. cbn [mbind comp_bind]. rewrite Hd. do 2 f_equal. lia.
Qed.

Lemma unlink_run fs d i b (n k : nat) e :
  fs_ok fs -> inode_inv fs d -> inode_inv fs i -> d <> i -> i < cache_len fs ->
  in_is_directory (fs_inode fs d) = true -> in_size (fs_inode fs d) = 28 * Z.of_nat n ->
  (2 <= n <= 18)%nat -> (k < n)%nat -> in_blocks (fs_inode fs d) !! 0%nat = Some (Some b) ->
  exists fs', unlink fs d i (fs_inode fs d) (fs_inode fs i) (Z.of_nat n) (position b k e) = Ret (Ok tt, fs') /\
    unlinked fs fs' d i b n k.
Proof.
  intros Hfs Hiid Hiii Hne Hlen Hd Hsz Hn Hk Hslot.
  pose proof (ii_range _ _ Hiid) as Hdr. pose proof (ii_range _ _ Hiii) as Hir. pose proof (data_start_pos _ Hfs) as Hds.
  destruct (ii_live _ _ Hiid _ _ Hslot) as [Hb _].
  unfold unlink. rewrite sub_ovf_ok by lia. cbn [mbind comp_bind]. rewrite DIR_ENTRY_PER_BLOCK_val.
  rewrite Z.div_small, Z.mod_small by lia. unfold inode_block. rewrite (index_ok _ _ (Some b)) by exact Hslot.
  cbn [mbind comp_bind to_block]. change DIR_ENTRY_SIZE with 28.
  replace ((Z.of_nat n - 1) * 28) with (28 * Z.of_nat (n - 1)) by lia.
  destruct (move_last_entry_run (block_device fs) b n k e (fo_dev _ Hfs)) as (d1 & -> & Hu); [lia..|]. cbn [mbind comp_bind].
  destruct (data_write_ok fs d1 b _ Hfs Hb Hu) as (Hok1 & Hin1 & _).
  assert (is_multiple_of (Z.of_nat n - 1) 18 = false) as ->.
  { unfold is_multiple_of. rewrite Z.mod_small by lia. simpl. lia. }
  cbn [mbind comp_bind]. set (f1 := with_device fs d1) in *.
  destruct (lookup_inode_mut_spec f1 d Hok1 Hdr) as (f2 & E2 & Hok2 & He2 & _ & Hbor2).
  pose proof (lookup_inode_mut_len f1 d _ f2 (proj1 Hdr) E2) as Hlen2. rewrite E2. cbn [mbind comp_bind].
  rewrite Hin1 by done. rewrite (inode_shrink_entry _ n) by (done || lia). cbn [mbind comp_bind].
  set (x' := mkINode (28 * Z.of_nat (n - 1)) (in_blocks (fs_inode fs d)) true).
  assert (Hx' : inode_ok x').
  { pose proof (fs_inode_ok _ _ Hfs Hdr) as []. constructor; [|done..]. unfold x', in_width. cbn [in_size]. lia. }
  assert (Hc2 : inode_count f2 = inode_count fs) by (by rewrite <- (fe_ibm _ _ He2)).
  assert (Hl2 : fs_layout f2 = fs_layout fs) by (by rewrite <- (fe_layout _ _ He2)).
  assert (Ht2 : total_blocks (block_device f2) = total_blocks (block_device fs)).
  { rewrite <- (fe_total _ _ He2). apply (du_total _ _ _ Hu). }
  destruct (store_inode_spec f2 d x' Hok2 ltac:(by rewrite Hc2) Hbor2 Hx') as (Hok3 & _ & Hin3).
  set (f3 := store_inode f2 d x') in *.
  assert (Hlen3 : cache_len f3 = cache_len f2) by (unfold cache_len, zlen; simpl; by rewrite length_insert).
  rewrite used_blocks_list.
  destruct (free_blocks_run (block_list (fs_inode fs i)) f3 Hok3) as (f4 & -> & Hr4).
  { apply Forall_forall. intros c [j Hj]%block_list_owns. change (fs_layout f3) with (fs_layout f2).
    change (block_device f3) with (block_device f2). rewrite Hl2, Ht2. apply (ii_live _ _ Hiii _ _ Hj). }
  cbn [mbind comp_bind]. pose proof (re_ibm _ _ _ Hr4) as Hib4. change (inode_bitmap f3) with (inode_bitmap f2) in Hib4.
  destruct (free_inode_run f4 i (re_ok _ _ _ Hr4)) as (ib & c & -> & E5 & Hif).
  { by rewrite Hib4, Hc2. }
  { unfold cache_len. rewrite (re_cache _ _ _ Hr4). change (i < cache_len f3). rewrite Hlen3, Hlen2.
    change (cache_len f1) with (cache_len fs). lia. }
  cbn [mbind comp_bind]. rewrite E5. cbn [mbind comp_bind]. eexists. split; [done|]. destruct Hif, Hr4.
  assert (Hin : forall j, 0 <= j < inode_count fs -> j <> i ->
    fs_inode (with_cache (with_inode_bitmap f4 ib) c) j = if j =? d then x' else fs_inode fs j).
  { intros j Hj Hji. rewrite if_inode0 by (done || lia).
    rewrite re_inode0 by (change (inode_bitmap f3) with (inode_bitmap f2); by rewrite Hc2). rewrite Hin3 by lia.
    zcase; [done|]. rewrite <- (fe_inode _ _ He2) by done. by apply Hin1. }
  change (fs_layout f3) with (fs_layout f2) in *. change (data_bitmap f3) with (data_bitmap f2) in *.
  change (block_device f3) with (block_device f2) in *. change (inode_bitmap f3) with (inode_bitmap f2) in *.
  constructor; try congruence.
  - intros v Hv. rewrite if_ibm0, Hib4 by done. by rewrite <- (fe_ibm _ _ He2).
  - intros v Hv. rewrite if_dbm0, re_dbm0, Hl2 by done. by rewrite <- (fe_dbm _ _ He2).
  - rewrite Hin by done. by rewrite Z.eqb_refl.
  - intros j Hj Hji Hjd. rewrite Hin by done. by rewrite (proj2 (Z.eqb_neq _ _)).
  - intros j Hj Hnot. rewrite if_device0, re_data0 by (by rewrite Hl2, Ht2). rewrite bool_decide_false by done.
    rewrite <- (fe_data _ _ He2) by (simpl; by rewrite (du_total _ _ _ Hu)). apply (du_blk _ _ _ Hu). lia.
Qed.
End Unlink.
