(* ===== verification/FsLinks.v ===== *)
(** * Links

    How directories link files: names are plain and unique, a file is linked
    once, a directory starts with "." and "..".  With [tree_inv] this makes
    [fs_sound], the invariant under which [remove_dir_entry] does what it
    should; every operation of the filesystem keeps it, so every state a
    mounted filesystem can reach has it. *)
From S2P Require Import Prelude Bitmap Bytes Layout INode DirEntry BlockDev INodeCache SuperBlock Filesystem.
From S2P Require Import FsBase FsState FsFiles FsDirs FsCreate FsFormat FsProps FsUsage FsRemove.

(** ** Path strings *)

(** What a path argument is: a [&str].  [nul_free] says whether NUL bytes are kept
    out of paths: nothing in the code does that, but some laws of names hold
    only then, so the invariant has it as a parameter; [False] is any path. *)
Record path_ok (nul_free : Prop) (path : list Z) : Prop := {
  pk_bytes : Forall is_u8 path;
  pk_utf8 : utf8_valid path = true;
  pk_nul : nul_free -> Forall (fun b => b <> 0) path;
}.

(** A slash is never inside a character. *)
Lemma utf8_valid_split a : forall s, utf8_valid (a ++ SLASH :: s) = true -> utf8_valid a = true /\ utf8_valid s = true.
Proof.
  remember (length a) as n eqn:En. revert a En. induction n as [n IH] using lt_wf_ind. intros a -> s Hu.
  assert (Hs : utf8_cont SLASH = false) by done.
  assert (Hs3 : forall b, utf8_second3 b SLASH = false).
  { intros b. unfold utf8_second3. rewrite Hs. change (in_range 160 191 SLASH) with false.
    change (in_range 128 159 SLASH) with false. by rewrite !andb_false_r. }
  assert (Hs4 : forall b, utf8_second4 b SLASH = false).
  { intros b. unfold utf8_second4. rewrite Hs. change (in_range 144 191 SLASH) with false.
    change (in_range 128 143 SLASH) with false. by rewrite !andb_false_r. }
  destruct a as [|b0 t0]; [done|]. cbn [app utf8_valid length] in *.
  destruct (b0 <? 128); [by apply (IH (length t0)) in Hu; [|lia|]|].
  destruct t0 as [|b1 t1]; cbn [app length] in *.
  { rewrite Hs, Hs3, Hs4, andb_false_r in Hu. cbn [andb] in Hu. by destruct s as [|? [|? ?]]. }
  destruct (in_range 194 223 b0 && utf8_cont b1); [by apply (IH (length t1)) in Hu; [|lia|]|].
  destruct t1 as [|b2 t2]; cbn [app length] in *.
  { rewrite Hs, !andb_false_r in Hu. cbn [andb] in Hu. by destruct s. }
  destruct (utf8_second3 b0 b1 && utf8_cont b2); [by apply (IH (length t2)) in Hu; [|lia|]|].
  destruct t2 as [|b3 t3]; cbn [app length] in *.
  { by rewrite Hs, !andb_false_r in Hu. }
  apply andb_true_iff in Hu as [-> Hu]. cbn [andb]. by apply (IH (length t3)) in Hu; [|lia|].
Qed.

Section PathParts.
Context {nul_free : Prop}.

Lemma path_ok_split a s : path_ok nul_free (a ++ SLASH :: s) -> path_ok nul_free a /\ path_ok nul_free s.
Proof.
  intros [Hb Hu Hn]. apply utf8_valid_split in Hu as [? ?].
  apply Forall_app in Hb as [? [_ ?]%Forall_cons].
  split; (constructor; [done..|]); intros [? [_ ?]%Forall_cons]%Hn%Forall_app; done.
Qed.

Lemma split_on_ok path : path_ok nul_free path -> forall p, p ∈ split_on SLASH path -> path_ok nul_free p /\ SLASH ∉ p.
Proof.
  remember (length path) as n eqn:En. revert path En. induction n as [n IH] using lt_wf_ind. intros path -> Hok p.
  destruct (decide (SLASH ∈ path)) as [(a & s & -> & Ha)%list_elem_of_split_l|Hno].
  - destruct (path_ok_split _ _ Hok) as [Hoka Hoks]. rewrite split_on_app by done. rewrite elem_of_cons.
    intros [->|Hp]; [done|]. apply (IH (length s)) with s; [rewrite length_app; simpl; lia|done..].
  - rewrite split_on_none by done. rewrite list_elem_of_singleton. by intros ->.
Qed.

Lemma path_parts_ok path p : path_ok nul_free path -> p ∈ path_parts path -> path_ok nul_free p /\ SLASH ∉ p /\ p <> [].
Proof.
  intros Hok Hp. unfold path_parts in Hp. apply list_elem_of_In, List.filter_In in Hp as [Hin Hne].
  destruct (split_on_ok path Hok p) as [? ?]; [by apply list_elem_of_In|]. split_and!; [done..|].
  intros ->. by rewrite bool_decide_true in Hne.
Qed.

Lemma pop_last_elem {A} (l : list A) x r : pop_last l = Some (x, r) -> x ∈ l.
Proof.
  unfold pop_last. destruct (rev l) as [|y t] eqn:E; [done|]. intros [= -> _].
  apply list_elem_of_In, in_rev. rewrite E. by left.
Qed.

Lemma path_name_ok p : path_ok nul_free p -> zlen p <= 24 -> nul_free -> name_ok p.
Proof. intros [] ? Hn. constructor; auto. Qed.
End PathParts.

(** A name a path can have as a part. *)
Definition plain_name (p : list Z) : Prop := p <> [] /\ SLASH ∉ p.

Lemma slashless_head p : SLASH ∉ p -> head p <> Some SLASH.
Proof. intros Hp. destruct p as [|b p]; [done|]. apply not_elem_of_cons in Hp as [? _]. simpl. congruence. Qed.

(** What is read back of a name has no slash, even when NUL bytes mangle it. *)
Lemma stored_name_slashless name i : zlen name <= 24 -> SLASH ∉ name -> SLASH ∉ DirEntry_name (DirEntry_new name i).
Proof.
  intros Hl Hs. unfold DirEntry_name, from_utf8. destruct (utf8_valid _); [|apply not_elem_of_nil].
  intros Hin%elem_of_take. destruct Hin as (k & Hk & _). apply list_elem_of_lookup_2 in Hk.
  rewrite DirEntry_new_field in Hk by done. apply elem_of_app in Hk as [?|Hk]; [done|]. by apply elem_of_replicate in Hk as [].
Qed.

(** A name that a directory may get. *)
Record fresh_name (nul_free : Prop) (name : list Z) : Prop := {
  fn_len : zlen name <= 24;
  fn_slash : SLASH ∉ name;
  fn_plain : nul_free -> name_ok name /\ name <> [];
}.

(** A path of such parts is split into them. *)
Lemma path_parts_plain parts : Forall plain_name parts -> path_parts (concat (map (cons SLASH) parts)) = parts.
Proof.
  assert (Hgen : forall p0 ps, SLASH ∉ p0 -> Forall plain_name ps ->
    split_on SLASH (p0 ++ concat (map (cons SLASH) ps)) = p0 :: ps).
  { intros p0 ps Hp0 Hps. revert p0 Hp0. induction Hps as [|p ps [_ Hs] _ IH]; intros p0 Hp0; simpl.
    - rewrite app_nil_r. by apply split_on_none.
    - rewrite split_on_app by done. by rewrite IH. }
  intros Hps. unfold path_parts. pose proof (Hgen [] parts (not_elem_of_nil _) Hps) as E. cbn [app] in E. rewrite E. clear E.
  cbn [List.filter]. rewrite bool_decide_eq_true_2 by done. simpl.
  induction Hps as [|p ps [Hne _] _ IH]; simpl; [done|]. rewrite bool_decide_eq_false_2 by done. simpl. by rewrite IH.
Qed.

Section Links.
Context {D : Type} `{BlockDeviceLaws D} {nul_free : Prop}.
Implicit Types (dev : D) (fs : Filesystem D).

Abbreviation is_dir fs i := (in_is_directory (fs_inode fs i)).

Record linked_inv fs : Prop := {
  li_slash j e : allocated fs j -> e ∈ fs_entries fs j -> SLASH ∉ DirEntry_name e;
  li_nonempty j e : nul_free -> allocated fs j -> e ∈ fs_entries fs j -> DirEntry_name e <> [];
  li_names j : nul_free -> allocated fs j -> NoDup (DirEntry_name <$> fs_entries fs j);
  li_once j1 j2 k1 k2 e1 e2 : allocated fs j1 -> allocated fs j2 ->
    fs_entries fs j1 !! k1 = Some e1 -> fs_entries fs j2 !! k2 = Some e2 -> de_inode e1 = de_inode e2 ->
    is_dir fs (de_inode e1) = false -> j1 = j2 /\ k1 = k2;
  li_dots j : allocated fs j -> is_dir fs j = true -> exists p rest,
    fs_entries fs j = DirEntry_new [DOT] j :: DirEntry_new [DOT; DOT] p :: rest /\ is_dir fs p = true;
}.

Record fs_sound fs : Prop := {
  so_tree : tree_inv fs;
  so_links : linked_inv fs;
}.

Lemma li_head fs j e : linked_inv fs -> allocated fs j -> e ∈ fs_entries fs j -> head (DirEntry_name e) <> Some SLASH.
Proof. intros Hl Hj He. by eapply slashless_head, li_slash. Qed.

Lemma dots_plain : plain_name [DOT] /\ plain_name [DOT; DOT].
Proof. split; (split; [done|]); repeat (apply not_elem_of_cons; split; [done|]); apply not_elem_of_nil. Qed.

(** ** Searching a directory *)
Lemma byte_compare_plain name (e : DirEntry) :
  head (DirEntry_name e) <> Some SLASH -> byte_compare name (DirEntry_name e) = bool_decide (name = DirEntry_name e).
Proof.
  unfold byte_compare. destruct (DirEntry_name e) as [|b rest]; [done|]. simpl. intros Hne.
  destruct (Z.eqb_spec b SLASH); [by subst|done].
Qed.

Lemma find_entry_plain name (es : list DirEntry) :
  (forall e, e ∈ es -> head (DirEntry_name e) <> Some SLASH) ->
  find_entry name es = snd <$> list_find (fun e => DirEntry_name e = name) es.
Proof.
  intros Hp. unfold find_entry. induction es as [|e es IH]; [done|]. cbn [List.find list_find].
  rewrite byte_compare_plain by (apply Hp; by left).
  rewrite IH by (intros; apply Hp; by right).
  case_bool_decide; case_decide; try congruence; [done|]. by destruct (list_find _ es) as [[k x]|].
Qed.

(** With unique names the search finds the entry of that name, wherever it is. *)
Lemma find_entry_unique name (es : list DirEntry) e :
  (forall x, x ∈ es -> head (DirEntry_name x) <> Some SLASH) -> NoDup (DirEntry_name <$> es) ->
  find_entry name es = Some e <-> e ∈ es /\ DirEntry_name e = name.
Proof.
  intros Hp Hnd. rewrite find_entry_plain by done. split.
  - destruct (list_find _ es) as [[k x]|] eqn:E; [|done]. intros [= <-].
    apply list_find_Some in E as (Hk & Hn & _). split; [by eapply list_elem_of_lookup_2|done].
  - intros [Hin Hn]. destruct (list_find _ es) as [[k x]|] eqn:E.
    + apply list_find_Some in E as (Hk & Hx & _). apply list_elem_of_lookup in Hin as [j Hj]. simpl.
      assert (j = k) as ->; [|congruence].
      eapply (NoDup_lookup _ _ _ name Hnd); rewrite list_lookup_fmap; [rewrite Hj|rewrite Hk]; simpl; congruence.
    + apply list_find_None in E. rewrite Forall_forall in E. by apply E in Hin.
Qed.

Lemma find_entry_missing name (es : list DirEntry) :
  (forall x, x ∈ es -> head (DirEntry_name x) <> Some SLASH) ->
  (forall x, x ∈ es -> DirEntry_name x <> name) -> find_entry name es = None.
Proof.
  intros Hp Hn. rewrite find_entry_plain by done. destruct (list_find _ es) as [[k x]|] eqn:E; [|done].
  apply list_find_Some in E as (Hk & Hx & _). apply list_elem_of_lookup_2, Hn in Hk. done.
Qed.

(** ** Operations that change no entry *)
Lemma linked_same fs fs' :
  tree_inv fs -> (forall j, allocated fs' j <-> allocated fs j) ->
  (forall j, allocated fs j -> fs_entries fs' j = fs_entries fs j /\ is_dir fs' j = is_dir fs j) ->
  linked_inv fs -> linked_inv fs'.
Proof.
  intros Hti Ha Hs [Hp Hne Hn Ho Hd]. constructor.
  - intros j e Hj%Ha. destruct (Hs j Hj) as [-> _]. by apply Hp.
  - intros j e Hnf Hj%Ha. destruct (Hs j Hj) as [-> _]. by apply Hne.
  - intros j Hnf Hj%Ha. destruct (Hs j Hj) as [-> _]. by apply Hn.
  - intros j1 j2 k1 k2 e1 e2 Hj1%Ha Hj2%Ha. destruct (Hs j1 Hj1) as [-> _]. destruct (Hs j2 Hj2) as [-> _].
    intros H1 H2 Hi. destruct (Hs (de_inode e1)) as [_ ->].
    + apply (ti_entry _ Hti j1); [done|by eapply list_elem_of_lookup_2].
    + by apply (Ho j1 j2 k1 k2 e1 e2).
  - intros j Hj%Ha. destruct (Hs j Hj) as [-> ->]. intros Hdj. destruct (Hd j Hj Hdj) as (p & rest & E & Hpd).
    exists p, rest. split; [done|]. destruct (Hs p) as [_ ->]; [|done].
    apply (ti_entry _ Hti j (DirEntry_new [DOT; DOT] p)); [done|]. rewrite E. right. left.
Qed.

Lemma sound_equiv fs fs' : fs_ok fs' -> fs_equiv fs fs' -> fs_sound fs -> fs_sound fs'.
Proof.
  intros Hok He [Hti Hl]. constructor; [by eapply tree_inv_equiv|]. apply (linked_same fs); try done.
  - intros j. symmetry. by apply allocated_equiv.
  - intros j Hj. rewrite (fs_entries_equiv _ _ _ He (di_inode _ _ (ti_dir _ Hti _ Hj))).
    split; [done|]. by rewrite (fe_inode _ _ He) by (apply allocated_range; [apply Hti|done]).
Qed.

Lemma sound_grown_file fs fs' i chunk :
  fs_sound fs -> allocated fs i -> is_dir fs i = false -> grown fs fs' i chunk -> fs_sound fs'.
Proof.
  intros [Hti Hl] Hi Hd Hg. constructor; [by eapply (grown_tree_file fs fs' i)|]. apply (linked_same fs); try done.
  - intros j. by eapply grown_allocated.
  - intros j Hj. destruct (Z.eq_dec j i) as [->|Hne].
    + unfold fs_entries. rewrite (gr_dir _ _ _ _ Hg), Hd. done.
    + by destruct (grown_frame fs fs' i chunk j Hti Hi Hg Hj Hne) as (-> & _ & -> & _).
Qed.

(** ** Creating *)

(** What the checks of [new_dir_entry] say about the name. *)
Lemma create_check_name fs path d name i :
  path_ok nul_free path -> create_check fs path = Ok (d, name, i) ->
  fresh_name nul_free name /\ ~ (exists e, e ∈ fs_entries fs d /\ byte_compare name (DirEntry_name e) = true).
Proof.
  intros Hp Hc. unfold create_check in Hc. destruct (pop_last (path_parts path)) as [[x dirs]|] eqn:Ep; [|done].
  destruct (Z.ltb_spec 24 (zlen x)); [done|]. destruct (walk_spec fs 0 dirs) as [d'|]; [|done].
  destruct (negb _); [done|]. destruct (existsb _ _) eqn:Ex; [done|]. destruct (find_free _); [|done].
  injection Hc as <- <- <-. destruct (path_parts_ok path x Hp) as (Hx & Hs & Hne); [by eapply pop_last_elem|].
  split; [constructor; [done..|]; intros Hnf; split; [by apply (path_name_ok (nul_free := nul_free))|done]|]. intros (e & He & Hb).
  apply not_true_iff_false in Ex. apply Ex, existsb_exists. exists e. split; [by apply list_elem_of_In|done].
Qed.

Lemma sound_created fs fs' t d name i :
  fs_sound fs -> allocated fs d -> is_dir fs d = true -> fresh_name nul_free name ->
  ~ (exists e, e ∈ fs_entries fs d /\ byte_compare name (DirEntry_name e) = true) ->
  created fs fs' t d name i -> fs_sound fs'.
Proof.
  intros [Hti Hl] Hd Hdd [Hlen Hslash Hplain] Hfresh Hcr. pose proof (cr_tree _ _ _ _ _ _ Hcr) as Hti'. constructor; [done|].
  pose proof (cr_new _ _ _ _ _ _ Hcr) as Hnew.
  assert (Hnd : name_ok [DOT]) by (constructor; by repeat constructor).
  assert (Hndd : name_ok [DOT; DOT]) by (constructor; by repeat constructor).
  assert (Ha : forall j, allocated fs' j <-> j = i \/ allocated fs j) by apply Hcr.
  assert (Hdi : d <> i) by (by intros ->).
  (* whatever an entry of the new state is, it is old, or the link, or one of the two dots *)
  assert (Hent : forall j, allocated fs j ->
    fs_entries fs' j = fs_entries fs j ++ (if j =? d then [DirEntry_new name i] else [])).
  { intros j Hj. zcase; [subst; apply Hcr|]. rewrite app_nil_r. by apply (cr_frame _ _ _ _ _ _ Hcr j). }
  assert (Hisd : forall j, allocated fs j -> is_dir fs' j = is_dir fs j).
  { intros j Hj. destruct (Z.eq_dec j d) as [->|Hne]; [|by destruct (cr_frame _ _ _ _ _ _ Hcr j Hj Hne) as (-> & _)].
    rewrite Hdd. apply (entries_dir fs' d (DirEntry_new name i)). rewrite Hent by done. rewrite Z.eqb_refl.
    apply elem_of_app. right. left. }
  assert (Hi : fs_entries fs' i = match t with EFile => [] | EDirectory => [DirEntry_new [DOT] i; DirEntry_new [DOT; DOT] d] end).
  { pose proof (cr_node _ _ _ _ _ _ Hcr) as Hn. pose proof (cr_kind _ _ _ _ _ _ Hcr) as Hk.
    destruct t; [unfold fs_entries; by rewrite Hk|done]. }
  pose proof Hl as [Hp Hne Hn Ho Hdots].
  assert (Hcases : forall j e, allocated fs' j -> e ∈ fs_entries fs' j ->
    (allocated fs j /\ e ∈ fs_entries fs j) \/ e = DirEntry_new name i \/ plain_name (DirEntry_name e)).
  { intros j e [->|Hj]%Ha.
    - rewrite Hi. destruct t; [by intros ?%not_elem_of_nil|].
      rewrite !elem_of_cons, elem_of_nil. intros [->|[->|[]]]; right; right; rewrite DirEntry_name_new by done; apply dots_plain.
    - rewrite Hent by done. rewrite elem_of_app. intros [Hin|Hin]; [by left|]. right. left.
      destruct (j =? d); [by apply list_elem_of_singleton in Hin|by apply not_elem_of_nil in Hin]. }
  constructor.
  - intros j e Hj He. destruct (Hcases j e Hj He) as [[??]|[->|[_ ?]]]; [by eapply Hp|by apply stored_name_slashless|done].
  - intros j e Hnf Hj He. destruct (Hcases j e Hj He) as [[??]|[->|[? _]]]; [by eapply Hne| |done].
    destruct (Hplain Hnf) as [Hname ?]. by rewrite DirEntry_name_new.
  - intros j Hnf. destruct (Hplain Hnf) as [Hname _]. intros [->|Hj]%Ha.
    + rewrite Hi. destruct t; [constructor|]. cbn [fmap list_fmap]. rewrite !DirEntry_name_new by done.
      apply NoDup_cons. split; [by rewrite list_elem_of_singleton|apply NoDup_singleton].
    + rewrite Hent by done. rewrite fmap_app. zcase; [|by rewrite app_nil_r; apply Hn]. subst j.
      cbn [fmap list_fmap]. rewrite DirEntry_name_new by done. apply NoDup_app. split_and!; [by apply Hn| |apply NoDup_singleton].
      intros x (e & -> & He)%list_elem_of_fmap Hx%list_elem_of_singleton. apply Hfresh. exists e. split; [done|].
      rewrite byte_compare_plain by (by eapply slashless_head, Hp). by rewrite bool_decide_true.
  - assert (Hcase : forall j k e, allocated fs' j -> fs_entries fs' j !! k = Some e -> is_dir fs' (de_inode e) = false ->
      (allocated fs j /\ fs_entries fs j !! k = Some e /\ is_dir fs (de_inode e) = false /\ de_inode e <> i) \/
      (j = d /\ k = length (fs_entries fs d) /\ e = DirEntry_new name i)).
    { intros j k e Hj Hk He. apply Ha in Hj as [->|Hj].
      - rewrite Hi in Hk. pose proof (cr_kind _ _ _ _ _ _ Hcr) as Hkind. destruct t; [done|].
        destruct k as [|[|k]]; [| |done]; injection Hk as <-; cbn [de_inode DirEntry_new] in He; [congruence|].
        rewrite Hisd in He by done. congruence.
      - rewrite Hent in Hk by done. apply lookup_app_Some in Hk as [Hk|[Hle Hk]].
        + left. assert (Hae : allocated fs (de_inode e)) by (eapply (ti_entry _ Hti j); [done|by eapply list_elem_of_lookup_2]).
          split_and!; [done..|by rewrite <- Hisd|by intros Hei; rewrite Hei in Hae].
        + right. destruct (Z.eqb_spec j d) as [->|]; [|done]. apply list_lookup_singleton_Some in Hk as [? <-].
          split_and!; [done|lia|done]. }
    intros j1 j2 k1 k2 e1 e2 Hj1 Hj2 Hk1 Hk2 E He1. assert (He2 : is_dir fs' (de_inode e2) = false) by (by rewrite <- E).
    destruct (Hcase j1 k1 e1) as [(A1 & A2 & A3 & A4)|(-> & -> & ->)]; [done..| |];
      destruct (Hcase j2 k2 e2) as [(B1 & B2 & B3 & B4)|(-> & -> & ->)]; try done.
    by apply (Ho j1 j2 k1 k2 e1 e2).
  - intros j [->|Hj]%Ha Hjd.
    + rewrite Hi. pose proof (cr_kind _ _ _ _ _ _ Hcr) as Hkind. destruct t; [congruence|]. exists d, []. split; [done|].
      by rewrite Hisd.
    + rewrite Hisd in Hjd by done. destruct (Hdots j Hj Hjd) as (p & rest & E & Hpd). rewrite Hent, E by done.
      exists p, (rest ++ (if j =? d then [DirEntry_new name i] else [])). split; [done|]. rewrite Hisd; [done|].
      apply (ti_entry _ Hti j (DirEntry_new [DOT; DOT] p)); [done|]. rewrite E. right. left.
Qed.

(** ** Removing *)

(** File [i], entry [k] of directory [d], is gone. *)
Record removed fs fs' (d i : Z) (k : nat) : Prop := {
  rm_sound : fs_sound fs';
  rm_allocated j : allocated fs' j <-> j <> i /\ allocated fs j;
  rm_count : inode_count fs' = inode_count fs;
  rm_layout : fs_layout fs' = fs_layout fs;
  rm_entries : fs_entries fs' d = swap_remove k (fs_entries fs d);
  rm_dir : is_dir fs' d = true;
  rm_frame j : allocated fs j -> j <> i -> j <> d ->
    fs_inode fs' j = fs_inode fs j /\ fs_content fs' j = fs_content fs j /\ fs_entries fs' j = fs_entries fs j;
  rm_blocks v : 0 <= v -> bm_test (data_bitmap fs') v = true <->
    bm_test (data_bitmap fs) v = true /\ ~ owns fs i (data_start (fs_layout fs) + v);
}.

(** The entries of a directory are in its only block. *)
Lemma dir_entries_block fs d (n : nat) b :
  fs_ok fs -> dir_inv fs d -> is_dir fs d = true -> in_size (fs_inode fs d) = 28 * Z.of_nat n -> (0 < n)%nat ->
  in_blocks (fs_inode fs d) !! 0%nat = Some (Some b) ->
  fs_entries fs d = decode_entries n (blk (block_device fs) b) /\ block_list (fs_inode fs d) = [b].
Proof.
  intros Hok Hdi Hd Hs Hn Hslot. destruct (dir_blocks fs d Hok Hdi Hd) as (c & Hbl & _ & Hc); [lia|].
  assert (c = b) as ->.
  { assert (Hin : b ∈ block_list (fs_inode fs d)) by (apply block_list_owns; by exists 0%nat).
    rewrite Hbl in Hin. by apply list_elem_of_singleton in Hin. }
  split; [|done]. unfold fs_entries. rewrite Hd, Hc, Hs. unfold entry_count. rewrite Hs.
  replace (28 * Z.of_nat n / 28) with (Z.of_nat n) by (rewrite Z.mul_comm, Z.div_mul; done).
  replace (Z.to_nat (28 * Z.of_nat n)) with (28 * n)%nat by lia. rewrite Nat2Z.id. apply decode_entries_take.
Qed.

Section Unlinked.
Variables (fs fs' : Filesystem D) (d i b : Z) (n k : nat) (e : DirEntry).
Hypotheses (Hs : fs_sound fs) (Hul : unlinked fs fs' d i b n k).
Hypotheses (Hd : allocated fs d) (Hdd : is_dir fs d = true) (Hi : allocated fs i) (Hid : is_dir fs i = false).
Hypotheses (Hsz : in_size (fs_inode fs d) = 28 * Z.of_nat n) (Hn : (2 <= n <= 18)%nat).
Hypotheses (Hslot : in_blocks (fs_inode fs d) !! 0%nat = Some (Some b)).
Hypotheses (Hk : fs_entries fs d !! k = Some e) (He : de_inode e = i).

Let Hti := so_tree _ Hs.
Let Hok := ti_ok _ Hti.

Lemma ul_ne : d <> i.
Proof. intros E. rewrite E in Hdd. congruence. Qed.

Lemma ul_allocated j : allocated fs' j <-> j <> i /\ allocated fs j.
Proof.
  unfold allocated. split.
  - intros [Hj Ht]. rewrite (ul_ibm _ _ _ _ _ _ _ Hul) in Ht by done.
    apply andb_true_iff in Ht as [Hne Ht]. split; [|done]. intros ->. by rewrite Z.eqb_refl in Hne.
  - intros (Hne & Hj & Ht). split; [done|]. rewrite (ul_ibm _ _ _ _ _ _ _ Hul), Ht by done.
    by rewrite (proj2 (Z.eqb_neq _ _)).
Qed.

Lemma ul_same_blocks j : allocated fs j -> j <> i -> in_blocks (fs_inode fs' j) = in_blocks (fs_inode fs j) /\
  is_dir fs' j = is_dir fs j.
Proof.
  intros Hj Hji. destruct (Z.eq_dec j d) as [->|Hjd]; [by rewrite (ul_parent _ _ _ _ _ _ _ Hul)|].
  rewrite (ul_inode _ _ _ _ _ _ _ Hul); [done|by apply allocated_range|done..].
Qed.

Lemma ul_owns j c : allocated fs j -> j <> i -> owns fs' j c <-> owns fs j c.
Proof. intros Hj Hji. unfold owns. by destruct (ul_same_blocks j Hj Hji) as [-> _]. Qed.

Lemma ul_not_freed j c : allocated fs j -> j <> i -> owns fs j c -> c ∉ block_list (fs_inode fs i).
Proof. intros Hj Hji Ho Hin%block_list_owns. apply Hji. by apply (ti_owner _ Hti j i c). Qed.

Lemma ul_frame j : allocated fs j -> j <> i -> j <> d ->
  fs_inode fs' j = fs_inode fs j /\ fs_content fs' j = fs_content fs j /\ fs_entries fs' j = fs_entries fs j.
Proof.
  intros Hj Hji Hjd. assert (Ein : fs_inode fs' j = fs_inode fs j).
  { apply (ul_inode _ _ _ _ _ _ _ Hul); [by apply allocated_range|done..]. }
  assert (Ec : fs_content fs' j = fs_content fs j).
  { unfold fs_content. rewrite Ein. apply content_ext. intros s c Hc. assert (Ho : owns fs j c) by (by exists s).
    rewrite (ul_data _ _ _ _ _ _ _ Hul).
    - unfold put. destruct (Z.eqb_spec c b) as [->|]; [|done]. exfalso. apply Hjd.
      apply (ti_owner _ Hti j d b); [done..|by exists 0%nat].
    - by apply (ii_live _ _ (di_inode _ _ (ti_dir _ Hti _ Hj)) s c).
    - by apply (ul_not_freed j). }
  split_and!; [done..|]. unfold fs_entries. by rewrite Ein, Ec.
Qed.

Lemma ul_inode_inv j : allocated fs j -> j <> i -> dir_inv fs' j.
Proof.
  intros Hj Hji. destruct (ti_dir _ Hti _ Hj) as [[Hr Hsh Hdis Hlive] Hds].
  destruct (ul_same_blocks j Hj Hji) as [Eb Ed]. constructor; [constructor|].
  - by rewrite (ul_count _ _ _ _ _ _ _ Hul).
  - destruct (Z.eq_dec j d) as [->|Hjd].
    + destruct Hsh as [Hsz' Hslots]. rewrite (ul_parent _ _ _ _ _ _ _ Hul). constructor; cbn [in_size in_blocks]; [lia|].
      intros s o Ho. rewrite (Hslots _ _ Ho). lia.
    + by rewrite (ul_inode _ _ _ _ _ _ _ Hul).
  - unfold blocks_distinct. by rewrite Eb.
  - intros s c Hc. rewrite Eb in Hc. destruct (Hlive s c Hc) as [Hcr Ht].
    rewrite (ul_layout _ _ _ _ _ _ _ Hul), (ul_total _ _ _ _ _ _ _ Hul). split; [done|].
    rewrite (ul_dbm _ _ _ _ _ _ _ Hul), Ht by lia. rewrite bool_decide_false; [done|].
    replace (data_start (fs_layout fs) + (c - data_start (fs_layout fs))) with c by lia.
    apply (ul_not_freed j); [done..|by exists s].
  - destruct (Z.eq_dec j d) as [->|Hjd].
    + intros _. rewrite (ul_parent _ _ _ _ _ _ _ Hul). split; cbn [in_size]; [|lia].
      rewrite Z.mul_comm. apply Z.mod_mul. done.
    + by rewrite (ul_inode _ _ _ _ _ _ _ Hul).
Qed.

Lemma ul_entries : fs_entries fs' d = swap_remove k (fs_entries fs d).
Proof.
  pose proof ul_ne as Hne. pose proof (ti_dir _ Hti _ Hd) as Hdi.
  destruct (dir_entries_block fs d n b Hok Hdi Hdd Hsz) as [Ee _]; [lia|done|].
  assert (Hkn : (k < n)%nat).
  { apply lookup_lt_Some in Hk. by rewrite Ee, length_decode_entries in Hk. }
  destruct (ii_live _ _ (di_inode _ _ Hdi) _ _ Hslot) as [Hb _].
  destruct (dir_entries_block fs' d (n - 1) b (ul_ok _ _ _ _ _ _ _ Hul)) as [Ee' _].
  - by apply ul_inode_inv.
  - by rewrite (ul_parent _ _ _ _ _ _ _ Hul).
  - by rewrite (ul_parent _ _ _ _ _ _ _ Hul).
  - lia.
  - by rewrite (ul_parent _ _ _ _ _ _ _ Hul).
  - rewrite Ee', Ee, (ul_data _ _ _ _ _ _ _ Hul) by (done || by apply (ul_not_freed d); [| |exists 0%nat]).
    unfold put. rewrite Z.eqb_refl. pose proof (data_start_pos _ Hok).
    apply removed_entries; [|lia|done]. apply read_blk; [apply Hok|lia].
Qed.

(** An entry of the new state was there before, in a known place. *)
Lemma ul_entry_from j s x : allocated fs' j -> fs_entries fs' j !! s = Some x ->
  allocated fs j /\ exists s', fs_entries fs j !! s' = Some x /\ (j = d -> s' <> k) /\
    (forall s2, (exists x2, fs_entries fs' j !! s2 = Some x2) ->
       s' = (if j =? d then slot_of k (length (fs_entries fs d)) s2 else s2) -> s = s2).
Proof.
  intros [Hji Hj]%ul_allocated Hx. split; [done|]. destruct (Z.eqb_spec j d) as [->|Hjd].
  - rewrite ul_entries in Hx |- *. apply swap_remove_from in Hx as (Hlt & Hx & Hne).
    eexists. split; [exact Hx|]. split; [done|]. intros s2 (x2 & (Hlt2 & _)%swap_remove_from) E.
    by eapply slot_of_inj.
  - destruct (ul_frame j Hj Hji Hjd) as (_ & _ & E). rewrite E in Hx |- *. by exists s.
Qed.

Lemma ul_not_linked j s x : allocated fs' j -> fs_entries fs' j !! s = Some x -> de_inode x <> i.
Proof.
  intros Ha Hx Hxi. destruct (ul_entry_from j s x Ha Hx) as (Hj & s' & Hs' & Hne & _).
  destruct (li_once _ (so_links _ Hs) j d s' k x e) as [-> ->]; try done; [congruence|by rewrite Hxi|]. by apply Hne.
Qed.

Lemma ul_tree : tree_inv fs'.
Proof.
  destruct (ti_root _ Hti) as [Hr Hrd]. assert (Hri : 0 <> i) by (intros <-; congruence). constructor.
  - apply Hul.
  - split; [by apply ul_allocated|]. by destruct (ul_same_blocks 0 Hr Hri) as [_ ->].
  - intros j [Hji Hj]%ul_allocated. by apply ul_inode_inv.
  - intros j x Ha [s Hx]%list_elem_of_lookup. apply ul_allocated. split; [by eapply ul_not_linked|].
    destruct (ul_entry_from j s x Ha Hx) as (Hj & s' & Hs' & _). apply (ti_entry _ Hti j); [done|by eapply list_elem_of_lookup_2].
  - intros j1 j2 c [Hn1 H1]%ul_allocated [Hn2 H2]%ul_allocated O1%ul_owns O2%ul_owns; [|done..].
    by apply (ti_owner _ Hti j1 j2 c).
  - intros v Hv Ht. rewrite (ul_dbm _ _ _ _ _ _ _ Hul) in Ht by done. apply andb_true_iff in Ht as [Ht Hnot].
    destruct (ti_used _ Hti v Hv Ht) as (j & Hj & Ho). rewrite (ul_layout _ _ _ _ _ _ _ Hul).
    assert (Hji : j <> i).
    { intros ->. apply block_list_owns in Ho. by rewrite bool_decide_true in Hnot. }
    exists j. split; [by apply ul_allocated|by apply ul_owns].
Qed.

(** The entries "." and ".." stay where they are. *)
Lemma ul_dots p rest :
  fs_entries fs d = DirEntry_new [DOT] d :: DirEntry_new [DOT; DOT] p :: rest -> is_dir fs p = true ->
  exists rest', fs_entries fs' d = DirEntry_new [DOT] d :: DirEntry_new [DOT; DOT] p :: rest'.
Proof.
  intros E Hp. rewrite ul_entries, E. rewrite E in Hk.
  assert (2 <= k)%nat.
  { destruct k as [|[|]]; [| |lia]; injection Hk as <-; rewrite <- He in Hid; cbn [de_inode DirEntry_new] in Hid; congruence. }
  set (l := DirEntry_new [DOT] d :: DirEntry_new [DOT; DOT] p :: rest) in *.
  assert (Hlen : (k < length l)%nat) by (by eapply lookup_lt_Some).
  assert (L0 : swap_remove k l !! 0%nat = Some (DirEntry_new [DOT] d)).
  { rewrite lookup_swap_remove by lia. unfold slot_of. by rewrite decide_False by lia. }
  assert (L1 : swap_remove k l !! 1%nat = Some (DirEntry_new [DOT; DOT] p)).
  { rewrite lookup_swap_remove by lia. unfold slot_of. by rewrite decide_False by lia. }
  destruct (swap_remove k l) as [|x [|y rest']]; [done..|]. injection L0 as ->. injection L1 as ->. by exists rest'.
Qed.

Lemma ul_links : linked_inv fs'.
Proof.
  pose proof (so_links _ Hs) as [Hp Hnonempty Hnm Ho Hdots].
  assert (Hisd : forall j s x, allocated fs' j -> fs_entries fs' j !! s = Some x -> is_dir fs' (de_inode x) = is_dir fs (de_inode x)).
  { intros j s x Ha Hx. assert (Hax : allocated fs' (de_inode x)).
    { apply (ti_entry _ ul_tree j); [done|by eapply list_elem_of_lookup_2]. }
    apply ul_allocated in Hax as [Hxi Hax]. by destruct (ul_same_blocks _ Hax Hxi) as [_ ->]. }
  constructor.
  - intros j x Ha [s Hx]%list_elem_of_lookup. destruct (ul_entry_from j s x Ha Hx) as (Hj & s' & Hs' & _).
    apply (Hp j); [done|by eapply list_elem_of_lookup_2].
  - intros j x Hnf Ha [s Hx]%list_elem_of_lookup. destruct (ul_entry_from j s x Ha Hx) as (Hj & s' & Hs' & _).
    apply (Hnonempty j); [done|done|by eapply list_elem_of_lookup_2].
  - intros j Hnf Ha. apply NoDup_alt. intros s1 s2 nm H1 H2.
    apply list_lookup_fmap_Some_1 in H1 as (x1 & -> & H1). apply list_lookup_fmap_Some_1 in H2 as (x2 & E & H2).
    destruct (ul_entry_from j s1 x1 Ha H1) as (Hj & s1' & Hs1' & _ & Hinj1).
    destruct (Z.eqb_spec j d) as [->|Hjd].
    + rewrite ul_entries in H1, H2. apply swap_remove_from in H1 as (Hl1 & H1 & _). apply swap_remove_from in H2 as (Hl2 & H2 & _).
      eapply (slot_of_inj k (length (fs_entries fs d))); [done..|].
      eapply (NoDup_lookup _ _ _ (DirEntry_name x1) (Hnm d Hnf Hd)); rewrite list_lookup_fmap; [by rewrite H1|by rewrite H2, E].
    + apply ul_allocated in Ha as [Hji _]. destruct (ul_frame j Hj Hji Hjd) as (_ & _ & Ee). rewrite Ee in H1, H2.
      eapply (NoDup_lookup _ _ _ (DirEntry_name x1) (Hnm j Hnf Hj)); rewrite list_lookup_fmap; [by rewrite H1|by rewrite H2, E].
  - intros j1 j2 s1 s2 x1 x2 Ha1 Ha2 H1 H2 E Hf. rewrite (Hisd j1 s1) in Hf by done.
    destruct (ul_entry_from j1 s1 x1 Ha1 H1) as (Hj1 & s1' & Hs1' & _ & Hinj).
    destruct (Ho j1 j2 s1' (if j2 =? d then slot_of k (length (fs_entries fs d)) s2 else s2) x1 x2) as [-> Es]; try done.
    + apply ul_allocated in Ha2. by destruct Ha2.
    + destruct (Z.eqb_spec j2 d) as [->|Hne].
      * rewrite ul_entries in H2. by apply swap_remove_from in H2 as (_ & ? & _).
      * apply ul_allocated in Ha2 as [Hn2 Ha2]. by destruct (ul_frame j2 Ha2 Hn2 Hne) as (_ & _ & <-).
    + split; [done|]. apply Hinj; [by eexists|done].
  - intros j [Hji Hj]%ul_allocated Hjd. destruct (ul_same_blocks j Hj Hji) as [_ Ed]. rewrite Ed in Hjd.
    destruct (Hdots j Hj Hjd) as (p & rest & E & Hpd).
    assert (Hpa : allocated fs p).
    { apply (ti_entry _ Hti j (DirEntry_new [DOT; DOT] p)); [done|]. rewrite E. right. left. }
    assert (Hpi : p <> i) by (intros ->; congruence).
    destruct (ul_same_blocks p Hpa Hpi) as [_ Epd]. exists p.
    destruct (Z.eq_dec j d) as [->|Hne]; [destruct (ul_dots p rest E Hpd) as [rest' E']; exists rest'|exists rest].
    + by rewrite Epd.
    + destruct (ul_frame j Hj Hji Hne) as (_ & _ & ->). by rewrite Epd.
Qed.

Lemma unlinked_removed : removed fs fs' d i k.
Proof.
  constructor.
  - constructor; [apply ul_tree|apply ul_links].
  - apply ul_allocated.
  - apply Hul.
  - apply Hul.
  - apply ul_entries.
  - by rewrite (ul_parent _ _ _ _ _ _ _ Hul).
  - apply ul_frame.
  - intros v Hv. rewrite (ul_dbm _ _ _ _ _ _ _ Hul), andb_true_iff, negb_true_iff, bool_decide_eq_false by done.
    by rewrite block_list_owns.
Qed.
End Unlinked.
End Links.

Arguments linked_inv {D _} nul_free fs.
Arguments fs_sound {D _ _} nul_free fs.
Arguments removed {D _ _} nul_free fs fs' d i k.
