(* ===== verification/FsList.v ===== *)
(** * Listing a directory

    [dump_dir] prints what the abstract state says, and changes only the cache. *)
From S2P Require Import Prelude Bitmap Bytes Layout INode DirEntry BlockDev INodeCache SuperBlock Filesystem.
From S2P Require Import FsBase FsState FsFiles FsDirs FsCreate FsFormat FsProps.

Section List.
Context {D : Type} `{BlockDeviceLaws D}.
Variables (fs : Filesystem D) (Hti : tree_inv fs).

Abbreviation is_dir fs i := (in_is_directory (fs_inode fs i)).

(** ** Reading in a state that only the cache tells from [fs] *)
Lemma dir_run f d : fs_ok f -> fs_equiv fs f -> allocated fs d ->
  exists f', read_dir_entry f d = Ret (fs_entries fs d, f') /\ fs_ok f' /\ fs_equiv fs f'.
Proof.
  intros Hok He Hd. pose proof (tree_inv_equiv _ _ Hok He Hti) as Htf.
  assert (Hdf : allocated f d) by (by apply (allocated_equiv _ _ _ He)).
  destruct (read_dir_entry_spec f d Hok (ti_dir _ Htf _ Hdf)) as (f' & E & Hok' & He').
  rewrite (fs_entries_equiv _ _ _ He (di_inode _ _ (ti_dir _ Hti _ Hd))) in E. exists f'. split; [done|].
  split; [done|by transitivity f].
Qed.

Lemma inode_run f i : fs_ok f -> fs_equiv fs f -> allocated fs i ->
  exists f', lookup_inode f i = Ret (fs_inode fs i, f') /\ fs_ok f' /\ fs_equiv fs f'.
Proof.
  intros Hok He Hi. pose proof (allocated_range _ _ (ti_ok _ Hti) Hi) as Hr.
  destruct (lookup_inode_spec f i Hok) as (f' & E & Hok' & He' & _); [by rewrite <- (fe_ibm _ _ He)|].
  rewrite <- (fe_inode _ _ He) in E by done. exists f'. split; [done|]. split; [done|by transitivity f].
Qed.

(** ** The listing of one directory *)
Definition list_line (e : DirEntry) : list Z :=
  if bool_decide (DirEntry_name e = []) then []
  else
    let '(type_char, size_str, name) := entry_display (fs_inode fs (de_inode e)) (DirEntry_name e) in
    str "  " ++ type_char ++ str "     [" ++ pad_left 3 (show_z (de_inode e)) ++ str "]  " ++ pad_left 9 size_str ++
    str "  " ++ name ++ [NL].

Definition list_text (es : list DirEntry) : list Z :=
  str "  TYPE  INODE       SIZE  NAME" ++ [NL] ++ str "  ----  -----  ---------  ----" ++ [NL] ++ concat (map list_line es).

(** The directory [dump_dir] is asked for, and what it returns. *)
Definition list_spec (path out : list Z) : result Error (list Z) :=
  match (if bool_decide (path = str "/") then Ok 0
         else match resolve_spec fs path with Ok r => Ok (rp_basename_inode r) | Err e => Err e end) with
  | Err e => Err e
  | Ok i => if is_dir fs i then Ok (out ++ list_text (fs_entries fs i)) else Err NotADirectory
  end.

Lemma dump_entries_run es : forall f out, fs_ok f -> fs_equiv fs f -> Forall (fun e => allocated fs (de_inode e)) es ->
  exists f', dump_entries f es out = Ret (out ++ concat (map list_line es), f') /\ fs_ok f' /\ fs_equiv fs f'.
Proof.
  induction es as [|e es IH]; intros f out Hok He Ha; cbn [dump_entries map concat]; [exists f; by rewrite app_nil_r|].
  apply Forall_cons in Ha as [Hae Ha]. unfold list_line at 1. destruct (bool_decide _); [by apply IH|].
  destruct (inode_run f _ Hok He Hae) as (f1 & -> & Hok1 & He1). cbn [mbind comp_bind].
  destruct (entry_display _ _) as [[ty sz] nm]. match goal with |- context [dump_entries f1 es ?o] => destruct (IH f1 o Hok1 He1 Ha) as (f2 & -> & ?) end.
  exists f2. by rewrite <- !app_assoc.
Qed.

Lemma entries_allocated d : allocated fs d -> Forall (fun e => allocated fs (de_inode e)) (fs_entries fs d).
Proof. intros Hd. apply Forall_forall. intros e. by apply (ti_entry _ Hti). Qed.

Lemma dump_dir_run path out : exists f', dump_dir fs path out = Ret (list_spec path out, f') /\ fs_ok f' /\ fs_equiv fs f'.
Proof.
  destruct (ti_root _ Hti) as [Hroot _]. unfold dump_dir, list_spec.
  set (target := if bool_decide (path = str "/") then Ok 0 else _). set (c := if bool_decide (path = str "/") then _ else _).
  assert (Hc : exists f1, c = Ret (target, f1) /\ fs_ok f1 /\ fs_equiv fs f1 /\ forall i, target = Ok i -> allocated fs i).
  { unfold c, target. destruct (bool_decide _); [exists fs; split_and!; [done|apply Hti|done|by intros i [= <-]]|].
    destruct (resolve_path_run fs path Hti) as (f1 & -> & Hok1 & He1). cbn [mbind comp_bind]. exists f1.
    destruct (resolve_spec fs path) as [r|e] eqn:Er; split_and!; try done.
    intros i [= <-]. by apply (resolve_spec_allocated fs path r Hti Er). }
  destruct Hc as (f1 & -> & Hok1 & He1 & Ha). cbn [mbind comp_bind]. destruct target as [i|e]; [|by exists f1].
  specialize (Ha i eq_refl). destruct (inode_run f1 i Hok1 He1 Ha) as (f2 & -> & Hok2 & He2). cbn [mbind comp_bind].
  destruct (in_is_directory (fs_inode fs i)) eqn:Hd; cbn [negb]; [|by exists f2].
  destruct (dir_run f2 i Hok2 He2 Ha) as (f3 & -> & Hok3 & He3). cbn [mbind comp_bind]. cbv zeta.
  match goal with |- context [dump_entries f3 ?es ?o] => destruct (dump_entries_run es f3 o Hok3 He3) as (f4 & -> & ?) end.
  { by apply entries_allocated. }
  exists f4. cbn [mbind comp_bind]. unfold list_text. by rewrite <- !app_assoc.
Qed.

End List.

(** ** Properties *)

(** [dump_dir] lists exactly the entries of a directory.  An unresolvable path
    and a file are reported; of a directory it prints the two lines of the header
    and then, in the order of the entries, one line for each entry with a name:
    its kind, its inode number, its size (none for a directory) and its name.
    Nothing but the cache changes. *)
Theorem dump_dir_lists {D : Type} `{BlockDeviceLaws D} (fs : Filesystem D) path out :
  tree_inv fs -> exists fs', dump_dir fs path out = Ret (list_spec fs path out, fs') /\ tree_inv fs' /\ fs_equiv fs fs'.
Proof.
  intros Hti. destruct (dump_dir_run fs Hti path out) as (fs' & E & Hok & He). exists fs'.
  split; [exact E|]. split; [by eapply tree_inv_equiv|exact He].
Qed.

Lemma sample_list : list_spec sample_fs_a (str "/") [] =
  Ok (str "  TYPE  INODE       SIZE  NAME" ++ [NL] ++ str "  ----  -----  ---------  ----" ++ [NL] ++
      str "  d     [  0]          -  ./" ++ [NL] ++ str "  d     [  0]          -  ../" ++ [NL] ++
      str "  f     [  1]          0  a" ++ [NL]).
Proof. vm_compute. reflexivity. Qed.

Lemma dump_dir_lists_witness :
  exists text fs', dump_dir sample_fs_a (str "/") [] = Ret (Ok text, fs') /\
    text = str "  TYPE  INODE       SIZE  NAME" ++ [NL] ++ str "  ----  -----  ---------  ----" ++ [NL] ++
      str "  d     [  0]          -  ./" ++ [NL] ++ str "  d     [  0]          -  ../" ++ [NL] ++
      str "  f     [  1]          0  a" ++ [NL].
Proof.
  destruct (dump_dir_lists sample_fs_a (str "/") [] sample_a_tree) as (fs' & E & _). rewrite sample_list in E.
  eexists _, fs'. split; [exact E|reflexivity].
Defined.
