(* ===== verification/FsSound.v ===== *)
(** * The states a filesystem can reach

    [remove_dir_entry] specified over [fs_sound]; the operations as a step
    relation; and the theorems: removal takes out exactly one file, and every
    state reached from a formatted device is sound. *)
From stdpp Require Import relations.
From S2P Require Import Prelude Bitmap Bytes Layout INode DirEntry BlockDev INodeCache SuperBlock Filesystem.
From S2P Require Import FsBase FsState FsFiles FsDirs FsCreate FsFormat FsProps FsUsage FsRemove FsLinks FsList.

Open Scope Z_scope.

Section Sound.
Context {D : Type} `{BlockDeviceLaws D} {nul_free : Prop}.
Implicit Types (dev : D) (fs : Filesystem D).

Abbreviation is_dir fs i := (in_is_directory (fs_inode fs i)).

(** ** The run of [remove_dir_entry] *)
Lemma resolve_spec_entry fs path r :
  resolve_spec fs path = Ok r ->
  exists e, find_entry (rp_basename r) (fs_entries fs (rp_parent r)) = Some e /\ de_inode e = rp_basename_inode r.
Proof.
  unfold resolve_spec. destruct (default (path, path) _) as [dirs basename].
  destruct (walk_spec fs 0 (path_parts dirs)) as [parent|]; [|done].
  destruct (find_entry basename _) as [e|] eqn:Ef; [|done]. intros [= <-]. simpl. by exists e.
Qed.

(** The block of a sound directory. *)
Lemma sound_directory fs d :
  fs_sound nul_free fs -> allocated fs d -> is_dir fs d = true ->
  exists n b, in_size (fs_inode fs d) = 28 * Z.of_nat n /\ (2 <= n <= 18)%nat /\ length (fs_entries fs d) = n /\
    in_blocks (fs_inode fs d) !! 0%nat = Some (Some b) /\ fs_entries fs d = decode_entries n (blk (block_device fs) b).
Proof.
  intros [Hti Hl] Hd Hdd. pose proof (ti_dir _ Hti _ Hd) as Hdi. pose proof (ti_ok _ Hti) as Hok.
  destruct (dir_size fs d Hdi Hdd) as [Hs Hle]. destruct (li_dots _ Hl d Hd Hdd) as (p & rest & E & _).
  set (n := length (fs_entries fs d)).
  assert (Hn : (2 <= n)%nat) by (unfold n; rewrite E; simpl; lia). unfold zlen in Hs. fold n in Hs.
  destruct (ii_shape _ _ (di_inode _ _ Hdi)) as [_ Hslots]. pose proof (ii_range _ _ (di_inode _ _ Hdi)) as Hr.
  pose proof (fs_inode_ok _ _ Hok Hr) as [_ Hlen _].
  destruct (lookup_lt_is_Some_2 (in_blocks (fs_inode fs d)) 0) as [o Ho]; [lia|].
  destruct (proj2 (Hslots _ _ Ho)) as [b ->]; [lia|]. exists n, b. split_and!; try done; [lia|].
  apply dir_entries_block; try done. lia.
Qed.

Lemma removed_equiv fs f fs' d i k :
  fs_sound nul_free fs -> fs_equiv fs f -> allocated fs d -> allocated fs i -> removed nul_free f fs' d i k -> removed nul_free fs fs' d i k.
Proof.
  intros [Hti Hl] He Hd Hi [Hs Ha Hc Hlay He' Hdir Hf Hb]. pose proof (ti_ok _ Hti) as Hok.
  assert (Haf : forall j, allocated f j <-> allocated fs j) by (intros; symmetry; by apply allocated_equiv).
  constructor; try done.
  - intros j. by rewrite Ha, Haf.
  - by rewrite Hc, (fe_ibm _ _ He).
  - by rewrite Hlay, (fe_layout _ _ He).
  - by rewrite He', (fs_entries_equiv _ _ _ He (di_inode _ _ (ti_dir _ Hti _ Hd))).
  - intros j Hj Hji Hjd. destruct (Hf j) as (-> & -> & ->); [by apply Haf|done..|].
    pose proof (di_inode _ _ (ti_dir _ Hti _ Hj)) as Hii. rewrite (fs_content_equiv _ _ _ He Hii), (fs_entries_equiv _ _ _ He Hii).
    by rewrite (fe_inode _ _ He) by (by apply allocated_range).
  - intros v Hv. rewrite Hb by done. rewrite <- (fe_dbm _ _ He), <- (fe_layout _ _ He).
    by rewrite (owns_equiv _ _ _ _ He) by (by apply allocated_range).
Qed.

Lemma remove_dir_entry_run fs path :
  fs_sound nul_free fs ->
  exists res fs', remove_dir_entry fs path = Ret (res, fs') /\ fs_sound nul_free fs' /\
    match resolve_spec fs path with
    | Err e => res = Err e /\ fs_equiv fs fs'
    | Ok r =>
        if is_dir fs (rp_basename_inode r) then res = Err OperationNotSupported /\ fs_equiv fs fs'
        else res = Ok tt /\ exists k e, fs_entries fs (rp_parent r) !! k = Some e /\
          DirEntry_name e = rp_basename r /\ de_inode e = rp_basename_inode r /\
          removed nul_free fs fs' (rp_parent r) (rp_basename_inode r) k
    end.
Proof.
  intros Hs. pose proof (so_tree _ Hs) as Hti. rewrite remove_dir_entry_unlink.
  destruct (resolve_path_run fs path Hti) as (f1 & -> & Hok1 & He1). cbn [mbind comp_bind].
  destruct (resolve_spec fs path) as [r|er] eqn:Er;
    [|exists (Err er), f1; split_and!; [done|by apply (sound_equiv fs)|done..]].
  destruct (resolve_spec_allocated fs path r Hti Er) as (Hda & Hia & Hdd).
  destruct (resolve_spec_entry fs path r Er) as (e & Hfe & Hei).
  set (d := rp_parent r) in *. set (i := rp_basename_inode r) in *.
  pose proof (allocated_range _ _ (ti_ok _ Hti) Hda) as Hdr. pose proof (allocated_range _ _ (ti_ok _ Hti) Hia) as Hir.
  destruct (lookup_inode_spec f1 i Hok1) as (f2 & E2 & Hok2 & He2 & _); [by rewrite <- (fe_ibm _ _ He1)|].
  pose proof (lookup_inode_len f1 i _ f2 (proj1 Hir) E2) as Hlen2. rewrite E2. cbn [mbind comp_bind].
  assert (He12 : fs_equiv fs f2) by (by transitivity f1).
  destruct (lookup_inode_spec f2 d Hok2) as (f3 & E3 & Hok3 & He3 & _); [by rewrite <- (fe_ibm _ _ He12)|].
  pose proof (lookup_inode_len f2 d _ f3 (proj1 Hdr) E3) as Hlen3. rewrite E3. cbn [mbind comp_bind].
  assert (He : fs_equiv fs f3) by (by transitivity f2). pose proof (sound_equiv fs f3 Hok3 He Hs) as Hs3.
  rewrite <- (fe_inode _ _ He1), <- (fe_inode _ _ He12) by done.
  destruct (is_dir fs i) eqn:Hid; [by exists (Err OperationNotSupported), f3|].
  pose proof (so_tree _ Hs3) as Hti3.
  assert (Hda3 : allocated f3 d) by (by apply (allocated_equiv _ _ _ He)).
  assert (Hia3 : allocated f3 i) by (by apply (allocated_equiv _ _ _ He)).
  assert (Ents : fs_entries f3 d = fs_entries fs d).
  { apply fs_entries_equiv; [done|]. apply (ti_dir _ Hti _ Hda). }
  rewrite (fe_inode _ _ He) in Hdd, Hid |- * by done. rewrite (fe_inode _ _ He) by done.
  destruct (sound_directory f3 d Hs3 Hda3 Hdd) as (n & b & Hsz & Hn & Hlen & Hslot & Hents).
  unfold current_dir_entries. rewrite Hdd, Hsz. cbn [assert mbind comp_bind]. unfold size_of_DirEntry.
  replace (28 * Z.of_nat n / 28) with (Z.of_nat n) by (rewrite Z.mul_comm, Z.div_mul; done).
  replace (Z.to_nat (Z.of_nat n) + 1)%nat with (S n) by lia.
  destruct (ii_live _ _ (di_inode _ _ (ti_dir _ Hti3 _ Hda3)) _ _ Hslot) as [Hb _]. pose proof (data_start_pos _ Hok3).
  rewrite (dir_reader_find_spec (block_device f3) (fs_inode f3 d) b n (fo_dev _ Hok3) ltac:(lia) ltac:(lia) Hdd Hsz Hslot
    _ (fun e => DirEntry_name e = rp_basename r)); [|done|lia].
  cbn [mbind comp_bind]. rewrite <- Hents, Ents.
  rewrite find_entry_plain in Hfe by (intros x Hx; by apply (li_head fs d x (so_links _ Hs))).
  destruct (list_find _ (fs_entries fs d)) as [[k x]|] eqn:Ef; [|done]. injection Hfe as ->.
  apply list_find_Some in Ef as (Hk & Hname & _). cbn [fmap option_fmap option_map].
  assert (Hkn : (k < n)%nat) by (rewrite <- Hlen, Ents; by eapply lookup_lt_Some).
  destruct (unlink_run f3 d i b n k e Hok3) as (fs' & E & Hul); try done; try lia.
  { apply (ti_dir _ Hti3 _ Hda3). }
  { apply (ti_dir _ Hti3 _ Hia3). }
  { intros E. rewrite E in Hdd. congruence. }
  assert (Hrm : removed nul_free fs fs' d i k).
  { apply (removed_equiv fs f3); try done.
    apply (unlinked_removed f3 fs' d i b n k e); try done. by rewrite Ents. }
  exists (Ok tt), fs'. split; [exact E|]. split; [apply Hrm|]. split; [done|]. by exists k, e.
Qed.

(** ** What a removal leaves *)
Lemma removed_is_dir fs fs' d i k j :
  removed nul_free fs fs' d i k -> allocated fs j -> j <> i -> is_dir fs d = true -> is_dir fs' j = is_dir fs j.
Proof.
  intros Hrm Hj Hji Hd. destruct (Z.eq_dec j d) as [->|Hne]; [by rewrite Hd, (rm_dir _ _ _ _ _ Hrm)|].
  by destruct (rm_frame _ _ _ _ _ Hrm j Hj Hji Hne) as (-> & _).
Qed.

(** Directories are found as before. *)
Lemma removed_walk fs fs' d i k e parts :
  nul_free -> fs_sound nul_free fs -> removed nul_free fs fs' d i k -> is_dir fs d = true -> is_dir fs i = false ->
  fs_entries fs d !! k = Some e -> de_inode e = i -> forall dir p,
  allocated fs dir -> is_dir fs dir = true -> walk_spec fs dir parts = Ok p -> walk_spec fs' dir parts = Ok p.
Proof.
  intros Hnf Hs Hrm Hd Hi Hk He. pose proof (so_tree _ Hs) as Hti. pose proof (rm_sound _ _ _ _ _ Hrm) as Hs'.
  induction parts as [|part parts IH]; intros dir p Ha Hdir Hw; [done|]. cbn [walk_spec] in Hw |- *.
  destruct (find_entry part (fs_entries fs dir)) as [x|] eqn:Ef; [|done].
  destruct (is_dir fs (de_inode x)) eqn:Hx; [|done].
  apply find_entry_unique in Ef as [Hin Hname];
    [|intros y Hy; by apply (li_head fs dir y (so_links _ Hs))|by apply (li_names _ (so_links _ Hs))].
  assert (Hdi : dir <> i) by (intros ->; congruence).
  assert (Ha' : allocated fs' dir) by (by apply Hrm).
  assert (Hxa : allocated fs (de_inode x)) by (by apply (ti_entry _ Hti dir)).
  assert (Hin' : x ∈ fs_entries fs' dir).
  { destruct (Z.eq_dec dir d) as [->|Hne]; [|by destruct (rm_frame _ _ _ _ _ Hrm dir Ha Hdi Hne) as (_ & _ & ->)].
    rewrite (rm_entries _ _ _ _ _ Hrm). apply elem_of_swap_remove; [by eapply lookup_lt_Some|].
    apply list_elem_of_lookup in Hin as [j Hj]. exists j. split; [|done]. intros ->. congruence. }
  rewrite (proj2 (find_entry_unique part (fs_entries fs' dir) x
    (fun y Hy => li_head fs' dir y (so_links _ Hs') Ha' Hy) (li_names _ (so_links _ Hs') dir Hnf Ha')) (conj Hin' Hname)).
  assert (Hxi : de_inode x <> i) by (intros E; rewrite E in Hx; congruence).
  rewrite (removed_is_dir _ _ _ _ _ _ Hrm Hxa Hxi Hd), Hx. by apply IH.
Qed.

Lemma removed_not_found fs fs' path r k e :
  nul_free -> fs_sound nul_free fs -> resolve_spec fs path = Ok r -> is_dir fs (rp_basename_inode r) = false ->
  removed nul_free fs fs' (rp_parent r) (rp_basename_inode r) k ->
  fs_entries fs (rp_parent r) !! k = Some e -> DirEntry_name e = rp_basename r -> de_inode e = rp_basename_inode r ->
  resolve_spec fs' path = Err NotFound.
Proof.
  intros Hnf Hs Er Hi Hrm Hk Hname He. pose proof (so_tree _ Hs) as Hti. destruct (ti_root _ Hti) as [Hra Hrd].
  destruct (resolve_spec_allocated fs path r Hti Er) as (Hda & _ & Hdd). revert Er. unfold resolve_spec.
  destruct (default (path, path) _) as [dirs basename].
  destruct (walk_spec fs 0 (path_parts dirs)) as [parent|] eqn:Ew; [|done].
  destruct (find_entry basename (fs_entries fs parent)) as [x|] eqn:Ef; [|done]. intros [= <-]. cbn [rp_parent rp_basename rp_basename_inode] in *.
  rewrite (removed_walk fs fs' _ _ k e _ Hnf Hs Hrm Hdd Hi Hk He 0 parent Hra Hrd Ew).
  rewrite find_entry_missing; [done| |].
  - intros y Hy. apply (li_head fs' parent y (so_links _ (rm_sound _ _ _ _ _ Hrm))); [|done]. apply Hrm. split; [|done]. intros ->. congruence.
  - intros y Hy. rewrite (rm_entries _ _ _ _ _ Hrm) in Hy. apply elem_of_swap_remove in Hy as (j & Hne & Hj); [|by eapply lookup_lt_Some].
    intros Hn. apply Hne. eapply (NoDup_lookup _ _ _ basename (li_names _ (so_links _ Hs) parent Hnf Hda));
      rewrite list_lookup_fmap; [by rewrite Hj; simpl; f_equal|by rewrite Hk; simpl; f_equal].
Qed.

Lemma sound_directory_block fs d :
  fs_sound nul_free fs -> allocated fs d -> is_dir fs d = true -> div_ceil (in_size (fs_inode fs d)) 512 = 1.
Proof.
  intros Hs Ha Hd. destruct (sound_directory fs d Hs Ha Hd) as (n & _ & -> & Hn & _). apply one_block. lia.
Qed.

(** The inode and its blocks are free again. *)
Lemma removed_usage fs fs' d i k :
  fs_sound nul_free fs -> allocated fs i -> allocated fs d -> is_dir fs d = true -> is_dir fs i = false -> removed nul_free fs fs' d i k ->
  inodes_used fs' = inodes_used fs - 1 /\ blocks_used fs' = blocks_used fs - div_ceil (in_size (fs_inode fs i)) 512.
Proof.
  intros Hs Hi Hd Hdd Hid Hrm. pose proof (so_tree _ Hs) as Hti.
  pose proof (allocated_range _ _ (ti_ok _ Hti) Hi) as Hir. pose proof (rm_sound _ _ _ _ _ Hrm) as Hs'.
  assert (Hdi : d <> i) by (intros ->; congruence).
  assert (Htest : forall j, 0 <= j < inode_count fs -> j <> i -> bm_test (inode_bitmap fs') j = bm_test (inode_bitmap fs) j).
  { intros j Hj Hji. apply same_allocated_test; [lia|]. rewrite (rm_allocated _ _ _ _ _ Hrm). intuition. }
  assert (Ht1 : bm_test (inode_bitmap fs) i = true) by apply Hi.
  assert (Ht0 : bm_test (inode_bitmap fs') i = false).
  { apply not_true_iff_false. intros Ht. assert (allocated fs' i) as [? _]%(rm_allocated _ _ _ _ _ Hrm) by (split; [lia|done]). done. }
  unfold inodes_used, blocks_used. rewrite (rm_count _ _ _ _ _ Hrm). split.
  - rewrite (tally_upd _ (fun j => if bm_test (inode_bitmap fs) j then 1 else 0) _ i) by (intros; by rewrite ?Htest).
    rewrite Ht1, Ht0. lia.
  - rewrite (tally_upd _ (blocks_needed fs) _ i); [|done|].
    + unfold blocks_needed. rewrite Ht1, Ht0. lia.
    + intros j Hj Hji. unfold blocks_needed. rewrite Htest by done. destruct (bm_test _ j) eqn:Hj'; [|done].
      destruct (decide (j = d)) as [->|Hjd].
      * rewrite !sound_directory_block; try done; [apply Hrm; done|apply Hrm].
      * destruct (rm_frame _ _ _ _ _ Hrm j) as (-> & _); [split; [lia|done]|done..].
Qed.

(** ** Listings *)
Lemma tree_children_equiv (inner : Filesystem D -> DirEntry -> bool -> list Z -> comp (list Z * Filesystem D)) es :
  (forall fs e last out out' fs', tree_inv fs -> allocated fs (de_inode e) ->
     inner fs e last out = Ret (out', fs') -> fs_ok fs' /\ fs_equiv fs fs') ->
  forall fs out out' fs', tree_inv fs -> Forall (fun e => allocated fs (de_inode e)) es ->
  tree_children inner fs es out = Ret (out', fs') -> fs_ok fs' /\ fs_equiv fs fs'.
Proof.
  intros Hinner. induction es as [|e es IH]; intros fs out out' fs' Hti Hf E; cbn [tree_children] in E.
  { injection E as _ <-. split; [apply Hti|done]. }
  apply Forall_cons in Hf as [He Hf]. apply bind_ret_inv in E as ([out1 f1] & E1 & E).
  destruct (Hinner fs e _ out out1 f1 Hti He E1) as [Hok1 He1].
  destruct (IH f1 out1 out' fs' (tree_inv_equiv _ _ Hok1 He1 Hti)) as [? He2]; [|exact E|split; [done|by transitivity f1]].
  eapply Forall_impl; [exact Hf|]. intros. by apply (allocated_equiv _ _ _ He1).
Qed.

Lemma visible_allocated fs f d :
  tree_inv fs -> allocated fs d -> fs_equiv fs f -> Forall (fun e => allocated f (de_inode e)) (visible (fs_entries fs d)).
Proof.
  intros Hti Hd He. apply Forall_forall. intros e [Hin _]%list_elem_of_In%List.filter_In.
  apply (allocated_equiv _ _ _ He). apply (ti_entry _ Hti d); [done|by apply list_elem_of_In].
Qed.

Lemma tree_inner_equiv fuel : forall prefix fs e last out out' fs',
  tree_inv fs -> allocated fs (de_inode e) -> tree_inner fuel prefix fs e last out = Ret (out', fs') ->
  fs_ok fs' /\ fs_equiv fs fs'.
Proof.
  induction fuel as [|fuel IH]; intros prefix fs e last out out' fs' Hti He; cbn [tree_inner]; [done|]. cbv zeta.
  destruct (lookup_inode_spec fs (de_inode e) (ti_ok _ Hti)) as (f1 & -> & Hok1 & He1 & _);
    [by apply allocated_range; [apply Hti|]|].
  cbn [mbind comp_bind]. destruct (entry_display _ _) as [[? ?] ?].
  destruct (in_is_directory _); [|by intros [= _ <-]].
  pose proof (tree_inv_equiv _ _ Hok1 He1 Hti) as Hti1.
  assert (Ha1 : allocated f1 (de_inode e)) by (by apply (allocated_equiv _ _ _ He1)).
  destruct (read_dir_entry_spec f1 (de_inode e) Hok1 (ti_dir _ Hti1 _ Ha1)) as (f2 & -> & Hok2 & He2). cbn [mbind comp_bind].
  intros E. eapply tree_children_equiv in E as [? He3];
    [|by intros; eapply IH|by apply (tree_inv_equiv f1)|by apply visible_allocated].
  split; [done|]. transitivity f2; [by transitivity f1|done].
Qed.

Lemma tree_equiv fuel fs out out' fs' :
  tree_inv fs -> tree fuel fs out = Ret (out', fs') -> fs_ok fs' /\ fs_equiv fs fs'.
Proof.
  intros Hti. unfold tree. cbv zeta. destruct (ti_root _ Hti) as [Hr _].
  destruct (read_dir_entry_spec fs 0 (ti_ok _ Hti) (ti_dir _ Hti _ Hr)) as (f1 & -> & Hok1 & He1). cbn [mbind comp_bind].
  intros E. eapply tree_children_equiv in E as [? He2];
    [|by intros; eapply tree_inner_equiv|by apply (tree_inv_equiv fs)|by apply visible_allocated].
  split; [done|by transitivity f1].
Qed.

(** ** The operations as steps

    Any call with any text; with [nul_free], the paths hold no NUL byte. *)
Inductive fs_step : Filesystem D -> Filesystem D -> Prop :=
| step_create fs path r fs' : path_ok nul_free path -> create_file fs path = Ret (r, fs') -> fs_step fs fs'
| step_mkdir fs path r fs' : path_ok nul_free path -> mkdir fs path = Ret (r, fs') -> fs_step fs fs'
| step_append fs path bytes r fs' : Forall is_u8 bytes -> zlen bytes < 2 ^ 63 ->
    append_to_file fs path bytes = Ret (r, fs') -> fs_step fs fs'
| step_remove fs path r fs' : remove_dir_entry fs path = Ret (r, fs') -> fs_step fs fs'
| step_read fs path r fs' : read_file fs path = Ret (r, fs') -> fs_step fs fs'
| step_dump fs path out r fs' : dump_dir fs path out = Ret (r, fs') -> fs_step fs fs'
| step_tree fuel fs out r fs' : tree fuel fs out = Ret (r, fs') -> fs_step fs fs'
| step_flush fs fs' : flush fs = Ret fs' -> fs_step fs fs'
| step_remount fs f fs' : flush fs = Ret f -> Filesystem_new (block_device f) = Ret (Ok fs') -> fs_step fs fs'.

(** A filesystem just mounted from a formatted device. *)
Definition freshly_mounted fs : Prop :=
  exists dev dev', dev_ok dev /\ is_u32 (total_blocks dev) /\
    format dev = Ret (Ok tt, dev') /\ Filesystem_new dev' = Ret (Ok fs).

Lemma sound_empty fs : empty_tree fs -> fs_sound nul_free fs.
Proof.
  intros [Hti Ha He]. constructor; [done|]. destruct (ti_root _ Hti) as [_ Hrd].
  assert (Hnd : name_ok [DOT]) by (constructor; by repeat constructor).
  assert (Hndd : name_ok [DOT; DOT]) by (constructor; by repeat constructor).
  assert (Hplain : forall e, e ∈ root_entries -> plain_name (DirEntry_name e)).
  { intros e. unfold root_entries. rewrite !elem_of_cons, elem_of_nil.
    intros [->|[->|[]]]; rewrite DirEntry_name_new by done; apply dots_plain. }
  constructor.
  - intros j e ->%Ha. rewrite He. intros Hin. by apply Hplain.
  - intros j e _ ->%Ha. rewrite He. intros Hin. by apply Hplain.
  - intros j _ ->%Ha. rewrite He. unfold root_entries. cbn [fmap list_fmap]. rewrite !DirEntry_name_new by done.
    apply NoDup_cons. split; [by rewrite list_elem_of_singleton|apply NoDup_singleton].
  - intros j1 j2 k1 k2 e1 e2 ->%Ha ->%Ha. rewrite He. unfold root_entries. intros H1 _ _ Hf. exfalso.
    destruct k1 as [|[|]]; [| |done]; injection H1 as <-; cbn [de_inode DirEntry_new] in Hf; congruence.
  - intros j ->%Ha _. rewrite He. by exists 0, [].
Qed.

Lemma format_empty fs : freshly_mounted fs -> empty_tree fs.
Proof.
  intros (dev & dev' & Hok & Ht & E1 & E2).
  assert (El : exists l, layout_new (total_blocks dev) MAX_INODES = Ret (Some l)).
  { unfold format in E1. destruct (try_u32 (total_blocks dev)); [|done].
    apply bind_ret_inv in E1 as ([l|] & El & E); [by exists l|done]. }
  destruct El as [l El]. destruct (format_spec dev l Hok Ht El) as (d & f & F1 & F2 & _ & _ & _ & Het).
  rewrite F1 in E1. injection E1 as ->. rewrite F2 in E2. by injection E2 as ->.
Qed.

Lemma format_sound fs : freshly_mounted fs -> fs_sound nul_free fs.
Proof. intros Hf. by apply sound_empty, format_empty. Qed.

(** What a step does to the tree: nothing, or a file grows, or a node is made,
    or a file is removed. *)
Inductive change fs fs' : Prop :=
| change_none : fs_ok fs' -> fs_equiv fs fs' -> change fs fs'
| change_grown i chunk : allocated fs i -> is_dir fs i = false -> grown fs fs' i chunk -> change fs fs'
| change_created t d name i :
    allocated fs d -> is_dir fs d = true -> fresh_name nul_free name ->
    ~ (exists e, e ∈ fs_entries fs d /\ byte_compare name (DirEntry_name e) = true) ->
    created fs fs' t d name i -> change fs fs'
| change_removed d i k e :
    allocated fs d -> is_dir fs d = true -> allocated fs i -> is_dir fs i = false ->
    fs_entries fs d !! k = Some e -> de_inode e = i -> removed nul_free fs fs' d i k -> change fs fs'.

Lemma change_sound fs fs' : change fs fs' -> fs_sound nul_free fs -> fs_sound nul_free fs'.
Proof.
  intros [Hok He|i chunk Hi Hd Hg|t d name i Hd Hdd Hn Hf Hcr|d i k e _ _ _ _ _ _ Hrm] Hsound.
  - by apply (sound_equiv fs).
  - by eapply sound_grown_file.
  - by apply (sound_created fs fs' t d name i).
  - apply Hrm.
Qed.

(** A creation that passes its checks and returns has made the node. *)
Lemma new_dir_entry_created fs path t d name i r fs' :
  fs_sound nul_free fs -> path_ok nul_free path -> create_check fs path = Ok (d, name, i) ->
  new_dir_entry fs path t = Ret (r, fs') -> allocated fs d /\ is_dir fs d = true /\ created fs fs' t d name i.
Proof.
  intros Hs Hp Ec E. pose proof (so_tree _ Hs) as Hti. pose proof (new_dir_entry_run fs path t Hti) as Hn. rewrite Ec in Hn.
  destruct Hn as (Hd & Hdd & Hl & Hi & Hname & fs1 & Hia & E'). rewrite E' in E. split; [done|]. split; [done|].
  destruct (sound_directory fs d Hs Hd Hdd) as (n & _ & Hsz & Hn & _).
  assert (Hb : Forall is_u8 name) by (apply Hname, Hp).
  assert (Hdu : is_u32 d).
  { pose proof (allocated_range _ _ (ti_ok _ Hti) Hd). pose proof (geo_count _ _ _ (fo_geo _ (ti_ok _ Hti))). unfold in_width. lia. }
  destruct (decide (n = 18)%nat) as [->|Hlt].
  { rewrite (link_new_full fs fs1 t d name i) in E by (done || lia). done. }
  destruct t.
  - destruct (link_new_file fs fs1 d name i) as (f & Ef & Hcr); try done; [lia|]. rewrite Ef in E. by injection E as _ <-.
  - destruct (link_new_directory fs fs1 d name i) as [[_ Ef]|(_ & f & Ef & Hcr)]; try done; [lia| |];
      rewrite Ef in E; [done|]. by injection E as _ <-.
Qed.

Lemma new_dir_entry_change fs path t r fs' :
  fs_sound nul_free fs -> path_ok nul_free path -> new_dir_entry fs path t = Ret (r, fs') -> change fs fs'.
Proof.
  intros Hs Hp E. pose proof (new_dir_entry_run fs path t (so_tree _ Hs)) as Hn.
  destruct (create_check fs path) as [[[d name] i]|er] eqn:Ec.
  - destruct (new_dir_entry_created fs path t d name i r fs' Hs Hp Ec E) as (Hd & Hdd & Hcr).
    destruct (create_check_name fs path d name i Hp Ec) as (Hok & Hfresh). by apply (change_created fs fs' t d name i).
  - destruct Hn as (f & Ef & Hokf & Hef). rewrite Ef in E. injection E as _ <-. by apply change_none.
Qed.

Lemma append_change fs path bytes r fs' :
  fs_sound nul_free fs -> Forall is_u8 bytes -> zlen bytes < 2 ^ 63 -> append_to_file fs path bytes = Ret (r, fs') -> change fs fs'.
Proof.
  intros Hs Hb Hl E. pose proof (so_tree _ Hs) as Hti.
  destruct (append_to_file_run fs path bytes Hti Hb Hl) as (res & f & Ef & Htf & Hres). rewrite Ef in E. injection E as _ <-.
  assert (Heq : fs_equiv fs f -> change fs f) by (intros; apply change_none; [apply Htf|done]).
  destruct (resolve_spec fs path) as [r0|] eqn:Er; [|by apply Heq, Hres].
  destruct (resolve_spec_allocated fs path r0 Hti Er) as (_ & Ha & _). cbv zeta in Hres.
  destruct (is_dir fs (rp_basename_inode r0)) eqn:Hd; [by apply Heq, Hres|].
  destruct (8192 <? _); [by apply Heq, Hres|]. destruct Hres as (w & _ & Hg & _). by eapply change_grown.
Qed.

Lemma remove_change fs path r fs' :
  fs_sound nul_free fs -> remove_dir_entry fs path = Ret (r, fs') -> change fs fs'.
Proof.
  intros Hs E. destruct (remove_dir_entry_run fs path Hs) as (res & f & Ef & Hf & Hres). rewrite Ef in E. injection E as _ <-.
  pose proof (ti_ok _ (so_tree _ Hf)) as Hok. destruct (resolve_spec fs path) as [r0|] eqn:Er; [|by apply change_none, Hres].
  destruct (resolve_spec_allocated fs path r0 (so_tree _ Hs) Er) as (Hd & Hi & Hdd).
  destruct (is_dir fs (rp_basename_inode r0)) eqn:Hid; [by apply change_none, Hres|].
  destruct Hres as (_ & k & e & Hk & _ & He & Hrm). by apply (change_removed fs f (rp_parent r0) (rp_basename_inode r0) k e).
Qed.

Lemma step_change fs fs' : fs_step fs fs' -> fs_sound nul_free fs -> change fs fs'.
Proof.
  intros Hstep Hs. pose proof (so_tree _ Hs) as Hti.
  destruct Hstep as [fs path r fs' Hp E|fs path r fs' Hp E|fs path bytes r fs' Hb Hl E|fs path r fs' E|fs path r fs' E
    |fs path out r fs' E|fuel fs out r fs' E|fs fs' E|fs f fs' E E2].
  - by eapply new_dir_entry_change.
  - by eapply new_dir_entry_change.
  - by eapply append_change.
  - by eapply remove_change.
  - pose proof (read_file_run fs path Hti) as Hr. destruct (resolve_spec fs path) as [r0|].
    + cbv zeta in Hr. destruct Hr as (f & Hok & He & Ef). rewrite Ef in E.
      assert (Hc : change fs f) by (by apply change_none).
      destruct (is_dir fs _); [by injection E as _ <-|]. by apply bind_ret_inv in E as (? & _ & [= _ <-]).
    + destruct Hr as (f & Ef & Hok & He). rewrite Ef in E. injection E as _ <-. by apply change_none.
  - destruct (dump_dir_run fs Hti path out) as (f & Ef & ? & ?). rewrite Ef in E. injection E as _ <-. by apply change_none.
  - destruct (tree_equiv fuel fs out r fs' Hti E). by apply change_none.
  - destruct (flush_spec fs (ti_ok _ Hti)) as (f & Ef & Hok & He & _). rewrite Ef in E. injection E as <-. by apply change_none.
  - destruct (flush_spec fs (ti_ok _ Hti)) as (f2 & Ef & Hok2 & He2 & Hfl2). rewrite Ef in E. injection E as <-.
    destruct (ti_root _ Hti) as [Hr Hrd].
    destruct (mount_flushed f2 Hok2 Hfl2) as (f3 & E3 & Hok3 & He3 & _).
    { rewrite <- (fe_inode _ _ He2); [done|]. by apply allocated_range; [apply Hti|]. }
    rewrite E3 in E2. injection E2 as <-. apply change_none; [done|by transitivity f2].
Qed.

(** *** How many blocks they take *)
Lemma append_marks fs path bytes w fs' :
  tree_inv fs -> Forall is_u8 bytes -> zlen bytes < 2 ^ 63 -> append_to_file fs path bytes = Ret (Ok w, fs') ->
  exists r, resolve_spec fs path = Ok r /\
    let size := in_size (fs_inode fs (rp_basename_inode r)) in
    blocks_marked fs' = blocks_marked fs + (div_ceil (size + w) 512 - div_ceil size 512).
Proof.
  intros Hti Hb Hl E. destruct (append_to_file_run fs path bytes Hti Hb Hl) as (res & f & Ef & Htf & Hres).
  rewrite Ef in E. injection E as -> ->. destruct (resolve_spec fs path) as [r|] eqn:Er; [|by destruct Hres].
  exists r. split; [done|]. cbv zeta in Hres |- *. destruct (resolve_spec_allocated fs path r Hti Er) as (_ & Ha & _).
  destruct (is_dir fs _); [by destruct Hres|]. destruct (8192 <? _); [by destruct Hres|].
  destruct Hres as (n & _ & Hg & [[[= ->] ->]|(? & _)]); [|done]. destruct (grown_usage fs fs' _ _ Hti Ha Hg) as [_ Hu].
  destruct (blocks_accounted fs Hti) as [-> _]. destruct (blocks_accounted fs' Htf) as [-> _]. rewrite Hu.
  unfold zlen at 1. rewrite length_take. unfold zlen. rewrite Nat2Z.id, Nat.min_id. lia.
Qed.

Lemma new_entry_marks fs path t i fs' :
  fs_sound nul_free fs -> path_ok nul_free path -> new_dir_entry fs path t = Ret (Ok i, fs') ->
  blocks_marked fs' = blocks_marked fs + match t with EFile => 0 | EDirectory => 1 end.
Proof.
  intros Hs Hp E. pose proof (so_tree _ Hs) as Hti. pose proof (new_dir_entry_run fs path t Hti) as Hn.
  destruct (create_check fs path) as [[[d name] j]|er] eqn:Ec; [|destruct Hn as (f & Ef & _); congruence].
  destruct (new_dir_entry_created fs path t d name j (Ok i) fs' Hs Hp Ec E) as (Hd & Hdd & Hcr).
  destruct (created_usage fs fs' t d name j Hti Hd) as [_ Hu]; [|done|].
  { destruct (li_dots _ (so_links _ Hs) d Hd Hdd) as (p & rest & -> & _). done. }
  destruct (blocks_accounted fs Hti) as [-> _]. by destruct (blocks_accounted fs' (cr_tree _ _ _ _ _ _ Hcr)) as [-> _].
Qed.

Lemma step_sound fs fs' : fs_step fs fs' -> fs_sound nul_free fs -> fs_sound nul_free fs'.
Proof. intros Hst Hs. eapply change_sound; [by apply step_change|done]. Qed.

Lemma steps_sound fs fs' : rtc fs_step fs fs' -> fs_sound nul_free fs -> fs_sound nul_free fs'.
Proof. induction 1 as [|f1 f2 f3 Hst _ IH]; intros Hs; [done|]. apply IH. by eapply step_sound. Qed.
End Sound.

Arguments fs_step {D _} nul_free _ _.
Arguments change {D _ _} nul_free fs fs'.

(** ** Properties *)

(** C1: Every state a filesystem can reach is sound.  Starting from a device that
    was formatted and mounted, after any sequence of creating, making
    directories, appending, removing, reading, listing, flushing and mounting
    again that does not panic, with any texts as paths, the structural invariant
    holds (every directory entry leads to an allocated inode, no block belongs to
    two inodes, a block is in use only if an inode owns it) and so do the laws of
    links: a file is linked exactly once, every directory begins with "." for
    itself and "..", and no name has a slash.  If moreover the paths of the
    sequence hold no NUL byte, the names in a directory are distinct and not
    empty; [nul_name_collides] shows that this needs the condition. *)
Theorem reachable_states_are_sound {D : Type} `{BlockDeviceLaws D} (nul_free : Prop) (fs0 fs : Filesystem D) :
  freshly_mounted fs0 -> rtc (fs_step nul_free) fs0 fs -> tree_inv fs /\ linked_inv nul_free fs.
Proof.
  intros Hfresh%(format_sound (nul_free := nul_free)) Hsteps. enough (fs_sound nul_free fs) as [? ?] by done. by eapply steps_sound.
Qed.

Lemma sample_disk_size : is_u32 (total_blocks sample_disk).
Proof. by vm_compute. Qed.

Lemma sample_fresh : freshly_mounted sample_fs.
Proof.
  destruct (format_spec sample_disk (mkLayout 1 1 2 1 3 586 589 111)) as (dev' & fs & E1 & E2 & _).
  - apply disk_empty_ok. lia.
  - by vm_compute.
  - by vm_compute.
  - assert (Es : sample_fs = fs).
    { unfold sample_fs. rewrite E1. cbn [mbind comp_bind]. by rewrite E2. }
    exists sample_disk, dev'. rewrite Es. split; [apply disk_empty_ok; lia|]. split; [exact sample_disk_size|]. split; [exact E1|exact E2].
Qed.

Lemma sample_path_ok nul_free : path_ok nul_free sample_path.
Proof. constructor; [apply sample_path_bytes|by vm_compute|]. intros _. by repeat constructor. Qed.

Lemma sample_create : exists r, create_file sample_fs sample_path = Ret (r, sample_fs_a).
Proof.
  destruct (create_file_run sample_fs sample_path 0 (str "a") 1) as (fs' & E & _).
  - apply sample_empty_tree.
  - apply sample_path_bytes.
  - apply sample_check.
  - by vm_compute.
  - exists (Ok 1). unfold sample_fs_a. by rewrite E.
Qed.

Lemma hello_bytes : Forall is_u8 (str "hello").
Proof. repeat (apply Forall_cons; split; [by vm_compute|]). constructor. Qed.

Lemma hello_size : zlen (str "hello") < 2 ^ 63.
Proof. by vm_compute. Qed.

Lemma sample_append : exists r, append_to_file sample_fs_a sample_path (str "hello") = Ret (r, sample_fs_hello).
Proof.
  destruct (append_to_file_run sample_fs_a sample_path (str "hello") sample_a_tree hello_bytes hello_size) as (res & fs' & E & _).
  exists res. unfold sample_fs_hello. by rewrite E.
Qed.

Lemma sample_hello_steps nul_free : rtc (fs_step nul_free) sample_fs sample_fs_hello.
Proof.
  destruct sample_create as [r1 E1]. destruct sample_append as [r2 E2].
  apply (rtc_l _ _ sample_fs_a).
  - exact (step_create _ _ _ _ (sample_path_ok nul_free) E1).
  - apply rtc_once. exact (step_append _ _ _ _ _ hello_bytes hello_size E2).
Qed.

Lemma sample_hello_sound nul_free : fs_sound nul_free sample_fs_hello.
Proof. eapply steps_sound; [exact (sample_hello_steps nul_free)|exact (format_sound sample_fs sample_fresh)]. Qed.

Lemma reachable_states_are_sound_witness : tree_inv sample_fs_hello /\ linked_inv True sample_fs_hello.
Proof.
  apply (reachable_states_are_sound True sample_fs).
  - apply sample_fresh.
  - apply sample_hello_steps.
Defined.

(** C10: Removing a file.  An unresolvable path and a directory are reported and
    change nothing.  Otherwise the call succeeds: the path no longer resolves
    (when names are free of NUL bytes, else another entry may read back the same),
    the file's inode and exactly its data blocks are free again, its directory
    loses exactly its entry (the last entry fills the gap), every other file and
    directory keeps its contents, and the state stays sound. *)
Theorem remove_dir_entry_removes {D : Type} `{BlockDeviceLaws D} (nul_free : Prop) (fs : Filesystem D) path :
  fs_sound nul_free fs ->
  exists res fs', remove_dir_entry fs path = Ret (res, fs') /\ fs_sound nul_free fs' /\
    match resolve_spec fs path with
    | Err e => res = Err e /\ fs_equiv fs fs'
    | Ok r =>
        let d := rp_parent r in
        let i := rp_basename_inode r in
        if in_is_directory (fs_inode fs i) then res = Err OperationNotSupported /\ fs_equiv fs fs'
        else res = Ok tt /\ (nul_free -> resolve_spec fs' path = Err NotFound) /\
          (forall j, allocated fs' j <-> j <> i /\ allocated fs j) /\
          (forall v, 0 <= v -> bm_test (data_bitmap fs') v = true <->
             bm_test (data_bitmap fs) v = true /\ ~ owns fs i (data_start (fs_layout fs) + v)) /\
          (exists k e, fs_entries fs d !! k = Some e /\ de_inode e = i /\
             fs_entries fs' d = swap_remove k (fs_entries fs d)) /\
          (forall j, allocated fs j -> j <> i -> j <> d ->
             fs_content fs' j = fs_content fs j /\ fs_entries fs' j = fs_entries fs j) /\
          inodes_used fs' = inodes_used fs - 1 /\
          blocks_used fs' = blocks_used fs - div_ceil (in_size (fs_inode fs i)) 512
    end.
Proof.
  intros Hs. destruct (remove_dir_entry_run fs path Hs) as (res & fs' & E & Hs' & Hres).
  exists res, fs'. split; [exact E|]. split; [exact Hs'|]. destruct (resolve_spec fs path) as [r|] eqn:Er; [|exact Hres].
  cbv zeta. destruct (in_is_directory _) eqn:Hd; [exact Hres|]. destruct Hres as (-> & k & e & Hk & Hname & Hi & Hrm).
  destruct (resolve_spec_allocated fs path r (so_tree _ Hs) Er) as (Hda & Hia & Hdd).
  destruct (removed_usage fs fs' _ _ k Hs Hia Hda Hdd Hd Hrm) as [Hu1 Hu2].
  split; [done|]. split; [intros Hnf; exact (removed_not_found fs fs' path r k e Hnf Hs Er Hd Hrm Hk Hname Hi)|]. split; [apply Hrm|]. split; [apply Hrm|].
  split; [exists k, e; split; [exact Hk|]; split; [exact Hi|exact (rm_entries _ _ _ _ _ Hrm)]|]. split; [|done].
  intros j Hj Hji Hjd. by destruct (rm_frame _ _ _ _ _ Hrm j Hj Hji Hjd) as (_ & ? & ?).
Qed.

Lemma remove_dir_entry_removes_witness :
  exists fs', remove_dir_entry sample_fs_hello sample_path = Ret (Ok tt, fs') /\
    resolve_spec fs' sample_path = Err NotFound /\ blocks_used fs' = 1.
Proof.
  destruct (remove_dir_entry_removes True sample_fs_hello sample_path (sample_hello_sound True)) as (res & fs' & E & _ & Hres).
  assert (Er : resolve_spec sample_fs_hello sample_path = Ok (mkResolved 0 (str "a") 1)) by (by vm_compute).
  rewrite Er in Hres. cbv zeta in Hres. cbn [rp_basename_inode rp_parent] in Hres.
  assert (Ed : in_is_directory (fs_inode sample_fs_hello 1) = false) by (by vm_compute). rewrite Ed in Hres.
  destruct Hres as (-> & Hnf & _ & _ & _ & _ & _ & Hu). exists fs'. split; [exact E|]. split; [exact (Hnf I)|].
  rewrite Hu. vm_compute. reflexivity.
Defined.

(** C33: No data block is lost or taken twice.  In every state a filesystem can
    reach, the data blocks marked in use are exactly as many as the sizes of the
    allocated files and directories need, and the bitmap reports that the disk is
    full exactly when the sizes need every data block.  From there, an append
    marks as many blocks more as the file grows by, a new directory marks one and
    a new file none. *)
Theorem data_blocks_are_accounted {D : Type} `{BlockDeviceLaws D} (nul_free : Prop) (fs0 fs : Filesystem D) :
  freshly_mounted fs0 -> rtc (fs_step nul_free) fs0 fs ->
  (blocks_marked fs = blocks_used fs /\ blocks_used fs <= data_blocks (fs_layout fs) /\
   (find_free (data_bitmap fs) = None <-> blocks_used fs = data_blocks (fs_layout fs))) /\
  (forall path bytes w fs', Forall is_u8 bytes -> zlen bytes < 2 ^ 63 ->
     append_to_file fs path bytes = Ret (Ok w, fs') ->
     exists r, resolve_spec fs path = Ok r /\
       let size := in_size (fs_inode fs (rp_basename_inode r)) in
       blocks_marked fs' = blocks_marked fs + (div_ceil (size + w) 512 - div_ceil size 512)) /\
  (forall path i fs', path_ok nul_free path ->
     (create_file fs path = Ret (Ok i, fs') -> blocks_marked fs' = blocks_marked fs) /\
     (mkdir fs path = Ret (Ok i, fs') -> blocks_marked fs' = blocks_marked fs + 1)).
Proof.
  intros Hf%(format_sound (nul_free := nul_free)) Hst. pose proof (steps_sound _ _ Hst Hf) as Hs. pose proof (so_tree _ Hs) as Hti.
  pose proof (blocks_accounted fs Hti) as Hacc. split; [exact Hacc|]. destruct Hacc as [Hm _]. split.
  - intros path bytes w fs' Hb Hl E. by eapply append_marks.
  - intros path i fs' Hp. split; intros E; rewrite (new_entry_marks _ _ _ _ _ Hs Hp E); lia.
Qed.

Lemma data_blocks_are_accounted_witness :
  blocks_marked sample_fs_hello = 2 /\ blocks_used sample_fs_hello = 2.
Proof.
  destruct (data_blocks_are_accounted False sample_fs sample_fs_hello sample_fresh (sample_hello_steps False)) as [(E & _) _].
  assert (Em : blocks_marked sample_fs_hello = 2) by (vm_compute; reflexivity).
  split; [exact Em|]. rewrite <- E. exact Em.
Defined.

(** Names with NUL bytes are why distinct names need paths without them: an entry stores a name
    padded with zeroes and reads it back up to its nonzero bytes.  Next to "/a",
    "/a" followed by a NUL byte can be created, and the directory then lists two
    entries with the same name, of which only one can be reached. *)
Definition nul_path : list Z := sample_path ++ [0].

Lemma nul_name_collides :
  match create_file sample_fs_a nul_path with
  | Ret (Ok i, fs) => i = 2 /\ map DirEntry_name (fs_entries fs 0) = [str "."; str ".."; str "a"; str "a"]
  | _ => False
  end.
Proof. vm_compute. by split. Qed.
