(* ===== verification/FsTree.v ===== *)
(** * The directory tree

    Under [fs_sound] directories could still be linked in a circle or not at
    all.  [hierarchy] says that they form a tree: every allocated inode but the
    root is the child of exactly one directory, one level deeper.  The steps
    keep it; so the walk of [tree] ends, with a fuel of the number of inodes, and
    prints what a pure function of the abstract state says. *)
From stdpp Require Import relations.
From S2P Require Import Prelude Bitmap Bytes Layout INode DirEntry BlockDev INodeCache SuperBlock Filesystem.
From S2P Require Import FsBase FsState FsFiles FsDirs FsCreate FsFormat FsProps FsUsage FsRemove FsLinks FsList FsSound.
Open Scope Z_scope.

Section Hierarchy.
Context {D : Type} `{BlockDeviceLaws D} {nul_free : Prop}.
Implicit Types (fs : Filesystem D).

Abbreviation is_dir fs i := (in_is_directory (fs_inode fs i)).

(** Entry [k] of directory [j], not "." or "..", links [i]. *)
Definition child fs (j : Z) (k : nat) (i : Z) : Prop :=
  allocated fs j /\ (2 <= k)%nat /\ exists e, fs_entries fs j !! k = Some e /\ de_inode e = i.

Record hierarchy fs (rank : Z -> nat) : Prop := {
  hi_root : rank 0 = 0%nat;
  hi_child j k i : child fs j k i -> rank i = S (rank j);
  hi_linked i : allocated fs i -> i <> 0 -> exists j k, child fs j k i;
  hi_once j1 k1 j2 k2 i : child fs j1 k1 i -> child fs j2 k2 i -> j1 = j2 /\ k1 = k2;
}.

(** ** The same children *)
Lemma hierarchy_same fs fs' rank :
  (forall j, allocated fs' j <-> allocated fs j) -> (forall j, allocated fs j -> fs_entries fs' j = fs_entries fs j) ->
  hierarchy fs rank -> hierarchy fs' rank.
Proof.
  intros Ha He [Hr Hc Hl Ho].
  assert (Hch : forall j k i, child fs' j k i <-> child fs j k i).
  { intros j k i. unfold child. rewrite Ha. split; intros (Hj & Hk & e & Hke & Hi); (split; [done|]); (split; [done|]);
      exists e; by rewrite (He j Hj) in *. }
  constructor; [done|..].
  - intros j k i Hi%Hch. by eapply Hc.
  - intros i Hi%Ha Hne. destruct (Hl i Hi Hne) as (j & k & Hjk). exists j, k. by apply Hch.
  - intros j1 k1 j2 k2 i H1%Hch H2%Hch. by eapply Ho.
Qed.

Lemma child_allocated fs j k i : tree_inv fs -> child fs j k i -> allocated fs i.
Proof. intros Hti (Hj & _ & e & He & <-). apply (ti_entry _ Hti j); [done|by eapply list_elem_of_lookup_2]. Qed.

Lemma child_parent fs j k i : child fs j k i -> is_dir fs j = true.
Proof. intros (_ & _ & e & He & _). apply (entries_dir fs j e). by eapply list_elem_of_lookup_2. Qed.

(** ** A new node *)
Lemma hierarchy_created fs fs' rank t d name i :
  fs_sound nul_free fs -> allocated fs d -> is_dir fs d = true -> created fs fs' t d name i -> hierarchy fs rank ->
  hierarchy fs' (fun x => if x =? i then S (rank d) else rank x).
Proof.
  intros Hs Hd Hdd Hcr [Hr Hc Hl Ho]. pose proof (so_tree _ Hs) as Hti. destruct (ti_root _ Hti) as [Hroot _].
  pose proof (cr_new _ _ _ _ _ _ Hcr) as Hnew. pose proof (cr_allocated _ _ _ _ _ _ Hcr) as Ha.
  assert (Hdi : d <> i) by (by intros ->). assert (Hi0 : i <> 0) by (by intros ->).
  destruct (li_dots _ (so_links _ Hs) d Hd Hdd) as (p & rest & Edots & _).
  assert (Hlen : (2 <= length (fs_entries fs d))%nat) by (rewrite Edots; simpl; lia).
  assert (Hch : forall j k x, child fs' j k x <->
    child fs j k x \/ (j = d /\ k = length (fs_entries fs d) /\ x = i)).
  { intros j k x. split.
    - intros (Hj & Hk & e & He & Hx). apply Ha in Hj as [->|Hj].
      { exfalso. pose proof (cr_node _ _ _ _ _ _ Hcr) as Hn. pose proof (cr_kind _ _ _ _ _ _ Hcr) as Hkind. destruct t.
        - unfold fs_entries in He. by rewrite Hkind in He.
        - rewrite Hn in He. by destruct k as [|[|k]]; [lia|lia|]. }
      destruct (decide (j = d)) as [->|Hne].
      + rewrite (cr_parent _ _ _ _ _ _ Hcr) in He. apply lookup_app_Some in He as [He|[Hle He]].
        * left. split; [done|]. split; [done|]. by exists e.
        * right. apply list_lookup_singleton_Some in He as [? <-]. split_and!; [done|lia|done].
      + left. destruct (cr_frame _ _ _ _ _ _ Hcr j Hj Hne) as (_ & _ & E). rewrite E in He.
        split; [done|]. split; [done|]. by exists e.
    - intros [(Hj & Hk & e & He & Hx)|(-> & -> & ->)].
      + split; [apply Ha; by right|]. split; [done|]. exists e. split; [|done]. destruct (decide (j = d)) as [->|Hne].
        * rewrite (cr_parent _ _ _ _ _ _ Hcr). by apply lookup_app_l_Some.
        * by destruct (cr_frame _ _ _ _ _ _ Hcr j Hj Hne) as (_ & _ & ->).
      + split; [apply Ha; by right|]. split; [done|]. exists (DirEntry_new name i). split; [|done].
        rewrite (cr_parent _ _ _ _ _ _ Hcr). by rewrite lookup_app_r, Nat.sub_diag by lia. }
  assert (Hold : forall j k x, child fs j k x -> x <> i).
  { intros j k x Hx ->. by apply child_allocated in Hx. }
  constructor.
  - by rewrite (proj2 (Z.eqb_neq _ _)) by done.
  - intros j k x [Hx|(-> & -> & ->)]%Hch.
    + rewrite (proj2 (Z.eqb_neq x i)) by (by eapply Hold). rewrite (proj2 (Z.eqb_neq j i)); [by eapply Hc|].
      intros ->. by destruct Hx.
    + by rewrite Z.eqb_refl, (proj2 (Z.eqb_neq d i)).
  - intros x [->|Hx]%Ha Hne; [exists d, (length (fs_entries fs d)); apply Hch; by right|].
    destruct (Hl x Hx Hne) as (j & k & Hjk). exists j, k. apply Hch. by left.
  - intros j1 k1 j2 k2 x [H1|(-> & -> & ->)]%Hch [H2|(-> & -> & E)]%Hch; [by eapply Ho|..|done].
    + subst x. by apply Hold in H1.
    + by apply Hold in H2.
Qed.

(** ** A file less *)
Lemma hierarchy_removed fs fs' rank d i k e :
  fs_sound nul_free fs -> allocated fs d -> is_dir fs d = true -> is_dir fs i = false ->
  fs_entries fs d !! k = Some e -> de_inode e = i -> removed nul_free fs fs' d i k -> hierarchy fs rank -> hierarchy fs' rank.
Proof.
  intros Hs Hd Hdd Hid Hk Hei Hrm [Hr Hc Hl Ho]. pose proof (rm_allocated _ _ _ _ _ Hrm) as Ha.
  destruct (li_dots _ (so_links _ Hs) d Hd Hdd) as (p & rest & Edots & Hp).
  assert (Hk2 : (2 <= k)%nat).
  { rewrite Edots in Hk. destruct k as [|[|k]]; [| |lia]; injection Hk as <-; cbn [de_inode DirEntry_new] in Hei; congruence. }
  set (n := length (fs_entries fs d)).
  assert (Hkn : (k < n)%nat) by (by eapply lookup_lt_Some).
  assert (Hgone : child fs d k i) by (split; [done|]; split; [done|]; by exists e).
  (* where an entry of the new state was *)
  pose (was := fun (j : Z) (m : nat) => if j =? d then slot_of k n m else m).
  assert (Hwas2 : forall j m, (2 <= m)%nat -> (2 <= was j m)%nat).
  { intros j m Hm. unfold was, slot_of. destruct (j =? d); [|done]. case_decide; lia. }
  assert (Hch : forall j m x, child fs' j m x -> child fs j (was j m) x /\ x <> i).
  { intros j m x (Hj & Hm & y & Hy & Hx). apply Ha in Hj as [Hji Hj].
    assert (Hc' : child fs j (was j m) x /\ (j = d -> was j m <> k)).
    { unfold was. destruct (Z.eqb_spec j d) as [->|Hne].
      - rewrite (rm_entries _ _ _ _ _ Hrm) in Hy. apply swap_remove_from in Hy as (_ & Hy & Hne).
        split; [|done]. split; [done|]. split; [|by exists y]. specialize (Hwas2 d m Hm). unfold was in Hwas2. by rewrite Z.eqb_refl in Hwas2.
      - destruct (rm_frame _ _ _ _ _ Hrm j Hj Hji Hne) as (_ & _ & E). rewrite E in Hy. split; [|done]. split; [done|]. split; [done|]. by exists y. }
    destruct Hc' as [Hc' Hne]. split; [done|]. intros ->. destruct (Ho _ _ _ _ _ Hc' Hgone) as [-> Hw]. by apply Hne. }
  constructor.
  - done.
  - intros j m x [Hx _]%Hch. by eapply Hc.
  - intros x [Hxi Hx]%Ha Hx0. destruct (Hl x Hx Hx0) as (j & m & Hj & Hm & y & Hy & Hyx).
    assert (Hji : j <> i) by (intros ->; pose proof (entries_dir fs i y ltac:(by eapply list_elem_of_lookup_2)); congruence).
    destruct (decide (j = d)) as [->|Hne].
    + assert (m <> k) by (intros ->; congruence).
      assert (Hm' : exists m', (2 <= m')%nat /\ swap_remove k (fs_entries fs d) !! m' = Some y).
      { pose proof (lookup_lt_Some _ _ _ Hy) as Hmn. fold n in Hmn. destruct (decide (m = n - 1)%nat) as [->|].
        - exists k. split; [done|]. rewrite lookup_swap_remove by (fold n; lia). unfold slot_of. by rewrite decide_True.
        - exists m. split; [done|]. rewrite lookup_swap_remove by (fold n; lia). unfold slot_of. by rewrite decide_False. }
      destruct Hm' as (m' & Hm2 & Hm'). exists d, m'. split; [apply Ha; by split|]. split; [done|]. exists y.
      by rewrite (rm_entries _ _ _ _ _ Hrm).
    + exists j, m. split; [apply Ha; by split|]. split; [done|]. exists y.
      by destruct (rm_frame _ _ _ _ _ Hrm j Hj Hji Hne) as (_ & _ & ->).
  - intros j1 m1 j2 m2 x H1 H2. pose proof (Hch _ _ _ H1) as [C1 _]. pose proof (Hch _ _ _ H2) as [C2 _].
    destruct (Ho _ _ _ _ _ C1 C2) as [-> Hw]. split; [done|]. unfold was in Hw. destruct (Z.eqb_spec j2 d) as [->|]; [|done].
    destruct H1 as (_ & _ & y1 & L1 & _). destruct H2 as (_ & _ & y2 & L2 & _). rewrite (rm_entries _ _ _ _ _ Hrm) in L1, L2.
    apply swap_remove_from in L1 as (B1 & _). apply swap_remove_from in L2 as (B2 & _). fold n in B1, B2.
    unfold slot_of in Hw. repeat case_decide; lia.
Qed.

Lemma change_hierarchy fs fs' rank :
  change nul_free fs fs' -> fs_sound nul_free fs -> hierarchy fs rank -> exists rank', hierarchy fs' rank'.
Proof.
  intros Hch Hs Hh. pose proof (so_tree _ Hs) as Hti. destruct Hch as [Hok He|i chunk Hi Hid Hg|t d name i Hd Hdd Hn Hf Hcr|d i k e Hd Hdd Hi Hid Hk Hei Hrm].
  - exists rank. apply (hierarchy_same fs); [|intros j Hj|done].
    + intros j. symmetry. by apply allocated_equiv.
    + by rewrite (fs_entries_equiv _ _ _ He (di_inode _ _ (ti_dir _ Hti _ Hj))).
  - exists rank. apply (hierarchy_same fs); [|intros j Hj|done].
    + intros j. by eapply grown_allocated.
    + destruct (Z.eq_dec j i) as [->|Hne].
      * unfold fs_entries. by rewrite (gr_dir _ _ _ _ Hg), Hid.
      * by destruct (grown_frame fs fs' i chunk j Hti Hi Hg Hj Hne) as (_ & _ & -> & _).
  - eexists. by eapply hierarchy_created.
  - exists rank. by apply (hierarchy_removed fs fs' rank d i k e).
Qed.

Lemma hierarchy_empty fs : empty_tree fs -> hierarchy fs (fun _ => 0%nat).
Proof.
  intros [Hti Ha He].
  assert (Hch : forall j k i, ~ child fs j k i).
  { intros j k i (->%Ha & Hk & e & Hke & _). rewrite He in Hke. by destruct k as [|[|k]]; [lia|lia|]. }
  constructor; [done|..].
  - intros j k i Hx. by apply Hch in Hx.
  - intros i ->%Ha Hne. done.
  - intros j1 k1 j2 k2 i Hx. by apply Hch in Hx.
Qed.

Lemma steps_hierarchy fs fs' rank : rtc (fs_step nul_free) fs fs' -> fs_sound nul_free fs -> hierarchy fs rank -> exists rank', hierarchy fs' rank'.
Proof.
  intros Hst. revert rank. induction Hst as [|f1 f2 f3 Hs _ IH]; intros rank Hf Hh; [by exists rank|].
  destruct (change_hierarchy f1 f2 rank) as [rank2 Hh2]; [by apply step_change|done..|].
  apply (IH rank2); [by eapply step_sound|done].
Qed.

Lemma format_hierarchy fs : freshly_mounted fs -> exists rank, hierarchy fs rank.
Proof. intros Hf%format_empty. exists (fun _ => 0%nat). by apply hierarchy_empty. Qed.

(** ** Paths *)

(** The names on the way down from the root to an inode. *)
Inductive path_to fs : list (list Z) -> Z -> Prop :=
| path_root : path_to fs [] 0
| path_child parts j k e :
    path_to fs parts j -> child fs j k (de_inode e) -> fs_entries fs j !! k = Some e ->
    path_to fs (parts ++ [DirEntry_name e]) (de_inode e).

Lemma entry_plain fs j k e :
  nul_free -> fs_sound nul_free fs -> fs_entries fs j !! k = Some e -> allocated fs j -> plain_name (DirEntry_name e).
Proof.
  intros Hnf Hs Hk%list_elem_of_lookup_2 Hj.
  split; [by apply (li_nonempty _ (so_links _ Hs) j)|by apply (li_slash _ (so_links _ Hs) j)].
Qed.

Lemma path_to_plain fs parts i : nul_free -> fs_sound nul_free fs -> path_to fs parts i -> Forall plain_name parts.
Proof.
  intros Hnf Hs. induction 1 as [|parts j k e _ IH Hc Hk]; [constructor|]. apply Forall_app. split; [done|].
  constructor; [|done]. apply (entry_plain fs j k); [done..|apply Hc].
Qed.

Lemma path_to_find fs parts j k e :
  nul_free -> fs_sound nul_free fs -> path_to fs parts j -> child fs j k (de_inode e) -> fs_entries fs j !! k = Some e ->
  find_entry (DirEntry_name e) (fs_entries fs j) = Some e.
Proof.
  intros Hnf Hs _ Hc Hk. assert (Hj : allocated fs j) by apply Hc. apply find_entry_unique.
  - intros x Hx. by apply (li_head fs j x (so_links _ Hs)).
  - by apply (li_names _ (so_links _ Hs)).
  - split; [by eapply list_elem_of_lookup_2|done].
Qed.

Lemma path_to_walk fs parts i : nul_free -> fs_sound nul_free fs -> path_to fs parts i -> is_dir fs i = true -> walk_spec fs 0 parts = Ok i.
Proof.
  intros Hnf Hs. induction 1 as [|parts j k e Hp IH Hc Hk]; intros Hd; [done|].
  apply (walk_snoc fs parts 0 j _ e); [by eapply IH, child_parent| |done]. by eapply path_to_find.
Qed.

Lemma path_to_resolve fs parts j k e :
  nul_free -> fs_sound nul_free fs -> path_to fs parts j -> child fs j k (de_inode e) -> fs_entries fs j !! k = Some e ->
  resolve_spec fs (concat (map (cons SLASH) (parts ++ [DirEntry_name e]))) = Ok (mkResolved j (DirEntry_name e) (de_inode e)).
Proof.
  intros Hnf Hs Hp Hc Hk. pose proof (path_to_plain fs parts j Hnf Hs Hp) as Hpl.
  assert (Hn : plain_name (DirEntry_name e)) by (apply (entry_plain fs j k); [done..|apply Hc]).
  unfold resolve_spec. rewrite map_app, concat_app. cbn [map concat]. rewrite app_nil_r, rsplit_once_app by apply Hn.
  simpl. rewrite path_parts_plain by done. rewrite (path_to_walk fs parts j Hnf Hs Hp) by (by eapply child_parent).
  by rewrite (path_to_find fs parts j k e).
Qed.

(** Every inode has one path, as long as its rank. *)
Lemma path_exists fs rank : hierarchy fs rank -> forall n i, allocated fs i -> rank i = n -> exists parts, path_to fs parts i.
Proof.
  intros Hh. induction n as [|n IH]; intros i Hi Hr; (destruct (decide (i = 0)) as [->|Hne]; [exists []; constructor|]);
    destruct (hi_linked _ _ Hh i Hi Hne) as (j & k & Hc); pose proof (hi_child _ _ Hh _ _ _ Hc) as Hrc; [lia|].
  destruct (IH j) as [parts Hp]; [apply Hc|lia|]. pose proof Hc as (_ & _ & e & He & Hei). subst i.
  exists (parts ++ [DirEntry_name e]). by eapply path_child.
Qed.

Lemma path_unique fs rank : hierarchy fs rank -> forall p1 p2 i, path_to fs p1 i -> path_to fs p2 i -> p1 = p2.
Proof.
  intros Hh p1 p2 i H1. revert p2. induction H1 as [|p1 j1 k1 e1 Hp1 IH Hc1 Hk1]; intros p2 H2.
  - inversion H2 as [|p j k e Hp Hc Hk Ep E]; [done|]. apply (hi_child _ _ Hh) in Hc. rewrite E, (hi_root _ _ Hh) in Hc. done.
  - inversion H2 as [E0 E|p j k e Hp2 Hc2 Hk2 Ep E].
    + apply (hi_child _ _ Hh) in Hc1. rewrite <- E, (hi_root _ _ Hh) in Hc1. done.
    + rewrite E in Hc2. destruct (hi_once _ _ Hh _ _ _ _ _ Hc1 Hc2) as [-> ->]. rewrite Hk1 in Hk2. injection Hk2 as ->.
      by rewrite (IH p).
Qed.

(** ** Depth *)

(** The way up from an inode of rank [r] passes [r + 1] allocated inodes. *)
Lemma way_up fs rank r : hierarchy fs rank -> tree_inv fs -> forall i, allocated fs i -> rank i = r ->
  exists l, length l = S r /\ NoDup l /\ (forall x, x ∈ l -> allocated fs x /\ (rank x <= r)%nat).
Proof.
  intros Hh Hti. induction r as [|r IH]; intros i Hi Hr.
  - exists [i]. split; [done|]. split; [apply NoDup_singleton|]. intros x ->%list_elem_of_singleton. split; [done|lia].
  - assert (Hi0 : i <> 0) by (intros ->; rewrite (hi_root _ _ Hh) in Hr; done).
    destruct (hi_linked _ _ Hh i Hi Hi0) as (j & k & Hc). pose proof (hi_child _ _ Hh _ _ _ Hc) as Hrc.
    destruct (IH j) as (l & Hlen & Hnd & Hl); [apply Hc|lia|].
    exists (i :: l). split; [simpl; lia|]. split.
    + apply NoDup_cons. split; [|done]. intros Hin. apply Hl in Hin as [_ Hle]. lia.
    + intros x [->|Hx]%elem_of_cons; [split; [done|lia]|]. destruct (Hl x Hx). split; [done|lia].
Qed.

Lemma rank_bound fs rank i : hierarchy fs rank -> tree_inv fs -> allocated fs i -> Z.of_nat (rank i) < inode_count fs.
Proof.
  intros Hh Hti Hi. destruct (way_up fs rank (rank i) Hh Hti i Hi eq_refl) as (l & Hlen & Hnd & Hl).
  assert (Hsub : l ⊆ seqZ 0 (inode_count fs)).
  { intros x Hx. apply elem_of_seqZ. destruct (Hl x Hx) as [Ha _]. pose proof (allocated_range _ _ (ti_ok _ Hti) Ha). lia. }
  pose proof (submseteq_length _ _ (NoDup_submseteq _ _ Hnd Hsub)) as Hle. rewrite length_seqZ in Hle. lia.
Qed.

(** ** What [tree] prints *)

(** The entries shown: not the hidden ones. *)
Lemma visible_child fs j e : fs_sound nul_free fs -> allocated fs j -> e ∈ visible (fs_entries fs j) -> exists k, child fs j k (de_inode e).
Proof.
  intros Hs Hj [Hin Hv]%list_elem_of_In%List.filter_In. apply list_elem_of_In, list_elem_of_lookup in Hin as [k Hk].
  exists k. split; [done|]. split; [|by exists e].
  destruct (li_dots _ (so_links _ Hs) j Hj) as (p & rest & E & _); [by eapply entries_dir, list_elem_of_lookup_2|].
  rewrite E in Hk. destruct k as [|[|k]]; [| |lia]; injection Hk as <-; by rewrite DirEntry_name_new in Hv by (constructor; by repeat constructor).
Qed.

Definition tree_line fs (prefix : list Z) (e : DirEntry) (is_last : bool) : list Z :=
  let connector := if is_last then str "└── " else str "├── " in
  let '(type_char, size_str, name) := entry_display (fs_inode fs (de_inode e)) (DirEntry_name e) in
  prefix ++ connector ++ type_char ++ str "  " ++ pad_left 9 size_str ++ str "  " ++ name ++ [NL].

Definition children_text (text : DirEntry -> bool -> list Z) : list DirEntry -> list Z :=
  fix go children := match children with [] => [] | e :: rest => text e (bool_decide (rest = [])) ++ go rest end.

Fixpoint node_text (depth : nat) fs (prefix : list Z) (e : DirEntry) (is_last : bool) : list Z :=
  match depth with
  | O => []
  | S depth =>
      tree_line fs prefix e is_last ++
      (if is_dir fs (de_inode e) then
         children_text (node_text depth fs (prefix ++ (if is_last then str " " else str "│") ++ str "   "))
           (visible (fs_entries fs (de_inode e)))
       else [])
  end.

(** The listing of a state, as deep as it has inodes. *)
Definition tree_text fs : list Z :=
  str "/" ++ [NL] ++ children_text (node_text (Z.to_nat (inode_count fs)) fs []) (visible (fs_entries fs 0)).
(** *** The run, against a reference state that only the cache changes *)
Lemma tree_children_run fs (inner : Filesystem D -> DirEntry -> bool -> list Z -> comp (list Z * Filesystem D))
    (text : DirEntry -> bool -> list Z) es :
  (forall e last f out, e ∈ es -> fs_ok f -> fs_equiv fs f ->
     exists f', inner f e last out = Ret (out ++ text e last, f') /\ fs_ok f' /\ fs_equiv fs f') ->
  forall f out, fs_ok f -> fs_equiv fs f ->
  exists f', tree_children inner f es out = Ret (out ++ children_text text es, f') /\ fs_ok f' /\ fs_equiv fs f'.
Proof.
  induction es as [|e es IH]; intros Hin f out Hok He; cbn [tree_children children_text]; [exists f; by rewrite app_nil_r|].
  destruct (Hin e (bool_decide (es = [])) f out) as (f1 & -> & Hok1 & He1); [by left|done..|]. cbn [mbind comp_bind].
  destruct (IH ltac:(intros; apply Hin; [by right|done..]) f1 (out ++ text e (bool_decide (es = []))) Hok1 He1) as (f2 & -> & Hok2 & He2).
  exists f2. by rewrite <- app_assoc.
Qed.

Section Run.
Variables (fs : Filesystem D) (rank : Z -> nat).
Hypotheses (Hs : fs_sound nul_free fs) (Hh : hierarchy fs rank).

Lemma tree_inner_run fuel : forall prefix e last f out,
  fs_ok f -> fs_equiv fs f -> allocated fs (de_inode e) -> inode_count fs <= Z.of_nat (fuel + rank (de_inode e)) ->
  exists f', tree_inner fuel prefix f e last out = Ret (out ++ node_text fuel fs prefix e last, f') /\ fs_ok f' /\ fs_equiv fs f'.
Proof.
  pose proof (so_tree _ Hs) as Hti. induction fuel as [|fuel IH]; intros prefix e last f out Hok He Ha Hfuel.
  { pose proof (rank_bound fs rank _ Hh (so_tree _ Hs) Ha). lia. }
  cbn [tree_inner node_text]. destruct (inode_run fs Hti f _ Hok He Ha) as (f1 & -> & Hok1 & He1). cbn [mbind comp_bind].
  unfold tree_line. destruct (entry_display _ _) as [[ty sz] nm]. cbv zeta.
  destruct (in_is_directory (fs_inode fs (de_inode e))) eqn:Hd; [|exists f1; by rewrite app_nil_r].
  destruct (dir_run fs Hti f1 _ Hok1 He1 Ha) as (f2 & -> & Hok2 & He2). cbn [mbind comp_bind].
  match goal with |- context [Ret (out ++ ?line ++ children_text ?t ?es, _)] => rewrite (app_assoc out line (children_text t es)) end.
  apply tree_children_run; [|done|done]. intros x lst g o Hx Hog Heg.
  destruct (visible_child fs _ x Hs Ha Hx) as (k & Hc).
  apply IH; [done|done|by eapply child_allocated; [apply Hs|]|]. rewrite (hi_child _ _ Hh _ _ _ Hc). lia.
Qed.

(** More depth changes nothing. *)
Lemma children_text_ext (t1 t2 : DirEntry -> bool -> list Z) es :
  (forall e last, e ∈ es -> t1 e last = t2 e last) -> children_text t1 es = children_text t2 es.
Proof.
  induction es as [|e es IH]; intros Ht; cbn [children_text]; [done|]. rewrite Ht by (by left). f_equal.
  apply IH. intros; apply Ht. by right.
Qed.

Lemma node_text_enough d1 : forall d2 prefix e last,
  allocated fs (de_inode e) -> inode_count fs <= Z.of_nat (d1 + rank (de_inode e)) ->
  inode_count fs <= Z.of_nat (d2 + rank (de_inode e)) -> node_text d1 fs prefix e last = node_text d2 fs prefix e last.
Proof.
  induction d1 as [|d1 IH]; intros [|d2] prefix e last Ha H1 H2;
    try (pose proof (rank_bound fs rank _ Hh (so_tree _ Hs) Ha); lia).
  cbn [node_text]. f_equal. destruct (in_is_directory _); [|done]. apply children_text_ext. intros x lst Hx.
  destruct (visible_child fs _ x Hs Ha Hx) as (k & Hc). pose proof (hi_child _ _ Hh _ _ _ Hc) as Hr.
  apply IH; [by eapply child_allocated; [apply Hs|]|lia|lia].
Qed.

Lemma tree_run fuel out : inode_count fs <= Z.of_nat fuel ->
  exists f', tree fuel fs out = Ret (out ++ tree_text fs, f') /\ fs_ok f' /\ fs_equiv fs f'.
Proof.
  intros Hfuel. pose proof (so_tree _ Hs) as Hti. destruct (ti_root _ Hti) as [Hroot _]. unfold tree, tree_text. cbv zeta.
  destruct (dir_run fs Hti fs 0 (ti_ok _ Hti) ltac:(done) Hroot) as (f1 & -> & Hok1 & He1). cbn [mbind comp_bind].
  assert (Hv : forall x, x ∈ visible (fs_entries fs 0) -> allocated fs (de_inode x)).
  { intros x Hx. destruct (visible_child fs 0 x Hs Hroot Hx) as (k & Hc). by eapply child_allocated; [apply Hs|]. }
  destruct (tree_children_run fs (tree_inner fuel []) (node_text fuel fs []) (visible (fs_entries fs 0))) with (f := f1) (out := out ++ str "/" ++ [NL])
    as (f2 & -> & Hok2 & He2); [|done|done|].
  { intros x lst g o Hx Hog Heg. apply tree_inner_run; [done|done|by apply Hv|lia]. }
  exists f2. split; [|done]. rewrite <- !app_assoc. do 5 f_equal. apply children_text_ext. intros x lst Hx.
  apply node_text_enough; [by apply Hv|lia|lia].
Qed.
End Run.
End Hierarchy.

(** ** Properties *)

Lemma reached_hierarchy {D : Type} `{BlockDeviceLaws D} {nul_free : Prop} (fs0 fs : Filesystem D) :
  freshly_mounted fs0 -> rtc (fs_step nul_free) fs0 fs -> fs_sound nul_free fs /\ exists rank, hierarchy fs rank.
Proof.
  intros Hf Hst. pose proof (format_sound (nul_free := nul_free) fs0 Hf) as Hs. split; [by eapply steps_sound|].
  destruct (format_hierarchy fs0 Hf) as [rank Hh]. by eapply steps_hierarchy.
Qed.

(** C11: No inode is lost.  In every state a filesystem can reach, whatever the
    paths were, each allocated inode but the root has exactly one path: one chain
    of entries other than "." and ".." leads down to it from the root, so the names
    on the way are determined.  When the paths of the calls held no NUL byte,
    [resolve_path] on those names, each after a slash, finds the inode and its
    directory and changes nothing. *)
Theorem every_inode_has_one_path {D : Type} `{BlockDeviceLaws D} (nul_free : Prop) (fs0 fs : Filesystem D) i :
  freshly_mounted fs0 -> rtc (fs_step nul_free) fs0 fs -> allocated fs i -> i <> 0 ->
  (forall j1 k1 j2 k2, child fs j1 k1 i -> child fs j2 k2 i -> j1 = j2 /\ k1 = k2) /\
  exists parts name d,
    path_to fs (parts ++ [name]) i /\ path_to fs parts d /\
    (forall other, path_to fs other i -> other = parts ++ [name]) /\
    (nul_free -> exists fs',
      resolve_path fs (concat (map (cons SLASH) (parts ++ [name]))) = Ret (Ok (mkResolved d name i), fs') /\ fs_equiv fs fs').
Proof.
  intros Hf Hst Hi Hne. destruct (reached_hierarchy fs0 fs Hf Hst) as (Hs & rank & Hh). split; [intros; by eapply hi_once|].
  destruct (path_exists fs rank Hh _ i Hi eq_refl) as [path Hp]. inversion Hp as [E0 E|parts j k e Hp' Hc Hk Ep E]; [by subst|].
  subst path i. destruct (resolve_path_run fs (concat (map (cons SLASH) (parts ++ [DirEntry_name e]))) (so_tree _ Hs)) as (fs' & Er & _ & He).
  exists parts, (DirEntry_name e), j.
  split; [exact Hp|]. split; [exact Hp'|]. split; [intros other Ho; by eapply path_unique|].
  intros Hnf. exists fs'. by rewrite (path_to_resolve fs parts j k e Hnf Hs Hp' Hc Hk) in Er.
Qed.

Lemma sample_hello_allocated : allocated sample_fs_hello 1.
Proof. split; [by vm_compute|]. by vm_compute. Qed.

Lemma every_inode_has_one_path_witness :
  exists parts name d fs',
    resolve_path sample_fs_hello (concat (map (cons SLASH) (parts ++ [name]))) = Ret (Ok (mkResolved d name 1), fs').
Proof.
  destruct (every_inode_has_one_path True sample_fs sample_fs_hello 1 sample_fresh (sample_hello_steps True) sample_hello_allocated ltac:(done))
    as (_ & parts & name & d & _ & _ & _ & E). destruct (E I) as (fs' & E' & _). clear E. rename E' into E.
  exists parts, name, d, fs'. exact E.
Defined.

(** C12: [tree] ends and prints the whole tree.  In every state a filesystem can
    reach, with any texts as paths, directories are not linked in a circle, so with a fuel of the number of
    inodes the walk returns; it prints, for the root and then for every entry that
    is not hidden, in the order of the entries, the line of the entry followed by
    those of the directory it leads to, indented by its depth, and it changes
    nothing but the cache. *)
Theorem tree_prints_hierarchy {D : Type} `{BlockDeviceLaws D} (nul_free : Prop) (fs0 fs : Filesystem D) fuel out :
  freshly_mounted fs0 -> rtc (fs_step nul_free) fs0 fs -> inode_count fs <= Z.of_nat fuel ->
  exists fs', tree fuel fs out = Ret (out ++ tree_text fs, fs') /\ fs_equiv fs fs'.
Proof.
  intros Hf Hst Hfuel. destruct (reached_hierarchy fs0 fs Hf Hst) as (Hs & rank & Hh).
  destruct (tree_run fs rank Hs Hh fuel out Hfuel) as (fs' & E & _ & He). by exists fs'.
Qed.

Lemma sample_hello_inodes : inode_count sample_fs_hello <= Z.of_nat 4096.
Proof. by vm_compute. Qed.

Lemma sample_hello_text : tree_text sample_fs_hello = str "/" ++ [NL] ++ str "└── f          5  a" ++ [NL].
Proof. vm_compute. reflexivity. Qed.

Lemma tree_prints_hierarchy_witness :
  exists fs', tree 4096 sample_fs_hello [] = Ret (str "/" ++ [NL] ++ str "└── f          5  a" ++ [NL], fs').
Proof.
  destruct (tree_prints_hierarchy False sample_fs sample_fs_hello 4096 [] sample_fresh (sample_hello_steps False) sample_hello_inodes) as (fs' & E & _).
  exists fs'. rewrite sample_hello_text in E. exact E.
Defined.
