(* ===== verification/FsEnds.v ===== *)
(** * Every call ends

    In a sound state with a hierarchy, every operation of the filesystem returns
    or panics: the loops and the recursion of the model never use up their fuel. *)
From stdpp Require Import relations.
From S2P Require Import Prelude Bitmap Bytes Layout INode DirEntry BlockDev INodeCache SuperBlock Filesystem.
From S2P Require Import FsBase FsState FsFiles FsDirs FsCreate FsFormat FsProps FsUsage FsRemove FsLinks FsList FsSound FsTree.
Open Scope Z_scope.

Section Ends.
Context {D : Type} `{BlockDeviceLaws D} {nul_free : Prop}.
Implicit Types (fs : Filesystem D).

Lemma new_dir_entry_ends fs path t : fs_sound nul_free fs -> path_ok nul_free path -> ends (new_dir_entry fs path t).
Proof.
  intros Hs Hp. pose proof (so_tree _ Hs) as Hti. pose proof (new_dir_entry_run fs path t Hti) as Hn.
  destruct (create_check fs path) as [[[d name] i]|er]; [|by destruct Hn as (f & -> & _)].
  destruct Hn as (Hd & Hdd & Hl & Hi & Hname & fs1 & Hia & ->).
  destruct (sound_directory fs d Hs Hd Hdd) as (n & _ & Hsz & Hn & _).
  assert (Hb : Forall is_u8 name) by (apply Hname, Hp).
  destruct (decide (n = 18)%nat) as [->|Hlt]; [by rewrite (link_new_full fs fs1 t d name i) by (done || lia)|].
  destruct t.
  - destruct (link_new_file fs fs1 d name i) as (f & -> & _); done || lia.
  - assert (Hdu : is_u32 d).
    { pose proof (allocated_range _ _ (ti_ok _ Hti) Hd). pose proof (geo_count _ _ _ (fo_geo _ (ti_ok _ Hti))). unfold in_width. lia. }
    destruct (link_new_directory fs fs1 d name i) as [[_ ->]|[_ (f & -> & _)]]; done || lia.
Qed.

Lemma append_to_file_ends fs path bytes :
  fs_sound nul_free fs -> Forall is_u8 bytes -> zlen bytes < 2 ^ 63 -> ends (append_to_file fs path bytes).
Proof. intros Hs Hb Hl. destruct (append_to_file_run fs path bytes (so_tree _ Hs) Hb Hl) as (r & f & -> & _). done. Qed.

Lemma remove_dir_entry_ends fs path : fs_sound nul_free fs -> ends (remove_dir_entry fs path).
Proof. intros Hs. destruct (remove_dir_entry_run fs path Hs) as (r & f & -> & _). done. Qed.

Lemma dump_dir_ends fs path out : fs_sound nul_free fs -> ends (dump_dir fs path out).
Proof. intros Hs. destruct (dump_dir_run fs (so_tree _ Hs) path out) as (f & -> & _). done. Qed.

Lemma tree_ends fs rank fuel out : fs_sound nul_free fs -> hierarchy fs rank -> inode_count fs <= Z.of_nat fuel -> ends (tree fuel fs out).
Proof. intros Hs Hh Hf. destruct (tree_run fs rank Hs Hh fuel out Hf) as (f & -> & _). done. Qed.

Lemma flush_ends fs : fs_sound nul_free fs -> ends (flush fs).
Proof. intros Hs. destruct (flush_spec fs (ti_ok _ (so_tree _ Hs))) as (f & -> & _). done. Qed.

Lemma read_file_blocks_ends dev bs : forall total acc,
  dev_ok dev -> Forall (fun b => 0 <= b < total_blocks dev) bs -> ends (read_file_blocks dev (map Some bs) total acc).
Proof.
  induction bs as [|b bs IH]; intros total acc Hok Hf; [done|]. apply Forall_cons in Hf as [Hb Hf].
  cbn [map read_file_blocks to_block unwrap mbind comp_bind]. destruct (read_blk dev b Hok Hb) as [-> _]. cbn [mbind comp_bind].
  ends.
Qed.

Lemma read_file_ends fs path : fs_sound nul_free fs -> ends (read_file fs path).
Proof.
  intros Hs. pose proof (so_tree _ Hs) as Hti. pose proof (read_file_run fs path Hti) as Hr.
  destruct (resolve_spec fs path) as [r|] eqn:Er; [|by destruct Hr as (f & -> & _)].
  cbv zeta in Hr. destruct Hr as (f & Hok & He & ->). destruct (in_is_directory _); [done|].
  destruct (resolved_file fs path r Hti Er) as [_ Hii].
  destruct (inode_blocks_bytes f (rp_basename_inode r) Hok) as [Hbl _]; [by apply (inode_inv_equiv fs)|].
  rewrite used_blocks_list. apply ends_bind; [|done]. apply read_file_blocks_ends; [apply (fo_dev _ Hok)|done].
Qed.

(** The steps keep the number of inodes. *)
Lemma change_count fs fs' : change nul_free fs fs' -> inode_count fs' = inode_count fs.
Proof.
  intros [Hok He|i chunk Hi Hd Hg|t d name i Hd Hdd Hn Hf Hcr|d i k e _ _ _ _ _ _ Hrm].
  - by rewrite (fe_ibm _ _ He).
  - by rewrite (gr_ibm _ _ _ _ Hg).
  - apply Hcr.
  - apply Hrm.
Qed.

Lemma steps_count fs fs' : rtc (fs_step nul_free) fs fs' -> fs_sound nul_free fs -> inode_count fs' = inode_count fs.
Proof.
  induction 1 as [|f1 f2 f3 Hst _ IH]; intros Hs; [done|]. rewrite IH by (by eapply step_sound).
  by apply change_count, step_change.
Qed.
End Ends.
