(* ===== verification/Memory.v ===== *)
(** * Word-addressed memory

    What the components that follow raw pointers read and write: a map from
    8-aligned addresses to 64-bit words.  An access to an address that is not
    mapped is undefined behaviour in Rust and [Panic] here. *)
From S2P Require Import Prelude.

Abbreviation mem := (gmap Z Z) (only parsing).
Definition load (m : mem) (a : Z) : comp Z := unwrap (m !! a).
Definition store (m : mem) (a v : Z) : comp mem := load m a ;; Ret (<[a := v]> m).

Lemma load_ok m a v : m !! a = Some v -> load m a = Ret v.
Proof. unfold load. by intros ->. Qed.

Lemma store_ok m a v : is_Some (m !! a) -> store m a v = Ret (<[a := v]> m).
Proof. intros [w Hw]. unfold store. by rewrite (load_ok _ _ _ Hw). Qed.
