(* ===== verification/FreeList.v ===== *)
(** * The heap allocator ([src/allocator/src/lib.rs], [src/src/allocator.rs])

    A first-fit free-list allocator whose list lives in the memory it manages.
    Memory is a map from 8-aligned addresses to 64-bit words; an access to an
    address that is not mapped is undefined behaviour in Rust and [Panic] here,
    so the theorems also say that the allocator touches only its own heap.  A
    [FreeBlock] has the words [size], then the tag and the payload of
    [Option<AlignedPtr>] (a raw pointer has no niche, so 24 bytes in all);
    [AllocationMetaData] has [start_addr], then [size].  The lock around the
    allocator and the log output are not modelled. *)
From S2P Require Import Prelude Memory.

Definition align_up (addr align : Z) : comp Z :=
  s ← addr +! align;
  s ← s -! 1;
  m ← align -! 1;
  Ret (Z.land s (not_w 64 m)).

(** An [AlignedPtr] is its address. *)
Abbreviation AlignedPtr := Z (only parsing).
Definition MIN_ALIGN : Z := 8.
Definition align_of_FreeBlock : Z := 8.
Definition AlignedPtr_new (addr : Z) : comp Z := align_up addr (Z.max align_of_FreeBlock MIN_ALIGN).
Definition AlignedPtr_new_with (addr align : Z) : comp Z := align_up addr (Z.max align MIN_ALIGN).

Record FreeBlock := mkFreeBlock { fb_size : Z; fb_next : option Z }.
Definition size_of_FreeBlock : Z := 24.

Definition load_next (m : mem) (a : Z) : comp (option Z) :=
  tag ← load m (a + 8);
  p ← load m (a + 16);
  Ret (if tag =? 0 then None else Some p).
Definition load_block (m : mem) (a : Z) : comp FreeBlock :=
  size ← load m a;
  next ← load_next m a;
  Ret (mkFreeBlock size next).
Definition store_size (m : mem) (a size : Z) : comp mem := store m a size.
Definition store_next (m : mem) (a : Z) (next : option Z) : comp mem :=
  match next with
  | None => store m (a + 8) 0
  | Some p => m ← store m (a + 8) 1; store m (a + 16) p
  end.

Record AllocationMetaData := mkMetaData { md_start_addr : Z; md_size : Z }.
Definition size_of_AllocationMetaData : Z := 16.

Definition write_metadata (m : mem) (ptr : Z) (md : AllocationMetaData) : comp mem :=
  a ← ptr -! size_of_AllocationMetaData;
  m ← store m a (md_start_addr md);
  store m (a + 8) (md_size md).
Definition read_metadata (m : mem) (ptr : Z) : comp AllocationMetaData :=
  a ← ptr -! size_of_AllocationMetaData;
  start_addr ← load m a;
  size ← load m (a + 8);
  Ret (mkMetaData start_addr size).

Definition can_allocate (self_addr self_size align size : Z) : comp (option Z) :=
  self_end_addr ← self_addr +! self_size;
  next_possible_addr ← self_addr +! size_of_AllocationMetaData;
  aligned ← AlignedPtr_new_with next_possible_addr align;
  e ← aligned +! size;
  Ret (if e <=? self_end_addr then Some aligned else None).

Record MemoryStats := mkStats {
  ms_total : Z;
  ms_used : Z;
  ms_free : Z;
  ms_free_blocks : Z;
  ms_largest_free_block : Z;
}.

(** The allocator together with the memory it points into. *)
Record FreeListAllocator := mkAllocator {
  fa_mem : mem;
  fa_head : option Z;
  fa_total_size : Z;
}.

Definition with_mem (h : FreeListAllocator) m := mkAllocator m (fa_head h) (fa_total_size h).
Definition with_head (h : FreeListAllocator) head := mkAllocator (fa_mem h) head (fa_total_size h).

Definition FreeListAllocator_new (m : mem) : FreeListAllocator := mkAllocator m None 0.

Definition init (h : FreeListAllocator) (start end_ : Z) : comp FreeListAllocator :=
  heap_size ← end_ -! start;
  aligned_ptr ← AlignedPtr_new start;
  size ← heap_size -! size_of_FreeBlock;
  m ← store_size (fa_mem h) aligned_ptr size;
  m ← store_next m aligned_ptr None;
  total ← load m aligned_ptr;
  Ret (mkAllocator m (Some aligned_ptr) total).

(** [walk_list] with a closure [f] that reads and changes a state [s] holding
    the memory; [Some] is [Break].  The fuel is the length of the list, with one
    round to spare, in every theorem. *)
Fixpoint walk_list {S R : Type} (fuel : nat) (mem_of : S -> mem)
    (f : Z -> option Z -> S -> comp (option R * S)) (current prev : option Z) (s : S)
    : comp (option R * S) :=
  match current with
  | None => Ret (None, s)
  | Some block =>
      match fuel with
      | O => NoFuel
      | Datatypes.S fuel =>
          '(r, s) ← f block prev s;
          match r with
          | Some r => Ret (Some r, s)
          | None =>
              next ← load_next (mem_of s) block;
              walk_list fuel mem_of f next current s
          end
      end
  end.

Definition total (h : FreeListAllocator) : Z := fa_total_size h.

Definition free (fuel : nat) (h : FreeListAllocator) : comp Z :=
  '(_, total) ← walk_list (R := unit) fuel (fun _ => fa_mem h)
    (fun current _ total =>
       size ← load (fa_mem h) current;
       total ← total +! size;
       Ret (None, total)) (fa_head h) None 0;
  Ret total.

Definition used (fuel : nat) (h : FreeListAllocator) : comp Z :=
  f ← free fuel h;
  Ret (saturating_sub (fa_total_size h) f).

Definition free_blocks (fuel : nat) (h : FreeListAllocator) : comp Z :=
  '(_, total) ← walk_list (R := unit) fuel (fun _ => fa_mem h)
    (fun _ _ total => total ← total +! 1; Ret (None, total)) (fa_head h) None 0;
  Ret total.

Definition stats (fuel : nat) (h : FreeListAllocator) : comp MemoryStats :=
  '(_, acc) ← walk_list (R := unit) fuel (fun _ => fa_mem h)
    (fun current _ acc =>
       let '(free, free_blocks, largest) := acc in
       size ← load (fa_mem h) current;
       free ← free +! size;
       free_blocks ← free_blocks +! 1;
       Ret (None, (free, free_blocks, Z.max largest size))) (fa_head h) None (0, 0, 0);
  let '(free, free_blocks, largest) := acc in
  Ret (mkStats (fa_total_size h) (saturating_sub (fa_total_size h) free) free free_blocks largest).

(** [match prev { Some(prev) => prev.next = next, None => self.head = next }]. *)
Definition link (h : FreeListAllocator) (prev next : option Z) : comp FreeListAllocator :=
  match prev with
  | Some prev => m ← store_next (fa_mem h) prev next; Ret (with_mem h m)
  | None => Ret (with_head h next)
  end.

(** The [match (bytes_left >= required_size, bytes_right >= required_size)] of
    [alloc]: the four ways to take the allocation out of a block. *)
Definition split_block (h : FreeListAllocator) (block : Z) (prev : option Z) (block_ptr : FreeBlock)
    (bytes_left bytes_right alloc_end size : Z) : comp (FreeListAllocator * AllocationMetaData) :=
  let required_size := Z.max size_of_FreeBlock size_of_AllocationMetaData in
  match required_size <=? bytes_left, required_size <=? bytes_right with
  | false, false =>
      h ← link h prev (fb_next block_ptr);
      Ret (h, mkMetaData block (fb_size block_ptr))
  | true, false =>
      left_block ← AlignedPtr_new block;
      m ← store_size (fa_mem h) left_block bytes_left;
      m ← store_next m left_block (fb_next block_ptr);
      start_addr ← block +! bytes_left;
      sz ← fb_size block_ptr -! bytes_left;
      Ret (with_mem h m, mkMetaData start_addr sz)
  | false, true =>
      right_block ← AlignedPtr_new alloc_end;
      m ← store_size (fa_mem h) right_block bytes_right;
      m ← store_next m right_block (fb_next block_ptr);
      h ← link (with_mem h m) prev (Some right_block);
      s ← bytes_left +! size_of_AllocationMetaData;
      s ← s +! size;
      Ret (h, mkMetaData block s)
  | true, true =>
      left_block ← AlignedPtr_new block;
      right_block ← AlignedPtr_new alloc_end;
      m ← store_size (fa_mem h) left_block bytes_left;
      m ← store_size m right_block bytes_right;
      m ← store_next m left_block (Some right_block);
      m ← store_next m right_block (fb_next block_ptr);
      start_addr ← block +! bytes_left;
      s ← fb_size block_ptr -! bytes_left;
      s ← s -! bytes_right;
      Ret (with_mem h m, mkMetaData start_addr s)
  end.

(** What [alloc] does with a block that fits. *)
Definition carve (h : FreeListAllocator) (block : Z) (prev : option Z) (aligned_ptr size : Z)
    : comp FreeListAllocator :=
  block_ptr ← load_block (fa_mem h) block;
  md_addr ← aligned_ptr -! size_of_AllocationMetaData;
  bytes_left ← md_addr -! block;
  block_end ← block +! fb_size block_ptr;
  alloc_end ← aligned_ptr +! size;
  bytes_right ← block_end -! alloc_end;
  '(h, metadata) ← split_block h block prev block_ptr bytes_left bytes_right alloc_end size;
  m ← write_metadata (fa_mem h) aligned_ptr metadata;
  Ret (with_mem h m).

(** [alloc]; the null pointer is 0. *)
Definition alloc (fuel : nat) (h : FreeListAllocator) (layout_size layout_align : Z)
    : comp (Z * FreeListAllocator) :=
  let align := Z.max layout_align 8 in
  size ← align_up layout_size 8;
  '(result, h) ← walk_list fuel fa_mem
    (fun block prev h =>
       block_size ← load (fa_mem h) block;
       fit ← can_allocate block block_size align size;
       match fit with
       | None => Ret (None, h)
       | Some aligned_ptr =>
           h ← carve h block prev aligned_ptr size;
           Ret (Some aligned_ptr, h)
       end) (fa_head h) None h;
  Ret (default 0 result, h).

(** The [while] loop of [dealloc]: the last block below [start_addr]. *)
Fixpoint find_prev (fuel : nat) (m : mem) (start_addr prev : Z) : comp Z :=
  match fuel with
  | O => NoFuel
  | S fuel =>
      next ← load_next m prev;
      match next with
      | Some n => if n <? start_addr then find_prev fuel m start_addr n else Ret prev
      | None => Ret prev
      end
  end.

(** The [start_addr < head] branch: the freed block becomes the head. *)
Definition push_front (m : mem) (head start_addr size new_block : Z) : comp mem :=
  e ← start_addr +! size;
  if e =? head then
    new_size ← load m new_block;
    head_size ← load m head;
    s ← new_size +! head_size;
    m ← store_size m new_block s;
    head_next ← load_next m head;
    store_next m new_block head_next
  else store_next m new_block (Some head).

(** The [match (merge_left, merge_right)]: the freed block goes behind [prev]. *)
Definition insert_behind (m : mem) (prev start_addr size new_block : Z) : comp mem :=
  next ← load_next m prev;
  prev_size ← load m prev;
  prev_end ← prev +! prev_size;
  let merge_left := prev_end =? start_addr in
  merge_right ← match next with
                | Some next => e ← start_addr +! size; Ret (e =? next)
                | None => Ret false
                end;
  match merge_left, merge_right with
  | true, true =>
      n ← unwrap next;
      next_size ← load m n;
      add ← size +! next_size;
      s ← prev_size +! add;
      m ← store_size m prev s;
      next_next ← load_next m n;
      store_next m prev next_next
  | true, false =>
      s ← prev_size +! size;
      store_size m prev s
  | false, true =>
      n ← unwrap next;
      new_size ← load m new_block;
      next_size ← load m n;
      s ← new_size +! next_size;
      m ← store_size m new_block s;
      next_next ← load_next m n;
      m ← store_next m new_block next_next;
      store_next m prev (Some new_block)
  | false, false =>
      m ← store_next m new_block next;
      store_next m prev (Some new_block)
  end.

(** The rest of [dealloc], from [if self.head.is_none()]: the memory and the
    head of the list after the freed block is put into it. *)
Definition insert_block (fuel : nat) (m : mem) (head : option Z) (start_addr size new_block : Z)
    : comp (mem * option Z) :=
  match head with
  | None => Ret (m, Some new_block)
  | Some head =>
      if start_addr <? head then
        m ← push_front m head start_addr size new_block;
        Ret (m, Some new_block)
      else
        prev ← find_prev fuel m start_addr head;
        m ← insert_behind m prev start_addr size new_block;
        Ret (m, Some head)
  end.

Definition dealloc (fuel : nat) (h : FreeListAllocator) (ptr : Z) : comp FreeListAllocator :=
  md ← read_metadata (fa_mem h) ptr;
  let size := md_size md in
  let start_addr := md_start_addr md in
  new_block ← AlignedPtr_new start_addr;
  m ← store_size (fa_mem h) new_block size;
  m ← store_next m new_block None;
  '(m, head) ← insert_block fuel m (fa_head h) start_addr size new_block;
  Ret (mkAllocator m head (fa_total_size h)).

(** ** The kernel's heap ([src/src/allocator.rs]) *)
Record HeapBounds := mkHeapBounds { hb_start : Z; hb_end : Z }.
Definition HeapBounds_size (b : HeapBounds) : comp Z := hb_end b -! hb_start b.
