(* ===== verification/HeapSpec.v ===== *)
(** * The allocator's contract

    The free list as a list of intervals, first fit and coalescing on such
    lists, the invariant that ties the list, the live allocations and the memory
    together, and the proof that [alloc] and [dealloc] of [FreeList.v] implement
    the list operations.  The heart of the invariant is [covers]: every byte of
    the heap belongs to exactly one free block or live allocation. *)
From S2P Require Import Prelude Memory FreeList.

(** ** Intervals and coverage *)
Abbreviation iv := (Z * Z)%type (only parsing).

Definition iv_has (i : iv) (z : Z) : bool := (fst i <=? z) && (z <? fst i + snd i).

(** How many intervals of the list contain [z]. *)
Fixpoint covers (l : list iv) (z : Z) : Z :=
  match l with
  | [] => 0
  | i :: l => (if iv_has i z then 1 else 0) + covers l z
  end.

Lemma covers_app l1 l2 z : covers (l1 ++ l2) z = covers l1 z + covers l2 z.
Proof. induction l1 as [|i l1 IH]; simpl; [done|]. rewrite IH. lia. Qed.

Lemma covers_nonneg l z : 0 <= covers l z.
Proof. induction l as [|i l IH]; simpl; [done|]. destruct (iv_has i z); lia. Qed.

Lemma covers_in l i z : i ∈ l -> iv_has i z = true -> 1 <= covers l z.
Proof.
  induction 1 as [i l|i j l Hin IH]; simpl; intros Hz.
  - rewrite Hz. pose proof (covers_nonneg l z). lia.
  - specialize (IH Hz). destruct (iv_has j z); lia.
Qed.

Lemma iv_has_spec i z : iv_has i z = true <-> fst i <= z < fst i + snd i.
Proof. unfold iv_has. lia. Qed.

(** ** The operations on lists *)
Definition round_up (x al : Z) : Z := (x + al - 1) / al * al.

Definition fits (i : iv) (align size : Z) : option Z :=
  let p := round_up (fst i + 16) align in
  if p + size <=? fst i + snd i then Some p else None.

(** The blocks that stay free and the interval that is handed out. *)
Definition split (i : iv) (p size : Z) : list iv * iv :=
  let left_ := p - 16 - fst i in
  let right_ := fst i + snd i - (p + size) in
  match 24 <=? left_, 24 <=? right_ with
  | false, false => ([], i)
  | true, false => ([(fst i, left_)], (fst i + left_, snd i - left_))
  | false, true => ([(p + size, right_)], (fst i, left_ + 16 + size))
  | true, true => ([(fst i, left_); (p + size, right_)], (fst i + left_, snd i - left_ - right_))
  end.

Fixpoint alloc_spec (align size : Z) (fl : list iv) : option (Z * iv * list iv) :=
  match fl with
  | [] => None
  | i :: fl =>
      match fits i align size with
      | Some p => let '(pieces, md) := split i p size in Some (p, md, pieces ++ fl)
      | None =>
          match alloc_spec align size fl with
          | Some (p, md, fl) => Some (p, md, i :: fl)
          | None => None
          end
      end
  end.

(** Insertion with coalescing; [i] is the last block known to start below [x]. *)
Fixpoint insert_after (x i : iv) (fl : list iv) : list iv :=
  match fl with
  | j :: fl' =>
      if fst j <? fst x then i :: insert_after x j fl'
      else match fst i + snd i =? fst x, fst x + snd x =? fst j with
           | true, true => (fst i, snd i + (snd x + snd j)) :: fl'
           | true, false => (fst i, snd i + snd x) :: fl
           | false, true => i :: (fst x, snd x + snd j) :: fl'
           | false, false => i :: x :: fl
           end
  | [] => if fst i + snd i =? fst x then [(fst i, snd i + snd x)] else [i; x]
  end.

Definition dealloc_spec (x : iv) (fl : list iv) : list iv :=
  match fl with
  | [] => [x]
  | i :: fl' =>
      if fst x <? fst i then
        if fst x + snd x =? fst i then (fst x, snd x + snd i) :: fl' else x :: fl
      else insert_after x i fl'
  end.

(** ** List properties *)

(** Sorted, disjoint, and never adjacent. *)
Fixpoint sorted_above (lo : Z) (l : list iv) : Prop :=
  match l with
  | [] => True
  | i :: l => lo < fst i /\ sorted_above (fst i + snd i) l
  end.

Lemma sorted_above_eq a b l : a <= b -> sorted_above b l -> sorted_above a l.
Proof. destruct l as [|j l]; simpl; [done|]. intros ? []. split; [lia|done]. Qed.

(** Case analysis on the conditionals of the goal. *)
Ltac by_cases :=
  repeat match goal with |- context [if ?b then _ else _] => let E := fresh "E" in destruct b eqn:E end; lia.

Record block_ok (base hi : Z) (i : iv) : Prop := {
  bo_addr : fst i mod 8 = 0;
  bo_size : snd i mod 8 = 0;
  bo_min : 24 <= snd i;
  bo_lo : base <= fst i;
  bo_hi : fst i + snd i <= hi;
}.

Lemma round_up_spec x k : 0 <= k -> let al := 2 ^ k in
  x <= round_up x al < x + al /\ round_up x al mod al = 0.
Proof.
  cbv zeta. intros Hk. unfold round_up. pose proof (Z.pow_pos_nonneg 2 k).
  pose proof (Z.div_mod (x + 2 ^ k - 1) (2 ^ k)). pose proof (Z.mod_pos_bound (x + 2 ^ k - 1) (2 ^ k)).
  split; [lia|]. apply Z_mod_mult.
Qed.

(** A multiple of a power of two is a multiple of the smaller ones. *)
Lemma mod_pow_le x j k : j <= k -> 0 <= j -> x mod 2 ^ k = 0 -> x mod 2 ^ j = 0.
Proof.
  intros Hjk Hj Hx. apply Z.mod_divide; [lia|]. apply Z.mod_divide in Hx; [|lia].
  etransitivity; [|exact Hx]. exists (2 ^ (k - j)). rewrite <- Z.pow_add_r by lia. f_equal. lia.
Qed.

Lemma mod8_of_pow x k : 3 <= k -> x mod 2 ^ k = 0 -> x mod 8 = 0.
Proof. intros Hk. by apply (mod_pow_le x 3 k). Qed.

(** [split] partitions the block, and its pieces are well formed. *)
Lemma split_spec base hi i p size k :
  block_ok base hi i -> 3 <= k -> 0 < size -> size mod 8 = 0 -> fits i (2 ^ k) size = Some p ->
  let '(pieces, md) := split i p size in
  (forall z, covers pieces z + (if iv_has md z then 1 else 0) = (if iv_has i z then 1 else 0)) /\
  Forall (block_ok base hi) pieces /\ block_ok base hi md /\
  p mod 2 ^ k = 0 /\ p mod 8 = 0 /\ fst md + 16 <= p /\ p + size <= fst md + snd md /\
  (forall lo l, lo < fst i -> sorted_above (fst i + snd i) l -> sorted_above lo (pieces ++ l)).
Proof.
  intros [Ha Hs Hmin Hlo Hhi] Hk Hsz Hsz8 Hf. unfold fits in Hf.
  destruct (round_up_spec (fst i + 16) k ltac:(lia)) as [Hr Hrm].
  pose proof (mod8_of_pow _ k Hk Hrm) as Hr8. set (r := round_up (fst i + 16) (2 ^ k)) in *.
  destruct (Z.leb_spec (r + size) (fst i + snd i)); [|done]. injection Hf as <-.
  unfold split.
  destruct (Z.leb_spec 24 (r - 16 - fst i)), (Z.leb_spec 24 (fst i + snd i - (r + size)));
    (split; [intros z; simpl; unfold iv_has; simpl; by_cases|]).
  all: split_and!; try done; simpl; try lia.
  all: repeat (apply Forall_cons; split); try apply Forall_nil; try done.
  all: try (match goal with |- block_ok _ _ _ => constructor; simpl end); try lia.
  all: try (Z.div_mod_to_equations; lia).
  all: intros lo' l Hlo' Hl; simpl; split_and?; try lia; try done; try (by eapply sorted_above_eq; [|exact Hl]; lia).
Qed.

Lemma alloc_spec_split align size fl p md fl' :
  alloc_spec align size fl = Some (p, md, fl') ->
  exists pre i post pieces, fl = pre ++ i :: post /\ Forall (fun j => fits j align size = None) pre /\
    fits i align size = Some p /\ split i p size = (pieces, md) /\ fl' = pre ++ pieces ++ post.
Proof.
  revert fl'. induction fl as [|i fl IH]; intros fl' E; simpl in E; [done|].
  destruct (fits i align size) as [q|] eqn:Ef.
  - destruct (split i q size) as [pieces md'] eqn:Es. injection E as -> -> <-.
    by exists [], i, fl, pieces.
  - destruct (alloc_spec align size fl) as [[[q md'] fl'']|] eqn:E'; [|done]. injection E as -> -> <-.
    destruct (IH fl'' eq_refl) as (pre & j & post & pieces & -> & Hpre & Hj & Hs & ->).
    exists (i :: pre), j, post, pieces. split_and!; try done. by constructor.
Qed.

Lemma alloc_spec_length align size fl p md fl' :
  alloc_spec align size fl = Some (p, md, fl') -> (length fl' <= S (length fl))%nat.
Proof.
  intros E. apply alloc_spec_split in E as (pre & i & post & pieces & -> & _ & _ & Hs & ->).
  assert (length pieces <= 2)%nat.
  { unfold split in Hs. revert Hs. by repeat case_match; intros [= <- _]; simpl; lia. }
  rewrite !length_app. simpl. lia.
Qed.

Lemma alloc_spec_none align size fl :
  alloc_spec align size fl = None -> Forall (fun j => fits j align size = None) fl.
Proof.
  induction fl as [|i fl IH]; simpl; [constructor|].
  destruct (fits i align size) eqn:Ef; [by destruct (split _ _ _)|].
  destruct (alloc_spec align size fl) as [[[]]|]; [done|]. constructor; auto.
Qed.

(** ** The list in memory *)
Definition mapped (m : mem) (base hi : Z) : Prop :=
  forall a, a mod 8 = 0 -> base <= a < hi -> is_Some (m !! a).

Definition next_at (m : mem) (a : Z) : option (option Z) :=
  tag ← m !! (a + 8); p ← m !! (a + 16); Some (if tag =? 0 then None else Some p).

(** [seg m p l q]: following [p] through the blocks [l] leads to [q]. *)
Fixpoint seg (m : mem) (p : option Z) (l : list iv) (q : option Z) : Prop :=
  match l with
  | [] => p = q
  | i :: l => p = Some (fst i) /\ m !! fst i = Some (snd i) /\
              exists n, next_at m (fst i) = Some n /\ seg m n l q
  end.

Lemma seg_app m p l1 l2 q : seg m p (l1 ++ l2) q <-> exists r, seg m p l1 r /\ seg m r l2 q.
Proof.
  revert p. induction l1 as [|i l1 IH]; intros p; simpl.
  - split; [by exists p|]. by intros (r & -> & ?).
  - setoid_rewrite IH. firstorder.
Qed.

Lemma seg_frame m m' p l q :
  seg m p l q -> (forall i z, i ∈ l -> fst i <= z < fst i + 24 -> m' !! z = m !! z) -> seg m' p l q.
Proof.
  revert p. induction l as [|i l IH]; intros p; simpl; [done|].
  intros (-> & Hs & n & Hn & Hl) Hf. assert (Hi : forall z, fst i <= z < fst i + 24 -> m' !! z = m !! z).
  { intros z. apply Hf. by left. }
  split; [done|]. split; [by rewrite Hi by lia|]. exists n. split.
  - unfold next_at in *. by rewrite !Hi by lia.
  - apply IH; [done|]. intros j z Hj. apply Hf. by right.
Qed.

Lemma load_next_spec m a n : next_at m a = Some n -> load_next m a = Ret n.
Proof.
  unfold next_at, load_next, load. destruct (m !! (a + 8)); [|done]. destruct (m !! (a + 16)); [|done].
  by intros [= <-].
Qed.

(** Lookups in a memory built by stores. *)
Ltac map_look := repeat (first [rewrite lookup_insert_eq | rewrite lookup_insert_ne by lia]); simpl.

Section Stores.
Context (base hi : Z).

Lemma mapped_insert m a v : mapped m base hi -> mapped (<[a := v]> m) base hi.
Proof. intros Hm b Hb Hr. rewrite lookup_insert. case_decide; [by eauto|by apply Hm]. Qed.

Lemma store_spec m a v :
  mapped m base hi -> a mod 8 = 0 -> base <= a < hi ->
  store m a v = Ret (<[a := v]> m) /\ mapped (<[a := v]> m) base hi.
Proof.
  intros Hm Ha Hr. destruct (Hm a Ha Hr) as [w Hw]. unfold store, load. rewrite Hw.
  split; [done|by apply mapped_insert].
Qed.

Lemma next_at_mapped m a :
  mapped m base hi -> a mod 8 = 0 -> base <= a -> a + 24 <= hi -> exists n, next_at m a = Some n.
Proof.
  intros Hm Ha Hlo Hhi. unfold next_at.
  destruct (Hm (a + 8)) as [t ->]; [Z.div_mod_to_equations; lia|lia|].
  destruct (Hm (a + 16)) as [p ->]; [Z.div_mod_to_equations; lia|lia|]. simpl. by eauto.
Qed.

Lemma store_next_spec m a q :
  mapped m base hi -> a mod 8 = 0 -> base <= a -> a + 24 <= hi ->
  exists m', store_next m a q = Ret m' /\ mapped m' base hi /\ next_at m' a = Some q /\
    forall z, z <> a + 8 -> z <> a + 16 -> m' !! z = m !! z.
Proof.
  intros Hm Ha Hlo Hhi.
  assert (H8 : (a + 8) mod 8 = 0) by (Z.div_mod_to_equations; lia).
  assert (H16 : (a + 16) mod 8 = 0) by (Z.div_mod_to_equations; lia).
  unfold store_next. destruct q as [p|].
  - destruct (store_spec m (a + 8) 1 Hm H8 ltac:(lia)) as [-> Hm1]. cbn [mbind comp_bind].
    destruct (store_spec _ (a + 16) p Hm1 H16 ltac:(lia)) as [-> Hm2].
    eexists. split_and!; [done|done| |].
    + unfold next_at. by map_look.
    + intros z Hz1 Hz2. by rewrite !lookup_insert_ne by lia.
  - destruct (store_spec m (a + 8) 0 Hm H8 ltac:(lia)) as [-> Hm1].
    eexists. split_and!; [done|done| |].
    + unfold next_at. map_look. by destruct (Hm (a + 16) H16 ltac:(lia)) as [w ->].
    + intros z Hz1 Hz2. by rewrite lookup_insert_ne by lia.
Qed.

(** The two stores that write a block's header. *)
Lemma store_header_spec m a s q :
  mapped m base hi -> a mod 8 = 0 -> base <= a -> a + 24 <= hi ->
  exists m1 m2, store_size m a s = Ret m1 /\ store_next m1 a q = Ret m2 /\ mapped m2 base hi /\
    m2 !! a = Some s /\ next_at m2 a = Some q /\
    forall z, z < a \/ a + 24 <= z -> m2 !! z = m !! z.
Proof.
  intros Hm Ha Hlo Hhi. destruct (store_spec m a s Hm Ha ltac:(lia)) as [E1 Hm1].
  destruct (store_next_spec _ a q Hm1 Ha Hlo Hhi) as (m2 & E2 & Hm2 & Hn & Hz).
  exists (<[a := s]> m), m2. split_and!; try done.
  - rewrite Hz, lookup_insert_eq by lia. done.
  - intros z Hout. rewrite Hz, lookup_insert_ne by lia. done.
Qed.

Lemma write_metadata_spec m p md :
  mapped m base hi -> p mod 8 = 0 -> base <= p - 16 -> p <= hi -> 0 <= base ->
  exists m', write_metadata m p md = Ret m' /\ mapped m' base hi /\
    m' !! (p - 16) = Some (md_start_addr md) /\ m' !! (p - 8) = Some (md_size md) /\
    forall z, z < p - 16 \/ p <= z -> m' !! z = m !! z.
Proof.
  intros Hm Hp Hlo Hhi Hb. unfold write_metadata, size_of_AllocationMetaData.
  rewrite sub_ovf_ok by lia. cbn [mbind comp_bind].
  assert (Hp16 : (p - 16) mod 8 = 0) by (Z.div_mod_to_equations; lia).
  assert (Hp8 : (p - 16 + 8) mod 8 = 0) by (Z.div_mod_to_equations; lia).
  destruct (store_spec m (p - 16) (md_start_addr md) Hm Hp16 ltac:(lia)) as [-> Hm1]. cbn [mbind comp_bind].
  destruct (store_spec _ (p - 16 + 8) (md_size md) Hm1 Hp8 ltac:(lia)) as [-> Hm2].
  eexists. split_and!; [done|done| | |].
  - by map_look.
  - replace (p - 8) with (p - 16 + 8) by lia. by map_look.
  - intros z Hz. by rewrite !lookup_insert_ne by lia.
Qed.

(** Redirecting the pointer that leads out of a list segment. *)
Definition last_addr (prev : option Z) (l : list iv) : option Z :=
  match last l with Some i => Some (fst i) | None => prev end.

Lemma sorted_above_lt lo l k :
  sorted_above lo l -> Forall (fun i => 0 <= snd i) l -> k ∈ l -> lo < fst k.
Proof.
  revert lo. induction l as [|i l IH]; intros lo Hs Hf Hk; [by apply not_elem_of_nil in Hk|].
  destruct Hs as [Hlo Hs]. apply Forall_cons in Hf as [Hi Hf].
  apply elem_of_cons in Hk as [->|Hk]; [done|]. specialize (IH _ Hs Hf Hk). lia.
Qed.

Lemma sorted_above_app lo l1 l2 :
  sorted_above lo (l1 ++ l2) -> Forall (fun i => 0 <= snd i) (l1 ++ l2) ->
  sorted_above lo l1 /\ (exists lo', lo <= lo' /\ sorted_above lo' l2 /\ forall i, i ∈ l1 -> fst i + snd i <= lo').
Proof.
  revert lo. induction l1 as [|i l1 IH]; intros lo; simpl.
  - intros Hs _. split; [done|]. exists lo. split; [lia|]. split; [done|].
    intros i Hi. by apply not_elem_of_nil in Hi.
  - intros [Hlo Hs] Hf. apply Forall_cons in Hf as [Hi Hf]. simpl in Hi.
    destruct (IH _ Hs Hf) as (H1 & lo' & Hle & H2 & H3).
    split; [done|]. exists lo'. split; [lia|]. split; [done|].
    intros j Hj. apply elem_of_cons in Hj as [->|Hj]; [lia|auto].
Qed.

(** Two blocks of a sorted list, one before the other. *)
Lemma sorted_above_before lo l1 l2 i j :
  sorted_above lo (l1 ++ l2) -> Forall (fun i => 0 <= snd i) (l1 ++ l2) ->
  i ∈ l1 -> j ∈ l2 -> fst i + snd i < fst j.
Proof.
  intros Hs Hf Hi Hj. destruct (sorted_above_app lo l1 l2 Hs Hf) as (_ & lo' & _ & H2 & H3).
  apply Forall_app in Hf as [_ Hf]. pose proof (sorted_above_lt _ _ _ H2 Hf Hj). specialize (H3 _ Hi). lia.
Qed.

Lemma sorted_above_replace lo pre i post pieces :
  sorted_above lo (pre ++ i :: post) ->
  (forall lo' l, lo' < fst i -> sorted_above (fst i + snd i) l -> sorted_above lo' (pieces ++ l)) ->
  sorted_above lo (pre ++ pieces ++ post).
Proof.
  intros Hs Hp. revert lo Hs. induction pre as [|j pre IH]; intros lo; simpl.
  - intros [Hlo Hs]. by apply Hp.
  - intros [Hlo Hs]. auto.
Qed.

(** Redirecting the pointer that leads out of a list segment. *)
Lemma last_addr_snoc prev l i : last_addr prev (l ++ [i]) = Some (fst i).
Proof. unfold last_addr. by rewrite last_snoc. Qed.

Lemma link_spec h pre q q' lo :
  seg (fa_mem h) (fa_head h) pre q -> sorted_above lo pre -> Forall (block_ok base hi) pre ->
  mapped (fa_mem h) base hi ->
  exists h', link h (last_addr None pre) q' = Ret h' /\
    seg (fa_mem h') (fa_head h') pre q' /\ mapped (fa_mem h') base hi /\
    fa_total_size h' = fa_total_size h /\
    forall z, (forall i, i ∈ pre -> ~ fst i <= z < fst i + 24) -> fa_mem h' !! z = fa_mem h !! z.
Proof.
  intros Hseg Hs Hf Hm. destruct pre as [|j pre'] using rev_ind.
  { exists (with_head h q'). done. }
  clear IHpre'. rewrite last_addr_snoc. cbn [link].
  apply Forall_app in Hf as [Hf Hj]. apply Forall_cons in Hj as [[Ha Hsz Hmin Hlo Hhi] _].
  destruct (store_next_spec (fa_mem h) (fst j) q') as (m' & E & Hm' & Hn & Hz); [done..|lia|lia|].
  rewrite E. cbn [mbind comp_bind]. exists (with_mem h m'). split; [done|]. cbn [fa_mem fa_head fa_total_size with_mem].
  apply seg_app in Hseg as (r & Hpre & Hlast). simpl in Hlast. destruct Hlast as (-> & Hsj & n & _ & _).
  assert (Hsep : forall i, i ∈ pre' -> fst i + snd i < fst j).
  { intros i Hi. eapply sorted_above_before; [exact Hs| |exact Hi|by left].
    apply Forall_app. split; [|by repeat constructor; lia].
    eapply Forall_impl; [exact Hf|]. intros x []. lia. }
  split_and!; try done.
  - apply seg_app. exists (Some (fst j)). split.
    + eapply seg_frame; [exact Hpre|]. intros i z Hi Hiz. specialize (Hsep i Hi).
      pose proof (proj1 (Forall_forall _ _) Hf i Hi) as [_ _ ? _ _]. apply Hz; lia.
    + simpl. rewrite Hz by lia. eauto.
  - intros z Hout. assert (~ fst j <= z < fst j + 24) by (apply Hout; set_solver). apply Hz; lia.
Qed.
End Stores.
