(* ===== verification/HeapProofs.v ===== *)
(** * The allocator implements its contract

    [alloc] and [dealloc] against first fit and coalescing, the invariant of
    the heap over every sequence of client steps, and the allocator's
    statistics. *)
From S2P Require Import Prelude Memory FreeList HeapSpec.

(** ** Arithmetic *)
Lemma align_up_spec x k :
  0 <= x -> 0 <= k <= 63 -> x + 2 ^ k < 2 ^ 64 -> align_up x (2 ^ k) = Ret (round_up x (2 ^ k)).
Proof.
  intros Hx Hk Hle. pose proof (Z.pow_pos_nonneg 2 k ltac:(lia) ltac:(lia)).
  unfold align_up, round_up. rewrite add_ovf_ok by (unfold max_of; lia). cbn [mbind comp_bind].
  rewrite !sub_ovf_ok by lia. cbn [mbind comp_bind]. f_equal. apply land_not_mask; [lia|]. unfold in_width. lia.
Qed.

Lemma AlignedPtr_new_aligned x : 0 <= x -> x + 8 < 2 ^ 64 -> x mod 8 = 0 -> AlignedPtr_new x = Ret x.
Proof.
  intros Hx Hle Hm. unfold AlignedPtr_new. change (Z.max align_of_FreeBlock MIN_ALIGN) with (2 ^ 3).
  rewrite align_up_spec by lia. f_equal. unfold round_up. change (2 ^ 3) with 8. Z.div_mod_to_equations. lia.
Qed.

(** The bounds under which no address computation overflows: the heap lies
    below 2^62, and the request is a valid [Layout]. *)
Record request_ok (k size : Z) : Prop := {
  rq_align : 3 <= k <= 62;
  rq_size : 0 < size;
  rq_mod : size mod 8 = 0;
  rq_max : size + 2 ^ k <= 2 ^ 63 + 8;
}.

Lemma can_allocate_spec base hi i k size :
  block_ok base hi i -> 0 < base -> hi <= 2 ^ 62 -> request_ok k size ->
  can_allocate (fst i) (snd i) (2 ^ k) size = Ret (fits i (2 ^ k) size).
Proof.
  intros [Ha Hs Hmin Hlo Hhi] Hb Hh [Hk Hsz Hm Hmax]. pose proof (Z.pow_pos_nonneg 2 k ltac:(lia) ltac:(lia)).
  assert (2 ^ k <= 2 ^ 62) by (apply Z.pow_le_mono_r; lia).
  assert (H8 : 8 <= 2 ^ k) by (change 8 with (2 ^ 3); apply Z.pow_le_mono_r; lia).
  unfold can_allocate, fits, size_of_AllocationMetaData, AlignedPtr_new_with, MIN_ALIGN. rewrite Z.max_l by lia.
  rewrite !add_ovf_ok by (unfold max_of; lia). cbn [mbind comp_bind].
  rewrite align_up_spec by lia. cbn [mbind comp_bind].
  destruct (round_up_spec (fst i + 16) k ltac:(lia)) as [Hr _].
  rewrite add_ovf_ok by (unfold max_of; lia). done.
Qed.

Section Heap.
Context (base hi : Z) (base_pos : 0 < base) (hi_max : hi <= 2 ^ 62).

(** ** Carving a block

    The block [i] that is carved sits between [pre] and [post] in the list;
    [p] is the aligned address and [q] the list behind the block. *)
Section Carve.
Context (h : FreeListAllocator) (pre : list (Z * Z)) (i : Z * Z) (post : list (Z * Z)) (p size lo : Z) (q : option Z).
Context (Hsort : sorted_above lo (pre ++ i :: post)) (Hok : Forall (block_ok base hi) (pre ++ i :: post))
        (Hmap : mapped (fa_mem h) base hi)
        (Hpre : seg (fa_mem h) (fa_head h) pre (Some (fst i)))
        (Hsize : fa_mem h !! fst i = Some (snd i)) (Hnext : next_at (fa_mem h) (fst i) = Some q)
        (Hpost : seg (fa_mem h) q post None)
        (Hp8 : p mod 8 = 0) (Hs8 : size mod 8 = 0) (Hs : 0 < size)
        (Hp : fst i + 16 <= p) (Hend : p + size <= fst i + snd i).

(** Words outside the block and the blocks before it are as in [h]. *)
Definition untouched (m : gmap Z Z) : Prop :=
  forall z, (forall j, j ∈ pre ++ [i] -> ~ fst j <= z < fst j + snd j) -> m !! z = fa_mem h !! z.

Lemma carve_geometry :
  block_ok base hi i /\ Forall (block_ok base hi) pre /\ Forall (block_ok base hi) post /\
  sorted_above lo pre /\
  (forall j, j ∈ pre -> 24 <= snd j /\ fst j + snd j < fst i) /\
  (forall j, j ∈ post -> 24 <= snd j /\ fst i + snd i < fst j).
Proof.
  pose proof Hok as Hok'. apply Forall_app in Hok' as [Hokpre Hokip]. apply Forall_cons in Hokip as [Hoki Hokpost].
  assert (Hpos : Forall (fun i : Z * Z => 0 <= snd i) (pre ++ i :: post)).
  { eapply Forall_impl; [exact Hok|]. intros x []. lia. }
  destruct (sorted_above_app lo pre (i :: post) Hsort Hpos) as [Hsortpre _].
  split_and!; try done.
  - intros j Hj. split; [by apply (bo_min base hi), (proj1 (Forall_forall _ _) Hokpre)|].
    by apply (sorted_above_before lo pre (i :: post)); [..|left].
  - intros j Hj. split; [by apply (bo_min base hi), (proj1 (Forall_forall _ _) Hokpost)|].
    apply (sorted_above_before lo (pre ++ [i]) post); rewrite <- ?app_assoc; try done.
    apply elem_of_app. right. by left.
Qed.

(** A memory that changed only inside the block keeps both neighbours. *)
Lemma carve_frame (m : gmap Z Z) :
  (forall z, ~ fst i <= z < fst i + snd i -> m !! z = fa_mem h !! z) ->
  seg m (fa_head h) pre (Some (fst i)) /\ seg m q post None /\ untouched m.
Proof.
  intros Hz. destruct carve_geometry as (Hi & _ & _ & _ & Hb & Ha). split_and!.
  - eapply seg_frame; [exact Hpre|]. intros j z Hj ?. destruct (Hb j Hj). apply Hz. lia.
  - eapply seg_frame; [exact Hpost|]. intros j z Hj ?. destruct (Ha j Hj). apply Hz. lia.
  - intros z Hout. apply Hz. apply Hout. set_solver.
Qed.

(** What every branch of [split_block] establishes. *)
Definition split_done (h1 : FreeListAllocator) (pieces : list (Z * Z)) : Prop :=
  seg (fa_mem h1) (fa_head h1) (pre ++ pieces ++ post) None /\ mapped (fa_mem h1) base hi /\
  fa_total_size h1 = fa_total_size h /\ untouched (fa_mem h1).

Lemma split_none :
  exists h1, link h (last_addr None pre) q = Ret h1 /\ split_done h1 [].
Proof.
  destruct carve_geometry as (Hi & Hokpre & _ & Hsp & Hb & Ha).
  destruct (link_spec base hi h pre (Some (fst i)) q lo Hpre Hsp Hokpre Hmap) as (h1 & E & Hseg & Hm & Ht & Hz).
  exists h1. split; [done|]. split_and!; try done.
  - apply seg_app. exists q. split; [done|]. eapply seg_frame; [exact Hpost|].
    intros j z Hj ?. apply Hz. intros k Hk. destruct (Hb k Hk), (Ha j Hj), Hi. lia.
  - intros z Hout. apply Hz. intros k Hk Hkz. destruct (Hb k Hk). apply (Hout k); [set_solver|lia].
Qed.

Lemma split_left left_ :
  24 <= left_ -> left_ <= p - 16 - fst i ->
  exists m1 m2, store_size (fa_mem h) (fst i) left_ = Ret m1 /\ store_next m1 (fst i) q = Ret m2 /\
    split_done (with_mem h m2) [(fst i, left_)].
Proof.
  intros Hl Hle. destruct carve_geometry as (Hi & Hokpre & _ & Hsp & Hb & Ha). destruct Hi.
  destruct (store_header_spec base hi (fa_mem h) (fst i) left_ q) as (m1 & m2 & E1 & E2 & Hm & Hsz & Hn & Hz);
    [done..|lia|].
  exists m1, m2. split; [done|]. split; [done|].
  destruct (carve_frame m2) as (F1 & F2 & F3); [intros z Hout; apply Hz; lia|].
  split_and!; try done. apply seg_app. exists (Some (fst i)). split; [done|]. simpl. eauto.
Qed.

Lemma split_right right_ :
  24 <= right_ -> right_ = fst i + snd i - (p + size) ->
  exists m1 m2 h1, store_size (fa_mem h) (p + size) right_ = Ret m1 /\ store_next m1 (p + size) q = Ret m2 /\
    link (with_mem h m2) (last_addr None pre) (Some (p + size)) = Ret h1 /\
    split_done h1 [(p + size, right_)].
Proof.
  intros Hl Hle. destruct carve_geometry as (Hi & Hokpre & _ & Hsp & Hb & Ha). destruct Hi.
  destruct (store_header_spec base hi (fa_mem h) (p + size) right_ q) as (m1 & m2 & E1 & E2 & Hm & Hsz & Hn & Hz);
    [done|Z.div_mod_to_equations; lia|lia|lia|].
  destruct (carve_frame m2) as (F1 & F2 & F3); [intros z Hout; apply Hz; lia|].
  destruct (link_spec base hi (with_mem h m2) pre (Some (fst i)) (Some (p + size)) lo F1 Hsp Hokpre Hm)
    as (h1 & E3 & Hseg & Hm1 & Ht & Hz1).
  exists m1, m2, h1. split_and!; try done.
  assert (Hout : forall z, fst i <= z -> fa_mem h1 !! z = m2 !! z).
  { intros z Hge. rewrite Hz1; [done|]. intros k Hk. destruct (Hb k Hk). lia. }
  split_and!; try done.
  - apply seg_app. exists (Some (p + size)). split; [done|]. simpl. rewrite !Hout by lia. split; [done|].
    split; [done|]. exists q. split; [unfold next_at in *; by rewrite !Hout by lia|].
    eapply seg_frame; [exact F2|]. intros j z Hj ?. destruct (Ha j Hj). apply Hout. lia.
  - intros z Ho. rewrite Hz1; [by apply F3|]. intros k Hk Hkz. destruct (Hb k Hk). apply (Ho k); [set_solver|lia].
Qed.

Lemma split_both left_ right_ :
  24 <= left_ -> left_ <= p - 16 - fst i -> 24 <= right_ -> right_ = fst i + snd i - (p + size) ->
  exists m1 m2 m3 m4, store_size (fa_mem h) (fst i) left_ = Ret m1 /\ store_size m1 (p + size) right_ = Ret m2 /\
    store_next m2 (fst i) (Some (p + size)) = Ret m3 /\ store_next m3 (p + size) q = Ret m4 /\
    split_done (with_mem h m4) [(fst i, left_); (p + size, right_)].
Proof.
  intros Hl Hle Hr Hre. destruct carve_geometry as (Hi & Hokpre & _ & Hsp & Hb & Ha). destruct Hi.
  assert (Hps : (p + size) mod 8 = 0) by (Z.div_mod_to_equations; lia).
  destruct (store_spec base hi (fa_mem h) (fst i) left_) as [E1 Hm1]; [done..|lia|].
  destruct (store_spec base hi (<[fst i := left_]> (fa_mem h)) (p + size) right_) as [E2 Hm2]; [done..|lia|].
  destruct (store_next_spec base hi _ (fst i) (Some (p + size)) Hm2) as (m3 & E3 & Hm3 & Hn3 & Hz3); [done..|lia|].
  destruct (store_next_spec base hi _ (p + size) q Hm3) as (m4 & E4 & Hm4 & Hn4 & Hz4); [done|lia|lia|].
  eexists _, _, m3, m4. split; [exact E1|]. split; [exact E2|]. split; [done|]. split; [done|].
  destruct (carve_frame m4) as (F1 & F2 & F3).
  { intros z Hout. rewrite Hz4, Hz3 by lia. by rewrite !lookup_insert_ne by lia. }
  split_and!; try done. apply seg_app. exists (Some (fst i)). split; [done|]. simpl.
  split; [done|]. split; [rewrite Hz4, Hz3 by lia; by map_look|]. exists (Some (p + size)).
  split; [unfold next_at in *; by rewrite !Hz4 by lia|]. split; [done|].
  split; [rewrite Hz4, Hz3 by lia; by map_look|]. eauto.
Qed.

Lemma split_block_spec :
  exists h1, split_block h (fst i) (last_addr None pre) (mkFreeBlock (snd i) q)
      (p - 16 - fst i) (fst i + snd i - (p + size)) (p + size) size =
      Ret (h1, mkMetaData (fst (snd (split i p size))) (snd (snd (split i p size)))) /\
    split_done h1 (fst (split i p size)).
Proof.
  destruct carve_geometry as ([Ha8 Hs8' Hmin Hlo Hhi] & _).
  assert (Hps : (p + size) mod 8 = 0) by (Z.div_mod_to_equations; lia).
  unfold split_block, split, size_of_FreeBlock, size_of_AllocationMetaData. cbn [fb_size fb_next].
  change (Z.max 24 16) with 24.
  destruct (Z.leb_spec 24 (p - 16 - fst i)), (Z.leb_spec 24 (fst i + snd i - (p + size))); cbn [fst snd];
    rewrite ?AlignedPtr_new_aligned by (done || lia); cbn [mbind comp_bind].
  - destruct (split_both (p - 16 - fst i) (fst i + snd i - (p + size))) as (m1 & m2 & m3 & m4 & E1 & E2 & E3 & E4 & Hd); try lia.
    rewrite E1; cbn [mbind comp_bind]; rewrite E2; cbn [mbind comp_bind]; rewrite E3; cbn [mbind comp_bind];
      rewrite E4; cbn [mbind comp_bind].
    rewrite add_ovf_ok by (unfold max_of; lia). cbn [mbind comp_bind].
    rewrite !sub_ovf_ok by lia. cbn [mbind comp_bind]. rewrite sub_ovf_ok by lia. eauto.
  - destruct (split_left (p - 16 - fst i)) as (m1 & m2 & E1 & E2 & Hd); [lia..|].
    rewrite E1; cbn [mbind comp_bind]; rewrite E2; cbn [mbind comp_bind].
    rewrite add_ovf_ok by (unfold max_of; lia). cbn [mbind comp_bind]. rewrite sub_ovf_ok by lia. eauto.
  - destruct (split_right (fst i + snd i - (p + size))) as (m1 & m2 & h1 & E1 & E2 & E3 & Hd); [lia..|].
    rewrite E1; cbn [mbind comp_bind]; rewrite E2; cbn [mbind comp_bind]; rewrite E3; cbn [mbind comp_bind].
    rewrite !add_ovf_ok by (unfold max_of; lia). cbn [mbind comp_bind].
    rewrite add_ovf_ok by (unfold max_of; lia). eauto.
  - destruct split_none as (h1 & E1 & Hd). rewrite E1. eauto.
Qed.

(** The pieces lie outside the metadata and the payload. *)
Lemma split_apart j :
  j ∈ fst (split i p size) -> 24 <= snd j /\ (fst j + snd j <= p - 16 \/ p + size <= fst j).
Proof.
  unfold split.
  destruct (Z.leb_spec 24 (p - 16 - fst i)), (Z.leb_spec 24 (fst i + snd i - (p + size))); cbn [fst];
    rewrite ?elem_of_cons, ?elem_of_nil; intros Hj; destruct_or? Hj; try done; subst; simpl; lia.
Qed.

Lemma carve_spec :
  let '(pieces, md) := split i p size in
  exists h', carve h (fst i) (last_addr None pre) p size = Ret h' /\ split_done h' pieces /\
    fa_mem h' !! (p - 16) = Some (fst md) /\ fa_mem h' !! (p - 8) = Some (snd md).
Proof.
  destruct carve_geometry as ([Ha8 Hs8' Hmin Hlo Hhi] & _ & _ & _ & Hb & Ha).
  destruct split_block_spec as (h1 & E & Hseg & Hm1 & Ht & Hu).
  destruct (split i p size) as [pieces md] eqn:Es. cbn [fst snd] in *.
  unfold carve, load_block, load. rewrite Hsize. cbn [unwrap mbind comp_bind].
  rewrite (load_next_spec _ _ _ Hnext). cbn [mbind comp_bind fb_size].
  unfold size_of_AllocationMetaData at 1. rewrite sub_ovf_ok by lia. cbn [mbind comp_bind].
  rewrite sub_ovf_ok by lia. cbn [mbind comp_bind].
  rewrite !add_ovf_ok by (unfold max_of; lia). cbn [mbind comp_bind].
  rewrite sub_ovf_ok by lia. cbn [mbind comp_bind]. rewrite E. cbn [mbind comp_bind].
  destruct (write_metadata_spec base hi (fa_mem h1) p (mkMetaData (fst md) (snd md)) Hm1 Hp8) as (m' & Em & Hm' & Hw1 & Hw2 & Hz);
    [lia..|].
  rewrite Em. cbn [mbind comp_bind]. exists (with_mem h1 m'). split; [done|].
  split; [|by split; [exact Hw1|exact Hw2]]. split; [|split; [exact Hm'|split; [exact Ht|]]].
  - eapply seg_frame; [exact Hseg|]. intros j z Hj Hjz. apply Hz.
    rewrite !elem_of_app in Hj. destruct Hj as [Hj|[Hj|Hj]].
    + destruct (Hb j Hj). lia.
    + pose proof (split_apart j) as Hd. rewrite Es in Hd. specialize (Hd Hj). cbn in Hd. lia.
    + destruct (Ha j Hj). lia.
  - intros z Hout. rewrite <- Hu by done. apply Hz. specialize (Hout i ltac:(set_solver)). lia.
Qed.
End Carve.
End Heap.
