(* ===== verification/HeapInv.v ===== *)
(** * The heap invariant

    [heap_inv] relates the allocator's memory to the list of free intervals and
    the live allocations.  [alloc] and [dealloc] refine [alloc_spec] and
    [dealloc_spec] under it and leave every live payload alone. *)
From S2P Require Import Prelude Memory FreeList HeapSpec HeapProofs.

(** ** Walking the list *)
Lemma seg_next m p i l : seg m p (i :: l) None ->
  p = Some (fst i) /\ m !! fst i = Some (snd i) /\
  exists n, next_at m (fst i) = Some n /\ load_next m (fst i) = Ret n /\ seg m n l None.
Proof. intros (-> & Hs & n & Hn & Hl). split_and!; try done. exists n. split_and!; try done. by apply load_next_spec. Qed.

Lemma walk_fold {S R} fuel (mem_of : S -> gmap Z Z) (f : Z -> option Z -> S -> comp (option R * S)) g m l p prev s :
  seg m p l None -> (length l <= fuel)%nat ->
  (forall pre i post, l = pre ++ i :: post ->
     mem_of (foldl g s (pre ++ [i])) = m /\
     forall prev, f (fst i) prev (foldl g s pre) = Ret (None, foldl g s (pre ++ [i]))) ->
  walk_list fuel mem_of f p prev s = Ret (None, foldl g s l).
Proof.
  revert fuel p prev s. induction l as [|i l IH]; intros fuel p prev s Hseg Hf Hg.
  - simpl in Hseg. subst p. by destruct fuel.
  - destruct (seg_next _ _ _ _ Hseg) as (-> & Hs & n & Hn & Hln & Hl).
    destruct fuel as [|fuel]; [simpl in Hf; lia|]. cbn [walk_list].
    destruct (Hg [] i l eq_refl) as [Hm ->]. cbn [mbind comp_bind app foldl] in *. rewrite Hm, Hln.
    cbn [mbind comp_bind]. apply IH; [done|simpl in Hf; lia|].
    intros pre j post ->. apply (Hg (i :: pre) j post eq_refl).
Qed.

Lemma walk_miss {S R} fuel (mem_of : S -> gmap Z Z) (f : Z -> option Z -> S -> comp (option R * S)) l p prev s :
  seg (mem_of s) p l None -> (length l <= fuel)%nat ->
  (forall i prev, i ∈ l -> f (fst i) prev s = Ret (None, s)) ->
  walk_list fuel mem_of f p prev s = Ret (None, s).
Proof.
  intros Hseg Hf Hg. assert (Hid : forall l' : list (Z * Z), foldl (fun s _ => s) s l' = s) by (by induction l').
  rewrite (walk_fold fuel mem_of f (fun s _ => s) (mem_of s) l) by (done || (intros pre i post ->; rewrite !Hid; split;
    [done|]; intros prev'; apply Hg; set_solver)). by rewrite Hid.
Qed.

Lemma walk_hit {S R} fuel (mem_of : S -> gmap Z Z) (f : Z -> option Z -> S -> comp (option R * S)) pre i post p prev s r s' :
  seg (mem_of s) p (pre ++ i :: post) None -> (length pre < fuel)%nat ->
  (forall j prev, j ∈ pre -> f (fst j) prev s = Ret (None, s)) ->
  f (fst i) (last_addr prev pre) s = Ret (Some r, s') ->
  walk_list fuel mem_of f p prev s = Ret (Some r, s').
Proof.
  revert fuel p prev. induction pre as [|j pre IH]; intros fuel p prev Hseg Hf Hmiss Hhit;
    (destruct fuel as [|fuel]; [simpl in Hf; lia|]);
    destruct (seg_next _ _ _ _ Hseg) as (-> & Hs & n & Hn & Hln & Hl); cbn [walk_list].
  - unfold last_addr in Hhit. simpl in Hhit. by rewrite Hhit.
  - rewrite Hmiss by (by left). cbn [mbind comp_bind]. rewrite Hln. cbn [mbind comp_bind].
    apply IH; [done|simpl in Hf; lia| |].
    + intros k prev' Hk. apply Hmiss. by right.
    + rewrite <- Hhit. f_equal. unfold last_addr. rewrite last_cons. by destruct (last pre).
Qed.

(** ** The invariant *)
Record Live := mkLive { lv_ptr : Z; lv_size : Z; lv_block : Z * Z }.

Definition in_payload (a : Live) (z : Z) : Prop := lv_ptr a <= z < lv_ptr a + lv_size a.

Section Heap.
Context (base hi : Z) (base_pos : 0 < base) (hi_max : hi <= 2 ^ 62).

Record live_ok (m : gmap Z Z) (a : Live) : Prop := {
  lo_block : block_ok base hi (lv_block a);
  lo_ptr : lv_ptr a mod 8 = 0;
  lo_size : 0 < lv_size a;
  lo_md : fst (lv_block a) + 16 <= lv_ptr a;
  lo_end : lv_ptr a + lv_size a <= fst (lv_block a) + snd (lv_block a);
  lo_start : m !! (lv_ptr a - 16) = Some (fst (lv_block a));
  lo_len : m !! (lv_ptr a - 8) = Some (snd (lv_block a));
}.

Record heap_inv (h : FreeListAllocator) (fl : list (Z * Z)) (al : list Live) : Prop := {
  hv_total : fa_total_size h = hi - base;
  hv_mapped : mapped (fa_mem h) base hi;
  hv_seg : seg (fa_mem h) (fa_head h) fl None;
  hv_sorted : sorted_above (base - 1) fl;
  hv_free : Forall (block_ok base hi) fl;
  hv_live : Forall (live_ok (fa_mem h)) al;
  hv_covers : forall z, covers (fl ++ map lv_block al) z = if (base <=? z) && (z <? hi) then 1 else 0;
}.

Lemma live_ok_frame m m' a :
  live_ok m a -> (forall z, fst (lv_block a) <= z < fst (lv_block a) + snd (lv_block a) -> m' !! z = m !! z) ->
  live_ok m' a.
Proof. intros [? ? ? ? ? ? ?] Hz. constructor; try done; by rewrite Hz by lia. Qed.

(** Two members of a list that covers no byte twice are disjoint. *)
Lemma covers_apart l1 i l2 j l3 :
  (forall z, covers (l1 ++ i :: l2 ++ j :: l3) z <= 1) -> 0 < snd i -> 0 < snd j ->
  fst i + snd i <= fst j \/ fst j + snd j <= fst i.
Proof.
  intros Hc Hi Hj. destruct (Z.leb_spec (fst i + snd i) (fst j)); [lia|].
  destruct (Z.leb_spec (fst j + snd j) (fst i)); [lia|].
  specialize (Hc (Z.max (fst i) (fst j))). rewrite covers_app in Hc. simpl in Hc. rewrite covers_app in Hc. simpl in Hc.
  pose proof (covers_nonneg l1 (Z.max (fst i) (fst j))). pose proof (covers_nonneg l2 (Z.max (fst i) (fst j))).
  pose proof (covers_nonneg l3 (Z.max (fst i) (fst j))).
  assert (iv_has i (Z.max (fst i) (fst j)) = true) as Ei by (apply iv_has_spec; lia).
  assert (iv_has j (Z.max (fst i) (fst j)) = true) as Ej by (apply iv_has_spec; lia).
  rewrite Ei, Ej in Hc. lia.
Qed.

Lemma heap_covers_le h fl al : heap_inv h fl al -> forall z, covers (fl ++ map lv_block al) z <= 1.
Proof. intros Hv z. rewrite (hv_covers _ _ _ Hv). case_match; lia. Qed.

(** A live allocation's block is disjoint from the free blocks... *)
Lemma live_free_apart h fl al i a :
  heap_inv h fl al -> i ∈ fl -> a ∈ al ->
  fst i + snd i <= fst (lv_block a) \/ fst (lv_block a) + snd (lv_block a) <= fst i.
Proof.
  intros Hv Hi Ha. pose proof (proj1 (Forall_forall _ _) (hv_free _ _ _ Hv) i Hi) as [].
  pose proof (proj1 (Forall_forall _ _) (hv_live _ _ _ Hv) a Ha) as [[] ? ? ? ? ? ?].
  apply list_elem_of_split in Hi as (l1 & l2 & ->). apply list_elem_of_split in Ha as (a1 & a2 & ->).
  pose proof (heap_covers_le _ _ _ Hv) as Hc. rewrite map_app in Hc. simpl in Hc. rewrite <- app_assoc in Hc. simpl in Hc.
  rewrite app_assoc in Hc. eapply (covers_apart l1 i (l2 ++ map lv_block a1)); [|lia|lia].
  intros z. specialize (Hc z). by rewrite <- !app_assoc in *.
Qed.

(** ... and from the other live allocations'. *)
Lemma live_live_apart h fl al1 a al2 b :
  heap_inv h fl (al1 ++ a :: al2) -> b ∈ al1 ++ al2 ->
  fst (lv_block b) + snd (lv_block b) <= fst (lv_block a) \/ fst (lv_block a) + snd (lv_block a) <= fst (lv_block b).
Proof.
  intros Hv Hb. pose proof (hv_live _ _ _ Hv) as Hl. rewrite Forall_forall in Hl.
  assert (Hpa : 0 < snd (lv_block a)).
  { destruct (Hl a ltac:(set_solver)) as [[] ? ? ? ? ? ?]. lia. }
  assert (Hpb : 0 < snd (lv_block b)).
  { destruct (Hl b ltac:(set_solver)) as [[] ? ? ? ? ? ?]. lia. }
  pose proof (heap_covers_le _ _ _ Hv) as Hc. rewrite map_app in Hc. simpl in Hc.
  apply elem_of_app in Hb as [Hb|Hb]; apply list_elem_of_split in Hb as (b1 & b2 & ->); rewrite map_app in Hc; simpl in Hc.
  - eapply (covers_apart (fl ++ map lv_block b1) (lv_block b) (map lv_block b2) (lv_block a)); [|done|done].
    intros z. specialize (Hc z). revert Hc. rewrite <- !app_assoc. simpl. by rewrite <- ?app_assoc.
  - destruct (covers_apart (fl ++ map lv_block al1) (lv_block a) (map lv_block b1) (lv_block b) (map lv_block b2)); [|done|done|lia|lia].
    intros z. specialize (Hc z). revert Hc. by rewrite <- !app_assoc.
Qed.

(** ** Allocation *)
Definition layout_ok (layout_size layout_align : Z) : Prop :=
  0 < layout_size /\ exists j, 0 <= j <= 62 /\ layout_align = 2 ^ j /\ layout_size + layout_align <= 2 ^ 63.

Lemma layout_request layout_size layout_align :
  layout_ok layout_size layout_align ->
  exists k, Z.max layout_align 8 = 2 ^ k /\ align_up layout_size 8 = Ret (round_up layout_size 8) /\
    request_ok k (round_up layout_size 8).
Proof.
  intros (Hs & j & Hj & -> & Hle). pose proof (Z.pow_pos_nonneg 2 j ltac:(lia) ltac:(lia)).
  assert (Hr : align_up layout_size 8 = Ret (round_up layout_size 8)).
  { apply (align_up_spec layout_size 3); lia. }
  assert (Hb : layout_size <= round_up layout_size 8 < layout_size + 8 /\ round_up layout_size 8 mod 8 = 0).
  { apply (round_up_spec layout_size 3). lia. }
  destruct (Z.le_gt_cases 3 j).
  - assert (8 <= 2 ^ j) by (change 8 with (2 ^ 3); apply Z.pow_le_mono_r; lia).
    exists j. split_and!; [lia|done|constructor; try lia].
  - assert (2 ^ j <= 2 ^ 3) by (apply Z.pow_le_mono_r; lia). exists 3.
    split_and!; [lia|done|constructor; try lia]. change (2 ^ 3) with 8. Z.div_mod_to_equations. lia.
Qed.

(** What an operation leaves alone: the payload of every other allocation. *)
Definition payloads_kept (h h' : FreeListAllocator) (al : list Live) : Prop :=
  forall a z, a ∈ al -> in_payload a z -> fa_mem h' !! z = fa_mem h !! z.

(** Carving a block out of the free list keeps the invariant. *)
Lemma carve_inv h pre i post al p k size pieces md :
  heap_inv h (pre ++ i :: post) al -> request_ok k size ->
  fits i (2 ^ k) size = Some p -> split i p size = (pieces, md) ->
  exists h', carve h (fst i) (last_addr None pre) p size = Ret h' /\
    heap_inv h' (pre ++ pieces ++ post) (mkLive p size md :: al) /\ payloads_kept h h' al /\
    p mod 2 ^ k = 0 /\ 0 < p.
Proof.
  intros Hv [Hk Hsz Hsz8 Hmax] Hf Hsplit. destruct (Hv) as [Ht Hm Hseg Hso Hok Hl Hc].
  pose proof (proj1 (Forall_app _ _ _) Hok) as [Hokpre Hok']. apply Forall_cons in Hok' as [Hoki Hokpost].
  pose proof (split_spec base hi i p size k Hoki ltac:(lia) Hsz Hsz8 Hf) as Hsp. rewrite Hsplit in Hsp.
  destruct Hsp as (Hcov & Hpieces & Hmd & Hpk & Hp8 & Hmp & Hpe & Hsorted).
  apply seg_app in Hseg as (r & Hpre & Hrest). simpl in Hrest. destruct Hrest as (-> & Hsi & q & Hn & Hpost).
  assert (Hpi : fst i + 16 <= p /\ p + size <= fst i + snd i).
  { unfold fits in Hf. destruct (round_up_spec (fst i + 16) k ltac:(lia)) as [Hr _].
    destruct (Z.leb_spec (round_up (fst i + 16) (2 ^ k) + size) (fst i + snd i)); [|done]. injection Hf as <-. lia. }
  destruct Hpi as [Hpi1 Hpi2].
  pose proof (carve_spec base hi base_pos hi_max h pre i post p size (base - 1) q Hso Hok Hm Hpre Hsi Hn Hpost Hp8 Hsz8 Hsz Hpi1 Hpi2) as Hcs.
  rewrite Hsplit in Hcs. destruct Hcs as (h' & E & (Hseg' & Hm' & Ht' & Hu) & Hw1 & Hw2).
  assert (Hkeep : forall a z, a ∈ al -> fst (lv_block a) <= z < fst (lv_block a) + snd (lv_block a) ->
            fa_mem h' !! z = fa_mem h !! z).
  { intros a z Ha Hz. apply Hu. intros j Hj Hjz.
    destruct (live_free_apart _ _ _ j a Hv) as [Hd|Hd]; [set_solver|done|lia|lia]. }
  exists h'. split; [done|]. split; [|split_and!].
  - constructor; try done; [by rewrite Ht'| | | |].
    + by eapply sorted_above_replace.
    + rewrite !Forall_app. done.
    + apply Forall_cons. split; [by constructor|]. apply Forall_forall. intros a Ha.
      eapply live_ok_frame; [by apply (proj1 (Forall_forall _ _) Hl)|]. intros z Hz. by apply (Hkeep a).
    + intros z. rewrite <- Hc. rewrite !covers_app. simpl. specialize (Hcov z). lia.
  - intros a z Ha Hz. apply (Hkeep a); [done|].
    pose proof (proj1 (Forall_forall _ _) Hl a Ha) as []. unfold in_payload in Hz. lia.
  - done.
  - destruct Hoki. lia.
Qed.

Lemma alloc_run h fl al fuel layout_size layout_align k :
  let size := round_up layout_size 8 in
  heap_inv h fl al -> (length fl <= fuel)%nat ->
  Z.max layout_align 8 = 2 ^ k -> align_up layout_size 8 = Ret size -> request_ok k size ->
  match alloc_spec (2 ^ k) size fl with
  | None => alloc fuel h layout_size layout_align = Ret (0, h)
  | Some (p, md, fl') =>
      exists h', alloc fuel h layout_size layout_align = Ret (p, h') /\
        heap_inv h' fl' (mkLive p size md :: al) /\ payloads_kept h h' al /\ p mod 2 ^ k = 0 /\ 0 < p
  end.
Proof.
  cbv zeta. intros Hv Hf Hk Hal Hrq. destruct (Hv) as [Ht Hm Hseg Hso Hok Hl Hc].
  unfold alloc. rewrite Hk, Hal. cbn [mbind comp_bind].
  assert (Htry : forall i, i ∈ fl -> load (fa_mem h) (fst i) = Ret (snd i) /\
            can_allocate (fst i) (snd i) (2 ^ k) (round_up layout_size 8) = Ret (fits i (2 ^ k) (round_up layout_size 8))).
  { intros i Hi. pose proof (proj1 (Forall_forall _ _) Hok i Hi) as Hi'. split.
    - apply list_elem_of_split in Hi as (l1 & l2 & ->). apply seg_app in Hseg as (r & _ & Hr).
      destruct Hr as (_ & Hs & _). unfold load. by rewrite Hs.
    - by apply (can_allocate_spec base hi). }
  destruct (alloc_spec _ _ _) as [[[p md] fl']|] eqn:E.
  - apply alloc_spec_split in E as (pre & i & post & pieces & -> & Hmiss & Hfit & Hsplit & ->).
    destruct (carve_inv h pre i post al p k _ pieces md Hv Hrq Hfit Hsplit) as (h' & Ec & Hv' & Hkp & Hpk & Hp).
    exists h'. split; [|done]. erewrite (walk_hit fuel fa_mem _ pre i post); [done|done| | |].
    + rewrite length_app in Hf. simpl in Hf. lia.
    + intros j prev Hj. destruct (Htry j ltac:(set_solver)) as [E1 E2]. rewrite E1. cbn [mbind comp_bind]. rewrite E2. cbn [mbind comp_bind].
      by rewrite (proj1 (Forall_forall _ _) Hmiss j Hj).
    + destruct (Htry i ltac:(set_solver)) as [E1 E2]. rewrite E1. cbn [mbind comp_bind]. rewrite E2. cbn [mbind comp_bind]. rewrite Hfit.
      by rewrite Ec.
  - apply alloc_spec_none in E. rewrite (walk_miss fuel fa_mem _ fl); [done|done|done|].
    intros j prev Hj. destruct (Htry j Hj) as [E1 E2]. rewrite E1. cbn [mbind comp_bind]. rewrite E2. cbn [mbind comp_bind].
    by rewrite (proj1 (Forall_forall _ _) E j Hj).
Qed.

End Heap.
