(* ===== verification/HeapFree.v ===== *)
(** * Freeing: [dealloc] refines insertion with coalescing *)
From S2P Require Import Prelude Memory FreeList HeapSpec HeapProofs HeapInv.

(** The additions that do not overflow, one after the other. *)
Ltac ovf := repeat (rewrite add_ovf_ok by (unfold max_of; lia); cbn [unwrap mbind comp_bind]).

(** ** Insertion on lists *)

(** [x] right behind [k], whose successors are [post]. *)
Definition merge (x k : Z * Z) (post : list (Z * Z)) : list (Z * Z) :=
  match post with
  | j :: post' =>
      match fst k + snd k =? fst x, fst x + snd x =? fst j with
      | true, true => (fst k, snd k + (snd x + snd j)) :: post'
      | true, false => (fst k, snd k + snd x) :: post
      | false, true => k :: (fst x, snd x + snd j) :: post'
      | false, false => k :: x :: post
      end
  | [] => if fst k + snd k =? fst x then [(fst k, snd k + snd x)] else [k; x]
  end.

(** The block that [find_prev] finds, and where [insert_after] puts [x]. *)
Lemma insert_after_split fuel m x i fl :
  seg m (Some (fst i)) (i :: fl) None -> (length fl < fuel)%nat -> fst i < fst x ->
  exists pre k post, i :: fl = pre ++ k :: post /\ insert_after x i fl = pre ++ merge x k post /\
    find_prev fuel m (fst x) (fst i) = Ret (fst k) /\ fst k < fst x /\
    match post with [] => True | j :: _ => fst x <= fst j end.
Proof.
  revert fuel i. induction fl as [|j fl IH]; intros fuel i Hseg Hf Hi;
    destruct (seg_next _ _ _ _ Hseg) as (_ & _ & n & _ & Hn & Hl);
    (destruct fuel as [|fuel]; [simpl in Hf; lia|]); cbn [find_prev]; rewrite Hn; cbn [mbind comp_bind].
  - simpl in Hl. subst n. exists [], i, []. unfold merge. simpl. by split_and!.
  - destruct (seg_next _ _ _ _ Hl) as (-> & _). cbn [insert_after].
    destruct (Z.ltb_spec (fst j) (fst x)).
    + destruct (IH fuel j Hl) as (pre & k & post & -> & -> & -> & Hk & Hp); [simpl in Hf; lia|done|].
      by exists (i :: pre), k, post.
    + by exists [], i, (j :: fl).
Qed.

(** Joining adjacent intervals does not change what is covered. *)
Lemma iv_has_join a s t z : 0 <= s -> 0 <= t ->
  (if iv_has (a, s + t) z then 1 else 0) = (if iv_has (a, s) z then 1 else 0) + (if iv_has (a + s, t) z then 1 else 0).
Proof. intros Hs Ht. unfold iv_has. simpl. by_cases. Qed.

Section Heap.
Context (base hi : Z) (base_pos : 0 < base) (hi_max : hi <= 2 ^ 62).

Lemma merge_spec x k post lo :
  block_ok base hi x -> Forall (block_ok base hi) (k :: post) -> sorted_above lo (k :: post) ->
  fst k + snd k <= fst x -> match post with [] => True | j :: _ => fst x + snd x <= fst j end ->
  (forall z, covers (merge x k post) z = covers (k :: post) z + (if iv_has x z then 1 else 0)) /\
  Forall (block_ok base hi) (merge x k post) /\ sorted_above lo (merge x k post).
Proof.
  intros Hx Hok Hs Hkx Hxp. apply Forall_cons in Hok as [Hk Hpost]. destruct (Hx) as [Hx1 Hx2 Hx3 Hx4 Hx5], (Hk) as [Hk1 Hk2 Hk3 Hk4 Hk5].
  destruct Hs as [Hlo Hs]. unfold merge. destruct post as [|j post].
  - destruct (Z.eqb_spec (fst k + snd k) (fst x)) as [E|E]; (split; [|split]).
    + intros z. simpl. rewrite iv_has_join by lia. destruct x, k; simpl in *; subst; lia.
    + repeat constructor; simpl; try lia. Z.div_mod_to_equations. lia.
    + by split.
    + intros z. simpl. lia.
    + by repeat constructor.
    + simpl. split_and!; try done; lia.
  - apply Forall_cons in Hpost as [Hj Hpost]. destruct (Hj) as [Hj1 Hj2 Hj3 Hj4 Hj5]. destruct Hs as [Hlo' Hs]. simpl in Hlo'.
    destruct (Z.eqb_spec (fst k + snd k) (fst x)) as [E|E], (Z.eqb_spec (fst x + snd x) (fst j)) as [E'|E']; (split; [|split]).
    all: try (intros z; simpl; rewrite ?iv_has_join by lia; destruct x, k, j; simpl in *; subst; rewrite <- ?Z.add_assoc; lia).
    all: try (repeat (apply Forall_cons; split); try done; constructor; simpl; try lia; Z.div_mod_to_equations; lia).
    all: simpl; split_and!; first [done | lia | eapply sorted_above_eq; [|done]; lia].
Qed.

(** Replacing the end of a sorted list. *)
Lemma sorted_above_suffix lo pre l l' :
  sorted_above lo (pre ++ l) -> (forall lo', sorted_above lo' l -> sorted_above lo' l') -> sorted_above lo (pre ++ l').
Proof. intros Hs Hl. revert lo Hs. induction pre as [|j pre IH]; intros lo; simpl; [apply Hl|]. intros []. auto. Qed.

Lemma sorted_above_tail lo pre l :
  sorted_above lo (pre ++ l) -> Forall (fun i => 0 <= snd i) (pre ++ l) -> exists lo', sorted_above lo' l.
Proof. intros Hs Hf. destruct (sorted_above_app lo pre l Hs Hf) as (_ & lo' & _ & H & _). eauto. Qed.

(** A block disjoint from the list lies between its neighbours. *)
Lemma room_behind pre k post x lo :
  Forall (block_ok base hi) (pre ++ k :: post) -> sorted_above lo (pre ++ k :: post) -> block_ok base hi x ->
  (forall j, j ∈ pre ++ k :: post -> fst j + snd j <= fst x \/ fst x + snd x <= fst j) ->
  fst k < fst x -> match post with [] => True | j :: _ => fst x <= fst j end ->
  fst k + snd k <= fst x /\ forall j, j ∈ post -> fst x + snd x <= fst j.
Proof.
  intros Hok Hs [_ _ Hxm _ _] Hap Hkx Hp. split; [destruct (Hap k ltac:(set_solver)); lia|].
  assert (Hpos : Forall (fun i : Z * Z => 0 <= snd i) (pre ++ k :: post)).
  { eapply Forall_impl; [exact Hok|]. intros ? []. lia. }
  intros j Hj. assert (fst x <= fst j).
  { destruct post as [|j0 post]; [by apply not_elem_of_nil in Hj|]. apply elem_of_cons in Hj as [->|Hj]; [done|].
    destruct (sorted_above_tail lo (pre ++ [k]) (j0 :: post)) as [lo' [_ Hs0]]; [by rewrite <- app_assoc..|].
    apply Forall_app in Hpos as [_ Hpos]. apply Forall_cons in Hpos as [_ Hpos]. apply Forall_cons in Hpos as [Hj0 Hpos].
    pose proof (sorted_above_lt _ _ _ Hs0 Hpos Hj). simpl in Hj0. lia. }
  pose proof (proj1 (Forall_forall _ _) Hok j ltac:(set_solver)) as [].
  destruct (Hap j ltac:(set_solver)); lia.
Qed.

(** ** Insertion in memory

    [k] is the block that [find_prev] found, [x] the freed block, whose header
    [m] already holds. *)
Section Behind.
Context (m : gmap Z Z) (p : option Z) (pre : list (Z * Z)) (k : Z * Z) (post : list (Z * Z)) (x : Z * Z) (lo : Z) (q : option Z).
Context (Hmap : mapped m base hi) (Hok : Forall (block_ok base hi) (pre ++ k :: post))
        (Hx : block_ok base hi x) (Hsort : sorted_above lo (pre ++ k :: post))
        (Hpre : seg m p pre (Some (fst k))) (Hsk : m !! fst k = Some (snd k)) (Hnk : next_at m (fst k) = Some q)
        (Hpost : seg m q post None) (Hsx : m !! fst x = Some (snd x)) (Hkx : fst k + snd k <= fst x)
        (Hxp : forall j, j ∈ post -> fst x + snd x <= fst j).

(** Agreement with [m] outside the two headers. *)
Definition agrees (m' : gmap Z Z) : Prop :=
  forall z, z < fst k \/ fst k + 24 <= z < fst x \/ fst x + 24 <= z -> m' !! z = m !! z.

Lemma behind_geometry :
  block_ok base hi k /\ forall j, j ∈ pre -> 24 <= snd j /\ fst j + snd j < fst k.
Proof.
  pose proof Hok as Hok'. apply Forall_app in Hok' as [Hokpre Hokp]. apply Forall_cons in Hokp as [Hokk _].
  split; [done|]. intros j Hj. split; [by apply (bo_min base hi), (proj1 (Forall_forall _ _) Hokpre)|].
  apply (sorted_above_before lo pre (k :: post)); [done| |done|by left].
  eapply Forall_impl; [exact Hok|]. intros i []. lia.
Qed.

Lemma agrees_pre m' : agrees m' -> seg m' p pre (Some (fst k)).
Proof.
  intros Hz. destruct behind_geometry as [[] Hb]. destruct Hx. eapply seg_frame; [exact Hpre|].
  intros j z Hj ?. destruct (Hb j Hj). apply Hz. lia.
Qed.

Lemma agrees_post m' q' l : agrees m' -> (forall j, j ∈ l -> j ∈ post) -> seg m q' l None -> seg m' q' l None.
Proof.
  intros Hz Hl Hseg. destruct Hx. eapply seg_frame; [exact Hseg|].
  intros j z Hj ?. specialize (Hxp j (Hl j Hj)). apply Hz. lia.
Qed.

(** The block [k] keeps its place with a new size and successor. *)
Lemma behind_grow m' s q' l :
  agrees m' -> m' !! fst k = Some s -> next_at m' (fst k) = Some q' -> (forall j, j ∈ l -> j ∈ post) ->
  seg m q' l None -> seg m' p (pre ++ (fst k, s) :: l) None.
Proof.
  intros Hz Hs Hn Hl Hseg. apply seg_app. exists (Some (fst k)). split; [by apply agrees_pre|].
  split; [done|]. split; [done|]. exists q'. split; [done|]. by apply agrees_post.
Qed.

(** [x] becomes the successor of [k]. *)
Lemma behind_link m' s q' l :
  agrees m' -> mapped m' base hi -> m' !! fst k = Some (snd k) -> m' !! fst x = Some s ->
  next_at m' (fst x) = Some q' -> (forall j, j ∈ l -> j ∈ post) -> seg m q' l None ->
  exists m'', store_next m' (fst k) (Some (fst x)) = Ret m'' /\ mapped m'' base hi /\ agrees m'' /\
    seg m'' p (pre ++ k :: (fst x, s) :: l) None.
Proof.
  intros Hz Hm' Hs Hsx' Hn Hl Hseg. destruct behind_geometry as [[] _]. destruct Hx.
  destruct (store_next_spec base hi m' (fst k) (Some (fst x)) Hm') as (m'' & E & Hm'' & Hnk' & Hz'); [done|lia|lia|].
  assert (Ha : agrees m'') by (intros z Hout; rewrite Hz' by lia; by apply Hz).
  exists m''. split_and!; try done. apply seg_app. exists (Some (fst k)). split; [by apply agrees_pre|].
  split; [done|]. split; [rewrite Hz' by lia; exact Hs|]. exists (Some (fst x)). split; [done|].
  cbn [seg fst snd]. split; [done|]. split; [rewrite Hz' by lia; exact Hsx'|]. exists q'.
  split; [unfold next_at in *; rewrite !Hz' by lia; exact Hn|]. by apply agrees_post.
Qed.

Definition behind_done (m' : gmap Z Z) : Prop :=
  seg m' p (pre ++ merge x k post) None /\ mapped m' base hi /\ agrees m'.

Lemma agrees_insert a v m' : agrees m' -> fst k <= a < fst k + 24 \/ fst x <= a < fst x + 24 -> agrees (<[a := v]> m').
Proof. intros Hz Ha z Ho. destruct behind_geometry as [[] _]. destruct Hx. rewrite lookup_insert_ne by lia. by apply Hz. Qed.

Lemma agrees_store_next a m' m'' :
  agrees m' -> (a = fst k \/ a = fst x) -> (forall z, z <> a + 8 -> z <> a + 16 -> m'' !! z = m' !! z) -> agrees m''.
Proof. intros Hz Ha Hz' z Ho. destruct behind_geometry as [[] _]. destruct Hx. rewrite Hz' by lia. by apply Hz. Qed.

(** Sizes stay below the heap's length. *)
Lemma size_bound j : block_ok base hi j -> 24 <= snd j < 2 ^ 62 /\ 0 < fst j < 2 ^ 62.
Proof. intros []. lia. Qed.

(** Writing a block's size. *)
Lemma behind_size m' a s :
  agrees m' -> mapped m' base hi -> a = fst k \/ a = fst x ->
  store_size m' a s = Ret (<[a := s]> m') /\ mapped (<[a := s]> m') base hi /\ agrees (<[a := s]> m').
Proof.
  intros Hz Hm Ha. destruct behind_geometry as [[] _]. destruct Hx.
  destruct (store_spec base hi m' a s Hm) as [E Hm']; [destruct Ha; by subst|destruct Ha; subst; lia|].
  split_and!; [done|done|]. apply agrees_insert; [done|destruct Ha; subst; lia].
Qed.

(** Writing a block's successor. *)
Lemma behind_next m' a q' :
  agrees m' -> mapped m' base hi -> a = fst k \/ a = fst x ->
  exists m'', store_next m' a q' = Ret m'' /\ mapped m'' base hi /\ agrees m'' /\ next_at m'' a = Some q' /\
    forall z, z <> a + 8 -> z <> a + 16 -> m'' !! z = m' !! z.
Proof.
  intros Hz Hm Ha. destruct behind_geometry as [[] _]. destruct Hx.
  destruct (store_next_spec base hi m' a q' Hm) as (m'' & E & Hm'' & Hn & Hz');
    [destruct Ha; by subst|destruct Ha; subst; lia|destruct Ha; subst; lia|].
  exists m''. split_and!; try done. by eapply agrees_store_next.
Qed.

Lemma insert_behind_last :
  post = [] -> exists m', insert_behind m (fst k) (fst x) (snd x) (fst x) = Ret m' /\ behind_done m'.
Proof.
  intros Ep. destruct behind_geometry as [Hk _]. pose proof (size_bound k Hk). pose proof (size_bound x Hx).
  assert (Hrefl : agrees m) by done. pose proof Hpost as Hq. rewrite Ep in Hq. simpl in Hq.
  unfold insert_behind, load, behind_done. rewrite (load_next_spec _ _ _ Hnk), Hsk, Hq, Ep. cbn [unwrap mbind comp_bind merge].
  ovf.
  destruct (Z.eqb_spec (fst k + snd k) (fst x)) as [E|E].
  - ovf.
    destruct (behind_size m (fst k) (snd k + snd x)) as (-> & Hm1 & Ha1); [done..|by left|].
    eexists. split; [done|]. split; [|done]. apply (behind_grow _ _ None []); try done; [by map_look|..].
    + unfold next_at in *. rewrite !lookup_insert_ne by lia. by rewrite Hnk, Hq.
    + intros j Hj. by apply not_elem_of_nil in Hj.
  - destruct (behind_next m (fst x) None) as (m1 & -> & Hm1 & Ha1 & Hn1 & Hz1); [done..|by right|]. cbn [mbind comp_bind].
    destruct (behind_link m1 (snd x) None []) as (m2 & -> & Hm2 & Ha2 & Hs2); try done; [by rewrite Hz1 by lia..| |].
    + intros j Hj. by apply not_elem_of_nil in Hj.
    + rewrite <- surjective_pairing in Hs2. by eexists.
Qed.

Lemma insert_behind_middle j post' :
  post = j :: post' -> exists m', insert_behind m (fst k) (fst x) (snd x) (fst x) = Ret m' /\ behind_done m'.
Proof.
  intros Ep. destruct behind_geometry as [Hk _]. pose proof (size_bound k Hk). pose proof (size_bound x Hx).
  assert (Hrefl : agrees m) by done. pose proof Hpost as Hq. rewrite Ep in Hq.
  destruct (seg_next _ _ _ _ Hq) as (Eq & Hsj & n & Hnj & Hlj & Hl).
  assert (Hin : forall i, i ∈ j :: post' -> i ∈ post) by (by rewrite Ep).
  assert (Hin' : forall i, i ∈ post' -> i ∈ post) by (intros i Hi; apply Hin; by right).
  assert (Hj : block_ok base hi j) by (apply (proj1 (Forall_forall _ _) Hok); set_solver).
  pose proof (size_bound j Hj). specialize (Hxp j (Hin j ltac:(by left))) as Hxj.
  unfold insert_behind, load, behind_done. rewrite (load_next_spec _ _ _ Hnk), Hsk, Eq, Ep. cbn [unwrap mbind comp_bind merge].
  ovf.
  destruct (Z.eqb_spec (fst k + snd k) (fst x)) as [E|E], (Z.eqb_spec (fst x + snd x) (fst j)) as [E'|E'];
    cbn [unwrap mbind comp_bind]; rewrite ?Hsj, ?Hsx; cbn [unwrap mbind comp_bind].
  - ovf.
    destruct (behind_size m (fst k) (snd k + (snd x + snd j))) as (-> & Hm1 & Ha1); [done..|by left|]. cbn [mbind comp_bind].
    assert (Hn1 : next_at (<[fst k := snd k + (snd x + snd j)]> m) (fst j) = Some n).
    { unfold next_at in *. by rewrite !lookup_insert_ne by lia. }
    rewrite (load_next_spec _ _ _ Hn1). cbn [mbind comp_bind].
    destruct (behind_next _ (fst k) n Ha1 Hm1) as (m2 & -> & Hm2 & Ha2 & Hn2 & Hz2); [by left|].
    eexists. split; [done|]. split; [|done]. apply (behind_grow _ _ n post'); try done. rewrite Hz2 by lia. by map_look.
  - ovf.
    destruct (behind_size m (fst k) (snd k + snd x)) as (-> & Hm1 & Ha1); [done..|by left|].
    eexists. split; [done|]. split; [|done]. apply (behind_grow _ _ q (j :: post')); try done; [by map_look|].
    unfold next_at in *. by rewrite !lookup_insert_ne by lia.
  - ovf.
    destruct (behind_size m (fst x) (snd x + snd j)) as (-> & Hm1 & Ha1); [done..|by right|]. cbn [mbind comp_bind].
    assert (Hn1 : next_at (<[fst x := snd x + snd j]> m) (fst j) = Some n).
    { unfold next_at in *. by rewrite !lookup_insert_ne by lia. }
    rewrite (load_next_spec _ _ _ Hn1). cbn [mbind comp_bind].
    destruct (behind_next _ (fst x) n Ha1 Hm1) as (m2 & -> & Hm2 & Ha2 & Hn2 & Hz2); [by right|]. cbn [mbind comp_bind].
    destruct (behind_link m2 (snd x + snd j) n post') as (m3 & -> & Hm3 & Ha3 & Hs3); try done.
    + rewrite Hz2 by lia. by map_look.
    + rewrite Hz2 by lia. by map_look.
    + by eexists.
  - destruct (behind_next m (fst x) (Some (fst j))) as (m1 & -> & Hm1 & Ha1 & Hn1 & Hz1); [done..|by right|]. cbn [mbind comp_bind].
    destruct (behind_link m1 (snd x) (Some (fst j)) (j :: post')) as (m2 & -> & Hm2 & Ha2 & Hs2); try done.
    + by rewrite Hz1 by lia.
    + by rewrite Hz1 by lia.
    + by rewrite <- Eq.
    + rewrite <- surjective_pairing in Hs2. by eexists.
Qed.

Lemma insert_behind_spec :
  exists m', insert_behind m (fst k) (fst x) (snd x) (fst x) = Ret m' /\ behind_done m'.
Proof.
  assert (post = [] \/ exists j post', post = j :: post') as [E|(j & post' & E)] by (destruct post; eauto).
  - by apply insert_behind_last.
  - by eapply insert_behind_middle.
Qed.
End Behind.

(** ** In front of the list *)
Lemma push_front_spec m x i fl lo :
  mapped m base hi -> block_ok base hi x -> Forall (block_ok base hi) (i :: fl) -> sorted_above lo (i :: fl) ->
  m !! fst x = Some (snd x) -> seg m (Some (fst i)) (i :: fl) None -> fst x + snd x <= fst i ->
  exists m', push_front m (fst i) (fst x) (snd x) (fst x) = Ret m' /\ mapped m' base hi /\
    seg m' (Some (fst x)) (if fst x + snd x =? fst i then (fst x, snd x + snd i) :: fl else x :: i :: fl) None /\
    forall z, z < fst x \/ fst x + 24 <= z -> m' !! z = m !! z.
Proof.
  intros Hm Hx Hok Hs Hsx Hseg Hxi. pose proof (size_bound x Hx). apply Forall_cons in Hok as [Hi Hok].
  pose proof (size_bound i Hi). destruct Hs as [_ Hs]. pose proof Hx as [Hx8 _ _ Hxlo Hxhi].
  destruct (seg_next _ _ _ _ Hseg) as (_ & Hsi & n & Hn & Hln & Hl).
  assert (Hback : forall j, j ∈ fl -> fst i + snd i < fst j).
  { intros j Hj. eapply sorted_above_lt; [exact Hs| |done]. eapply Forall_impl; [exact Hok|]. intros ? []. lia. }
  unfold push_front, load. ovf. destruct (Z.eqb_spec (fst x + snd x) (fst i)) as [E|E].
  - rewrite Hsx, Hsi. cbn [unwrap mbind comp_bind]. ovf.
    destruct (store_spec base hi m (fst x) (snd x + snd i) Hm Hx8 ltac:(lia)) as [E1 Hm1].
    unfold store_size. rewrite E1. cbn [mbind comp_bind].
    rewrite (load_next_spec _ _ n) by (unfold next_at in *; by rewrite !lookup_insert_ne by lia). cbn [mbind comp_bind].
    destruct (store_next_spec base hi _ (fst x) n Hm1 Hx8) as (m2 & E2 & Hm2 & Hn2 & Hz2); [lia|lia|].
    exists m2. split_and!; [done|done| |].
    + split; [done|]. split; [rewrite Hz2 by (simpl; lia); by map_look|]. exists n. split; [done|].
      eapply seg_frame; [exact Hl|]. intros j z Hj Hjz. specialize (Hback j Hj). rewrite Hz2 by lia. by map_look.
    + intros z Hz. rewrite Hz2 by lia. by map_look.
  - destruct (store_next_spec base hi m (fst x) (Some (fst i)) Hm Hx8) as (m2 & E2 & Hm2 & Hn2 & Hz2); [lia|lia|].
    exists m2. split_and!; [done|done| |].
    + split; [done|]. split; [by rewrite Hz2 by lia|]. exists (Some (fst i)). split; [done|].
      eapply seg_frame; [exact Hseg|]. intros j z Hj Hjz. apply Hz2.
      * apply elem_of_cons in Hj as [->|Hj]; [lia|]. specialize (Hback j Hj). lia.
      * apply elem_of_cons in Hj as [->|Hj]; [lia|]. specialize (Hback j Hj). lia.
    + intros z Hz. by rewrite Hz2 by lia.
Qed.

(** ** [dealloc]

    [x] is the block of an allocation that is no longer live; what putting it
    into the list [fl] leads to: *)
Record inserted (m : gmap Z Z) (x : Z * Z) (fl : list (Z * Z)) (m' : gmap Z Z) (head' : option Z) (fl' : list (Z * Z)) : Prop := {
  is_seg : seg m' head' fl' None;
  is_mapped : mapped m' base hi;
  is_sorted : sorted_above (base - 1) fl';
  is_ok : Forall (block_ok base hi) fl';
  is_covers : forall z, covers fl' z = covers fl z + (if iv_has x z then 1 else 0);
  is_frame : forall z, ~ fst x <= z < fst x + snd x -> (forall j, j ∈ fl -> ~ fst j <= z < fst j + snd j) -> m' !! z = m !! z;
}.

Section Insert.
Context (m : gmap Z Z) (x : Z * Z) (i : Z * Z) (fl : list (Z * Z)).
Context (Hm : mapped m base hi) (Hseg : seg m (Some (fst i)) (i :: fl) None)
        (Hs : sorted_above (base - 1) (i :: fl)) (Hok : Forall (block_ok base hi) (i :: fl)) (Hx : block_ok base hi x)
        (Hap : forall j, j ∈ i :: fl -> fst j + snd j <= fst x \/ fst x + snd x <= fst j)
        (Hsx : m !! fst x = Some (snd x)).

Lemma insert_front :
  fst x < fst i ->
  exists m', push_front m (fst i) (fst x) (snd x) (fst x) = Ret m' /\
    inserted m x (i :: fl) m' (Some (fst x)) (if fst x + snd x =? fst i then (fst x, snd x + snd i) :: fl else x :: i :: fl).
Proof.
  intros Hlt. pose proof (size_bound x Hx). pose proof Hx as [Hx8 Hxs Hxm Hxlo Hxhi].
  pose proof (proj1 (Forall_cons _ _ _) Hok) as [[Hi8 His Him Hilo Hihi] Hokf]. destruct Hs as [Hlo Hsf].
  specialize (Hap i ltac:(by left)) as Hxi.
  destruct (push_front_spec m x i fl (base - 1)) as (m' & E & Hm' & Hseg' & Hz); [done..|lia|].
  exists m'. split; [done|]. destruct (Z.eqb_spec (fst x + snd x) (fst i)) as [E'|E'].
  - constructor; [done..| | | |].
    + split; [simpl; lia|]. simpl. by replace (fst x + (snd x + snd i)) with (fst i + snd i) by lia.
    + constructor; [|done]. constructor; simpl; try lia. Z.div_mod_to_equations. lia.
    + intros z. simpl. rewrite iv_has_join by lia. rewrite E'. destruct x, i; simpl. lia.
    + intros z Hout _. apply Hz. lia.
  - constructor; [done..| | | |].
    + simpl. split_and!; [lia|lia|done].
    + by repeat constructor.
    + intros z. simpl. lia.
    + intros z Hout _. apply Hz. lia.
Qed.

Lemma insert_back fuel :
  (length fl < fuel)%nat -> fst i <= fst x ->
  exists k m', find_prev fuel m (fst x) (fst i) = Ret k /\ insert_behind m k (fst x) (snd x) (fst x) = Ret m' /\
    inserted m x (i :: fl) m' (Some (fst i)) (insert_after x i fl).
Proof.
  intros Hf Hle. pose proof (proj1 (Forall_cons _ _ _) Hok) as [[Hi8 His Him Hilo Hihi] _].
  destruct (insert_after_split fuel m x i fl Hseg Hf) as (pre & k & post & El & -> & Hfp & Hkx & Hp).
  { destruct Hx, (Hap i ltac:(by left)); lia. }
  pose proof Hok as Hok'. pose proof Hs as Hs'. pose proof Hseg as Hseg'. pose proof Hap as Hap'. rewrite El in Hok', Hs', Hseg', Hap' |- *.
  apply seg_app in Hseg' as (r & Hpre & (-> & Hsk & q & Hnk & Hpost)).
  pose proof Hok' as Hok2. apply Forall_app in Hok2 as [Hokpre Hokk].
  destruct (room_behind pre k post x (base - 1)) as [Hkx' Hxp]; [done..|].
  destruct (insert_behind_spec m (Some (fst i)) pre k post x (base - 1) q) as (m' & E & Hseg2 & Hm2 & Hz); try done.
  assert (Hh : match post with [] => True | j :: _ => fst x + snd x <= fst j end).
  { destruct post as [|j post]; [done|]. apply Hxp. by left. }
  exists (fst k), m'. split; [done|]. split; [done|]. constructor; try done.
  - apply (sorted_above_suffix _ pre (k :: post)); [done|]. intros lo' Hlo'. by apply merge_spec.
  - apply Forall_app. split; [done|]. apply Forall_cons in Hokk as Hokk'.
    destruct (sorted_above_tail _ _ _ Hs') as [lo' Hlo']; [|by apply (merge_spec x k post lo')].
    eapply Forall_impl; [exact Hok'|]. intros ? []. lia.
  - intros z. rewrite !covers_app. destruct (sorted_above_tail _ _ _ Hs') as [lo' Hlo'].
    { eapply Forall_impl; [exact Hok'|]. intros ? []. lia. }
    destruct (merge_spec x k post lo') as [Hc _]; try done. rewrite Hc. lia.
  - intros z Ho1 Ho2. apply Hz. specialize (Ho2 k ltac:(set_solver)).
    apply Forall_cons in Hokk as [[] _]. destruct Hx. lia.
Qed.
End Insert.

Lemma insert_block_spec fuel m head fl x :
  mapped m base hi -> seg m head fl None -> (length fl <= fuel)%nat ->
  sorted_above (base - 1) fl -> Forall (block_ok base hi) fl -> block_ok base hi x ->
  (forall j, j ∈ fl -> fst j + snd j <= fst x \/ fst x + snd x <= fst j) ->
  m !! fst x = Some (snd x) -> next_at m (fst x) = Some None ->
  exists m' head', insert_block fuel m head (fst x) (snd x) (fst x) = Ret (m', head') /\
    inserted m x fl m' head' (dealloc_spec x fl).
Proof.
  intros Hm Hseg Hf Hs Hok Hx Hap Hsx Hnx. destruct fl as [|i fl].
  - simpl in Hseg. subst head. exists m, (Some (fst x)). split; [done|]. pose proof Hx as [].
    constructor; try done; simpl; [by eauto|by split; [lia|]|by repeat constructor|intros z; lia].
  - destruct (seg_next _ _ _ _ Hseg) as (-> & _). cbn [insert_block dealloc_spec].
    destruct (Z.ltb_spec (fst x) (fst i)).
    + destruct (insert_front m x i fl) as (m' & E & Hi); try done. rewrite E. by eexists _, _.
    + destruct (insert_back m x i fl Hm Hseg Hs Hok Hx Hap Hsx fuel) as (k & m' & E1 & E2 & Hi); [simpl in Hf; lia|done|].
      rewrite E1. cbn [mbind comp_bind]. rewrite E2. by eexists _, _.
Qed.

Lemma read_metadata_spec m a :
  live_ok base hi m a -> read_metadata m (lv_ptr a) = Ret (mkMetaData (fst (lv_block a)) (snd (lv_block a))).
Proof.
  intros [[] ? ? ? ? E1 E2]. unfold read_metadata, size_of_AllocationMetaData, load.
  rewrite sub_ovf_ok by lia. cbn [mbind comp_bind]. rewrite E1. cbn [unwrap mbind comp_bind].
  replace (lv_ptr a - 16 + 8) with (lv_ptr a - 8) by lia. by rewrite E2.
Qed.

Lemma dealloc_run h fl al1 a al2 fuel :
  heap_inv base hi h fl (al1 ++ a :: al2) -> (length fl <= fuel)%nat ->
  exists h', dealloc fuel h (lv_ptr a) = Ret h' /\
    heap_inv base hi h' (dealloc_spec (lv_block a) fl) (al1 ++ al2) /\ payloads_kept h h' (al1 ++ al2).
Proof.
  intros Hv Hf. pose proof Hv as [Ht Hm Hseg Hs Hok Hl Hc]. rewrite Forall_forall in Hl.
  pose proof (Hl a ltac:(set_solver)) as Ha. pose proof (lo_block _ _ _ _ Ha) as Hx. set (x := lv_block a) in *.
  pose proof (size_bound x Hx). pose proof Hx as [Hx8 Hxs Hxm Hxlo Hxhi].
  unfold dealloc. rewrite (read_metadata_spec _ _ Ha). cbn [mbind comp_bind md_size md_start_addr].
  fold x. rewrite AlignedPtr_new_aligned by (done || lia). cbn [mbind comp_bind].
  destruct (store_header_spec base hi (fa_mem h) (fst x) (snd x) None) as (m1 & m2 & E1 & E2 & Hm2 & Hsx & Hnx & Hz); [done..|lia|].
  rewrite E1. cbn [mbind comp_bind]. rewrite E2. cbn [mbind comp_bind].
  assert (Hap : forall j, j ∈ fl -> fst j + snd j <= fst x \/ fst x + snd x <= fst j).
  { intros j Hj. destruct (live_free_apart base hi h fl (al1 ++ a :: al2) j a); set_solver. }
  assert (Hseg2 : seg m2 (fa_head h) fl None).
  { eapply seg_frame; [exact Hseg|]. intros j z Hj Hjz. apply Hz.
    pose proof (proj1 (Forall_forall _ _) Hok j Hj) as []. destruct (Hap j Hj); lia. }
  destruct (insert_block_spec fuel m2 (fa_head h) fl x) as (m' & head' & -> & [Hseg' Hm' Hs' Hok' Hc' Hfr]); try done.
  cbn [mbind comp_bind]. eexists. split; [done|].
  assert (Hapl : forall b, b ∈ al1 ++ al2 ->
            fst (lv_block b) + snd (lv_block b) <= fst x \/ fst x + snd x <= fst (lv_block b)).
  { intros b Hb. exact (live_live_apart base hi base_pos hi_max h fl al1 a al2 b Hv Hb). }
  assert (Hkeep : forall b z, b ∈ al1 ++ al2 -> fst (lv_block b) <= z < fst (lv_block b) + snd (lv_block b) ->
            m' !! z = fa_mem h !! z).
  { intros b z Hb Hbz. rewrite Hfr.
    - apply Hz. destruct (Hapl b Hb); lia.
    - destruct (Hapl b Hb); lia.
    - intros j Hj. destruct (live_free_apart base hi h fl (al1 ++ a :: al2) j b Hv Hj ltac:(set_solver)); lia. }
  split.
  - constructor; try done.
    + apply Forall_forall. intros b Hb. eapply live_ok_frame; [apply Hl; set_solver|]. intros z. by apply Hkeep.
    + intros z. rewrite <- Hc, !covers_app, Hc', !map_app, !covers_app. simpl. fold x. lia.
  - intros b z Hb Hbz. apply (Hkeep b); [done|]. pose proof (Hl b ltac:(set_solver)) as []. unfold in_payload in Hbz. lia.
Qed.
End Heap.
