(* ===== verification/HeapProps.v ===== *)
(** * What the allocator guarantees

    The claims about [alloc], [dealloc], [init] and [stats], and the safety of
    every sequence of client steps. *)
From S2P Require Import Prelude Memory FreeList HeapSpec HeapProofs HeapInv HeapFree.

(** ** Freeing what was just allocated *)
Ltac iv_cases :=
  repeat match goal with
  | |- context [?a <? ?b] => destruct (Z.ltb_spec a b)
  | |- context [?a =? ?b] => destruct (Z.eqb_spec a b)
  end; try lia; simpl.

Ltac iv_eq :=
  repeat match goal with |- @eq (list _) (_ :: _) (_ :: _) => f_equal end;
  try done; try (destruct_and?; match goal with |- @eq (_ * _) _ ?i => destruct i; simpl in *; f_equal; lia end).

Section Undo.
Context (i : Z * Z) (p size : Z) (pieces : list (Z * Z)) (md : Z * Z).
Context (Hmd : split i p size = (pieces, md)) (Hsz : 0 < size) (Hp : fst i + 16 <= p) (Hend : p + size <= fst i + snd i).

(** The freed block starts inside the block it was carved from. *)
Lemma split_behind k pre post :
  sorted_above (fst k + snd k) (pre ++ i :: post) -> Forall (fun k => 24 <= snd k) (pre ++ i :: post) -> 24 <= snd k ->
  fst k < fst md.
Proof.
  intros Hs Hf Hk. assert (Hki : fst k + snd k < fst i).
  { eapply sorted_above_lt; [exact Hs| |set_solver]. eapply Forall_impl; [exact Hf|]. simpl. intros. lia. }
  unfold split in Hmd.
  destruct (Z.leb_spec 24 (p - 16 - fst i)), (Z.leb_spec 24 (fst i + snd i - (p + size)));
    injection Hmd as <- <-; simpl; lia.
Qed.

Lemma insert_after_undo j pre post :
  24 <= snd j -> sorted_above (fst j + snd j) (pre ++ i :: post) -> Forall (fun k => 24 <= snd k) (pre ++ i :: post) ->
  insert_after md j (pre ++ pieces ++ post) = j :: pre ++ i :: post.
Proof.
  revert j. induction pre as [|k pre IH]; intros j Hj Hs Hf; simpl in Hs; apply Forall_cons in Hf as [Hk Hf].
  - destruct Hs as [Hji Hs]. unfold split in Hmd. simpl in Hs.
    destruct (Z.leb_spec 24 (p - 16 - fst i)), (Z.leb_spec 24 (fst i + snd i - (p + size)));
      injection Hmd as <- <-; destruct post as [|l post]; simpl in Hs; try destruct Hs;
      simpl; iv_cases; iv_eq.
  - destruct Hs as [Hjk Hs]. assert (Hkm : fst k < fst md) by (by eapply split_behind).
    simpl. destruct (Z.ltb_spec (fst k) (fst md)); [|lia]. f_equal. by apply IH.
Qed.

Lemma dealloc_undo lo pre post :
  sorted_above lo (pre ++ i :: post) -> Forall (fun k => 24 <= snd k) (pre ++ i :: post) ->
  dealloc_spec md (pre ++ pieces ++ post) = pre ++ i :: post.
Proof.
  intros Hs Hf. destruct pre as [|k pre]; simpl in Hs; apply Forall_cons in Hf as [Hk Hf].
  - destruct Hs as [Hji Hs]. unfold split in Hmd. simpl in Hs.
    destruct (Z.leb_spec 24 (p - 16 - fst i)), (Z.leb_spec 24 (fst i + snd i - (p + size)));
      injection Hmd as <- <-; destruct post as [|l post]; simpl in Hs; try destruct Hs; simpl; iv_cases; iv_eq.
  - destruct Hs as [Hjk Hs]. assert (Hkm : fst k < fst md) by (by eapply split_behind).
    simpl. destruct (Z.ltb_spec (fst md) (fst k)); [lia|]. by apply insert_after_undo.
Qed.
End Undo.

(** Freeing an allocation directly gives the free list back. *)
Lemma dealloc_alloc_spec base hi k size fl p md fl' :
  sorted_above (base - 1) fl -> Forall (block_ok base hi) fl -> 0 < size -> 0 <= k ->
  alloc_spec (2 ^ k) size fl = Some (p, md, fl') -> dealloc_spec md fl' = fl.
Proof.
  intros Hs Hok Hsz Hk E. apply alloc_spec_split in E as (pre & i & post & pieces & -> & _ & Hfit & Hsp & ->).
  assert (Hf : Forall (fun k => 24 <= snd k) (pre ++ i :: post)) by (eapply Forall_impl; [exact Hok|by intros ? []]).
  unfold fits in Hfit. destruct (round_up_spec (fst i + 16) k Hk) as [Hr _].
  destruct (Z.leb_spec (round_up (fst i + 16) (2 ^ k) + size) (fst i + snd i)); [|done]. injection Hfit as <-.
  eapply dealloc_undo; [done|lia|lia|lia|done|done].
Qed.

(** ** Counting bytes *)
Fixpoint csum (f : Z -> Z) (lo : Z) (n : nat) : Z :=
  match n with O => 0 | S n => f lo + csum f (lo + 1) n end.

Lemma csum_ext f g lo n : (forall z, f z = g z) -> csum f lo n = csum g lo n.
Proof. intros Hfg. revert lo. induction n as [|n IH]; intros lo; simpl; [done|]. by rewrite Hfg, IH. Qed.

Lemma csum_add f g lo n : csum (fun z => f z + g z) lo n = csum f lo n + csum g lo n.
Proof. revert lo. induction n as [|n IH]; intros lo; simpl; [done|]. rewrite IH. lia. Qed.

Lemma csum_iv a s lo n :
  csum (fun z => if iv_has (a, s) z then 1 else 0) lo n = Z.max 0 (Z.min (a + s) (lo + Z.of_nat n) - Z.max a lo).
Proof.
  revert lo. induction n as [|n IH]; intros lo; cbn [csum]; [lia|]. rewrite IH. unfold iv_has. cbn [fst snd]. by_cases.
Qed.

Definition sizes (l : list (Z * Z)) : Z := foldr (fun i s => snd i + s) 0 l.

Lemma csum_covers base hi l :
  Forall (block_ok base hi) l -> csum (covers l) base (Z.to_nat (hi - base)) = sizes l.
Proof.
  induction 1 as [|[a s] l [] Hl IH]; simpl.
  - generalize base at 1. induction (Z.to_nat _) as [|n IHn]; intros b; simpl; [done|]. by rewrite IHn.
  - rewrite csum_add, csum_iv, IH. simpl in *. lia.
Qed.

Lemma sizes_app l1 l2 : sizes (l1 ++ l2) = sizes l1 + sizes l2.
Proof. induction l1 as [|i l1 IH]; simpl; [done|]. rewrite IH. lia. Qed.

Lemma sizes_length base hi l : Forall (block_ok base hi) l -> 24 * Z.of_nat (length l) <= sizes l.
Proof. induction 1 as [|i l [] Hl IH]; simpl; lia. Qed.

Section Heap.
Context (base hi : Z) (base_pos : 0 < base) (hi_max : hi <= 2 ^ 62).

Lemma live_blocks_ok h fl al : heap_inv base hi h fl al -> Forall (block_ok base hi) (map lv_block al).
Proof. intros Hv. apply Forall_map. eapply Forall_impl; [exact (hv_live _ _ _ _ _ Hv)|]. by intros a []. Qed.

(** Every byte is free or belongs to an allocation. *)
Lemma heap_accounts h fl al : heap_inv base hi h fl al -> base <= hi ->
  sizes fl + sizes (map lv_block al) = hi - base.
Proof.
  intros Hv Hle. rewrite <- sizes_app, <- (csum_covers base hi).
  - rewrite (csum_ext _ (fun z => if iv_has (base, hi - base) z then 1 else 0)); [rewrite csum_iv; lia|].
    intros z. rewrite (hv_covers _ _ _ _ _ Hv). unfold iv_has. cbn [fst snd]. by_cases.
  - apply Forall_app. split; [exact (hv_free _ _ _ _ _ Hv)|exact (live_blocks_ok _ _ _ Hv)].
Qed.

Lemma heap_length h fl al : heap_inv base hi h fl al -> base <= hi -> 24 * Z.of_nat (length fl) <= hi - base.
Proof.
  intros Hv Hle. rewrite <- (heap_accounts h fl al Hv Hle).
  pose proof (sizes_length _ _ _ (hv_free _ _ _ _ _ Hv)). pose proof (sizes_length _ _ _ (live_blocks_ok _ _ _ Hv)). lia.
Qed.

(** ** The statistics *)
Definition largest (l : list (Z * Z)) : Z := foldl (fun acc i => Z.max acc (snd i)) 0 l.

Lemma stats_run h fl al fuel :
  heap_inv base hi h fl al -> base <= hi -> (length fl <= fuel)%nat ->
  stats fuel h = Ret (mkStats (hi - base) (sizes (map lv_block al)) (sizes fl) (Z.of_nat (length fl)) (largest fl)).
Proof.
  intros Hv Hle Hf. pose proof (heap_accounts h fl al Hv Hle) as Hsum. pose proof (heap_length h fl al Hv Hle) as Hlen.
  pose proof (sizes_length _ _ _ (live_blocks_ok _ _ _ Hv)) as Hal. destruct Hv as [Ht Hm Hseg Hs Hok Hl Hc].
  pose (g := fun (acc : Z * Z * Z) (i : Z * Z) => (acc.1.1 + snd i, acc.1.2 + 1, Z.max acc.2 (snd i))).
  assert (Hg : forall l acc, foldl g acc l = (acc.1.1 + sizes l, acc.1.2 + Z.of_nat (length l), foldl (fun acc i => Z.max acc (snd i)) acc.2 l)).
  { induction l as [|i l IH]; intros [[a b] c]; simpl; [by rewrite !Z.add_0_r|].
    rewrite IH. simpl. f_equal. f_equal; lia. }
  unfold stats. rewrite (walk_fold fuel (fun _ => fa_mem h) _ g (fa_mem h) fl _ _ _ Hseg Hf).
  - cbn [mbind comp_bind]. rewrite Hg. simpl. f_equal. f_equal; try done; unfold saturating_sub; lia.
  - intros pre i post E. split; [done|]. intros prev. rewrite foldl_app. simpl. rewrite (Hg pre (0, 0, 0)). cbn [fst snd].
    rewrite E in *. apply seg_app in Hseg as (r & _ & (_ & Hsi & _)). unfold load. rewrite Hsi. cbn [unwrap mbind comp_bind].
    rewrite sizes_app in Hsum. simpl in Hsum. rewrite length_app in Hlen. simpl in Hlen.
    apply Forall_app in Hok as [Hp Hok]. apply Forall_cons in Hok as [[] Hok].
    pose proof (sizes_length _ _ _ Hp). pose proof (sizes_length _ _ _ Hok).
    rewrite add_ovf_ok by (unfold max_of; lia). cbn [mbind comp_bind].
    rewrite add_ovf_ok by (unfold max_of; lia). done.
Qed.

(** ** Client writes *)
Lemma write_inv h fl al1 a al2 z v :
  heap_inv base hi h fl (al1 ++ a :: al2) -> in_payload a z ->
  heap_inv base hi (with_mem h (<[z := v]> (fa_mem h))) fl (al1 ++ a :: al2).
Proof.
  intros Hv Hz. pose proof Hv as [Ht Hm Hseg Hs Hok Hl Hc]. rewrite Forall_forall in Hl.
  pose proof (Hl a ltac:(set_solver)) as Ha. unfold in_payload in Hz.
  constructor; try done; simpl.
  - by apply mapped_insert.
  - eapply seg_frame; [exact Hseg|]. intros j y Hj Hy. rewrite lookup_insert_ne; [done|].
    pose proof (proj1 (Forall_forall _ _) Hok j Hj) as []. destruct Ha.
    destruct (live_free_apart base hi h fl (al1 ++ a :: al2) j a Hv Hj ltac:(set_solver)); lia.
  - apply Forall_forall. intros b Hb. assert (b ∈ al1 ++ al2 \/ b = a) as [Hin| ->] by set_solver.
    + eapply live_ok_frame; [by apply Hl|]. intros y Hy. rewrite lookup_insert_ne; [done|]. destruct Ha.
      destruct (live_live_apart base hi base_pos hi_max h fl al1 a al2 b Hv Hin); lia.
    + destruct Ha. constructor; try done; by rewrite lookup_insert_ne by lia.
Qed.
End Heap.

(** What is aligned for the allocator is aligned as was asked. *)
Lemma layout_aligned s a k p : layout_ok s a -> Z.max a 8 = 2 ^ k -> p mod 2 ^ k = 0 -> p mod a = 0.
Proof.
  intros (_ & j & Hj & -> & _) Hk Hp. apply (mod_pow_le p j k); [|lia|done].
  destruct (Z.le_gt_cases j k); [done|]. assert (2 ^ k < 2 ^ j) by (apply Z.pow_lt_mono_r; lia). lia.
Qed.

(** ** Claims *)

(** C18: [alloc] is first fit.  On a heap whose free list is [fl], it takes the
    first block in which the aligned payload fits behind the 16 bytes of
    metadata, returns the null pointer exactly when no block fits, and hands
    out an interval disjoint from every live allocation, whose payload it does
    not touch. *)
Theorem alloc_implements_first_fit base hi h fl al fuel layout_size layout_align :
  0 < base -> hi <= 2 ^ 62 -> heap_inv base hi h fl al -> (length fl <= fuel)%nat ->
  layout_ok layout_size layout_align ->
  let size := round_up layout_size 8 in
  match alloc_spec (Z.max layout_align 8) size fl with
  | None => alloc fuel h layout_size layout_align = Ret (0, h)
  | Some (p, md, fl') =>
      exists h', alloc fuel h layout_size layout_align = Ret (p, h') /\
        heap_inv base hi h' fl' (mkLive p size md :: al) /\ payloads_kept h h' al /\
        p mod layout_align = 0 /\ 0 < p
  end.
Proof.
  intros Hb Hh Hv Hf Hly. cbv zeta. destruct (layout_request _ _ Hly) as (k & Hk & Hal & Hrq).
  pose proof (alloc_run base hi Hb Hh h fl al fuel layout_size layout_align k Hv Hf Hk Hal Hrq) as Hrun.
  rewrite Hk. destruct (alloc_spec _ _ _) as [[[p md] fl']|]; [|done].
  destruct Hrun as (h' & E & Hv' & Hkp & Hpk & Hp). exists h'. split_and!; try done.
  destruct Hly as (_ & j & Hj & -> & _). apply (mod_pow_le p j k); [|lia|done].
  destruct (Z.le_gt_cases j k); [done|]. assert (2 ^ k < 2 ^ j) by (apply Z.pow_lt_mono_r; lia). lia.
Qed.

(** C19: [dealloc] puts the block of a live allocation back in address order,
    joined with the free block before it, the one behind it or both when they
    touch, and leaves the payload of every other allocation alone. *)
Theorem dealloc_implements_coalescing base hi h fl al1 a al2 fuel :
  0 < base -> hi <= 2 ^ 62 -> heap_inv base hi h fl (al1 ++ a :: al2) -> (length fl <= fuel)%nat ->
  exists h', dealloc fuel h (lv_ptr a) = Ret h' /\
    heap_inv base hi h' (dealloc_spec (lv_block a) fl) (al1 ++ al2) /\ payloads_kept h h' (al1 ++ al2).
Proof. intros Hb Hh. by apply dealloc_run. Qed.

(** Freeing an allocation right after making it gives back the same free
    list, so nothing is lost to fragmentation or padding, and the statistics
    are what they were. *)
Theorem dealloc_undoes_alloc base hi h fl al fuel layout_size layout_align p h1 :
  0 < base -> base <= hi <= 2 ^ 62 -> heap_inv base hi h fl al -> (length fl < fuel)%nat ->
  layout_ok layout_size layout_align ->
  alloc fuel h layout_size layout_align = Ret (p, h1) -> p <> 0 ->
  exists h2, dealloc fuel h1 p = Ret h2 /\ heap_inv base hi h2 fl al /\ stats fuel h2 = stats fuel h.
Proof.
  intros Hb Hh Hv Hf Hly E Hp. destruct (layout_request _ _ Hly) as (k & Hk & Hal & Hrq).
  pose proof (alloc_run base hi Hb ltac:(lia) h fl al fuel layout_size layout_align k Hv ltac:(lia) Hk Hal Hrq) as Hrun.
  destruct (alloc_spec _ _ _) as [[[q md] fl']|] eqn:Es; [|rewrite Hrun in E; by injection E as <- <-].
  destruct Hrun as (h1' & E' & Hv1 & _). rewrite E' in E. injection E as -> ->.
  assert (Hlen : (length fl' <= fuel)%nat).
  { pose proof (alloc_spec_length _ _ _ _ _ _ Es). lia. }
  destruct (dealloc_run base hi Hb ltac:(lia) h1 fl' [] _ al fuel Hv1 Hlen) as (h2 & Ed & Hv2 & _).
  cbn [lv_ptr lv_block app] in Ed, Hv2.
  rewrite (dealloc_alloc_spec base hi k (round_up layout_size 8) fl p md fl') in Hv2;
    [|exact (hv_sorted _ _ _ _ _ Hv)|exact (hv_free _ _ _ _ _ Hv)|apply Hrq|destruct Hrq; lia|done].
  exists h2. split; [done|]. split; [done|].
  rewrite (stats_run base hi Hb ltac:(lia) h2 fl al) by (done || lia). symmetry.
  apply (stats_run base hi Hb); (done || lia).
Qed.

(** [stats] is exact: the free and the used bytes add up to the heap, and
    the used bytes are the blocks of the live allocations, padding and metadata
    included. *)
Theorem stats_account_for_every_byte base hi h fl al fuel :
  0 < base -> base <= hi <= 2 ^ 62 -> heap_inv base hi h fl al -> (length fl <= fuel)%nat ->
  stats fuel h = Ret (mkStats (hi - base) (sizes (map lv_block al)) (sizes fl) (Z.of_nat (length fl)) (largest fl)) /\
  sizes (map lv_block al) + sizes fl = total h.
Proof.
  intros Hb Hh Hv Hf. split; [apply (stats_run base hi Hb); (done || lia)|].
  unfold total. rewrite (hv_total _ _ _ _ _ Hv). pose proof (heap_accounts base hi h fl al Hv). lia.
Qed.

(** ** Initialisation *)

(** The bounds [init] is called with: word-sized, and room for a block. *)
Record heap_bounds (start end_ : Z) : Prop := {
  hb_pos : 0 < start;
  hb_max : end_ <= 2 ^ 61;
  hb_room : 48 <= end_ - start;
  hb_words : (end_ - start) mod 8 = 0;
}.

Definition heap_base (start : Z) : Z := round_up start 8.
Definition heap_hi (start end_ : Z) : Z := heap_base start + (end_ - start - 24).

Lemma heap_base_spec start : start <= heap_base start < start + 8 /\ heap_base start mod 8 = 0.
Proof. apply (round_up_spec start 3). lia. Qed.

Lemma init_run m start end_ :
  heap_bounds start end_ -> mapped m (heap_base start) (heap_hi start end_) ->
  exists h, init (FreeListAllocator_new m) start end_ = Ret h /\
    heap_inv (heap_base start) (heap_hi start end_) h [(heap_base start, end_ - start - 24)] [].
Proof.
  intros [Hpos Hmax Hroom Hw] Hm. destruct (heap_base_spec start) as [Hb Hb8].
  unfold heap_hi in *. set (b := heap_base start) in *. set (n := end_ - start - 24) in *.
  assert (Hn : n = end_ - start - 24) by done. clearbody n.
  unfold init, size_of_FreeBlock. cbn [fa_mem FreeListAllocator_new].
  rewrite sub_ovf_ok by lia. cbn [mbind comp_bind].
  replace (AlignedPtr_new start) with (Ret b).
  2: { symmetry. unfold AlignedPtr_new. apply (align_up_spec start 3); lia. }
  cbn [mbind comp_bind]. rewrite sub_ovf_ok by lia. cbn [mbind comp_bind]. rewrite <- Hn.
  destruct (store_header_spec b (b + n) m b n None Hm Hb8) as (m1 & m2 & E1 & E2 & Hm2 & Hs & Hnx & _); [lia|lia|].
  rewrite E1. cbn [mbind comp_bind]. rewrite E2. cbn [mbind comp_bind]. unfold load. rewrite Hs.
  eexists. split; [done|]. constructor; simpl.
  - lia.
  - done.
  - by eauto.
  - split; [lia|done].
  - constructor; [|done]. constructor; simpl; try lia; try done. Z.div_mod_to_equations. lia.
  - constructor.
  - intros z. unfold iv_has. simpl. by_cases.
Qed.

(** [init] makes the whole range, less the 24 bytes of a block header, one
    free block. *)
Theorem init_establishes m start end_ :
  heap_bounds start end_ -> mapped m (heap_base start) (heap_hi start end_) ->
  exists h, init (FreeListAllocator_new m) start end_ = Ret h /\
    heap_inv (heap_base start) (heap_hi start end_) h [(heap_base start, end_ - start - 24)] [].
Proof. apply init_run. Qed.

(** ** Clients *)
Lemma Forall2_member {A B} (P : A -> B -> Prop) l k x : Forall2 P l k -> x ∈ l -> exists y, y ∈ k /\ P x y.
Proof. induction 1; set_solver. Qed.

Lemma round_up_le s : s <= round_up s 8.
Proof. destruct (round_up_spec s 3 ltac:(lia)) as [Hr _]. change (2 ^ 3) with 8 in Hr. lia. Qed.

Section Clients.
Context (fuel : nat).

(** An allocation a client holds: the pointer, the layout asked for, and the
    value it last wrote to each word of the payload it has written. *)
Record Held := mkHeld { hd_ptr : Z; hd_size : Z; hd_align : Z; hd_words : gmap Z Z }.

Definition held_write (x : Held) (z v : Z) : Held :=
  mkHeld (hd_ptr x) (hd_size x) (hd_align x) (<[z := v]> (hd_words x)).

(** The steps of a program that uses the heap: its state is the allocator with
    the memory, and the allocations the program holds. *)
Inductive client : FreeListAllocator * list Held -> FreeListAllocator * list Held -> Prop :=
| cl_alloc h live s a p h' :
    layout_ok s a -> alloc fuel h s a = Ret (p, h') -> p <> 0 ->
    client (h, live) (h', mkHeld p s a ∅ :: live)
| cl_alloc_null h live s a h' :
    layout_ok s a -> alloc fuel h s a = Ret (0, h') -> client (h, live) (h', live)
| cl_dealloc h l1 x l2 h' :
    dealloc fuel h (hd_ptr x) = Ret h' -> client (h, l1 ++ x :: l2) (h', l1 ++ l2)
| cl_write h l1 x l2 z v :
    hd_ptr x <= z < hd_ptr x + hd_size x ->
    client (h, l1 ++ x :: l2) (with_mem h (<[z := v]> (fa_mem h)), l1 ++ held_write x z v :: l2).

Context (base hi : Z) (base_pos : 0 < base) (base_hi : base <= hi) (hi_max : hi <= 2 ^ 62)
        (enough : (hi - base) / 24 <= Z.of_nat fuel).

(** The live allocation [a] of the allocator is the client's [x], and memory
    [m] holds what the client wrote there. *)
Record holds (m : gmap Z Z) (x : Held) (a : Live) : Prop := {
  ho_ptr : lv_ptr a = hd_ptr x;
  ho_size : lv_size a = round_up (hd_size x) 8;
  ho_pos : 0 < hd_size x;
  ho_align : hd_ptr x mod hd_align x = 0;
  ho_words : forall z v, hd_words x !! z = Some v -> in_payload a z /\ m !! z = Some v;
}.

Definition client_inv (st : FreeListAllocator * list Held) : Prop :=
  exists fl al, heap_inv base hi (fst st) fl al /\ Forall2 (holds (fa_mem (fst st))) (snd st) al.

Lemma enough_fuel h fl al : heap_inv base hi h fl al -> (length fl <= fuel)%nat.
Proof. intros Hv. pose proof (heap_length base hi h fl al Hv base_hi). Z.div_mod_to_equations. lia. Qed.

Lemma holds_frame m m' x a :
  (forall z, in_payload a z -> m' !! z = m !! z) -> holds m x a -> holds m' x a.
Proof.
  intros Hk [? ? ? ? Hw]. constructor; try done. intros z v Hz. destruct (Hw z v Hz) as [Hin <-]. by rewrite Hk.
Qed.

Lemma holds_kept m m' live al :
  (forall a z, a ∈ al -> in_payload a z -> m' !! z = m !! z) -> Forall2 (holds m) live al -> Forall2 (holds m') live al.
Proof.
  intros Hk Hl. induction Hl as [|x a live al Hx Hl IH]; constructor.
  - eapply holds_frame; [|exact Hx]. intros z. apply Hk. by left.
  - apply IH. intros b z Hb. apply Hk. by right.
Qed.

(** A write changes the word of its owner and no payload of another. *)
Lemma write_step_inv h l1 x l2 z v :
  hd_ptr x <= z < hd_ptr x + hd_size x -> client_inv (h, l1 ++ x :: l2) ->
  client_inv (with_mem h (<[z := v]> (fa_mem h)), l1 ++ held_write x z v :: l2).
Proof.
  intros Hz (fl & al & Hv & Hl). simpl in *. apply Forall2_app_inv_l in Hl as (al1 & al' & H1 & H2 & ->).
  apply Forall2_cons_inv_l in H2 as (a & al2 & Hx & H2 & ->). destruct (Hx) as [Hp Hs Hpos Hal Hw].
  assert (Hin : in_payload a z).
  { unfold in_payload. rewrite Hp, Hs. pose proof (round_up_le (hd_size x)). lia. }
  assert (Hk : forall b y, b ∈ al1 ++ al2 -> in_payload b y -> <[z := v]> (fa_mem h) !! y = fa_mem h !! y).
  { intros b y Hb Hy. rewrite lookup_insert_ne; [done|].
    pose proof (proj1 (Forall_forall _ _) (hv_live _ _ _ _ _ Hv)) as Hlv.
    pose proof (Hlv a ltac:(set_solver)) as []. pose proof (Hlv b ltac:(set_solver)) as []. unfold in_payload in *.
    destruct (live_live_apart base hi base_pos hi_max h fl al1 a al2 b Hv Hb); lia. }
  exists fl, (al1 ++ a :: al2). split; [by apply (write_inv base hi base_pos hi_max)|]. simpl.
  apply Forall2_app; [|constructor].
  - eapply holds_kept; [|exact H1]. intros b y Hb. apply Hk. set_solver.
  - constructor; try done. intros y w. unfold held_write. simpl. destruct (decide (y = z)) as [->|Hne].
    + rewrite !lookup_insert_eq. by intros [= ->].
    + rewrite !lookup_insert_ne by done. apply Hw.
  - eapply holds_kept; [|exact H2]. intros b y Hb. apply Hk. set_solver.
Qed.

Lemma client_step_inv st st' : client st st' -> client_inv st -> client_inv st'.
Proof.
  intros Hst Hi. destruct (Hi) as (fl & al & Hv & Hl). pose proof (enough_fuel _ _ _ Hv) as Hf.
  destruct Hst as [h live s a p h' Hly E Hp|h live s a h' Hly E|h l1 x l2 h' E|h l1 x l2 z v Hz]; cbn [fst snd] in *.
  - destruct (layout_request _ _ Hly) as (k & Hk & Hal & Hrq).
    pose proof (alloc_run base hi base_pos hi_max h fl al fuel s a k Hv Hf Hk Hal Hrq) as Hrun.
    destruct (alloc_spec _ _ _) as [[[q md] fl']|]; [|rewrite Hrun in E; by injection E as <- <-].
    destruct Hrun as (h1 & E' & Hv1 & Hkp & Hpk & _). rewrite E' in E. injection E as -> ->.
    exists fl', (mkLive p (round_up s 8) md :: al). split; [done|]. constructor; [|by eapply holds_kept].
    constructor; [done|done|by destruct Hly|by eapply layout_aligned|done].
  - destruct (layout_request _ _ Hly) as (k & Hk & Hal & Hrq).
    pose proof (alloc_run base hi base_pos hi_max h fl al fuel s a k Hv Hf Hk Hal Hrq) as Hrun.
    destruct (alloc_spec _ _ _) as [[[q md] fl']|].
    + destruct Hrun as (h1 & E' & _ & _ & _ & Hp). rewrite E' in E. injection E as -> ->. lia.
    + rewrite Hrun in E. injection E as <-. by exists fl, al.
  - apply Forall2_app_inv_l in Hl as (al1 & al2' & H1 & H2 & ->).
    apply Forall2_cons_inv_l in H2 as (b & al2 & [Hb _ _ _ _] & H2 & ->).
    destruct (dealloc_run base hi base_pos hi_max h fl al1 b al2 fuel Hv Hf) as (h1 & E' & Hv1 & Hkp).
    rewrite Hb, E in E'. injection E' as <-. eexists _, _. split; [done|].
    eapply holds_kept; [exact Hkp|by apply Forall2_app].
  - by apply write_step_inv.
Qed.

Lemma client_inv_holds st st' : rtc client st st' -> client_inv st -> client_inv st'.
Proof. induction 1; eauto using client_step_inv. Qed.

(** What a client may rely on. *)
Definition client_safe (st : FreeListAllocator * list Held) : Prop :=
  let '(h, live) := st in
  (forall x, x ∈ live ->
    base + 16 <= hd_ptr x /\ hd_ptr x + hd_size x <= hi /\
    hd_ptr x mod 8 = 0 /\ hd_ptr x mod hd_align x = 0 /\
    (forall z v, hd_words x !! z = Some v -> fa_mem h !! z = Some v) /\
    exists h', dealloc fuel h (hd_ptr x) = Ret h') /\
  (forall l1 x l2 y l3, live = l1 ++ x :: l2 ++ y :: l3 ->
    hd_ptr x + hd_size x <= hd_ptr y - 16 \/ hd_ptr y + hd_size y <= hd_ptr x - 16) /\
  (forall s a, layout_ok s a -> exists p h', alloc fuel h s a = Ret (p, h')).

Lemma client_inv_safe st : client_inv st -> client_safe st.
Proof.
  destruct st as [h live]. intros (fl & al & Hv & Hl). pose proof (enough_fuel _ _ _ Hv) as Hf. simpl in *.
  split_and!.
  - intros x Hin. destruct (Forall2_member _ _ _ _ Hl Hin) as (b & Hb & [Hp Hs Hpos Hal Hw]).
    pose proof (round_up_le (hd_size x)).
    pose proof (proj1 (Forall_forall _ _) (hv_live _ _ _ _ _ Hv) b Hb) as [[] ? ? ? ? ? ?].
    apply list_elem_of_split in Hb as (al1 & al2 & ->).
    destruct (dealloc_run base hi base_pos hi_max h fl al1 b al2 fuel Hv Hf) as (h' & E & _).
    rewrite Hp in E. split_and!; [lia|lia|by rewrite <- Hp|done|by apply Hw|by eauto].
  - intros l1 x l2 y l3 ->. apply Forall2_app_inv_l in Hl as (al1 & alr & _ & H2 & ->).
    apply Forall2_cons_inv_l in H2 as (b & al2 & [Hb Hbs _ _ _] & H2 & ->).
    apply Forall2_app_inv_l in H2 as (al2' & al3 & _ & H3 & ->).
    apply Forall2_cons_inv_l in H3 as (c & al3' & [Hc Hcs _ _ _] & _ & ->).
    pose proof (live_live_apart base hi base_pos hi_max h fl al1 b (al2' ++ c :: al3') c Hv ltac:(set_solver)) as Hd.
    pose proof (hv_live _ _ _ _ _ Hv) as Hlv. rewrite Forall_forall in Hlv.
    pose proof (Hlv b ltac:(set_solver)) as []. pose proof (Hlv c ltac:(set_solver)) as [].
    pose proof (round_up_le (hd_size x)). pose proof (round_up_le (hd_size y)). lia.
  - intros s a Hly. destruct (layout_request _ _ Hly) as (k & Hk & Hal & Hrq).
    pose proof (alloc_run base hi base_pos hi_max h fl al fuel s a k Hv Hf Hk Hal Hrq) as Hrun.
    destruct (alloc_spec _ _ _) as [[[q md] fl']|]; [|by eauto].
    destruct Hrun as (h1 & E' & _). by eauto.
Qed.
End Clients.

(** C3: Heap safety.  After [init], whatever a client allocates, frees and
    writes into its allocations, in any order: every allocation it holds lies
    inside the heap, aligned to 8 and to what was asked for, and apart from
    every other allocation and its metadata; every word it wrote to an
    allocation still holds the value it last wrote there, whatever was
    allocated, freed and written elsewhere since; and every further [alloc]
    and every [dealloc] of a held pointer returns without panicking or running
    out of fuel. *)
Theorem heap_clients_are_safe fuel m start end_ h0 st :
  heap_bounds start end_ -> mapped m (heap_base start) (heap_hi start end_) ->
  (end_ - start - 24) / 24 <= Z.of_nat fuel ->
  init (FreeListAllocator_new m) start end_ = Ret h0 ->
  rtc (client fuel) (h0, []) st -> client_safe fuel (heap_base start) (heap_hi start end_) st.
Proof.
  intros Hbd Hm Hf E Hst. destruct (init_run m start end_ Hbd Hm) as (h & E' & Hv).
  rewrite E in E'. injection E' as <-. destruct Hbd as [Hpos Hmax Hroom Hw]. destruct (heap_base_spec start) as [Hb _].
  assert (Hhi : heap_hi start end_ - heap_base start = end_ - start - 24) by (unfold heap_hi; lia).
  rewrite <- Hhi in Hf. assert (Hmx : heap_hi start end_ <= 2 ^ 62) by lia.
  apply (client_inv_safe fuel (heap_base start) (heap_hi start end_)); [lia|lia|done|done|].
  eapply (client_inv_holds fuel (heap_base start) (heap_hi start end_)); [lia|lia|done|done|exact Hst|].
  by eexists _, [].
Qed.

(** ** Witnesses: a heap of 96 bytes at 64 *)
Definition sample_mem : gmap Z Z := list_to_map ((fun i => (64 + 8 * Z.of_nat i, 0)) <$> seq 0 16).
Definition sample_heap : FreeListAllocator := mkAllocator (<[64 := 72]> (<[72 := 0]> sample_mem)) (Some 64) 72.

Lemma sample_bounds : heap_bounds 64 160.
Proof. by constructor. Qed.

Lemma sample_mapped : mapped sample_mem (heap_base 64) (heap_hi 64 160).
Proof.
  intros a Ha Hr. change (heap_base 64) with 64 in Hr. change (heap_hi 64 160) with 136 in Hr.
  assert (a = 64 \/ a = 72 \/ a = 80 \/ a = 88 \/ a = 96 \/ a = 104 \/ a = 112 \/ a = 120 \/ a = 128) as Hor
    by (Z.div_mod_to_equations; lia).
  destruct_or? Hor; subst; vm_compute; by eexists.
Qed.

Lemma sample_init : init (FreeListAllocator_new sample_mem) 64 160 = Ret sample_heap.
Proof. vm_compute. reflexivity. Qed.

Lemma sample_inv : heap_inv 64 136 sample_heap [(64, 72)] [].
Proof.
  destruct (init_run sample_mem 64 160 sample_bounds sample_mapped) as (h & E & Hv).
  rewrite sample_init in E. injection E as <-. exact Hv.
Qed.

Lemma layout_5_1 : layout_ok 5 1.
Proof. split; [lia|]. exists 0. by split_and!. Qed.

Lemma sample_alloc :
  exists h, alloc 5 sample_heap 5 1 = Ret (80, h) /\ heap_inv 64 136 h [(88, 48)] [mkLive 80 8 (64, 24)].
Proof.
  destruct (alloc_run 64 136 ltac:(lia) ltac:(lia) sample_heap [(64, 72)] [] 5 5 1 3 sample_inv) as (h & E & Hv & _);
    [simpl; lia|done|done|by constructor|]. by exists h.
Qed.

Lemma alloc_implements_first_fit_witness :
  exists h, alloc 5 sample_heap 5 1 = Ret (80, h) /\ heap_inv 64 136 h [(88, 48)] [mkLive 80 8 (64, 24)].
Proof.
  destruct (alloc_implements_first_fit 64 136 sample_heap [(64, 72)] [] 5 5 1 ltac:(lia) ltac:(lia) sample_inv
              ltac:(simpl; lia) layout_5_1) as (h & E & Hv & _). by exists h.
Defined.

Lemma dealloc_implements_coalescing_witness :
  exists h h', alloc 5 sample_heap 5 1 = Ret (80, h) /\ dealloc 5 h 80 = Ret h' /\ heap_inv 64 136 h' [(64, 72)] [].
Proof.
  destruct sample_alloc as (h & E & Hv). exists h.
  destruct (dealloc_implements_coalescing 64 136 h [(88, 48)] [] (mkLive 80 8 (64, 24)) [] 5 ltac:(lia) ltac:(lia) Hv
              ltac:(simpl; lia)) as (h' & E' & Hv' & _). by exists h'.
Defined.

Lemma dealloc_undoes_alloc_witness :
  exists h1 h2, alloc 5 sample_heap 5 1 = Ret (80, h1) /\ dealloc 5 h1 80 = Ret h2 /\ stats 5 h2 = stats 5 sample_heap.
Proof.
  destruct sample_alloc as (h & E & _). exists h.
  destruct (dealloc_undoes_alloc 64 136 sample_heap [(64, 72)] [] 5 5 1 80 h ltac:(lia) ltac:(lia) sample_inv
              ltac:(simpl; lia) layout_5_1 E ltac:(lia)) as (h2 & E2 & _ & Es). by exists h2.
Defined.

Lemma stats_account_for_every_byte_witness :
  exists h, alloc 5 sample_heap 5 1 = Ret (80, h) /\ stats 5 h = Ret (mkStats 72 24 48 1 48).
Proof.
  destruct sample_alloc as (h & E & Hv). exists h. split; [exact E|].
  destruct (stats_account_for_every_byte 64 136 h [(88, 48)] [mkLive 80 8 (64, 24)] 5 ltac:(lia) ltac:(lia) Hv
              ltac:(simpl; lia)) as [Hs _]. exact Hs.
Defined.

Lemma init_establishes_witness :
  exists h, init (FreeListAllocator_new sample_mem) 64 160 = Ret h /\ fa_head h = Some 64.
Proof.
  destruct (init_establishes sample_mem 64 160 sample_bounds sample_mapped) as (h & E & Hv).
  exists h. split; [exact E|]. exact (proj1 (hv_seg _ _ _ _ _ Hv)).
Defined.

(** Two allocations, the second with alignment 16; a word is written to the
    first before the second is made and freed. *)
Definition heap_after (c : comp (Z * FreeListAllocator)) : FreeListAllocator :=
  match c with Ret (_, h) => h | _ => sample_heap end.
Definition sample_heap1 : FreeListAllocator := heap_after (alloc 3 sample_heap 5 1).
Definition sample_heap2 : FreeListAllocator := with_mem sample_heap1 (<[80 := 7]> (fa_mem sample_heap1)).
Definition sample_heap3 : FreeListAllocator := heap_after (alloc 3 sample_heap2 8 16).
Definition sample_heap4 : FreeListAllocator :=
  match dealloc 3 sample_heap3 112 with Ret h => h | _ => sample_heap end.

Lemma sample_steps :
  alloc 3 sample_heap 5 1 = Ret (80, sample_heap1) /\ alloc 3 sample_heap2 8 16 = Ret (112, sample_heap3) /\
  dealloc 3 sample_heap3 112 = Ret sample_heap4.
Proof. split_and!; vm_compute; reflexivity. Qed.

Lemma heap_clients_are_safe_witness :
  client_safe 3 64 136 (sample_heap3, [mkHeld 112 8 16 ∅; mkHeld 80 5 1 {[80 := 7]}]) /\
  client_safe 3 64 136 (sample_heap4, [mkHeld 80 5 1 {[80 := 7]}]) /\ fa_mem sample_heap4 !! 80 = Some 7.
Proof.
  destruct sample_steps as (E1 & E2 & E3).
  assert (Hst : rtc (client 3) (sample_heap, []) (sample_heap3, [mkHeld 112 8 16 ∅; mkHeld 80 5 1 {[80 := 7]}])).
  { eapply rtc_l; [apply (cl_alloc 3 _ [] 5 1); [exact layout_5_1|exact E1|lia]|].
    eapply rtc_l; [apply (cl_write 3 sample_heap1 [] (mkHeld 80 5 1 ∅) [] 80 7); simpl; lia|].
    apply rtc_once. apply (cl_alloc 3 sample_heap2 _ 8 16); [|exact E2|lia]. split; [lia|]. exists 4. by split_and!. }
  assert (Hst4 : rtc (client 3) (sample_heap, []) (sample_heap4, [mkHeld 80 5 1 {[80 := 7]}])).
  { eapply rtc_r; [exact Hst|]. apply (cl_dealloc 3 sample_heap3 [] (mkHeld 112 8 16 ∅)). exact E3. }
  assert (Hf : (160 - 64 - 24) / 24 <= Z.of_nat 3) by (vm_compute; discriminate).
  assert (Hs : client_safe 3 64 136 (sample_heap4, [mkHeld 80 5 1 {[80 := 7]}])).
  { exact (heap_clients_are_safe 3 sample_mem 64 160 sample_heap _ sample_bounds sample_mapped Hf sample_init Hst4). }
  split; [|split; [exact Hs|]].
  - exact (heap_clients_are_safe 3 sample_mem 64 160 sample_heap _ sample_bounds sample_mapped Hf sample_init Hst).
  - destruct (proj1 Hs (mkHeld 80 5 1 {[80 := 7]}) ltac:(by left)) as (_ & _ & _ & _ & Hw & _).
    apply Hw. apply lookup_singleton_eq.
Defined.
