(* ===== verification/PhysRange.v ===== *)
(** * Physical ranges ([src/virtual_memory/src/physical_range.rs])

    Which pages of RAM the kernel may hand out: the memory the device tree
    reports, less the reserved ranges, cut down to whole pages.  The abstract
    reading of a list of ranges is the set of the addresses it contains. *)
From S2P Require Import Prelude.

Definition PAGE_SIZE : Z := 4096.

Record PhysRange := mkPhysRange { pr_start : Z; pr_end : Z }.

Inductive PhysRangeError := AddressOverflow | EmptyRange.

#[export] Instance PhysRange_eq_dec : EqDecision PhysRange.
Proof. solve_decision. Defined.

Definition from_start_size (start size : Z) : result PhysRangeError PhysRange :=
  match checked_add start size with
  | None => Err AddressOverflow
  | Some end_ => if end_ <=? start then Err EmptyRange else Ok (mkPhysRange start end_)
  end.

Definition pr_size (r : PhysRange) : comp Z := pr_end r -! pr_start r.

Definition page_align_up (addr : Z) : option Z :=
  (fun addr => Z.land addr (not_w 64 (PAGE_SIZE - 1))) <$> checked_add addr (PAGE_SIZE - 1).

Definition page_align_down (addr : Z) : Z := Z.land addr (not_w 64 (PAGE_SIZE - 1)).

Definition covering_pages (r : PhysRange) : result PhysRangeError PhysRange :=
  let start := page_align_down (pr_start r) in
  match page_align_up (pr_end r) with
  | None => Err AddressOverflow
  | Some end_ => Ok (mkPhysRange start end_)
  end.

(** [sort_by_key(|range| range.start)], which is stable. *)
Fixpoint insert_by_start (r : PhysRange) (l : list PhysRange) : list PhysRange :=
  match l with
  | [] => [r]
  | s :: l' => if pr_start r <=? pr_start s then r :: l else s :: insert_by_start r l'
  end.
Definition sort_by_start (l : list PhysRange) : list PhysRange := foldr insert_by_start [] l.

Definition normalize_step (normalized : list PhysRange) (range : PhysRange) : list PhysRange :=
  match last normalized with
  | Some previous =>
      if pr_start range <=? pr_end previous
      then removelast normalized ++ [mkPhysRange (pr_start previous) (Z.max (pr_end previous) (pr_end range))]
      else normalized ++ [range]
  | None => normalized ++ [range]
  end.

Definition normalize_ranges (ranges : list PhysRange) : list PhysRange :=
  foldl normalize_step [] (sort_by_start ranges).

(** What is left of [fragment] without [reserved]. *)
Definition subtract_range (reserved fragment : PhysRange) : list PhysRange :=
  if (pr_end reserved <=? pr_start fragment) || (pr_end fragment <=? pr_start reserved) then [fragment]
  else
    (if pr_start fragment <? pr_start reserved
     then [mkPhysRange (pr_start fragment) (Z.min (pr_start reserved) (pr_end fragment))] else []) ++
    (if pr_end reserved <? pr_end fragment
     then [mkPhysRange (Z.max (pr_end reserved) (pr_start fragment)) (pr_end fragment)] else []).

Definition whole_pages (fragment : PhysRange) : option PhysRange :=
  match page_align_up (pr_start fragment) with
  | None => None
  | Some start =>
      let end_ := page_align_down (pr_end fragment) in
      if start <? end_ then Some (mkPhysRange start end_) else None
  end.

Definition free_fragments (reserved : list PhysRange) (memory_range : PhysRange) : list PhysRange :=
  foldl (fun fragments r => flat_map (subtract_range r) fragments) [memory_range] reserved.

Definition usable_memory_ranges (memory reserved : list PhysRange) : list PhysRange :=
  let memory := normalize_ranges memory in
  let reserved := normalize_ranges reserved in
  sort_by_start (flat_map (fun m => omap whole_pages (free_fragments reserved m)) memory).

(** ** Reading ranges as sets of addresses *)
Record range_wf (r : PhysRange) : Prop := {
  rw_start : 0 <= pr_start r;
  rw_nonempty : pr_start r < pr_end r;
  rw_end : pr_end r < 2 ^ 64;
}.

Definition has (r : PhysRange) (z : Z) : Prop := pr_start r <= z < pr_end r.
Definition in_ranges (l : list PhysRange) (z : Z) : Prop := exists r, r ∈ l /\ has r z.

(** Sorted by address with a gap between any two. *)
Fixpoint separated (lo : Z) (l : list PhysRange) : Prop :=
  match l with [] => True | r :: l => lo < pr_start r /\ separated (pr_end r) l end.

(** Sorted by address and disjoint, within [[lo, hi)]. *)
Fixpoint chain (lo : Z) (l : list PhysRange) (hi : Z) : Prop :=
  match l with
  | [] => lo <= hi
  | r :: l => lo <= pr_start r /\ pr_start r < pr_end r /\ chain (pr_end r) l hi
  end.

(** ** Rounding to pages *)
Lemma page_align_down_spec x : 0 <= x < 2 ^ 64 -> page_align_down x = x / 4096 * 4096.
Proof. intros Hx. unfold page_align_down, PAGE_SIZE. change 4096 with (2 ^ 12). by apply land_not_mask. Qed.

Lemma page_align_up_spec x :
  0 <= x < 2 ^ 64 ->
  page_align_up x = if x + 4095 <? 2 ^ 64 then Some ((x + 4095) / 4096 * 4096) else None.
Proof.
  intros Hx. unfold page_align_up, checked_add, usize_max, max_of.
  change (PAGE_SIZE - 1) with 4095. destruct (Z.ltb_spec (x + 4095) (2 ^ 64)).
  - rewrite (proj2 (Z.leb_le _ _)) by lia. simpl. f_equal. change 4095 with (2 ^ 12 - 1) at 2. change 4096 with (2 ^ 12).
    apply land_not_mask; [lia|]. unfold in_width. lia.
  - by rewrite (proj2 (Z.leb_gt _ _)) by lia.
Qed.

(** ** Sorting and normalising *)
Lemma elem_insert_by_start r l x : x ∈ insert_by_start r l <-> x = r \/ x ∈ l.
Proof. induction l as [|s l IH]; simpl; [set_solver|]. destruct (_ <=? _); set_solver. Qed.

Lemma elem_sort_by_start l x : x ∈ sort_by_start l <-> x ∈ l.
Proof. induction l as [|r l IH]; simpl; [done|]. rewrite elem_insert_by_start, IH. set_solver. Qed.

Fixpoint sorted_by_start (lo : Z) (l : list PhysRange) : Prop :=
  match l with [] => True | r :: l => lo <= pr_start r /\ sorted_by_start (pr_start r) l end.

Lemma insert_sorted r lo l : lo <= pr_start r -> sorted_by_start lo l -> sorted_by_start lo (insert_by_start r l).
Proof.
  revert lo. induction l as [|s l IH]; intros lo Hlo; simpl; [done|]. intros [Hs Hl].
  destruct (Z.leb_spec (pr_start r) (pr_start s)); simpl; [done|]. split; [done|]. apply IH; [lia|done].
Qed.

Lemma sort_sorted lo l : (forall r, r ∈ l -> lo <= pr_start r) -> sorted_by_start lo (sort_by_start l).
Proof.
  induction l as [|r l IH]; intros Hlo; simpl; [done|]. apply insert_sorted; [apply Hlo; by left|].
  apply IH. intros s Hs. apply Hlo. by right.
Qed.

Lemma sort_id lo l : sorted_by_start lo l -> sort_by_start l = l.
Proof.
  revert lo. induction l as [|r l IH]; intros lo; simpl; [done|]. intros [_ Hl]. rewrite (IH _ Hl).
  destruct l as [|s l]; [done|]. simpl. destruct Hl as [Hs _]. by rewrite (proj2 (Z.leb_le _ _)).
Qed.

Lemma normalize_step_snoc acc p r :
  normalize_step (acc ++ [p]) r =
    if pr_start r <=? pr_end p then acc ++ [mkPhysRange (pr_start p) (Z.max (pr_end p) (pr_end r))]
    else acc ++ [p; r].
Proof.
  unfold normalize_step. rewrite last_snoc, removelast_last. destruct (_ <=? _); [done|]. by rewrite <- app_assoc.
Qed.

Lemma separated_snoc lo acc p q :
  separated lo (acc ++ [p]) -> pr_start q = pr_start p -> separated lo (acc ++ [q]).
Proof. revert lo. induction acc as [|r acc IH]; intros lo; simpl; [intros [? _] ->; done|]. intros [? ?] ?. auto. Qed.

Lemma separated_snoc2 lo acc p r :
  separated lo (acc ++ [p]) -> pr_end p < pr_start r -> separated lo (acc ++ [p; r]).
Proof. revert lo. induction acc as [|s acc IH]; intros lo; simpl; [by intros [? _] ?|]. intros [? ?] ?. auto. Qed.

Lemma in_ranges_app l1 l2 z : in_ranges (l1 ++ l2) z <-> in_ranges l1 z \/ in_ranges l2 z.
Proof. unfold in_ranges. setoid_rewrite elem_of_app. firstorder. Qed.

Lemma in_ranges_cons r l z : in_ranges (r :: l) z <-> has r z \/ in_ranges l z.
Proof. unfold in_ranges. setoid_rewrite elem_of_cons. firstorder congruence. Qed.

Lemma in_ranges_nil z : ~ in_ranges [] z.
Proof. intros (r & Hr & _). by apply not_elem_of_nil in Hr. Qed.

Lemma normalize_fold lo l : forall acc p,
  separated lo (acc ++ [p]) -> Forall range_wf (acc ++ [p]) -> sorted_by_start (pr_start p) l -> Forall range_wf l ->
  let res := foldl normalize_step (acc ++ [p]) l in
  separated lo res /\ Forall range_wf res /\ forall z, in_ranges res z <-> in_ranges (acc ++ [p]) z \/ in_ranges l z.
Proof.
  induction l as [|r l IH]; intros acc p Hs Hw Hsl Hwl; cbv zeta; cbn [foldl].
  - split_and!; try done. intros z. pose proof (in_ranges_nil z). tauto.
  - destruct Hsl as [Hpr Hsl]. apply Forall_cons in Hwl as [Hr Hwl]. rewrite normalize_step_snoc.
    pose proof Hw as Hw'. apply Forall_app in Hw' as [Hwa Hwp]. apply Forall_cons in Hwp as [Hp _].
    destruct Hp as [Hp1 Hp2 Hp3]. pose proof Hr as [Hr1 Hr2 Hr3].
    destruct (Z.leb_spec (pr_start r) (pr_end p)).
    + set (q := mkPhysRange (pr_start p) (Z.max (pr_end p) (pr_end r))).
      assert (Hsl' : sorted_by_start (pr_start q) l).
      { simpl. destruct l as [|s l]; [done|]. destruct Hsl. split; [lia|done]. }
      destruct (IH acc q) as (H1 & H2 & H3); [by eapply separated_snoc|..|done|done|].
      { apply Forall_app. split; [done|]. constructor; [|constructor]. constructor; simpl; lia. }
      split; [exact H1|]. split; [exact H2|]. intros z. rewrite H3, !in_ranges_app, !in_ranges_cons.
      assert (has q z <-> has p z \/ has r z) by (unfold has, q; simpl; lia). pose proof (in_ranges_nil z). tauto.
    + replace (acc ++ [p; r]) with ((acc ++ [p]) ++ [r]) by (by rewrite <- app_assoc).
      destruct (IH (acc ++ [p]) r) as (H1 & H2 & H3); [| |done|done|].
      { rewrite <- app_assoc. by apply separated_snoc2. }
      { apply Forall_app. split; [done|]. by repeat constructor. }
      split; [exact H1|]. split; [exact H2|]. intros z. rewrite H3, !in_ranges_app, !in_ranges_cons.
      pose proof (in_ranges_nil z). tauto.
Qed.

Lemma normalize_run l : Forall range_wf l ->
  separated (-1) (normalize_ranges l) /\ Forall range_wf (normalize_ranges l) /\
  forall z, in_ranges (normalize_ranges l) z <-> in_ranges l z.
Proof.
  intros Hw. assert (Hw' : Forall range_wf (sort_by_start l)).
  { rewrite Forall_forall in *. intros r Hr. by apply Hw, elem_sort_by_start. }
  assert (Hsort : sorted_by_start 0 (sort_by_start l)).
  { apply sort_sorted. intros r Hr. rewrite Forall_forall in Hw. by destruct (Hw r Hr). }
  assert (Hin : forall z, in_ranges (sort_by_start l) z <-> in_ranges l z).
  { intros z. unfold in_ranges. by setoid_rewrite elem_sort_by_start. }
  unfold normalize_ranges. revert Hw' Hsort Hin. generalize (sort_by_start l). intros [|r l'] Hw' Hsort Hin; [by split_and!|]. cbn [foldl].
  change (normalize_step [] r) with ([] ++ [r]). apply Forall_cons in Hw' as [Hr Hw']. pose proof Hr as [Hr1 Hr2 Hr3].
  destruct (normalize_fold (-1) l' [] r) as (H1 & H2 & H3); [split; [lia|done]|by repeat constructor|by destruct Hsort|done|].
  split; [exact H1|]. split; [exact H2|]. intros z. rewrite H3, <- Hin. cbn [app]. rewrite !in_ranges_cons. pose proof (in_ranges_nil z). tauto.
Qed.

(** ** Maximality: an interval of a separated list lies in one range *)
Lemma separated_lt lo l r : separated lo l -> Forall range_wf l -> r ∈ l -> lo < pr_start r.
Proof.
  revert lo. induction l as [|s l IH]; intros lo Hs Hw Hr; [by apply not_elem_of_nil in Hr|].
  destruct Hs as [Hlo Hs]. apply Forall_cons in Hw as [[Hs1 Hs2 Hs3] Hw].
  apply elem_of_cons in Hr as [->|Hr]; [done|]. specialize (IH _ Hs Hw Hr). lia.
Qed.

Lemma separated_interval lo l a b :
  separated lo l -> Forall range_wf l -> a < b -> (forall z, a <= z < b -> in_ranges l z) ->
  exists r, r ∈ l /\ pr_start r <= a /\ b <= pr_end r.
Proof.
  revert lo. induction l as [|s l IH]; intros lo Hs Hw Hab Hz.
  - destruct (in_ranges_nil a). apply Hz. lia.
  - destruct Hs as [Hlo Hs]. apply Forall_cons in Hw as [[Hs1 Hs2 Hs3] Hw].
    destruct (Z.lt_ge_cases a (pr_end s)) as [Ha|Ha].
    + exists s. split; [by left|].
      assert (Hsa : pr_start s <= a).
      { destruct (proj1 (in_ranges_cons s l a) (Hz a ltac:(lia))) as [[? _]|(r & Hr & Hra)]; [done|].
        pose proof (separated_lt _ _ _ Hs Hw Hr). destruct Hra. lia. }
      split; [done|]. destruct (Z.le_gt_cases b (pr_end s)); [done|].
      destruct (proj1 (in_ranges_cons s l (pr_end s)) (Hz (pr_end s) ltac:(lia))) as [[_ ?]|(r & Hr & Hra)]; [lia|].
      pose proof (separated_lt _ _ _ Hs Hw Hr). destruct Hra. lia.
    + destruct (IH _ Hs Hw Hab) as (r & Hr & H1 & H2).
      * intros z Hzr. destruct (proj1 (in_ranges_cons s l z) (Hz z Hzr)) as [[_ ?]|?]; [lia|done].
      * exists r. split; [by right|done].
Qed.

(** ** Subtraction *)
Lemma subtract_range_in r f z :
  pr_start r < pr_end r -> in_ranges (subtract_range r f) z <-> has f z /\ ~ has r z.
Proof.
  intros Hr. assert (Hn : in_ranges [] z <-> False) by (pose proof (in_ranges_nil z); tauto).
  unfold subtract_range. repeat zcase; simpl; rewrite ?in_ranges_cons, ?Hn; unfold has; simpl; lia.
Qed.

Lemma subtract_range_chain r f lo hi :
  lo <= pr_start f -> pr_start f < pr_end f -> pr_end f <= hi -> pr_start r < pr_end r ->
  chain lo (subtract_range r f) hi.
Proof. intros. unfold subtract_range. repeat zcase; simpl; split_and?; lia. Qed.

(** An interval outside [r] is kept whole. *)
Lemma subtract_range_keeps r f a b :
  a < b -> pr_start f <= a -> b <= pr_end f -> pr_start r < pr_end r ->
  (forall z, a <= z < b -> ~ has r z) ->
  exists g, g ∈ subtract_range r f /\ pr_start g <= a /\ b <= pr_end g.
Proof.
  intros Hab Ha Hb Hr Hz.
  assert (Hd : pr_end r <= a \/ b <= pr_start r).
  { destruct (Z.le_gt_cases (pr_end r) a); [lia|]. destruct (Z.le_gt_cases b (pr_start r)); [lia|].
    destruct (Hz (Z.max a (pr_start r))); unfold has; lia. }
  unfold subtract_range. destruct Hd; repeat zcase; simpl; try lia;
    first [eexists; split; [by left|simpl; lia] | eexists; split; [right; by left|simpl; lia]].
Qed.

(** ** The free fragments of a memory range *)
Lemma chain_weaken lo' lo l hi : lo' <= lo -> chain lo l hi -> chain lo' l hi.
Proof. destruct l as [|r l]; simpl; [lia|]. intros ? (? & ? & ?). split_and!; [lia|done|done]. Qed.

Lemma chain_app lo l1 mid l2 hi : chain lo l1 mid -> chain mid l2 hi -> chain lo (l1 ++ l2) hi.
Proof.
  revert lo. induction l1 as [|r l1 IH]; intros lo; simpl.
  - intros Hle. by apply chain_weaken.
  - intros (? & ? & ?) ?. auto.
Qed.

Lemma chain_le lo l hi : chain lo l hi -> lo <= hi.
Proof. revert lo. induction l as [|r l IH]; intros lo; simpl; [done|]. intros (? & ? & H%IH). lia. Qed.

Lemma chain_in lo l hi r : chain lo l hi -> r ∈ l -> lo <= pr_start r /\ pr_start r < pr_end r /\ pr_end r <= hi.
Proof.
  revert lo. induction l as [|s l IH]; intros lo; simpl; [intros _ Hr; by apply not_elem_of_nil in Hr|].
  intros (H1 & H2 & H3) [->|Hr]%elem_of_cons; [pose proof (chain_le _ _ _ H3); lia|].
  destruct (IH _ H3 Hr). lia.
Qed.

(** A step that works inside each range keeps the chain. *)
Lemma chain_flat_map (f : PhysRange -> list PhysRange) lo l hi :
  chain lo l hi -> (forall r, r ∈ l -> chain (pr_start r) (f r) (pr_end r)) -> chain lo (flat_map f l) hi.
Proof.
  revert lo. induction l as [|r l IH]; intros lo; simpl; [done|]. intros (H1 & H2 & H3) Hf.
  apply (chain_app _ _ (pr_end r)).
  - eapply chain_weaken; [|apply Hf; by left]. done.
  - apply IH; [done|]. intros s Hs. apply Hf. by right.
Qed.

Lemma in_ranges_flat_map (f : PhysRange -> list PhysRange) l z : in_ranges (flat_map f l) z <-> exists r, r ∈ l /\ in_ranges (f r) z.
Proof.
  unfold in_ranges. setoid_rewrite list_elem_of_In. setoid_rewrite in_flat_map.
  split; [intros (r & (s & ? & ?) & ?)|intros (s & ? & r & ? & ?)]; eauto 6.
Qed.

Lemma free_fragments_snoc reserved r m :
  free_fragments (reserved ++ [r]) m = flat_map (subtract_range r) (free_fragments reserved m).
Proof. unfold free_fragments. by rewrite foldl_app. Qed.

Lemma free_fragments_spec reserved m :
  range_wf m -> Forall range_wf reserved ->
  chain (pr_start m) (free_fragments reserved m) (pr_end m) /\
  (forall z, in_ranges (free_fragments reserved m) z <-> has m z /\ ~ in_ranges reserved z) /\
  (forall a b, a < b -> pr_start m <= a -> b <= pr_end m -> (forall z, a <= z < b -> ~ in_ranges reserved z) ->
     exists g, g ∈ free_fragments reserved m /\ pr_start g <= a /\ b <= pr_end g).
Proof.
  intros [Hm1 Hm2 Hm3]. induction reserved as [|r reserved IH] using rev_ind; intros Hw.
  - unfold free_fragments. simpl. split_and!; [lia..| |].
    + intros z. rewrite in_ranges_cons. pose proof (in_ranges_nil z). tauto.
    + intros a b ? ? ? _. exists m. split; [by left|done].
  - apply Forall_app in Hw as [Hw Hr]. apply Forall_cons in Hr as [[Hr1 Hr2 Hr3] _].
    destruct (IH Hw) as (H1 & H2 & H3). rewrite free_fragments_snoc. split_and!.
    + apply chain_flat_map; [done|]. intros s Hs. destruct (chain_in _ _ _ _ H1 Hs) as (? & ? & ?).
      apply subtract_range_chain; lia.
    + intros z. rewrite in_ranges_flat_map, in_ranges_app, in_ranges_cons.
      setoid_rewrite subtract_range_in; [|done]. specialize (H2 z). pose proof (in_ranges_nil z). unfold in_ranges at 1 in H2.
      split; [intros (s & ? & ? & ?); destruct (proj1 H2 ltac:(eauto)); tauto|].
      intros [Hz Hn]. destruct (proj2 H2 ltac:(tauto)) as (s & ? & ?). exists s. tauto.
    + intros a b Hab Ha Hb Hz. destruct (H3 a b Hab Ha Hb) as (g & Hg & Hg1 & Hg2).
      { intros z Hzr Hin. apply (Hz z Hzr), in_ranges_app. by left. }
      destruct (subtract_range_keeps r g a b) as (g' & Hg' & ?); try done.
      { intros z Hzr Hin. apply (Hz z Hzr), in_ranges_app. right. apply in_ranges_cons. by left. }
      exists g'. split; [|done]. apply list_elem_of_In, in_flat_map. exists g. by rewrite <- !list_elem_of_In.
Qed.

(** ** Whole pages *)
Definition holds_page (r : PhysRange) (p : Z) : Prop := pr_start r <= p /\ p + 4096 <= pr_end r.
Definition page_range (r : PhysRange) : Prop := pr_start r mod 4096 = 0 /\ pr_end r mod 4096 = 0.

Lemma whole_pages_some r u :
  range_wf r -> whole_pages r = Some u ->
  pr_start r <= pr_start u /\ pr_start u < pr_end u /\ pr_end u <= pr_end r /\ page_range u.
Proof.
  intros [H1 H2 H3]. unfold whole_pages. rewrite page_align_up_spec, page_align_down_spec by lia.
  destruct (Z.ltb_spec (pr_start r + 4095) (2 ^ 64)); [|done].
  destruct (Z.ltb_spec ((pr_start r + 4095) / 4096 * 4096) (pr_end r / 4096 * 4096)); [|done].
  intros [= <-]. unfold page_range. simpl. rewrite !Z_mod_mult. Z.div_mod_to_equations. lia.
Qed.

Lemma whole_pages_holds r p :
  range_wf r -> p mod 4096 = 0 -> holds_page r p -> exists u, whole_pages r = Some u /\ holds_page u p.
Proof.
  intros [H1 H2 H3] Hp [Hr1 Hr2]. unfold whole_pages. rewrite page_align_up_spec, page_align_down_spec by lia.
  destruct (Z.ltb_spec (pr_start r + 4095) (2 ^ 64)); [|lia].
  assert ((pr_start r + 4095) / 4096 * 4096 <= p) by (Z.div_mod_to_equations; lia).
  assert (p + 4096 <= pr_end r / 4096 * 4096) by (Z.div_mod_to_equations; lia).
  rewrite (proj2 (Z.ltb_lt _ _)) by lia. eexists. split; [done|]. by split.
Qed.

Lemma whole_pages_chain lo l hi :
  chain lo l hi -> 0 <= lo -> hi < 2 ^ 64 -> chain lo (omap whole_pages l) hi.
Proof.
  revert lo. induction l as [|r l IH]; intros lo; simpl; [done|]. intros (H1 & H2 & H3) Hlo Hhi.
  pose proof (chain_le _ _ _ H3). specialize (IH _ H3 ltac:(lia) Hhi).
  destruct (whole_pages r) as [u|] eqn:E.
  - apply whole_pages_some in E as (? & ? & ? & _); [|constructor; lia]. simpl. split_and!; [lia|done|].
    eapply chain_weaken; [|exact IH]. lia.
  - eapply chain_weaken; [|exact IH]. lia.
Qed.

Lemma chain_sorted lo lo' l hi : lo' <= lo -> chain lo l hi -> sorted_by_start lo' l.
Proof.
  revert lo lo'. induction l as [|r l IH]; intros lo lo' Hle; simpl; [done|]. intros (H1 & H2 & H3).
  split; [lia|]. apply (IH (pr_end r)); [lia|done].
Qed.

(** The memory ranges, one after the other. *)
Lemma separated_chain lo l hi :
  separated lo l -> Forall range_wf l -> Forall (fun r => pr_end r <= hi) l -> lo < hi -> chain (lo + 1) l hi.
Proof.
  revert lo. induction l as [|r l IH]; intros lo; simpl; [lia|]. intros [H1 H2] Hw Hh Hlo.
  apply Forall_cons in Hw as [[Hr1 Hr2 Hr3] Hw]. apply Forall_cons in Hh as [Hh1 Hh].
  split_and!; [lia|done|]. destruct (Z.lt_ge_cases (pr_end r) hi).
  - eapply chain_weaken; [|by apply IH]. lia.
  - destruct l as [|s l]; simpl in *; [lia|]. apply Forall_cons in Hw as [[] _]. apply Forall_cons in Hh as [? _]. lia.
Qed.

Lemma usable_run memory reserved :
  Forall range_wf memory -> Forall range_wf reserved ->
  let usable := usable_memory_ranges memory reserved in
  chain 0 usable (2 ^ 64 - 1) /\ Forall page_range usable /\
  forall p, p mod 4096 = 0 ->
    (exists r, r ∈ usable /\ holds_page r p) <->
    (forall z, p <= z < p + 4096 -> in_ranges memory z /\ ~ in_ranges reserved z).
Proof.
  intros Hm Hr. cbv zeta. destruct (normalize_run memory Hm) as (Hs & Hw & Hin).
  destruct (normalize_run reserved Hr) as (_ & Hwr & Hinr).
  unfold usable_memory_ranges. set (M := normalize_ranges memory) in *. set (R := normalize_ranges reserved) in *.
  rewrite Forall_forall in Hw.
  assert (Hpages : forall m u, m ∈ M -> u ∈ omap whole_pages (free_fragments R m) ->
            exists g, g ∈ free_fragments R m /\ range_wf g /\ whole_pages g = Some u).
  { intros m u Hmm Hu. apply list_elem_of_omap in Hu as (g & Hg & E). exists g. split_and!; try done.
    destruct (free_fragments_spec R m (Hw m Hmm) Hwr) as (Hc & _). destruct (chain_in _ _ _ _ Hc Hg) as (? & ? & ?).
    destruct (Hw m Hmm). constructor; lia. }
  assert (Hchain : chain 0 (flat_map (fun m => omap whole_pages (free_fragments R m)) M) (2 ^ 64 - 1)).
  { apply chain_flat_map.
    - apply (separated_chain (-1)); [done|by apply Forall_forall| |lia]. apply Forall_forall. intros m Hmm. destruct (Hw m Hmm). lia.
    - intros m Hmm. destruct (free_fragments_spec R m (Hw m Hmm) Hwr) as (Hc & _). destruct (Hw m Hmm).
      apply whole_pages_chain; [done|lia|lia]. }
  rewrite (sort_id 0) by (by apply (chain_sorted 0 0 _ (2 ^ 64 - 1))). split; [done|]. split.
  - apply Forall_forall. intros u Hu. apply list_elem_of_In, in_flat_map in Hu as (m & Hmm & Hu). apply list_elem_of_In in Hmm, Hu.
    destruct (Hpages m u Hmm Hu) as (g & _ & Hg & E). by destruct (whole_pages_some g u Hg E) as (_ & _ & _ & ?).
  - intros p Hp. split.
    + intros (u & Hu & Hpu1 & Hpu2) z Hz. apply list_elem_of_In, in_flat_map in Hu as (m & Hmm & Hu). apply list_elem_of_In in Hmm, Hu.
      destruct (Hpages m u Hmm Hu) as (g & Hg & Hgw & E). destruct (whole_pages_some g u Hgw E) as (? & ? & ? & _).
      destruct (free_fragments_spec R m (Hw m Hmm) Hwr) as (_ & Hf & _).
      destruct (proj1 (Hf z)) as [Hzm Hzr]; [exists g; split; [done|]; unfold has; lia|].
      rewrite <- Hin, <- Hinr. split; [by exists m|done].
    + intros Hz. destruct (separated_interval (-1) M p (p + 4096)) as (m & Hmm & Hm1 & Hm2);
        [done|by apply Forall_forall|lia|intros z Hzr; apply Hin; by apply Hz|].
      destruct (free_fragments_spec R m (Hw m Hmm) Hwr) as (Hc & _ & Hk).
      destruct (Hk p (p + 4096)) as (g & Hg & Hg1 & Hg2); [lia|done|done|intros z Hzr; rewrite Hinr; by apply Hz|].
      destruct (chain_in _ _ _ _ Hc Hg) as (? & ? & ?). destruct (Hw m Hmm).
      destruct (whole_pages_holds g p) as (u & E & Hu); [constructor; lia|done|done|].
      exists u. split; [|done]. apply list_elem_of_In, in_flat_map. exists m. rewrite <- !list_elem_of_In.
      split; [done|]. apply list_elem_of_omap. by exists g.
Qed.

(** ** Claims *)

(** C16: The usable ranges are exact to the page: a page is inside one of them
    if and only if all its bytes are in the memory and none is reserved; they
    are sorted, disjoint and page-aligned. *)
Theorem usable_pages_exact memory reserved :
  Forall range_wf memory -> Forall range_wf reserved ->
  let usable := usable_memory_ranges memory reserved in
  chain 0 usable (2 ^ 64 - 1) /\ Forall page_range usable /\
  forall p, p mod 4096 = 0 ->
    (exists r, r ∈ usable /\ holds_page r p) <->
    (forall z, p <= z < p + 4096 -> in_ranges memory z /\ ~ in_ranges reserved z).
Proof. apply usable_run. Qed.

(** [normalize_ranges] keeps the set of addresses and leaves a gap between
    any two of its ranges. *)
Theorem normalize_ranges_canonical ranges :
  Forall range_wf ranges ->
  separated (-1) (normalize_ranges ranges) /\ Forall range_wf (normalize_ranges ranges) /\
  forall z, in_ranges (normalize_ranges ranges) z <-> in_ranges ranges z.
Proof. apply normalize_run. Qed.

(** Ranges that the constructor accepts are well formed. *)
Lemma from_start_size_wf start size r :
  0 <= start -> 0 <= size -> from_start_size start size = Ok r ->
  range_wf r /\ pr_start r = start /\ pr_end r = start + size.
Proof.
  intros Hs Hz. unfold from_start_size, checked_add, usize_max, max_of.
  destruct (Z.leb_spec (start + size) (2 ^ 64 - 1)); [|done]. destruct (Z.leb_spec (start + size) start); [done|].
  intros [= <-]. split; [constructor; simpl; lia|done].
Qed.

Lemma covering_pages_spec r c :
  range_wf r -> covering_pages r = Ok c ->
  page_range c /\ pr_start c <= pr_start r < pr_start c + 4096 /\ pr_end r <= pr_end c < pr_end r + 4096.
Proof.
  intros [H1 H2 H3]. unfold covering_pages. rewrite page_align_up_spec, page_align_down_spec by lia.
  destruct (_ <? _); [|done]. intros [= <-]. unfold page_range. simpl. rewrite !Z_mod_mult. Z.div_mod_to_equations. lia.
Qed.

(** ** Witnesses: 64 KiB of RAM at 0x80000000 with a reserved stretch *)
Definition sample_memory : list PhysRange := [mkPhysRange 0x80008000 0x80010000; mkPhysRange 0x80000000 0x80008000].
Definition sample_reserved : list PhysRange := [mkPhysRange 0x80001800 0x80002800].

Lemma sample_memory_wf : Forall range_wf sample_memory.
Proof. by repeat constructor. Qed.

Lemma sample_reserved_wf : Forall range_wf sample_reserved.
Proof. by repeat constructor. Qed.

Lemma usable_pages_exact_witness :
  usable_memory_ranges sample_memory sample_reserved =
    [mkPhysRange 0x80000000 0x80001000; mkPhysRange 0x80003000 0x80010000] /\
  exists r, r ∈ usable_memory_ranges sample_memory sample_reserved /\ holds_page r 0x80000000.
Proof.
  split; [vm_compute; reflexivity|].
  apply (usable_pages_exact sample_memory sample_reserved sample_memory_wf sample_reserved_wf); [done|].
  intros z Hz. split.
  - exists (mkPhysRange 0x80000000 0x80008000). split; [right; by left|]. unfold has. simpl. lia.
  - intros (r & Hr & Hrz). apply list_elem_of_singleton in Hr as ->. unfold has in Hrz. simpl in Hrz. lia.
Defined.

Lemma normalize_ranges_canonical_witness :
  normalize_ranges sample_memory = [mkPhysRange 0x80000000 0x80010000] /\ in_ranges (normalize_ranges sample_memory) 0x80008000.
Proof.
  split; [vm_compute; reflexivity|]. apply (normalize_ranges_canonical sample_memory sample_memory_wf).
  exists (mkPhysRange 0x80008000 0x80010000). split; [by left|]. unfold has. simpl. lia.
Defined.
