(* ===== verification/FrameAlloc.v ===== *)
(** * The page frame allocator ([src/src/page_frame_allocator.rs])

    One arena per usable range of physical memory, with a bitmap of its frames.
    The arenas are proved against the [IndexPool] interface, which [Bitmap.v]
    implements.  The device tree's regions are arguments: they come from
    [DeviceTree.v].  The lock is not modelled; what [new] logs is
    in [BootLog]. *)
From S2P Require Import Prelude Bitmap PhysRange.

(** ** The kernel's layout ([src/src/kernel_layout.rs]) *)
Record KernelLayout := mkKernelLayout {
  kernel_start : Z;
  kernel_end : Z;
  heap_start : Z;
  heap_end : Z;
  trap_stack_top : Z;
}.

Section Frames.
Context {P : Type} `{IndexPoolLaws P}.

Record FrameArena := mkArena { fr_range : PhysRange; fr_used : P }.

Definition FrameArena_new (range : PhysRange) : comp FrameArena :=
  assert (is_multiple_of (pr_start range) PAGE_SIZE) ;;
  assert (is_multiple_of (pr_end range) PAGE_SIZE) ;;
  size ← pr_size range;
  Ret (mkArena range (pool_new (size / PAGE_SIZE))).

Definition FrameArena_alloc (a : FrameArena) : comp (option Z * FrameArena) :=
  match pool_find_free (fr_used a) with
  | None => Ret (None, a)
  | Some i =>
      used ← pool_set (fr_used a) i;
      off ← i *! PAGE_SIZE;
      p ← pr_start (fr_range a) +! off;
      Ret (Some p, mkArena (fr_range a) used)
  end.

Definition contains (a : FrameArena) (addr : Z) : bool :=
  (pr_start (fr_range a) <=? addr) && (addr <? pr_end (fr_range a)).

Definition FrameArena_free (a : FrameArena) (addr : Z) : comp (bool * FrameArena) :=
  if negb (is_multiple_of addr PAGE_SIZE) then Ret (false, a)
  else if negb (contains a addr) then Ret (false, a)
  else
    off ← addr -! pr_start (fr_range a);
    let i := off / PAGE_SIZE in
    b ← pool_is_set (fr_used a) i;
    if negb b then Ret (false, a)
    else
      used ← pool_unset (fr_used a) i;
      Ret (true, mkArena (fr_range a) used).

(** The [PageFrameAllocator] is its [arenas]. *)
Definition fixup_reserved_memory_regions (regions : list PhysRange) (fdt : PhysRange) (layout : KernelLayout)
    : comp (list PhysRange) :=
  size ← kernel_end layout -! kernel_start layout;
  match from_start_size (kernel_start layout) size with
  | Ok kernel => Ret (regions ++ [fdt; kernel])
  | Err _ => Panic
  end.

Fixpoint sum_pages (ranges : list PhysRange) (acc : Z) : comp Z :=
  match ranges with
  | [] => Ret acc
  | r :: ranges =>
      size ← pr_size r;
      acc ← acc +! (size / PAGE_SIZE);
      sum_pages ranges acc
  end.

Fixpoint new_arenas (ranges : list PhysRange) : comp (list FrameArena) :=
  match ranges with
  | [] => Ret []
  | r :: ranges => a ← FrameArena_new r; l ← new_arenas ranges; Ret (a :: l)
  end.

Definition PageFrameAllocator_new (regions memory : list PhysRange) (fdt : PhysRange) (layout : KernelLayout)
    : comp (list FrameArena) :=
  reserved ← fixup_reserved_memory_regions regions fdt layout;
  let usable := usable_memory_ranges memory reserved in
  num_pages ← sum_pages usable 0;
  new_arenas usable.

(** [iter_mut().find_map(FrameArena::alloc)]. *)
Fixpoint pfa_alloc (arenas : list FrameArena) : comp (option Z * list FrameArena) :=
  match arenas with
  | [] => Ret (None, [])
  | a :: arenas =>
      '(r, a) ← FrameArena_alloc a;
      match r with
      | Some p => Ret (Some p, a :: arenas)
      | None => '(r, arenas) ← pfa_alloc arenas; Ret (r, a :: arenas)
      end
  end.

Fixpoint pfa_free (arenas : list FrameArena) (addr : Z) : comp (bool * list FrameArena) :=
  match arenas with
  | [] => Ret (false, [])
  | a :: arenas =>
      if contains a addr then '(r, a) ← FrameArena_free a addr; Ret (r, a :: arenas)
      else '(r, arenas) ← pfa_free arenas addr; Ret (r, a :: arenas)
  end.

Definition pfa_ranges (arenas : list FrameArena) : list PhysRange := map fr_range arenas.

(** The functions on the static [PAGE_FRAME_ALLOCATOR]. *)
Definition alloc_frame (g : option (list FrameArena)) : comp (option Z * option (list FrameArena)) :=
  arenas ← unwrap g; '(r, arenas) ← pfa_alloc arenas; Ret (r, Some arenas).
Definition free_frame (g : option (list FrameArena)) (addr : Z) : comp (option (list FrameArena)) :=
  arenas ← unwrap g; '(_, arenas) ← pfa_free arenas addr; Ret (Some arenas).
Definition managed_ranges (g : option (list FrameArena)) : comp (list PhysRange) :=
  arenas ← unwrap g; Ret (pfa_ranges arenas).
Definition pfa_init (g : option (list FrameArena)) (regions memory : list PhysRange) (fdt : PhysRange)
    (layout : KernelLayout) : comp (option (list FrameArena)) :=
  match g with
  | None => arenas ← PageFrameAllocator_new regions memory fdt layout; Ret (Some arenas)
  | Some _ => Ret g
  end.

(** ** The set of frames in use *)
Definition taken1 (a : FrameArena) (p : Z) : bool :=
  contains a p && pool_has (fr_used a) ((p - pr_start (fr_range a)) / 4096).
Definition taken (arenas : list FrameArena) (p : Z) : bool := existsb (fun a => taken1 a p) arenas.

(** A frame that some range holds. *)
Definition managed (ranges : list PhysRange) (p : Z) : Prop :=
  p mod 4096 = 0 /\ exists r, r ∈ ranges /\ holds_page r p.

Record arena_ok (a : FrameArena) : Prop := {
  ao_range : range_wf (fr_range a);
  ao_pages : page_range (fr_range a);
  ao_pool : pool_ok (fr_used a);
  ao_len : pool_len (fr_used a) = (pr_end (fr_range a) - pr_start (fr_range a)) / 4096;
}.

Record pfa_ok (lo : Z) (arenas : list FrameArena) : Prop := {
  po_arenas : Forall arena_ok arenas;
  po_chain : chain lo (pfa_ranges arenas) (2 ^ 64 - 1);
}.

(** ** One arena *)
Lemma contains_spec a p : contains a p = true <-> has (fr_range a) p.
Proof. unfold contains, has. lia. Qed.

Lemma page_in_range r p : page_range r -> p mod 4096 = 0 -> has r p -> holds_page r p.
Proof. unfold page_range, has, holds_page. Z.div_mod_to_equations. lia. Qed.

Lemma FrameArena_new_spec r :
  range_wf r -> page_range r ->
  exists a, FrameArena_new r = Ret a /\ arena_ok a /\ fr_range a = r /\ forall p, taken1 a p = false.
Proof.
  intros Hw Hp. pose proof Hw as [H1 H2 H3]. pose proof Hp as [Hp1 Hp2].
  unfold FrameArena_new, is_multiple_of, PAGE_SIZE, pr_size. rewrite Hp1, Hp2. cbn [assert Z.eqb mbind comp_bind].
  rewrite sub_ovf_ok by lia. cbn [mbind comp_bind]. eexists. split; [done|].
  destruct (pool_new_spec ((pr_end r - pr_start r) / 4096)) as (Ho & Hl & Hh); [Z.div_mod_to_equations; lia|].
  split_and!; [by constructor|done|]. intros p. unfold taken1. simpl. by rewrite Hh, andb_false_r.
Qed.

Lemma FrameArena_alloc_spec a : arena_ok a ->
  (exists p a', FrameArena_alloc a = Ret (Some p, a') /\ arena_ok a' /\ fr_range a' = fr_range a /\
     p mod 4096 = 0 /\ holds_page (fr_range a) p /\ taken1 a p = false /\
     forall q, q mod 4096 = 0 -> taken1 a' q = (q =? p) || taken1 a q) \/
  (FrameArena_alloc a = Ret (None, a) /\
     forall p, p mod 4096 = 0 -> holds_page (fr_range a) p -> taken1 a p = true).
Proof.
  intros [Hw [Hp1 Hp2] Ho Hl]. pose proof Hw as [H1 H2 H3]. unfold FrameArena_alloc.
  destruct (pool_find_free (fr_used a)) as [i|] eqn:E.
  - left. apply pool_find_free_some in E as (Hi & Hf & _); [|done].
    destruct (pool_set_spec (fr_used a) i Ho ltac:(lia)) as (u & -> & Hu & Hul & Hh). cbn [mbind comp_bind].
    unfold PAGE_SIZE, mul_ovf, add_ovf, max_of. rewrite (proj2 (Z.leb_le _ _)) by (Z.div_mod_to_equations; lia). cbn [mbind comp_bind].
    rewrite (proj2 (Z.leb_le _ _)) by (Z.div_mod_to_equations; lia). cbn [mbind comp_bind].
    eexists _, _. split; [done|]. split; [constructor; simpl; try done; by rewrite Hul|]. split; [done|].
    assert (Hdiv : (pr_start (fr_range a) + i * 4096 - pr_start (fr_range a)) / 4096 = i) by (Z.div_mod_to_equations; lia).
    split_and!.
    + Z.div_mod_to_equations. lia.
    + unfold holds_page. Z.div_mod_to_equations. lia.
    + unfold taken1. by rewrite Hdiv, Hf, andb_false_r.
    + intros q Hq. unfold taken1, contains. simpl.
      destruct (Z.leb_spec (pr_start (fr_range a)) q); simpl; [|destruct (Z.eqb_spec q (pr_start (fr_range a) + i * 4096)); [lia|done]].
      destruct (Z.ltb_spec q (pr_end (fr_range a))); simpl.
      * rewrite Hh by (Z.div_mod_to_equations; lia). f_equal.
        apply eq_true_iff_eq. rewrite !Z.eqb_eq. Z.div_mod_to_equations. lia.
      * destruct (Z.eqb_spec q (pr_start (fr_range a) + i * 4096)); [Z.div_mod_to_equations; lia|done].
  - right. split; [done|]. intros p Hp [Hh1 Hh2]. unfold taken1.
    rewrite (proj2 (contains_spec a p)) by (unfold has; lia). simpl.
    apply (pool_find_free_none _ Ho E). Z.div_mod_to_equations. lia.
Qed.

Lemma FrameArena_free_spec a p : arena_ok a -> contains a p = true ->
  if (p mod 4096 =? 0) && taken1 a p then
    exists a', FrameArena_free a p = Ret (true, a') /\ arena_ok a' /\ fr_range a' = fr_range a /\
      forall q, q mod 4096 = 0 -> taken1 a' q = negb (q =? p) && taken1 a q
  else FrameArena_free a p = Ret (false, a).
Proof.
  intros [Hw [Hp1 Hp2] Ho Hl] Hc. pose proof Hw as [H1 H2 H3]. unfold FrameArena_free, is_multiple_of, PAGE_SIZE.
  destruct (Z.eqb_spec (p mod 4096) 0) as [Hp|]; [|done]. unfold taken1. rewrite Hc. cbn [andb negb].
  apply contains_spec in Hc. unfold has in Hc. rewrite sub_ovf_ok by lia. cbn [mbind comp_bind].
  assert (Hi : 0 <= (p - pr_start (fr_range a)) / 4096 < pool_len (fr_used a)) by (Z.div_mod_to_equations; lia).
  rewrite (pool_is_set_spec _ _ Ho Hi). cbn [mbind comp_bind].
  destruct (pool_has (fr_used a) ((p - pr_start (fr_range a)) / 4096)) eqn:E; [|done]. cbn [negb].
  destruct (pool_unset_spec _ _ Ho Hi) as (u & -> & Hu & Hul & Hh). cbn [mbind comp_bind].
  eexists. split; [done|]. split; [constructor; simpl; try done; by rewrite Hul|]. split; [done|].
  intros q Hq. unfold contains. simpl.
  destruct (Z.leb_spec (pr_start (fr_range a)) q); simpl; [|by rewrite andb_false_r].
  destruct (Z.ltb_spec q (pr_end (fr_range a))); simpl; [|by rewrite andb_false_r].
  rewrite Hh by (Z.div_mod_to_equations; lia). f_equal. f_equal.
  apply eq_true_iff_eq. rewrite !Z.eqb_eq. Z.div_mod_to_equations. lia.
Qed.
(** ** All arenas *)
Lemma taken1_contains a p : taken1 a p = true -> contains a p = true.
Proof. unfold taken1. by destruct (contains a p). Qed.

(** No later arena knows a page of the first. *)
Lemma taken_later a arenas p hi :
  chain (pr_end (fr_range a)) (pfa_ranges arenas) hi -> contains a p = true -> taken arenas p = false.
Proof.
  intros Hc Hp. apply contains_spec in Hp. unfold has in Hp. destruct (taken arenas p) eqn:E; [|done].
  apply existsb_exists in E as (b & Hb & Ht). apply taken1_contains, contains_spec in Ht. unfold has in Ht.
  assert (Hr : fr_range b ∈ pfa_ranges arenas) by (apply list_elem_of_fmap_2, list_elem_of_In; done).
  destruct (chain_in _ _ _ _ Hc Hr) as (? & ? & ?). lia.
Qed.

Lemma holds_contains a p : holds_page (fr_range a) p -> contains a p = true.
Proof. intros [? ?]. apply contains_spec. unfold has. lia. Qed.

Lemma pfa_alloc_run lo arenas : pfa_ok lo arenas ->
  (exists p arenas', pfa_alloc arenas = Ret (Some p, arenas') /\ pfa_ok lo arenas' /\
     pfa_ranges arenas' = pfa_ranges arenas /\ managed (pfa_ranges arenas) p /\ taken arenas p = false /\
     forall q, q mod 4096 = 0 -> taken arenas' q = (q =? p) || taken arenas q) \/
  (pfa_alloc arenas = Ret (None, arenas) /\ forall p, managed (pfa_ranges arenas) p -> taken arenas p = true).
Proof.
  intros [Ho Hc]. revert lo Hc. induction Ho as [|a arenas Ha Ho IH]; intros lo Hc.
  { right. split; [done|]. intros p (_ & r & Hr & _). by apply not_elem_of_nil in Hr. }
  simpl in Hc. destruct Hc as (Hc1 & Hc2 & Hc3). cbn [pfa_alloc].
  destruct (FrameArena_alloc_spec a Ha) as [(p & a' & -> & Ha' & Hr & Hp & Hh & Ht & Hq)|[-> Hn]]; cbn [mbind comp_bind].
  - left. exists p, (a' :: arenas). split; [done|]. split; [|split_and!].
    + constructor; [by constructor|]. simpl. by rewrite Hr.
    + simpl. by rewrite Hr.
    + split; [done|]. exists (fr_range a). split; [by left|done].
    + simpl. rewrite Ht. simpl. eapply taken_later; [exact Hc3|]. by apply holds_contains.
    + intros q Hqm. simpl. by rewrite Hq, orb_assoc.
  - destruct (IH _ Hc3) as [(p & arenas' & -> & [Ho' Hc'] & Hr & (Hp & r & Hrin & Hh) & Ht & Hq)|[-> Hall]]; cbn [mbind comp_bind].
    + left. exists p, (a :: arenas'). split; [done|]. split; [|split_and!].
      * constructor; [by constructor|]. simpl. done.
      * simpl. by rewrite Hr.
      * split; [done|]. exists r. split; [by right|done].
      * simpl. rewrite Ht, orb_false_r. destruct (taken1 a p) eqn:E; [|done].
        apply taken1_contains, contains_spec in E. unfold has in E.
        destruct (chain_in _ _ _ _ Hc3 Hrin) as (? & ? & ?). destruct Hh. lia.
      * intros q Hqm. simpl. rewrite Hq by done. by destruct (q =? p), (taken1 a q).
    + right. split; [done|]. intros p (Hp & r & Hr & Hh). simpl. apply elem_of_cons in Hr as [->|Hr].
      * by rewrite Hn.
      * rewrite Hall; [by rewrite orb_true_r|]. split; [done|]. by exists r.
Qed.

Lemma pfa_free_run lo arenas p : pfa_ok lo arenas ->
  if (p mod 4096 =? 0) && taken arenas p then
    exists arenas', pfa_free arenas p = Ret (true, arenas') /\ pfa_ok lo arenas' /\
      pfa_ranges arenas' = pfa_ranges arenas /\
      forall q, q mod 4096 = 0 -> taken arenas' q = negb (q =? p) && taken arenas q
  else pfa_free arenas p = Ret (false, arenas).
Proof.
  intros [Ho Hc]. revert lo Hc. induction Ho as [|a arenas Ha Ho IH]; intros lo Hc.
  { simpl. by rewrite andb_false_r. }
  simpl in Hc. destruct Hc as (Hc1 & Hc2 & Hc3). cbn [pfa_free taken existsb].
  destruct (contains a p) eqn:Ec.
  - pose proof (FrameArena_free_spec a p Ha Ec) as Hf. change (existsb (fun a => taken1 a p) arenas) with (taken arenas p).
    rewrite (taken_later a arenas p _ Hc3 Ec), orb_false_r.
    destruct ((p mod 4096 =? 0) && taken1 a p) eqn:Eb; [|by rewrite Hf].
    destruct Hf as (a' & -> & Ha' & Hr & Hq). cbn [mbind comp_bind]. eexists. split; [done|]. split; [|split].
    + constructor; [by constructor|]. simpl. by rewrite Hr.
    + simpl. by rewrite Hr.
    + intros q Hqm. simpl. rewrite Hq by done. change (existsb (fun a => taken1 a q) arenas) with (taken arenas q).
      destruct (Z.eqb_spec q p) as [->|]; [|done]. simpl. by apply (taken_later a arenas p _ Hc3).
  - specialize (IH _ Hc3). change (existsb (fun a => taken1 a p) arenas) with (taken arenas p).
    assert (Hn : taken1 a p = false) by (unfold taken1; by rewrite Ec). rewrite Hn. cbn [orb].
    destruct ((p mod 4096 =? 0) && taken arenas p) eqn:Eb; [|by rewrite IH].
    destruct IH as (arenas' & -> & [Ho' Hc'] & Hr & Hq). cbn [mbind comp_bind]. eexists. split; [done|]. split; [|split].
    + constructor; [by constructor|]. done.
    + simpl. by rewrite Hr.
    + intros q Hqm. simpl. change (existsb (fun a => taken1 a q) ?l) with (taken l q). rewrite Hq by done.
      destruct (Z.eqb_spec q p) as [->|]; [|done]. by rewrite Hn.
Qed.

(** ** Construction *)
Lemma new_arenas_spec lo ranges :
  Forall page_range ranges -> chain lo ranges (2 ^ 64 - 1) -> 0 <= lo ->
  exists arenas, new_arenas ranges = Ret arenas /\ pfa_ok lo arenas /\ pfa_ranges arenas = ranges /\
    forall p, taken arenas p = false.
Proof.
  intros Hp. revert lo. induction Hp as [|r ranges Hr Hp IH]; intros lo Hc Hlo.
  { exists []. by split_and!. }
  simpl in Hc. destruct Hc as (Hc1 & Hc2 & Hc3). pose proof (chain_le _ _ _ Hc3).
  destruct (FrameArena_new_spec r) as (a & Ea & Ha & Har & Ht); [constructor; lia|done|].
  destruct (IH _ Hc3 ltac:(lia)) as (arenas & El & [Ho Hch] & Hrs & Htl).
  cbn [new_arenas]. rewrite Ea. cbn [mbind comp_bind]. rewrite El. cbn [mbind comp_bind].
  exists (a :: arenas). split; [done|]. split; [|split].
  - constructor; [by constructor|]. simpl. rewrite Har. split_and!; [done|done|]. by rewrite Hrs in *.
  - simpl. by rewrite Har, Hrs.
  - intros p. simpl. rewrite Ht. apply Htl.
Qed.

Lemma sum_pages_ok lo ranges acc :
  chain lo ranges (2 ^ 64 - 1) -> acc <= lo -> exists n, sum_pages ranges acc = Ret n.
Proof.
  revert lo acc. induction ranges as [|r ranges IH]; intros lo acc Hc Ha; [by eexists|].
  simpl in Hc. destruct Hc as (Hc1 & Hc2 & Hc3). pose proof (chain_le _ _ _ Hc3). cbn [sum_pages].
  unfold pr_size, PAGE_SIZE. rewrite sub_ovf_ok by lia. cbn [mbind comp_bind].
  assert ((pr_end r - pr_start r) / 4096 <= pr_end r - pr_start r) by (Z.div_mod_to_equations; lia).
  rewrite add_ovf_ok by (unfold max_of; lia). cbn [mbind comp_bind]. apply (IH (pr_end r)); [done|lia].
Qed.

(** What [PageFrameAllocator::new] is called with. *)
Record memory_map_ok (regions memory : list PhysRange) (fdt : PhysRange) (layout : KernelLayout) : Prop := {
  mm_regions : Forall range_wf regions;
  mm_memory : Forall range_wf memory;
  mm_fdt : range_wf fdt;
  mm_kernel : range_wf (mkPhysRange (kernel_start layout) (kernel_end layout));
}.

(** A page that lies in RAM and touches nothing reserved. *)
Definition page_free (regions memory : list PhysRange) (fdt : PhysRange) (layout : KernelLayout) (p : Z) : Prop :=
  forall z, p <= z < p + 4096 ->
    in_ranges memory z /\ ~ in_ranges regions z /\ ~ has fdt z /\ ~ (kernel_start layout <= z < kernel_end layout).

Lemma pfa_new_run regions memory fdt layout :
  memory_map_ok regions memory fdt layout ->
  exists arenas, PageFrameAllocator_new regions memory fdt layout = Ret arenas /\ pfa_ok 0 arenas /\
    (forall p, taken arenas p = false) /\
    forall p, p mod 4096 = 0 -> managed (pfa_ranges arenas) p <-> page_free regions memory fdt layout p.
Proof.
  intros [Hr Hm Hf [Hk1 Hk2 Hk3]]. simpl in *. unfold PageFrameAllocator_new, fixup_reserved_memory_regions.
  rewrite sub_ovf_ok by lia. cbn [mbind comp_bind].
  set (kernel := mkPhysRange (kernel_start layout) (kernel_end layout)).
  assert (Ek : from_start_size (kernel_start layout) (kernel_end layout - kernel_start layout) = Ok kernel).
  { unfold from_start_size, checked_add, usize_max, max_of. rewrite (proj2 (Z.leb_le _ _)) by lia.
    rewrite (proj2 (Z.leb_gt _ _)) by lia. unfold kernel. do 2 f_equal. lia. }
  rewrite Ek. cbn [mbind comp_bind].
  destruct (usable_run memory (regions ++ [fdt; kernel])) as (Hc & Hp & Hh); [done| |].
  { apply Forall_app. split; [done|]. constructor; [done|]. constructor; [by constructor|constructor]. }
  destruct (sum_pages_ok 0 _ 0 Hc ltac:(done)) as [n ->]. cbn [mbind comp_bind].
  destruct (new_arenas_spec 0 _ Hp Hc ltac:(done)) as (arenas & -> & Ho & Hrs & Ht).
  exists arenas. split_and!; try done. intros p Hpm. unfold managed. rewrite Hrs.
  specialize (Hh p Hpm). unfold page_free. setoid_rewrite in_ranges_app in Hh. setoid_rewrite in_ranges_cons in Hh.
  setoid_rewrite in_ranges_cons in Hh.
  split.
  - intros [_ Hx] z Hz. destruct (proj1 Hh Hx z Hz) as [? Hno]. unfold has in Hno at 2. simpl in Hno. tauto.
  - intros Hz. split; [done|]. apply Hh. intros z Hzr. destruct (Hz z Hzr) as (? & ? & ? & ?). split; [done|].
    unfold has at 2. simpl. pose proof (in_ranges_nil z). tauto.
Qed.
(** ** Clients: which frames are out *)
Inductive frame_client : list FrameArena * list Z -> list FrameArena * list Z -> Prop :=
| fc_alloc arenas live p arenas' :
    pfa_alloc arenas = Ret (Some p, arenas') -> frame_client (arenas, live) (arenas', p :: live)
| fc_none arenas live arenas' :
    pfa_alloc arenas = Ret (None, arenas') -> frame_client (arenas, live) (arenas', live)
| fc_free arenas l1 p l2 b arenas' :
    pfa_free arenas p = Ret (b, arenas') -> frame_client (arenas, l1 ++ p :: l2) (arenas', l1 ++ l2)
| fc_wrong_free arenas live p b arenas' :
    p ∉ live -> pfa_free arenas p = Ret (b, arenas') -> frame_client (arenas, live) (arenas', live).

Record frames_inv (ranges : list PhysRange) (st : list FrameArena * list Z) : Prop := {
  fi_ok : pfa_ok 0 (fst st);
  fi_ranges : pfa_ranges (fst st) = ranges;
  fi_nodup : NoDup (snd st);
  fi_live p : p ∈ snd st <-> managed ranges p /\ taken (fst st) p = true;
}.

Lemma taken_managed arenas p : pfa_ok 0 arenas -> p mod 4096 = 0 -> taken arenas p = true -> managed (pfa_ranges arenas) p.
Proof.
  intros [Ho _] Hp Ht. apply existsb_exists in Ht as (a & Ha & Ht). apply list_elem_of_In in Ha. split; [done|].
  exists (fr_range a). split; [by apply list_elem_of_fmap_2|]. rewrite Forall_forall in Ho. apply page_in_range; [by apply Ho|done|].
  by apply contains_spec, taken1_contains.
Qed.

Lemma frame_client_inv ranges st st' : frame_client st st' -> frames_inv ranges st -> frames_inv ranges st'.
Proof.
  intros Hst [Ho Hr Hn Hl].
  destruct Hst as [arenas live p arenas' E|arenas live arenas' E|arenas l1 p l2 b arenas' E|arenas live p b arenas' Hp E]; simpl in *; subst ranges.
  - destruct (pfa_alloc_run 0 arenas Ho) as [(q & arenas1 & E1 & Ho' & Hr' & Hm & Ht & Hq)|[E1 _]]; rewrite E1 in E; [|done].
    injection E as -> ->. constructor; simpl; [done..| |].
    + constructor; [|done]. intros Hin. apply Hl in Hin as [_ Hin]. congruence.
    + intros q. rewrite elem_of_cons, Hl. destruct Hm as [Hpm Hm]. split.
      * intros [->|[[Hqm ?] Hqt]]; (split; [by split|]); rewrite Hq by done; [by rewrite Z.eqb_refl|by rewrite Hqt, orb_true_r].
      * intros [[Hqm ?] Hqt]. rewrite Hq in Hqt by done. apply orb_true_iff in Hqt as [->%Z.eqb_eq|?]; [by left|by right].
  - destruct (pfa_alloc_run 0 arenas Ho) as [(q & arenas1 & E1 & _)|[E1 _]]; rewrite E1 in E; [done|].
    by injection E as <-.
  - pose proof (pfa_free_run 0 arenas p Ho) as Hf. destruct (proj1 (Hl p) ltac:(set_solver)) as [[Hpm Hm] Ht].
    rewrite Hpm, Ht in Hf. destruct Hf as (arenas1 & E1 & Ho' & Hr' & Hq). rewrite E1 in E. injection E as <- ->.
    rewrite NoDup_app, NoDup_cons in Hn. destruct Hn as (Hn1 & Hn12 & Hn2 & Hn3).
    constructor; simpl; [done..| |].
    + apply NoDup_app. split_and!; [done|set_solver|done].
    + intros q. specialize (Hl q). rewrite elem_of_app, elem_of_cons in Hl. rewrite elem_of_app. split.
      * intros Hin. destruct (proj1 Hl ltac:(tauto)) as [[Hqm ?] Hqt]. split; [done|]. rewrite Hq by done.
        rewrite Hqt, andb_true_r. destruct (Z.eqb_spec q p) as [->|]; [|done]. set_solver.
      * intros [[Hqm ?] Hqt]. rewrite Hq in Hqt by done. apply andb_true_iff in Hqt as [Hne Hqt].
        apply negb_true_iff, Z.eqb_neq in Hne. destruct (proj2 Hl) as [?|[?|?]]; [done|by left|done|by right].
  - pose proof (pfa_free_run 0 arenas p Ho) as Hf. destruct ((p mod 4096 =? 0) && taken arenas p) eqn:Eb.
    + apply andb_true_iff in Eb as [Hpm%Z.eqb_eq Ht]. destruct Hp. apply Hl. split; [by apply taken_managed|done].
    + rewrite Hf in E. by injection E as <- <-.
Qed.

(** C13: Frames are exclusive and safe.  From a fresh allocator, after any
    sequence of allocations and frees, right or wrong ones: the frames in the
    clients' hands are pairwise different 4 KiB pages of RAM that touch neither
    a reserved region, nor the FDT, nor the kernel image; the next allocation
    is a page nobody holds; and it fails only when every such page is held. *)
Theorem frames_are_exclusive regions memory fdt layout arenas0 arenas live :
  memory_map_ok regions memory fdt layout ->
  PageFrameAllocator_new regions memory fdt layout = Ret arenas0 ->
  rtc frame_client (arenas0, []) (arenas, live) ->
  NoDup live /\
  (forall p, p ∈ live -> p mod 4096 = 0 /\ page_free regions memory fdt layout p) /\
  exists r arenas', pfa_alloc arenas = Ret (r, arenas') /\
    match r with
    | Some p => p ∉ live /\ p mod 4096 = 0 /\ page_free regions memory fdt layout p
    | None => forall p, p mod 4096 = 0 -> page_free regions memory fdt layout p -> p ∈ live
    end.
Proof.
  intros Hmm E Hst. destruct (pfa_new_run _ _ _ _ Hmm) as (a0 & E0 & Ho & Ht & Hman). rewrite E in E0. injection E0 as <-.
  assert (Hinv : frames_inv (pfa_ranges arenas0) (arenas, live)).
  { remember (arenas0, []) as st0. remember (arenas, live) as st. clear Heqst.
    assert (Hi0 : frames_inv (pfa_ranges arenas0) st0).
    { subst st0. constructor; simpl; [done..|constructor|]. intros p. split; [by intros ?%not_elem_of_nil|].
      intros [_ Htp]. by rewrite Ht in Htp. }
    clear Heqst0. induction Hst; eauto using frame_client_inv. }
  destruct Hinv as [Ho' Hr Hn Hl]. simpl in *. split; [done|].
  split; [intros p Hp; apply Hl in Hp as [Hp _]; pose proof Hp as [? _]; split; [done|by apply Hman]|].
  destruct (pfa_alloc_run 0 arenas Ho') as [(p & arenas' & E1 & _ & _ & Hm & Hnt & _)|[E1 Hall]]; rewrite E1;
    eexists _, _; (split; [reflexivity|]).
  - rewrite Hr in Hm. pose proof Hm as [Hpm _]. split_and!; [|done|by apply Hman]. intros Hin. apply Hl in Hin as [_ ?]. congruence.
  - intros p Hpm Hpf. apply Hl. rewrite Hr in Hall. split; [by apply Hman|]. by apply Hall, Hman.
Qed.

(** [free] is exact: it gives back a page that is managed and in use, and
    rejects everything else (unaligned, unknown or not allocated) without
    changing the allocator. *)
Theorem free_is_exact lo arenas p :
  pfa_ok lo arenas ->
  if (p mod 4096 =? 0) && taken arenas p then
    exists arenas', pfa_free arenas p = Ret (true, arenas') /\ pfa_ok lo arenas' /\
      pfa_ranges arenas' = pfa_ranges arenas /\
      forall q, q mod 4096 = 0 -> taken arenas' q = negb (q =? p) && taken arenas q
  else pfa_free arenas p = Ret (false, arenas).
Proof. apply pfa_free_run. Qed.
End Frames.
Arguments FrameArena P : clear implicits.

(** ** Witnesses: 64 KiB of RAM with the kernel at its start *)
Definition sample_layout : KernelLayout := mkKernelLayout 0x80000000 0x80004000 0 0 0.
Definition sample_fdt : PhysRange := mkPhysRange 0x8000F000 0x8000F800.

Lemma sample_map_ok : memory_map_ok sample_reserved sample_memory sample_fdt sample_layout.
Proof. constructor; [exact sample_reserved_wf|exact sample_memory_wf|by constructor|by constructor]. Qed.

Definition sample_arenas (word : Z) : list (FrameArena Bitmap) :=
  [mkArena (mkPhysRange 0x80004000 0x8000F000) (mkBitmap 11 [word])].

Lemma sample_new :
  PageFrameAllocator_new sample_reserved sample_memory sample_fdt sample_layout = Ret (sample_arenas 0).
Proof. vm_compute. reflexivity. Qed.

Lemma frames_are_exclusive_witness :
  pfa_alloc (sample_arenas 0) = Ret (Some 0x80004000, sample_arenas 1) /\
  pfa_alloc (sample_arenas 1) = Ret (Some 0x80005000, sample_arenas 3) /\
  NoDup [0x80005000; 0x80004000].
Proof.
  assert (E1 : pfa_alloc (sample_arenas 0) = Ret (Some 0x80004000, sample_arenas 1)) by (vm_compute; reflexivity).
  assert (E2 : pfa_alloc (sample_arenas 1) = Ret (Some 0x80005000, sample_arenas 3)) by (vm_compute; reflexivity).
  split; [exact E1|]. split; [exact E2|].
  apply (frames_are_exclusive _ _ _ _ (sample_arenas 0) (sample_arenas 3) _ sample_map_ok sample_new).
  apply (rtc_l _ _ (sample_arenas 1, [0x80004000])); [exact (fc_alloc (sample_arenas 0) [] _ _ E1)|].
  apply rtc_once. exact (fc_alloc (sample_arenas 1) _ _ _ E2).
Defined.

Lemma free_is_exact_witness :
  exists a0 : list (FrameArena Bitmap),
    PageFrameAllocator_new sample_reserved sample_memory sample_fdt sample_layout = Ret a0 /\
    pfa_free a0 0x80004000 = Ret (false, a0).
Proof.
  destruct (pfa_new_run (P := Bitmap) _ _ _ _ sample_map_ok) as (a0 & E0 & Ho & Ht & _). exists a0. split; [exact E0|].
  pose proof (free_is_exact 0 a0 0x80004000 Ho) as Hf. rewrite Ht in Hf. exact Hf.
Defined.
