(* ===== verification/PageTable.v ===== *)
(** * Sv39 page tables ([src/virtual_memory/src/lib.rs])

    Virtual addresses, page-table entries and [PageTable::map] over the word
    memory that holds the tables.  [sv39] is the translation of the RISC-V
    privileged architecture, the reference [map] is proved against.  Frames come
    through the [FrameSource] interface. *)
From S2P Require Import Prelude Memory PhysRange.

(** ** Virtual addresses *)
Inductive Level := L0 | L1 | L2.

Definition vpn (val : Z) (level : Level) : Z :=
  match level with
  | L0 => Z.land (Z.shiftr val 12) 0x1FF
  | L1 => Z.land (Z.shiftr val 21) 0x1FF
  | L2 => Z.land (Z.shiftr val 30) 0x1FF
  end.
Definition offset (val : Z) : Z := Z.land val 0xFFF.

(** [<<] on [usize] drops the bits that leave the word. *)
Definition shl (x n : Z) : Z := Z.shiftl x n mod 2 ^ 64.

Definition from_parts (l2 l1 l0 offset : Z) : Z :=
  Z.lor (Z.lor (Z.lor (shl l2 30) (shl l1 21)) (shl l0 12)) offset.

(** ** Page-table entries *)
Definition VALID : Z := 1.
Definition READ : Z := Z.shiftl 1 1.
Definition WRITE : Z := Z.shiftl 1 2.
Definition EXECUTE : Z := Z.shiftl 1 3.

Definition new_leaf (addr flags : Z) : Z := Z.lor (Z.lor (shl (Z.shiftr addr 12) 10) flags) VALID.
Definition new_branch (addr : Z) : Z := Z.lor (shl (Z.shiftr addr 12) 10) VALID.
Definition is_valid (e : Z) : bool := Z.land e VALID =? VALID.
Definition is_leaf (e : Z) : bool := negb (Z.land e (Z.lor (Z.lor READ WRITE) EXECUTE) =? 0).
Definition ppn (e : Z) : Z := shl (Z.shiftr e 10) 12.

(** ** The interface to the frame allocator *)
Class FrameSource (A : Type) := {
  fs_alloc : A -> comp (Z * A);
  fs_ok : A -> Prop;
  fs_fresh : A -> Z -> Prop;
}.

Class FrameSourceLaws (A : Type) `{FrameSource A} := {
  fs_alloc_spec s p s' : fs_ok s -> fs_alloc s = Ret (p, s') ->
    fs_ok s' /\ fs_fresh s p /\ ~ fs_fresh s' p /\ forall q, fs_fresh s' q -> fs_fresh s q;
  fs_fresh_page s p : fs_ok s -> fs_fresh s p -> p mod 4096 = 0 /\ 0 <= p < 2 ^ 64;
}.

Section Map.
Context {A : Type} `{FrameSource A}.

(** [get_mut(idx)] as the address of the entry. *)
Definition get_mut (table idx : Z) : comp Z := assert (idx <? 512) ;; Ret (table + 8 * idx).

Fixpoint write_zeros (n : nat) (m : mem) (a : Z) : comp mem :=
  match n with
  | O => Ret m
  | S n => m ← store m a 0; write_zeros n m (a + 8)
  end.

Definition new_table (m : mem) (s : A) : comp (Z * mem * A) :=
  '(frame, s) ← fs_alloc s;
  m ← write_zeros 512 m frame;
  Ret (frame, m, s).

(** The [if !entry.is_valid()] block of [map], which occurs once per level. *)
Definition ensure_table (m : mem) (s : A) (entry : Z) : comp (mem * A) :=
  e ← load m entry;
  if negb (is_valid e) then
    '(frame, m, s) ← new_table m s;
    m ← store m entry (new_branch frame);
    Ret (m, s)
  else Ret (m, s).

Definition map_page (root : Z) (m : mem) (s : A) (virt phys flags : Z) : comp (mem * A) :=
  l2_entry ← get_mut root (vpn virt L2);
  '(m, s) ← ensure_table m s l2_entry;
  e ← load m l2_entry;
  let l1_table := ppn e in
  l1_entry ← get_mut l1_table (vpn virt L1);
  '(m, s) ← ensure_table m s l1_entry;
  e ← load m l1_entry;
  let l0_table := ppn e in
  l0_entry ← get_mut l0_table (vpn virt L0);
  e ← load m l0_entry;
  assert (negb (is_valid e)) ;;
  m ← store m l0_entry (new_leaf phys flags);
  Ret (m, s).

(** ** The reference: address translation

    The physical address and the flags [virt] translates to.  A leaf above the
    last level maps a superpage. *)
Definition sv39_leaf (e virt size : Z) : Z * Z := (ppn e / size * size + virt mod size, e mod 1024).

Definition sv39 (m : mem) (root virt : Z) : option (Z * Z) :=
  e2 ← m !! (root + 8 * vpn virt L2);
  if negb (is_valid e2) then None
  else if is_leaf e2 then Some (sv39_leaf e2 virt (2 ^ 30))
  else
    e1 ← m !! (ppn e2 + 8 * vpn virt L1);
    if negb (is_valid e1) then None
    else if is_leaf e1 then Some (sv39_leaf e1 virt (2 ^ 21))
    else
      e0 ← m !! (ppn e1 + 8 * vpn virt L0);
      if is_valid e0 && is_leaf e0 then Some (sv39_leaf e0 virt (2 ^ 12)) else None.
End Map.

(** The proofs use the arithmetic below, not the bit operations. *)
#[global] Arguments vpn : simpl never.
#[global] Arguments new_branch : simpl never.
#[global] Arguments new_leaf : simpl never.

(** ** Arithmetic of addresses and entries *)
Lemma shiftr_div x n : 0 <= n -> Z.shiftr x n = x / 2 ^ n.
Proof. apply Z.shiftr_div_pow2. Qed.

Lemma land_low x n : 0 <= n -> Z.land x (2 ^ n - 1) = x mod 2 ^ n.
Proof. intros Hn. rewrite <- Z.land_ones by done. f_equal. rewrite Z.ones_equiv. lia. Qed.

Lemma lor_low x y n : 0 <= n -> 0 <= y < 2 ^ n -> Z.lor (x * 2 ^ n) y = x * 2 ^ n + y.
Proof.
  intros Hn Hy. rewrite <- Z.shiftl_mul_pow2 by done. rewrite Z.add_nocarry_lxor.
  - rewrite Z.lxor_lor; [done|]. apply Z.bits_inj'. intros i Hi. rewrite Z.land_spec, Z.bits_0, Z.shiftl_spec by done.
    destruct (Z.lt_ge_cases i n); [by rewrite Z.testbit_neg_r by lia|].
    rewrite (testbit_above n y) by done. apply andb_false_r.
  - apply Z.bits_inj'. intros i Hi. rewrite Z.land_spec, Z.bits_0, Z.shiftl_spec by done.
    destruct (Z.lt_ge_cases i n); [by rewrite Z.testbit_neg_r by lia|].
    rewrite (testbit_above n y) by done. apply andb_false_r.
Qed.

Lemma vpn_arith v : vpn v L0 = v / 2 ^ 12 mod 512 /\ vpn v L1 = v / 2 ^ 21 mod 512 /\ vpn v L2 = v / 2 ^ 30 mod 512.
Proof.
  unfold vpn. change 0x1FF with (2 ^ 9 - 1). rewrite !land_low, !shiftr_div by lia. done.
Qed.

Lemma vpn_bounds v l : 0 <= vpn v l < 512.
Proof. destruct (vpn_arith v) as (H0 & H1 & H2). destruct l; rewrite ?H0, ?H1, ?H2; apply Z.mod_pos_bound; lia. Qed.

Lemma offset_arith v : offset v = v mod 4096.
Proof. unfold offset. change 0xFFF with (2 ^ 12 - 1). by rewrite land_low. Qed.

Lemma shl_small x n : 0 <= n -> 0 <= x -> x * 2 ^ n < 2 ^ 64 -> shl x n = x * 2 ^ n.
Proof.
  intros Hn Hx Hlt. unfold shl. rewrite Z.shiftl_mul_pow2 by done. apply Z.mod_small.
  pose proof (Z.pow_pos_nonneg 2 n). nia.
Qed.

(** An entry is its page number above its ten flag bits. *)
Lemma entry_ppn q f : 0 <= q < 2 ^ 52 -> 0 <= f < 1024 -> ppn (q * 1024 + f) = q * 4096.
Proof.
  intros Hq Hf. unfold ppn. rewrite shiftr_div by lia. change (2 ^ 10) with 1024.
  replace ((q * 1024 + f) / 1024) with q by (Z.div_mod_to_equations; lia). rewrite shl_small by lia. done.
Qed.

Lemma new_leaf_arith addr flags : 0 <= addr < 2 ^ 64 -> 0 <= flags < 1024 ->
  new_leaf addr flags = addr / 4096 * 1024 + Z.lor flags 1.
Proof.
  intros Ha Hf. unfold new_leaf, VALID. rewrite shiftr_div by lia. change (2 ^ 12) with 4096.
  rewrite shl_small by (Z.div_mod_to_equations; lia). rewrite <- Z.lor_assoc. apply (lor_low _ _ 10); [lia|].
  apply in_width_lor; [lia|done|by split].
Qed.

Lemma new_branch_arith addr : 0 <= addr < 2 ^ 64 -> new_branch addr = addr / 4096 * 1024 + 1.
Proof. intros Ha. pose proof (new_leaf_arith addr 0 Ha ltac:(lia)) as E. unfold new_leaf in E. by rewrite Z.lor_0_r in E. Qed.

Lemma is_valid_odd e : is_valid e = Z.odd e.
Proof. unfold is_valid, VALID. change 1 with (2 ^ 1 - 1) at 1. rewrite land_low by lia. rewrite Zmod_odd. by destruct (Z.odd e). Qed.

(** The flags of an entry survive the page number above them. *)
Lemma land_flags q f msk : 0 <= f < 1024 -> 0 <= msk < 1024 -> Z.land (q * 1024 + f) msk = Z.land f msk.
Proof.
  intros Hf Hm. change 1024 with (2 ^ 10) in *. rewrite <- (lor_low q f 10) by lia. apply Z.bits_inj'. intros i Hi.
  rewrite !Z.land_spec, Z.lor_spec. destruct (Z.lt_ge_cases i 10).
  - rewrite Z.mul_pow2_bits_low by done. done.
  - rewrite (testbit_above 10 msk) by (done || lia). by rewrite !andb_false_r.
Qed.

Lemma is_leaf_flags q f : 0 <= f < 1024 -> is_leaf (q * 1024 + f) = negb (Z.land f 14 =? 0).
Proof. intros Hf. unfold is_leaf. change (Z.lor (Z.lor READ WRITE) EXECUTE) with 14. by rewrite land_flags. Qed.

Lemma is_valid_flags q f : 0 <= f < 1024 -> is_valid (q * 1024 + f) = Z.odd f.
Proof. intros Hf. rewrite is_valid_odd, Z.odd_add, Z.odd_mul. simpl. by rewrite andb_false_r, xorb_false_l. Qed.

(** A branch leads to its table. *)
Lemma branch_spec a : a mod 4096 = 0 -> 0 <= a < 2 ^ 64 ->
  is_valid (new_branch a) = true /\ is_leaf (new_branch a) = false /\ ppn (new_branch a) = a.
Proof.
  intros Ha Hr. rewrite new_branch_arith by done. rewrite is_valid_flags, is_leaf_flags by lia. split_and!; [done|done|].
  rewrite entry_ppn by (Z.div_mod_to_equations; lia). Z.div_mod_to_equations. lia.
Qed.

(** A leaf carries its frame and its flags. *)
Lemma leaf_spec phys flags : 0 <= phys < 2 ^ 64 -> 0 <= flags < 1024 -> Z.land flags 14 <> 0 ->
  is_valid (new_leaf phys flags) = true /\ is_leaf (new_leaf phys flags) = true /\
  ppn (new_leaf phys flags) = phys / 4096 * 4096 /\ new_leaf phys flags mod 1024 = Z.lor flags 1.
Proof.
  intros Hp Hf Hl. assert (Hw : 0 <= Z.lor flags 1 < 1024) by (apply (in_width_lor 10); [lia|done|by split]).
  rewrite new_leaf_arith by done. rewrite is_valid_flags, is_leaf_flags by done. split_and!.
  - rewrite <- Z.bit0_odd, Z.lor_spec. apply orb_true_r.
  - destruct (Z.eqb_spec (Z.land (Z.lor flags 1) 14) 0) as [E|]; [|done]. destruct Hl.
    rewrite Z.land_lor_distr_l in E. change (Z.land 1 14) with 0 in E. by rewrite Z.lor_0_r in E.
  - apply entry_ppn; [Z.div_mod_to_equations; lia|done].
  - rewrite Z.add_comm, Z.mod_add by lia. by apply Z.mod_small.
Qed.

(** ** The invariant of the tree of tables

    [T] gives the address of every table by the indices that lead to it: the
    root is [[]], [[i]] the table behind entry [i] of the root, and so on.
    Different paths lead to different frames, so the tree shares nothing. *)
Section Tree.
Context {A : Type} `{FrameSourceLaws A}.

Record pt_inv (root : Z) (m : gmap Z Z) (s : A) (T : gmap (list Z) Z) : Prop := {
  ti_source : fs_ok s;
  ti_root : T !! [] = Some root;
  ti_page p a : T !! p = Some a ->
    a mod 4096 = 0 /\ 0 <= a < 2 ^ 64 /\ (length p <= 2)%nat /\ forall i, 0 <= i < 512 -> is_Some (m !! (a + 8 * i));
  ti_inj p q a : T !! p = Some a -> T !! q = Some a -> p = q;
  ti_child p a i e : T !! p = Some a -> (length p < 2)%nat -> 0 <= i < 512 -> m !! (a + 8 * i) = Some e ->
    match T !! (p ++ [i]) with Some b => e = new_branch b | None => is_valid e = false end;
  ti_parent p i : is_Some (T !! (p ++ [i])) -> is_Some (T !! p) /\ 0 <= i < 512;
  ti_leaf p a i e : T !! p = Some a -> length p = 2%nat -> 0 <= i < 512 -> m !! (a + 8 * i) = Some e ->
    is_valid e = true -> is_leaf e = true;
  ti_fresh f : fs_fresh s f ->
    (forall i, 0 <= i < 512 -> is_Some (m !! (f + 8 * i))) /\ forall p, T !! p <> Some f;
}.

(** The entry of the last level that a tree holds for an address. *)
Definition leaf_entry (m : gmap Z Z) (T : gmap (list Z) Z) (v : Z) : option Z :=
  a ← T !! [vpn v L2; vpn v L1];
  e ← m !! (a + 8 * vpn v L0);
  if is_valid e then Some e else None.

(** Entries of different tables have different addresses. *)
Lemma entry_apart a b i j :
  a mod 4096 = 0 -> b mod 4096 = 0 -> a <> b -> 0 <= i < 512 -> 0 <= j < 512 -> a + 8 * i <> b + 8 * j.
Proof. intros. Z.div_mod_to_equations. lia. Qed.

(** Under the invariant the translation reads the leaf entry. *)
Lemma sv39_tree root m s T v :
  pt_inv root m s T -> sv39 m root v = (fun e => sv39_leaf e v 4096) <$> leaf_entry m T v.
Proof.
  intros [Hs Hroot Hpage Hinj Hchild Hparent Hleaf Hfresh]. unfold sv39, leaf_entry.
  pose proof (vpn_bounds v L2) as B2. pose proof (vpn_bounds v L1) as B1. pose proof (vpn_bounds v L0) as B0.
  destruct (Hpage _ _ Hroot) as (_ & _ & _ & Hm2). destruct (Hm2 _ B2) as [e2 E2]. rewrite E2. simpl.
  pose proof (Hchild [] root _ e2 Hroot ltac:(simpl; lia) B2 E2) as Hc2. cbn [app] in Hc2.
  destruct (T !! [vpn v L2]) as [a1|] eqn:Ea1.
  2: { rewrite Hc2. simpl. destruct (T !! [vpn v L2; vpn v L1]) as [a|] eqn:Ea; [|done].
       destruct (Hparent [vpn v L2] (vpn v L1)) as [[? Hx] _]; [by eexists|congruence]. }
  destruct (Hpage _ _ Ea1) as (Ha1 & Hr1 & _ & Hm1). destruct (branch_spec a1 Ha1 Hr1) as (Hv & Hl & Hp).
  rewrite Hc2, Hv, Hl, Hp. simpl. destruct (Hm1 _ B1) as [e1 E1]. rewrite E1. simpl.
  pose proof (Hchild [vpn v L2] a1 _ e1 Ea1 ltac:(simpl; lia) B1 E1) as Hc1. cbn [app] in Hc1.
  destruct (T !! [vpn v L2; vpn v L1]) as [a0|] eqn:Ea0; [|by rewrite Hc1].
  destruct (Hpage _ _ Ea0) as (Ha0 & Hr0 & _ & Hm0). destruct (branch_spec a0 Ha0 Hr0) as (Hv0 & Hl0 & Hp0).
  rewrite Hc1, Hv0, Hl0, Hp0. simpl. destruct (Hm0 _ B0) as [e0 E0]. rewrite E0. simpl.
  destruct (is_valid e0) eqn:Hv00; [|done]. by rewrite (Hleaf _ _ _ _ Ea0 eq_refl B0 E0 Hv00).
Qed.

(** ** Zeroing a frame *)
Lemma write_zeros_spec n m a :
  (forall i, 0 <= i < Z.of_nat n -> is_Some (m !! (a + 8 * i))) ->
  exists m', write_zeros n m a = Ret m' /\
    (forall i, 0 <= i < Z.of_nat n -> m' !! (a + 8 * i) = Some 0) /\
    (forall z, (forall i, 0 <= i < Z.of_nat n -> z <> a + 8 * i) -> m' !! z = m !! z).
Proof.
  revert m a. induction n as [|n IH]; intros m a Hm; cbn [write_zeros].
  - exists m. split_and!; [done|lia|done].
  - rewrite store_ok. 2: { replace a with (a + 8 * 0) by lia. apply Hm. lia. }
    cbn [mbind comp_bind]. destruct (IH (<[a := 0]> m) (a + 8)) as (m' & E & Hz & Ho).
    { intros i Hi. replace (a + 8 + 8 * i) with (a + 8 * (i + 1)) by lia. rewrite lookup_insert_ne by lia. apply Hm. lia. }
    exists m'. split_and!; [done| |].
    + intros i Hi. destruct (Z.eq_dec i 0) as [->|].
      * rewrite Ho by lia. replace (a + 8 * 0) with a by lia. by rewrite lookup_insert_eq.
      * replace (a + 8 * i) with (a + 8 + 8 * (i - 1)) by lia. apply Hz. lia.
    + intros z Hz'. rewrite Ho.
      * apply lookup_insert_ne. specialize (Hz' 0 ltac:(lia)). lia.
      * intros i Hi. specialize (Hz' (i + 1) ltac:(lia)). lia.
Qed.

(** The source can still hand out [n] frames. *)
Fixpoint avail (s : A) (n : nat) : Prop :=
  match n with O => True | S n => exists p s', fs_alloc s = Ret (p, s') /\ avail s' n end.

Lemma avail_le s n : avail s (S n) -> avail s n.
Proof. revert s. induction n as [|n IH]; intros s; [intros _; exact I|]. intros (p & s' & E & Hs'). exists p, s'. split; [done|by apply IH]. Qed.

Lemma avail_mono s n k : (n <= k)%nat -> avail s k -> avail s n.
Proof. induction 1; [done|]. eauto using avail_le. Qed.

(** ** One level of [map] *)
Lemma valid_zero : is_valid 0 = false.
Proof. done. Qed.

(** A new zeroed table [f] behind entry [i] of the table [a] at [p]. *)
Section Grow.
Context (root : Z) (m m2 : gmap Z Z) (s s' : A) (T : gmap (list Z) Z) (p : list Z) (a i f : Z).
Context (Hinv : pt_inv root m s T) (Hp : T !! p = Some a) (Hlen : (length p < 2)%nat) (Hi : 0 <= i < 512)
        (Hnone : T !! (p ++ [i]) = None) (Hf : fs_fresh s f) (Hs' : fs_ok s') (Hf' : ~ fs_fresh s' f)
        (Hsub : forall q, fs_fresh s' q -> fs_fresh s q).
Context (Hentry : m2 !! (a + 8 * i) = Some (new_branch f))
        (Hzero : forall j, 0 <= j < 512 -> m2 !! (f + 8 * j) = Some 0)
        (Hrest : forall z, z <> a + 8 * i -> (forall j, 0 <= j < 512 -> z <> f + 8 * j) -> m2 !! z = m !! z).

Lemma grow_other q b j : T !! q = Some b -> 0 <= j < 512 -> q <> p \/ j <> i -> m2 !! (b + 8 * j) = m !! (b + 8 * j).
Proof.
  intros Hq Hj Hne. destruct Hinv as [Hsrc Hroot Hpage Hinj Hchild Hparent Hleaf Hfresh].
  destruct (Hpage _ _ Hq) as (Hb & _). destruct (Hpage _ _ Hp) as (Ha & _).
  destruct (fs_fresh_page s f Hsrc Hf) as [Hfp _]. destruct (Hfresh f Hf) as [_ HfT]. apply Hrest.
  - destruct (Z.eq_dec b a) as [->|]; [|by apply entry_apart]. destruct Hne as [Hne|]; [|lia].
    destruct Hne. by eapply Hinj.
  - intros k Hk. apply entry_apart; try done. intros ->. by apply (HfT q).
Qed.

Lemma grow_mapped z : is_Some (m !! z) -> is_Some (m2 !! z).
Proof.
  intros Hz. destruct (Z.eq_dec z (a + 8 * i)) as [->|]; [by rewrite Hentry|].
  destruct (decide (0 <= (z - f) / 8 < 512 /\ (z - f) mod 8 = 0)) as [[Hj Hm]|Hn].
  - replace z with (f + 8 * ((z - f) / 8)) by (Z.div_mod_to_equations; lia). by rewrite Hzero.
  - rewrite Hrest; [done|done|]. intros j Hj ->. apply Hn. Z.div_mod_to_equations. lia.
Qed.

Lemma snoc_inj (q : list Z) j : q ++ [j] = p ++ [i] -> q = p /\ j = i.
Proof. intros E. by apply app_inj_tail in E. Qed.

Lemma snoc_ne (q : list Z) j k : (q ++ [j]) ++ [k] <> q ++ [j].
Proof. intros E. apply (f_equal length) in E. rewrite !length_app in E. simpl in E. lia. Qed.

Lemma no_grandchild j : T !! ((p ++ [i]) ++ [j]) = None.
Proof.
  destruct (T !! ((p ++ [i]) ++ [j])) eqn:E; [|done].
  destruct (ti_parent _ _ _ _ Hinv (p ++ [i]) j) as [[x Hx] _]; [by eexists|congruence].
Qed.

Lemma grow_child q b j e :
  <[p ++ [i] := f]> T !! q = Some b -> (length q < 2)%nat -> 0 <= j < 512 -> m2 !! (b + 8 * j) = Some e ->
  match <[p ++ [i] := f]> T !! (q ++ [j]) with Some b => e = new_branch b | None => is_valid e = false end.
Proof.
  intros Hq Hlq Hj He. destruct (decide (q = p ++ [i])) as [->|Hne].
  - rewrite lookup_insert_eq in Hq. injection Hq as <-. rewrite Hzero in He by done. injection He as <-.
    rewrite lookup_insert_ne by (symmetry; apply snoc_ne). by rewrite no_grandchild.
  - rewrite lookup_insert_ne in Hq by done. destruct (decide (q ++ [j] = p ++ [i])) as [Ej|Ej].
    + rewrite Ej, lookup_insert_eq. apply snoc_inj in Ej as [-> ->]. rewrite Hp in Hq. injection Hq as <-.
      rewrite Hentry in He. by injection He.
    + rewrite lookup_insert_ne by done. rewrite (grow_other q b j Hq Hj) in He.
      * by apply (ti_child _ _ _ _ Hinv q b j).
      * destruct (decide (q = p)) as [->|]; [right; congruence|by left].
Qed.

Lemma grow_inv : pt_inv root m2 s' (<[p ++ [i] := f]> T).
Proof.
  pose proof Hinv as [Hsrc Hroot Hpage Hinj Hchild Hparent Hleaf Hfresh].
  destruct (fs_fresh_page s f Hsrc Hf) as [Hfp Hfr]. destruct (Hfresh f Hf) as [Hfm HfT].
  constructor.
  - done.
  - rewrite lookup_insert_ne; [done|]. by destruct p.
  - intros q b Hq. destruct (decide (q = p ++ [i])) as [->|Hne].
    + rewrite lookup_insert_eq in Hq. injection Hq as <-. split_and!; [done|lia|lia|rewrite length_app; simpl; lia|].
      intros j Hj. by rewrite Hzero.
    + rewrite lookup_insert_ne in Hq by done. destruct (Hpage q b Hq) as (H1 & H2 & H3 & H4).
      split; [done|]. split; [done|]. split; [done|]. intros j Hj. by apply grow_mapped, H4.
  - intros q1 q2 b. rewrite !lookup_insert. intros E1 E2.
    destruct (decide (p ++ [i] = q1)) as [D1|D1], (decide (p ++ [i] = q2)) as [D2|D2]; [congruence|..|by eapply Hinj].
    + destruct (HfT q2). congruence.
    + destruct (HfT q1). congruence.
  - apply grow_child.
  - intros q j [x Hx]. destruct (decide (q ++ [j] = p ++ [i])) as [E|E].
    + apply snoc_inj in E as [-> ->]. split; [|done]. destruct (decide (p = p ++ [i])) as [E|E].
      * apply (f_equal length) in E. rewrite length_app in E. simpl in E. lia.
      * rewrite lookup_insert_ne by done. by eexists.
    + rewrite lookup_insert_ne in Hx by done. destruct (Hparent q j) as [Hq Hj]; [by eexists|]. split; [|done].
      rewrite lookup_insert. by case_decide.
  - intros q b j e Hq Hlq Hj He Hv. destruct (decide (q = p ++ [i])) as [->|Hne].
    + rewrite lookup_insert_eq in Hq. injection Hq as <-. rewrite Hzero in He by done. by injection He as <-.
    + rewrite lookup_insert_ne in Hq by done. rewrite (grow_other q b j Hq Hj) in He.
      * by apply (Hleaf q b j e).
      * left. intros ->. lia.
  - intros g Hg. destruct (Hfresh g (Hsub g Hg)) as [Hgm HgT]. split; [intros j Hj; by apply grow_mapped, Hgm|].
    intros q Hq. rewrite lookup_insert in Hq. case_decide; [|by apply (HgT q)]. injection Hq as <-. done.
Qed.

Lemma grow_leaf v : leaf_entry m2 (<[p ++ [i] := f]> T) v = leaf_entry m T v.
Proof.
  unfold leaf_entry. pose proof (vpn_bounds v L0) as B0.
  destruct (decide ([vpn v L2; vpn v L1] = p ++ [i])) as [E|E].
  - rewrite E, lookup_insert_eq, Hnone. simpl. by rewrite Hzero.
  - rewrite lookup_insert_ne by done. destruct (T !! [vpn v L2; vpn v L1]) as [b|] eqn:Eb; [|done]. simpl.
    rewrite (grow_other _ _ _ Eb B0); [done|]. left. intros Ep. rewrite <- Ep in Hlen. simpl in Hlen. lia.
Qed.
End Grow.

Lemma ensure_table_spec root m s T p a i :
  pt_inv root m s T -> T !! p = Some a -> (length p < 2)%nat -> 0 <= i < 512 ->
  (T !! (p ++ [i]) = None -> avail s 1) ->
  exists m' s' T' b, ensure_table m s (a + 8 * i) = Ret (m', s') /\ load m' (a + 8 * i) = Ret (new_branch b) /\
    pt_inv root m' s' T' /\ T' !! (p ++ [i]) = Some b /\ T ⊆ T' /\
    dom T' = dom T ∪ {[p ++ [i]]} /\ (forall n, avail s (size ({[p ++ [i]]} ∖ dom T) + n) -> avail s' n) /\ (forall q, (length q <= length p)%nat -> T' !! q = T !! q) /\
    forall v, leaf_entry m' T' v = leaf_entry m T v.
Proof.
  intros Hinv Hp Hlen Hi Hav. pose proof Hinv as [Hsrc Hroot Hpage Hinj Hchild Hparent Hleaf Hfresh].
  destruct (Hpage _ _ Hp) as (Ha & Har & _ & Hma). destruct (Hma i Hi) as [e He].
  pose proof (Hchild p a i e Hp Hlen Hi He) as Hc. unfold ensure_table. rewrite (load_ok _ _ _ He). cbn [mbind comp_bind].
  destruct (T !! (p ++ [i])) as [b|] eqn:Eb.
  - destruct (Hpage _ _ Eb) as (Hb & Hbr & _). destruct (branch_spec b Hb Hbr) as (Hv & _ & _). subst e. rewrite Hv.
    assert (Hin : p ++ [i] ∈ dom T) by (apply elem_of_dom; by eexists).
    exists m, s, T, b. split_and!; try done; [by apply load_ok|set_solver|]. intros n.
    by replace ({[p ++ [i]]} ∖ dom T) with (∅ : gset (list Z)) by set_solver.
  - rewrite Hc. cbn [negb]. destruct (Hav eq_refl) as (f & s' & Ef & Hs').
    destruct (fs_alloc_spec s f s' Hsrc Ef) as (Hok' & Hff & Hnf & Hsub).
    destruct (fs_fresh_page s f Hsrc Hff) as [Hfp Hfr]. destruct (Hfresh f Hff) as [Hfm HfT].
    unfold new_table. rewrite Ef. cbn [mbind comp_bind].
    destruct (write_zeros_spec 512 m f Hfm) as (m1 & -> & Hz & Ho). cbn [mbind comp_bind].
    assert (Hapart : forall j, 0 <= j < 512 -> a + 8 * i <> f + 8 * j).
    { intros j Hj. apply entry_apart; try done. intros ->. by apply (HfT p). }
    rewrite store_ok by (rewrite Ho by (intros j Hj; by apply Hapart); by eexists). cbn [mbind comp_bind].
    set (m2 := <[a + 8 * i := new_branch f]> m1).
    assert (Hentry : m2 !! (a + 8 * i) = Some (new_branch f)) by apply lookup_insert_eq.
    assert (Hzero : forall j, 0 <= j < 512 -> m2 !! (f + 8 * j) = Some 0).
    { intros j Hj. unfold m2. rewrite lookup_insert_ne by (by apply Hapart). by apply Hz. }
    assert (Hrest : forall z, z <> a + 8 * i -> (forall j, 0 <= j < 512 -> z <> f + 8 * j) -> m2 !! z = m !! z).
    { intros z Hz1 Hz2. unfold m2. rewrite lookup_insert_ne by done. by apply Ho. }
    exists m2, s', (<[p ++ [i] := f]> T), f. split; [done|]. split; [by apply load_ok|].
    split; [by apply (grow_inv root m m2 s s' T p a i f)|]. split; [apply lookup_insert_eq|].
    split; [by apply insert_subseteq|]. split; [|split; [|split]].
    + rewrite dom_insert_L. set_solver.
    + intros n Hav2. replace ({[p ++ [i]]} ∖ dom T) with ({[p ++ [i]]} : gset (list Z)) in Hav2
        by (apply not_elem_of_dom in Eb; set_solver).
      rewrite size_singleton in Hav2. revert Hav2. intros (f2 & s2 & Ef2 & Hav2). rewrite Ef in Ef2. by injection Ef2 as _ <-.
    + intros q Hq. rewrite lookup_insert_ne; [done|]. intros <-. rewrite length_app in Hq. simpl in Hq. lia.
    + intros v. by apply (grow_leaf root m m2 s T p a i f).
Qed.
(** ** The last level *)
Lemma leaf_store root m s T q a k e :
  pt_inv root m s T -> T !! q = Some a -> length q = 2%nat -> 0 <= k < 512 -> (is_valid e = true -> is_leaf e = true) ->
  pt_inv root (<[a + 8 * k := e]> m) s T.
Proof.
  intros [Hsrc Hroot Hpage Hinj Hchild Hparent Hleaf Hfresh] Hq Hlq Hk He.
  assert (Hkeep : forall z, is_Some (m !! z) -> is_Some (<[a + 8 * k := e]> m !! z)).
  { intros z Hz. rewrite lookup_insert. by case_decide. }
  destruct (Hpage _ _ Hq) as (Ha & _).
  constructor; try done.
  - intros p b Hp. destruct (Hpage p b Hp) as (? & ? & ? & ?). split_and!; auto; lia.
  - intros p b j e' Hp Hlp Hj. rewrite lookup_insert_ne; [by apply Hchild|].
    destruct (Hpage _ _ Hp) as (Hb & _). apply entry_apart; try done. intros ->.
    rewrite (Hinj _ _ _ Hp Hq) in Hlp. lia.
  - intros p b j e' Hp Hlp Hj. rewrite lookup_insert. case_decide; [intros [= <-]; done|by eapply Hleaf].
  - intros f Hf. destruct (Hfresh f Hf). split; [|done]. auto.
Qed.

Lemma leaf_entry_store root m s T v w a e :
  pt_inv root m s T -> T !! [vpn w L2; vpn w L1] = Some a ->
  leaf_entry (<[a + 8 * vpn w L0 := e]> m) T v =
    if bool_decide (vpn v L2 = vpn w L2 /\ vpn v L1 = vpn w L1 /\ vpn v L0 = vpn w L0)
    then (if is_valid e then Some e else None) else leaf_entry m T v.
Proof.
  intros [Hsrc Hroot Hpage Hinj Hchild Hparent Hleaf Hfresh] Ha. unfold leaf_entry.
  pose proof (vpn_bounds v L0) as B0. pose proof (vpn_bounds w L0) as B0'. destruct (Hpage _ _ Ha) as (Hap & _).
  case_bool_decide as Hb.
  - destruct Hb as (-> & -> & ->). rewrite Ha. simpl. by rewrite lookup_insert_eq.
  - destruct (T !! [vpn v L2; vpn v L1]) as [b|] eqn:Eb; [|done]. simpl. rewrite lookup_insert_ne; [done|].
    destruct (Z.eq_dec b a) as [->|]; [|destruct (Hpage _ _ Eb) as (Hbp & _); by apply entry_apart; auto].
    pose proof (Hinj _ _ _ Eb Ha) as E. injection E as E2 E1. destruct (Z.eq_dec (vpn v L0) (vpn w L0)); [by destruct Hb|lia].
Qed.

(** Two addresses of the same page of the 39-bit space. *)
Definition same_page (v w : Z) : bool := (v / 4096) mod 2 ^ 27 =? (w / 4096) mod 2 ^ 27.

Lemma same_page_vpn v w :
  same_page v w = bool_decide (vpn v L2 = vpn w L2 /\ vpn v L1 = vpn w L1 /\ vpn v L0 = vpn w L0).
Proof.
  destruct (vpn_arith v) as (-> & -> & ->). destruct (vpn_arith w) as (-> & -> & ->). unfold same_page.
  assert (Hd : forall x, (x / 4096) mod 2 ^ 27 = x / 2 ^ 12 mod 512 + 512 * (x / 2 ^ 21 mod 512 + 512 * (x / 2 ^ 30 mod 512))).
  { intros x. change (2 ^ 27) with (512 * (512 * 512)). rewrite !Z.rem_mul_r by lia.
    change (2 ^ 21) with (4096 * 512). change (2 ^ 30) with (4096 * 512 * 512). change (2 ^ 12) with 4096.
    by rewrite <- !Z.div_div by lia. }
  rewrite !Hd. apply eq_true_iff_eq. rewrite Z.eqb_eq, bool_decide_eq_true.
  pose proof (Z.mod_pos_bound (v / 2 ^ 12) 512 ltac:(lia)). pose proof (Z.mod_pos_bound (w / 2 ^ 12) 512 ltac:(lia)).
  pose proof (Z.mod_pos_bound (v / 2 ^ 21) 512 ltac:(lia)). pose proof (Z.mod_pos_bound (w / 2 ^ 21) 512 ltac:(lia)). lia.
Qed.

(** ** [map] *)

(** The tables an address goes through, by their paths. *)
Definition paths (v : Z) : gset (list Z) := {[ [vpn v L2]; [vpn v L2; vpn v L1] ]}.

Lemma size_split (x y : list Z) (D : gset (list Z)) : x <> y ->
  size ({[x; y]} ∖ D) = (size ({[x]} ∖ D) + size ({[y]} ∖ (D ∪ {[x]})))%nat.
Proof.
  intros Hne. rewrite <- size_union by set_solver. f_equal. set_solver.
Qed.

Lemma map_tables root m s T virt :
  pt_inv root m s T -> avail s (size (paths virt ∖ dom T)) ->
  exists m' s' T' a, pt_inv root m' s' T' /\ T' !! [vpn virt L2; vpn virt L1] = Some a /\
    (forall v, leaf_entry m' T' v = leaf_entry m T v) /\
    dom T' = dom T ∪ paths virt /\ (forall n, avail s (size (paths virt ∖ dom T) + n) -> avail s' n) /\
    forall phys flags, map_page root m s virt phys flags =
      (e ← load m' (a + 8 * vpn virt L0);
       assert (negb (is_valid e)) ;;
       m ← store m' (a + 8 * vpn virt L0) (new_leaf phys flags);
       Ret (m, s')).
Proof.
  intros Hinv Hav. pose proof (vpn_bounds virt L2) as B2. pose proof (vpn_bounds virt L1) as B1. pose proof (vpn_bounds virt L0) as B0.
  pose proof (ti_root _ _ _ _ Hinv) as Hroot. unfold paths in *. rewrite size_split in * by done.
  assert (Hav2 : T !! [vpn virt L2] = None -> avail s 1).
  { intros Hn%not_elem_of_dom. eapply avail_mono; [|exact Hav].
    replace ({[[vpn virt L2]]} ∖ dom T) with ({[[vpn virt L2]]} : gset (list Z)) by set_solver. rewrite size_singleton. lia. }
  destruct (ensure_table_spec root m s T [] root (vpn virt L2) Hinv Hroot ltac:(simpl; lia) B2 Hav2)
    as (m1 & s1 & T1 & b1 & E1 & L1' & Hinv1 & Hb1 & Hsub1 & Hd1 & Hav1 & Hsame1 & Hleaf1). cbn [app] in Hb1, Hd1, Hav1.
  destruct (ti_page _ _ _ _ Hinv1 _ _ Hb1) as (Hb1p & Hb1r & _). destruct (branch_spec b1 Hb1p Hb1r) as (_ & _ & Hppn1).
  assert (Hav1' : T1 !! ([vpn virt L2] ++ [vpn virt L1]) = None -> avail s1 1).
  { intros Hn%not_elem_of_dom. cbn [app] in Hn. apply Hav1. eapply avail_mono; [|exact Hav]. rewrite Hd1 in Hn.
    replace ({[[vpn virt L2; vpn virt L1]]} ∖ (dom T ∪ {[[vpn virt L2]]})) with ({[[vpn virt L2; vpn virt L1]]} : gset (list Z)) by set_solver.
    rewrite size_singleton. lia. }
  destruct (ensure_table_spec root m1 s1 T1 [vpn virt L2] b1 (vpn virt L1) Hinv1 Hb1 ltac:(simpl; lia) B1 Hav1')
    as (m2 & s2 & T2 & b2 & E2 & L2' & Hinv2 & Hb2 & Hsub2 & Hd2 & Hav3 & _ & Hleaf2). cbn [app] in Hb2, Hd2, Hav3.
  destruct (ti_page _ _ _ _ Hinv2 _ _ Hb2) as (Hb2p & Hb2r & _). destruct (branch_spec b2 Hb2p Hb2r) as (_ & _ & Hppn2).
  exists m2, s2, T2, b2. split; [done|]. split; [done|]. split; [intros v; by rewrite Hleaf2, Hleaf1|].
  split; [rewrite Hd2, Hd1; set_solver|]. split.
  { intros n Hn. apply Hav3, Hav1. rewrite Hd1. by rewrite Nat.add_assoc. }
  intros phys flags. unfold map_page, get_mut. rewrite !(proj2 (Z.ltb_lt _ _)) by lia. cbn [assert mbind comp_bind].
  rewrite E1. cbn [mbind comp_bind]. rewrite L1'. cbn [mbind comp_bind]. rewrite Hppn1, E2. cbn [mbind comp_bind].
  rewrite L2'. cbn [mbind comp_bind]. by rewrite Hppn2.
Qed.

(** A page that translates goes through tables that exist. *)
Lemma leaf_paths m s root T v e : pt_inv root m s T -> leaf_entry m T v = Some e -> paths v ∖ dom T = ∅.
Proof.
  intros Hinv He. unfold leaf_entry in He. destruct (T !! [vpn v L2; vpn v L1]) eqn:Ea; [|done].
  destruct (ti_parent _ _ _ _ Hinv [vpn v L2] (vpn v L1)) as [[x Hx] _]; [by eexists|].
  assert ([vpn v L2; vpn v L1] ∈ dom T) by (apply elem_of_dom; by eexists).
  assert ([vpn v L2] ∈ dom T) by (apply elem_of_dom; by eexists). unfold paths. set_solver.
Qed.

Definition pt_ok (root : Z) (m : gmap Z Z) (s : A) : Prop := exists T, pt_inv root m s T.

Lemma map_run root m s T virt phys flags :
  pt_inv root m s T -> 0 <= phys < 2 ^ 64 -> 0 <= flags < 1024 -> Z.land flags 14 <> 0 ->
  (is_Some (sv39 m root virt) -> map_page root m s virt phys flags = Panic) /\
  (sv39 m root virt = None -> avail s (size (paths virt ∖ dom T)) ->
   exists m' s' T', map_page root m s virt phys flags = Ret (m', s') /\ pt_inv root m' s' T' /\
     dom T' = dom T ∪ paths virt /\ (forall n, avail s (size (paths virt ∖ dom T) + n) -> avail s' n) /\
     forall v, sv39 m' root v =
       if same_page v virt then Some (phys / 4096 * 4096 + v mod 4096, Z.lor flags 1) else sv39 m root v).
Proof.
  intros Hinv Hphys Hfl Hrwx. rewrite (sv39_tree root m s T virt Hinv). pose proof (vpn_bounds virt L0) as B0. split.
  - intros [x Hx]. apply fmap_Some in Hx as (e & He & _).
    destruct (map_tables root m s T virt Hinv) as (m' & s' & T' & a & Hinv' & Ha & Hl & _ & _ & ->).
    { rewrite (leaf_paths _ _ _ _ _ _ Hinv He). exact I. }
    rewrite <- Hl in He. unfold leaf_entry in He. rewrite Ha in He. simpl in He.
    destruct (m' !! (a + 8 * vpn virt L0)) as [e0|] eqn:E0; [|done]. simpl in He.
    rewrite (load_ok _ _ _ E0). cbn [mbind comp_bind]. by destruct (is_valid e0).
  - intros Hn Hav. destruct (map_tables root m s T virt Hinv Hav) as (m' & s' & T' & a & Hinv' & Ha & Hl & Hd & Hav' & ->).
    destruct (leaf_spec phys flags Hphys Hfl Hrwx) as (Hv & Hlf & Hpp & Hfg).
    apply fmap_None in Hn. rewrite <- Hl in Hn. unfold leaf_entry in Hn. rewrite Ha in Hn. simpl in Hn.
    destruct (ti_page _ _ _ _ Hinv' _ _ Ha) as (_ & _ & _ & Hm). destruct (Hm _ B0) as [e0 E0]. rewrite E0 in Hn. simpl in Hn.
    rewrite (load_ok _ _ _ E0). cbn [mbind comp_bind]. destruct (is_valid e0); [done|]. cbn [negb assert mbind comp_bind].
    rewrite store_ok by (by eexists). cbn [mbind comp_bind]. eexists _, _, T'. split; [done|].
    assert (Hinv2 : pt_inv root (<[a + 8 * vpn virt L0 := new_leaf phys flags]> m') s' T') by (by eapply leaf_store).
    split; [done|]. split; [done|]. split; [done|]. intros v. rewrite (sv39_tree _ _ _ _ v Hinv2), (sv39_tree _ _ _ _ v Hinv).
    rewrite (leaf_entry_store _ _ _ _ v virt a _ Hinv' Ha), same_page_vpn, Hv.
    case_bool_decide; [|by rewrite Hl]. simpl. unfold sv39_leaf. rewrite Hpp, Hfg. do 2 f_equal.
    by rewrite Z_div_mult_full.
Qed.

(** Only the source's allocations change its state. *)
Lemma map_page_source (Q : A -> Prop) root m s virt phys flags m' s' :
  (forall s p s', Q s -> fs_alloc s = Ret (p, s') -> Q s') -> Q s ->
  map_page root m s virt phys flags = Ret (m', s') -> Q s'.
Proof.
  intros Hq Hs E. assert (Hens : forall m s entry m' s', Q s -> ensure_table m s entry = Ret (m', s') -> Q s').
  { clear -Hq. intros m s entry m' s' Hs E. unfold ensure_table, new_table in E.
    destruct (load m entry) as [e| |]; cbn [mbind comp_bind] in E; try done.
    destruct (is_valid e); cbn [negb] in E; [by injection E as _ <-|].
    destruct (fs_alloc s) as [[f s1]| |] eqn:Ef; cbn [mbind comp_bind] in E; try done.
    destruct (write_zeros _ _ _); cbn [mbind comp_bind] in E; try done.
    destruct (store _ _ _); cbn [mbind comp_bind] in E; try done. injection E as _ <-. by eapply Hq. }
  unfold map_page in E. destruct (get_mut root _) as [e2| |]; cbn [mbind comp_bind] in E; try done.
  destruct (ensure_table m s e2) as [[m1 s1]| |] eqn:E1; cbn [mbind comp_bind] in E; try done.
  destruct (load m1 e2); cbn [mbind comp_bind] in E; try done.
  destruct (get_mut _ (vpn virt L1)) as [e1| |]; cbn [mbind comp_bind] in E; try done.
  destruct (ensure_table m1 s1 e1) as [[m2 s2]| |] eqn:E2; cbn [mbind comp_bind] in E; try done.
  destruct (load m2 e1); cbn [mbind comp_bind] in E; try done.
  destruct (get_mut _ (vpn virt L0)) as [e0| |]; cbn [mbind comp_bind] in E; try done.
  destruct (load m2 e0); cbn [mbind comp_bind] in E; try done. destruct (assert _); cbn [mbind comp_bind] in E; try done.
  destruct (store _ _ _); cbn [mbind comp_bind] in E; try done. injection E as _ <-. eauto.
Qed.

(** An all-zero page is an empty tree. *)
Lemma empty_tree root m s :
  fs_ok s -> root mod 4096 = 0 -> 0 <= root < 2 ^ 64 -> (forall i, 0 <= i < 512 -> m !! (root + 8 * i) = Some 0) ->
  (forall f, fs_fresh s f -> f <> root /\ forall i, 0 <= i < 512 -> is_Some (m !! (f + 8 * i))) ->
  exists T, pt_inv root m s T /\ dom T = {[ [] ]} /\ forall v, sv39 m root v = None.
Proof.
  intros Hs Hr Hb Hz Hf. assert (Hinv : pt_inv root m s {[ [] := root ]}).
  { constructor; try done.
    - intros p a Hp. apply lookup_singleton_Some in Hp as [<- <-]. split_and!; [done|lia|lia|simpl; lia|]. intros i Hi. by rewrite Hz.
    - intros p q a Hp Hq. apply lookup_singleton_Some in Hp as [<- _], Hq as [<- _]. done.
    - intros p a i e Hp _ Hi He. apply lookup_singleton_Some in Hp as [<- <-]. rewrite Hz in He by done. injection He as <-.
      by rewrite lookup_singleton_ne.
    - intros p i [x Hx]. apply lookup_singleton_Some in Hx as [E _]. symmetry in E. by apply app_nil in E as [_ ?].
    - intros p a i e Hp Hl. apply lookup_singleton_Some in Hp as [<- _]. done.
    - intros f Hff. destruct (Hf f Hff) as [Hne Hm]. split; [done|]. intros p Hp.
      apply lookup_singleton_Some in Hp as [_ ->]. done. }
  exists {[ [] := root ]}. split; [done|]. split; [apply dom_singleton_L|]. intros v. rewrite (sv39_tree _ _ _ _ v Hinv). unfold leaf_entry.
  by rewrite lookup_singleton_ne.
Qed.
End Tree.

(** ** Claims *)

(** C4: [map] extends the translation by one page: if the virtual page is
    mapped already, the assertion fails; otherwise, with two frames left for
    the intermediate tables, [map] succeeds, the page translates to the physical
    page with the given flags, and every other address translates as before. *)
Theorem map_extends_translation {A : Type} `{FrameSourceLaws A} root m (s : A) virt phys flags :
  pt_ok root m s -> 0 <= phys < 2 ^ 64 -> 0 <= flags < 1024 -> Z.land flags 14 <> 0 ->
  (is_Some (sv39 m root virt) -> map_page root m s virt phys flags = Panic) /\
  (sv39 m root virt = None -> avail s 2 ->
   exists m' s', map_page root m s virt phys flags = Ret (m', s') /\ pt_ok root m' s' /\
     forall v, sv39 m' root v =
       if same_page v virt then Some (phys / 4096 * 4096 + v mod 4096, Z.lor flags 1) else sv39 m root v).
Proof.
  intros [T Hpt] Hp Hf Hr. destruct (map_run root m s T virt phys flags Hpt Hp Hf Hr) as [H1 H2]. split; [done|].
  intros Hn Ha. destruct (H2 Hn) as (m' & s' & T' & ? & ? & _ & _ & ?).
  - eapply avail_mono; [|exact Ha]. etrans; [apply (subseteq_size _ (paths virt)); set_solver|].
    unfold paths. rewrite size_union by set_solver. by rewrite !size_singleton.
  - exists m', s'. split; [done|]. split; [by exists T'|done].
Qed.

(** An Sv39 address is its three indices and its offset: [from_parts] puts
    back together what [vpn] and [offset] take apart, and the other way round. *)
Theorem virt_addr_roundtrip v l2 l1 l0 o :
  0 <= v < 2 ^ 39 -> 0 <= l2 < 512 -> 0 <= l1 < 512 -> 0 <= l0 < 512 -> 0 <= o < 4096 ->
  from_parts (vpn v L2) (vpn v L1) (vpn v L0) (offset v) = v /\
  vpn (from_parts l2 l1 l0 o) L2 = l2 /\ vpn (from_parts l2 l1 l0 o) L1 = l1 /\
  vpn (from_parts l2 l1 l0 o) L0 = l0 /\ offset (from_parts l2 l1 l0 o) = o.
Proof.
  intros Hv H2 H1 H0 Ho.
  assert (Hparts : forall a b c d, 0 <= a < 512 -> 0 <= b < 512 -> 0 <= c < 512 -> 0 <= d < 4096 ->
            from_parts a b c d = a * 2 ^ 30 + (b * 2 ^ 21 + (c * 2 ^ 12 + d))).
  { intros a b c d Ha Hb Hc Hd. unfold from_parts. rewrite !shl_small by lia. rewrite <- !Z.lor_assoc.
    rewrite (lor_low c) by lia. rewrite (lor_low b) by lia. apply lor_low; lia. }
  pose proof (vpn_bounds v L2). pose proof (vpn_bounds v L1). pose proof (vpn_bounds v L0).
  split; [|rewrite (Hparts l2 l1 l0 o) by done].
  - rewrite Hparts by (try done; rewrite offset_arith; apply Z.mod_pos_bound; lia).
    destruct (vpn_arith v) as (-> & -> & ->). rewrite offset_arith. Z.div_mod_to_equations. lia.
  - destruct (vpn_arith (l2 * 2 ^ 30 + (l1 * 2 ^ 21 + (l0 * 2 ^ 12 + o)))) as (-> & -> & ->). rewrite offset_arith.
    split_and!; Z.div_mod_to_equations; lia.
Qed.

(** ** Witnesses: a stack of free frames *)
Section Sample.

#[local] Instance stack_source : FrameSource (list Z) := {
  fs_alloc s := match s with [] => Panic | f :: s => Ret (f, s) end;
  fs_ok s := NoDup s /\ Forall (fun p => p mod 4096 = 0 /\ 0 <= p < 2 ^ 64) s;
  fs_fresh s p := p ∈ s;
}.

#[local] Instance stack_source_laws : FrameSourceLaws (list Z).
Proof.
  split.
  - intros [|f s] p s' [Hn Hf] E; simpl in *; [done|]. injection E as <- <-. apply NoDup_cons in Hn as [Hfs Hn].
    apply Forall_cons in Hf as [_ Hf]. split_and!; [done|done|by left|done|]. intros q Hq. by right.
  - intros s p [_ Hf] Hp. rewrite Forall_forall in Hf. by apply Hf.
Qed.

(** Zeroed words from [lo] on. *)
Fixpoint zero_mem (n : nat) (lo : Z) : gmap Z Z :=
  match n with O => ∅ | S n => <[lo := 0]> (zero_mem n (lo + 8)) end.

Lemma zero_mem_lookup n lo i : 0 <= i < Z.of_nat n -> zero_mem n lo !! (lo + 8 * i) = Some 0.
Proof.
  revert lo i. induction n as [|n IH]; intros lo i Hi; [lia|]. cbn [zero_mem]. destruct (Z.eq_dec i 0) as [->|].
  - replace (lo + 8 * 0) with lo by lia. apply lookup_insert_eq.
  - rewrite lookup_insert_ne by lia. replace (lo + 8 * i) with (lo + 8 + 8 * (i - 1)) by lia. apply IH. lia.
Qed.

Lemma sample_tree : pt_ok 4096 (zero_mem 2048 4096) [8192; 12288] /\ forall v, sv39 (zero_mem 2048 4096) 4096 v = None.
Proof.
  destruct (empty_tree 4096 (zero_mem 2048 4096) [8192; 12288]) as (T & HT & _ & Hn); [|done|lia| | |by split; [exists T|]].
  - split; [apply (bool_decide_unpack _); by vm_compute|]. by repeat constructor.
  - intros i Hi. apply zero_mem_lookup. lia.
  - intros f Hf. assert (f = 8192 \/ f = 12288) as [-> | ->] by (unfold fs_fresh, stack_source in Hf; set_solver);
      (split; [done|]); intros i Hi; [replace (8192 + 8 * i) with (4096 + 8 * (i + 512)) by lia|
        replace (12288 + 8 * i) with (4096 + 8 * (i + 1024)) by lia];
      rewrite zero_mem_lookup by lia; by eexists.
Qed.

Lemma map_extends_translation_witness :
  exists m' s', map_page 4096 (zero_mem 2048 4096) [8192; 12288] 0xFFFFFFFF80200000 0x80200000 READ = Ret (m', s') /\
    sv39 m' 4096 0xFFFFFFFF80200123 = Some (0x80200123, 3).
Proof.
  destruct sample_tree as [Hpt Hn].
  destruct (map_extends_translation 4096 (zero_mem 2048 4096) [8192; 12288] 0xFFFFFFFF80200000 0x80200000 READ Hpt)
    as [_ Hmap]; [lia|by vm_compute|by vm_compute|].
  destruct (Hmap (Hn _)) as (m' & s' & E & _ & Ht); [by eexists _, _; split; [|eexists _, _]|].
  exists m', s'. split; [exact E|]. rewrite Ht. reflexivity.
Defined.

Lemma virt_addr_roundtrip_witness : vpn (from_parts 1 2 3 4) L2 = 1 /\ from_parts (vpn 0x12345678 L2) (vpn 0x12345678 L1) (vpn 0x12345678 L0) (offset 0x12345678) = 0x12345678.
Proof.
  destruct (virt_addr_roundtrip 0x12345678 1 2 3 4) as (H1 & H2 & _); [lia..|]. split; [exact H2|exact H1].
Defined.
End Sample.
