(* ===== verification/Riscv.v ===== *)
(** * Machine registers ([src/src/riscv.rs], [interrupts.rs], [timer.rs], [sbi.rs])

    The register formats, the interrupt-free section and the timer.  A hart is
    its control and status registers; the instructions that read and write them
    ([csrr], [csrs], [csrci], [rdtime], the SBI timer call) are functions on
    it, as the privileged architecture and the SBI specification define them. *)
From S2P Require Import Prelude Memory PhysRange PageTable.

(** ** [satp] *)
Abbreviation Asid := Z (only parsing).
Definition KERNEL_ASID : Asid := 0.

Inductive SatpMode := Bare | Sv39 | Sv48 | Sv57.
Definition satp_mode (mode : SatpMode) : Z :=
  match mode with Bare => 0 | Sv39 => 8 | Sv48 => 9 | Sv57 => 10 end.

Definition Satp_new (mode : SatpMode) (asid ppn : Z) : Z :=
  Z.lor (Z.lor (shl (satp_mode mode) 60) (shl asid 44)) (Z.shiftr ppn 12).

(** ** [scause] *)
Inductive ScauseReason :=
| UserSoftwareInterrupt | SupervisorSoftwareInterrupt | UserTimerInterrupt
| SupervisorTimerInterrupt | UserExternalInterrupt | SupervisorExternalInterrupt
| InstructionAddressMisaligned | InstructionAccessFault | IllegalInstruction | Breakpoint
| LoadAccessFault | AmoAddressMisaligned | StoreAmoAccessFault | EnvironmentCall | Reserved.

#[export] Instance ScauseReason_eq_dec : EqDecision ScauseReason.
Proof. solve_decision. Defined.

Definition is_interrupt (scause : Z) : bool := negb (Z.land scause (Z.shiftl 1 63) =? 0).

Definition reason (scause : Z) : ScauseReason :=
  if is_interrupt scause then
    match Z.land scause 0x7FFFFFFFFFFFFFFF with
    | 0 => UserSoftwareInterrupt
    | 1 => SupervisorSoftwareInterrupt
    | 4 => UserTimerInterrupt
    | 5 => SupervisorTimerInterrupt
    | 8 => UserExternalInterrupt
    | 9 => SupervisorExternalInterrupt
    | _ => Reserved
    end
  else
    match scause with
    | 0 => InstructionAddressMisaligned
    | 1 => InstructionAccessFault
    | 2 => IllegalInstruction
    | 3 => Breakpoint
    | 5 => LoadAccessFault
    | 6 => AmoAddressMisaligned
    | 7 => StoreAmoAccessFault
    | 8 => EnvironmentCall
    | _ => Reserved
    end.

(** ** [stvec] *)
Definition Stvec_new (addr : Z) : Z := Z.land addr (not_w 64 3).

(** ** The hart *)
Record Hart := mkHart {
  h_sstatus : Z;
  h_sie : Z;
  h_stvec : Z;
  h_satp : Z;
  h_scause : Z;
  h_time : Z;
  h_deadline : Z;
}.

Definition with_sstatus (h : Hart) v := mkHart v (h_sie h) (h_stvec h) (h_satp h) (h_scause h) (h_time h) (h_deadline h).
Definition with_sie (h : Hart) v := mkHart (h_sstatus h) v (h_stvec h) (h_satp h) (h_scause h) (h_time h) (h_deadline h).
Definition write_stvec (h : Hart) v := mkHart (h_sstatus h) (h_sie h) v (h_satp h) (h_scause h) (h_time h) (h_deadline h).
Definition write_satp_and_flush_tlb (h : Hart) v := mkHart (h_sstatus h) (h_sie h) (h_stvec h) v (h_scause h) (h_time h) (h_deadline h).
Definition with_time (h : Hart) v := mkHart (h_sstatus h) (h_sie h) (h_stvec h) (h_satp h) (h_scause h) v (h_deadline h).
Definition with_deadline (h : Hart) v := mkHart (h_sstatus h) (h_sie h) (h_stvec h) (h_satp h) (h_scause h) (h_time h) v.

(** [csrs] and [csrsi] set the bits of the operand, [csrci] clears them. *)
Definition csr_set (x bits : Z) : Z := Z.lor x bits.
Definition csr_clear (x bits : Z) : Z := Z.land x (not_w 64 bits).

(** [interrupts::init]: the timer's enable bit, then the global one. *)
Definition interrupts_init (h : Hart) : Hart :=
  let h := with_sie h (csr_set (h_sie h) (Z.shiftl 1 5)) in
  with_sstatus h (csr_set (h_sstatus h) (Z.shiftl 1 1)).

(** The closure [f] works on the hart and on whatever else it captures. *)
Definition without_interrupts {S R : Type} (f : Hart * S -> comp (R * (Hart * S))) (st : Hart * S)
    : comp (R * (Hart * S)) :=
  let '(h, s) := st in
  let sstatus := h_sstatus h in
  let h := with_sstatus h (csr_clear (h_sstatus h) 2) in
  '(result, (h, s)) ← f (h, s);
  if negb (Z.land sstatus 2 =? 0)
  then Ret (result, (with_sstatus h (csr_set (h_sstatus h) 2), s))
  else Ret (result, (h, s)).

(** ** The timer *)

(** [add] of the timer assembly wraps. *)
Definition new_time (timer_frequency : Z) (h : Hart) (secs : Z) : comp Hart :=
  time ← timer_frequency *! secs;
  Ret (with_deadline h ((h_time h + time) mod 2 ^ 64)).

(** Division panics when the divisor is zero. *)
Definition div_checked (a b : Z) : comp Z := if b =? 0 then Panic else Ret (a / b).
Definition uptime (timer_frequency : Z) (h : Hart) : comp Z := div_checked (h_time h) timer_frequency.
Definition uptime_ms (timer_frequency : Z) (h : Hart) : comp Z :=
  freq ← div_checked timer_frequency 1000;
  div_checked (h_time h) freq.

(** ** SBI errors *)
Inductive SbiErrorType :=
| Success | Failed | NotSupported | InvalidParam | Denied | InvalidAddress | AlreadyAvailable
| AlreadyStarted | AlreadyStopped | NoSharedMemory | InvalidState | BadRange | Timeout | Io | DeniedLocked.

Definition sbi_error (value : Z) : comp SbiErrorType :=
  match value with
  | 0 => Ret Success
  | -1 => Ret Failed
  | -2 => Ret NotSupported
  | -3 => Ret InvalidParam
  | -4 => Ret Denied
  | -5 => Ret InvalidAddress
  | -6 => Ret AlreadyAvailable
  | -7 => Ret AlreadyStarted
  | -8 => Ret AlreadyStopped
  | -9 => Ret NoSharedMemory
  | -10 => Ret InvalidState
  | -11 => Ret BadRange
  | -12 => Ret Timeout
  | -13 => Ret Io
  | -14 => Ret DeniedLocked
  | _ => Panic
  end.

(** ** Facts *)
Definition sie_on (h : Hart) : bool := Z.testbit (h_sstatus h) 1.

Lemma csr_clear_bit x : is_usize x -> Z.testbit (csr_clear x 2) 1 = false /\ is_usize (csr_clear x 2).
Proof.
  intros Hx. unfold csr_clear. split.
  - rewrite Z.land_spec, testbit_not_w by lia. by rewrite andb_false_r.
  - apply in_width_land; [|done]. unfold not_w. apply Z.lxor_nonneg. split; intros _; [|done]. by compute.
Qed.

Lemma csr_clear_other x i : is_usize x -> 0 <= i -> i <> 1 -> Z.testbit (csr_clear x 2) i = Z.testbit x i.
Proof.
  intros Hx Hi Hn. unfold csr_clear. rewrite Z.land_spec. destruct (Z.lt_ge_cases i 64).
  - rewrite testbit_not_w by lia. change 2 with (2 ^ 1). rewrite Z.pow2_bits_false by lia. by rewrite andb_true_r.
  - by rewrite (testbit_above 64 x).
Qed.

Lemma csr_set_bit x i : 0 <= i -> Z.testbit (csr_set x 2) i = (i =? 1) || Z.testbit x i.
Proof.
  intros Hi. unfold csr_set. rewrite Z.lor_spec. change 2 with (2 ^ 1). rewrite Z.pow2_bits_eqb by lia.
  rewrite orb_comm. f_equal. apply Z.eqb_sym.
Qed.

Lemma sie_bit x : negb (Z.land x 2 =? 0) = Z.testbit x 1.
Proof.
  change 2 with (2 ^ 1). destruct (Z.testbit x 1) eqn:E.
  - destruct (Z.eqb_spec (Z.land x (2 ^ 1)) 0) as [H|]; [|done].
    apply (f_equal (fun z => Z.testbit z 1)) in H. rewrite Z.land_spec, E in H. done.
  - rewrite (proj2 (Z.eqb_eq _ _)); [done|]. apply Z.bits_inj'. intros i Hi. rewrite Z.land_spec, Z.bits_0.
    rewrite Z.pow2_bits_eqb by lia. destruct (Z.eqb_spec 1 i) as [<-|]; [by rewrite E|apply andb_false_r].
Qed.

(** Closures that restore the interrupt flag they find, nested sections among them. *)
Definition keeps_sie {S R : Type} (f : Hart * S -> comp (R * (Hart * S))) : Prop :=
  forall h s r h' s', is_usize (h_sstatus h) -> f (h, s) = Ret (r, (h', s')) ->
    is_usize (h_sstatus h') /\ sie_on h' = sie_on h.

(** The interrupt-free section: the closure runs with interrupts disabled,
    and afterwards the flag is what it was before, so sections nest.  It panics
    or runs on exactly when the closure does. *)
Theorem without_interrupts_restores {S R : Type} (f : Hart * S -> comp (R * (Hart * S))) :
  keeps_sie f -> keeps_sie (without_interrupts f) /\
  forall h s, is_usize (h_sstatus h) ->
    exists h0, sie_on h0 = false /\ h_deadline h0 = h_deadline h /\
      (without_interrupts f (h, s) = Panic <-> f (h0, s) = Panic) /\
      forall r h' s', without_interrupts f (h, s) = Ret (r, (h', s')) -> exists h1, f (h0, s) = Ret (r, (h1, s')).
Proof.
  intros Hf. split.
  - intros h s r h' s' Hh E. unfold without_interrupts in E. destruct (csr_clear_bit (h_sstatus h) Hh) as [Hc Hw].
    destruct (f _) as [[r1 [h1 s1]]| |] eqn:Ef; cbn [mbind comp_bind] in E; try done.
    destruct (Hf (with_sstatus h (csr_clear (h_sstatus h) 2)) s r1 h1 s1 Hw Ef) as [Hw1 Hs1].
    unfold sie_on in *. cbn [with_sstatus h_sstatus] in Hs1. rewrite Hc in Hs1. rewrite sie_bit in E.
    destruct (Z.testbit (h_sstatus h) 1) eqn:Eb; injection E as <- <- <-; cbn [with_sstatus h_sstatus].
    + split; [apply in_width_lor; [lia|done|by split]|]. by rewrite csr_set_bit.
    + done.
  - intros h s Hh. exists (with_sstatus h (csr_clear (h_sstatus h) 2)).
    destruct (csr_clear_bit (h_sstatus h) Hh) as [Hc _]. split; [exact Hc|]. split; [done|].
    unfold without_interrupts. destruct (f _) as [[r1 [h1 s1]]| |]; cbn [mbind comp_bind]; split; try done.
    + split; [|done]. by destruct (negb _).
    + intros r h' s' E. destruct (negb _); injection E as <- <- <-; by eexists.
Qed.

Definition sample_hart : Hart := mkHart 2 0 0 0 0 1000 0.

(** A closure that reads the flag. *)
Definition read_sie (st : Hart * unit) : comp (bool * (Hart * unit)) := Ret (sie_on (fst st), st).

Lemma read_sie_keeps : keeps_sie read_sie.
Proof. intros h s r h' s' Hh E. injection E as <- <- <-. done. Qed.

Lemma without_interrupts_restores_witness :
  keeps_sie (without_interrupts (without_interrupts read_sie)) /\
  without_interrupts (without_interrupts read_sie) (sample_hart, tt) = Ret (false, (sample_hart, tt)).
Proof.
  split; [|vm_compute; reflexivity].
  apply without_interrupts_restores. exact (proj1 (without_interrupts_restores read_sie read_sie_keeps)).
Defined.

Lemma satp_arith mode asid root :
  0 <= asid < 2 ^ 16 -> 0 <= root < 2 ^ 56 ->
  Satp_new mode asid root = satp_mode mode * 2 ^ 60 + (asid * 2 ^ 44 + root / 4096).
Proof.
  intros Ha Hr. assert (Hm : 0 <= satp_mode mode < 16) by (by destruct mode).
  unfold Satp_new. rewrite shiftr_div, !shl_small by lia. change (2 ^ 12) with 4096. rewrite <- Z.lor_assoc.
  rewrite (lor_low asid) by (Z.div_mod_to_equations; lia). apply lor_low; Z.div_mod_to_equations; lia.
Qed.

(** The fields of [satp] do not disturb each other: mode, ASID and the page
    number of a page-aligned root table read back. *)
Theorem satp_fields mode asid root :
  0 <= asid < 2 ^ 16 -> 0 <= root < 2 ^ 56 ->
  let satp := Satp_new mode asid root in
  satp / 2 ^ 60 = satp_mode mode /\ satp / 2 ^ 44 mod 2 ^ 16 = asid /\ satp mod 2 ^ 44 = root / 4096 /\ is_usize satp.
Proof.
  intros Ha Hr. cbv zeta. assert (Hm : 0 <= satp_mode mode < 16) by (by destruct mode).
  rewrite satp_arith by done. unfold in_width. Z.div_mod_to_equations. lia.
Qed.

Lemma satp_fields_witness : Satp_new Sv39 KERNEL_ASID 0x80201000 mod 2 ^ 44 = 0x80201.
Proof. apply (satp_fields Sv39 0 0x80201000); lia. Defined.
