(* ===== verification/Trap.v ===== *)
(** * Traps ([src/src/trap_handler.rs])

    The assembly of [trap_handler] as a list of instructions over a register
    file, the trap registers and word memory, and the Rust handler it calls.
    The frame's layout is the [repr(C)] one: [kernel_sp] at offset 0, then the
    registers, [sepc] at 256. *)
From S2P Require Import Prelude Memory PhysRange PageTable FrameAlloc Riscv.

(** ** Registers and the frame's layout *)
Inductive reg :=
| ra | sp | gp | tp | t0 | t1 | t2 | s0 | s1 | a0 | a1 | a2 | a3 | a4 | a5 | a6 | a7
| s2 | s3 | s4 | s5 | s6 | s7 | s8 | s9 | s10 | s11 | t3 | t4 | t5 | t6.

#[export] Instance reg_eq_dec : EqDecision reg.
Proof. solve_decision. Defined.

(** The offsets of the fields of [TrapFrame]. *)
Definition off (r : reg) : Z :=
  match r with
  | ra => 8 | sp => 16 | gp => 24 | tp => 32 | t0 => 40 | t1 => 48 | t2 => 56 | s0 => 64 | s1 => 72
  | a0 => 80 | a1 => 88 | a2 => 96 | a3 => 104 | a4 => 112 | a5 => 120 | a6 => 128 | a7 => 136
  | s2 => 144 | s3 => 152 | s4 => 160 | s5 => 168 | s6 => 176 | s7 => 184 | s8 => 192 | s9 => 200
  | s10 => 208 | s11 => 216 | t3 => 224 | t4 => 232 | t5 => 240 | t6 => 248
  end.
Definition off_sepc : Z := 256.

Record TrapFrame := mkTrapFrame { tf_kernel_sp : Z; tf_regs : reg -> Z; tf_sepc : Z }.
Definition TrapFrame_zero : TrapFrame := mkTrapFrame 0 (fun _ => 0) 0.

(** ** The machine the assembly runs on *)
Record Cpu := mkCpu {
  c_regs : reg -> Z;
  c_sscratch : Z;
  c_sepc : Z;
  c_mem : gmap Z Z;
}.

Definition set_reg (c : Cpu) (r : reg) (v : Z) : Cpu :=
  mkCpu (fun r' => if decide (r' = r) then v else c_regs c r') (c_sscratch c) (c_sepc c) (c_mem c).
Definition set_sscratch (c : Cpu) v := mkCpu (c_regs c) v (c_sepc c) (c_mem c).
Definition set_sepc (c : Cpu) v := mkCpu (c_regs c) (c_sscratch c) v (c_mem c).
Definition set_cmem (c : Cpu) m := mkCpu (c_regs c) (c_sscratch c) (c_sepc c) m.

Inductive instr :=
| Swap_sscratch (r : reg)     (* csrrw r, sscratch, r *)
| Sd (r : reg) (o : Z) (b : reg)
| Ld (r : reg) (o : Z) (b : reg)
| Csrr_sepc (r : reg)
| Csrr_sscratch (r : reg)
| Csrw_sepc (r : reg)
| Csrw_sscratch (r : reg).

Definition step (c : Cpu) (i : instr) : comp Cpu :=
  match i with
  | Swap_sscratch r => Ret (set_reg (set_sscratch c (c_regs c r)) r (c_sscratch c))
  | Sd r o b => m ← store (c_mem c) (c_regs c b + o) (c_regs c r); Ret (set_cmem c m)
  | Ld r o b => v ← load (c_mem c) (c_regs c b + o); Ret (set_reg c r v)
  | Csrr_sepc r => Ret (set_reg c r (c_sepc c))
  | Csrr_sscratch r => Ret (set_reg c r (c_sscratch c))
  | Csrw_sepc r => Ret (set_sepc c (c_regs c r))
  | Csrw_sscratch r => Ret (set_sscratch c (c_regs c r))
  end.

Fixpoint run (c : Cpu) (l : list instr) : comp Cpu :=
  match l with
  | [] => Ret c
  | i :: l => c ← step c i; run c l
  end.

(** From [csrrw] to the [call]. *)
Definition trap_entry : list instr :=
  [Swap_sscratch a0;
   Sd ra 8 a0; Sd sp 16 a0; Sd gp 24 a0; Sd tp 32 a0; Sd t0 40 a0; Sd t1 48 a0; Sd t2 56 a0;
   Sd s0 64 a0; Sd s1 72 a0;
   Sd a1 88 a0; Sd a2 96 a0; Sd a3 104 a0; Sd a4 112 a0; Sd a5 120 a0; Sd a6 128 a0; Sd a7 136 a0;
   Sd s2 144 a0; Sd s3 152 a0; Sd s4 160 a0; Sd s5 168 a0; Sd s6 176 a0; Sd s7 184 a0; Sd s8 192 a0;
   Sd s9 200 a0; Sd s10 208 a0; Sd s11 216 a0; Sd t3 224 a0; Sd t4 232 a0; Sd t5 240 a0; Sd t6 248 a0;
   Csrr_sepc t0; Sd t0 256 a0;
   Csrr_sscratch t0; Sd t0 80 a0;
   Csrw_sscratch a0;
   Ld sp 0 a0].

(** From the return of the call to [sret]. *)
Definition trap_exit : list instr :=
  [Csrr_sscratch a0;
   Ld t0 256 a0; Csrw_sepc t0;
   Ld ra 8 a0; Ld gp 24 a0; Ld tp 32 a0; Ld t0 40 a0; Ld t1 48 a0; Ld t2 56 a0;
   Ld s0 64 a0; Ld s1 72 a0;
   Ld a1 88 a0; Ld a2 96 a0; Ld a3 104 a0; Ld a4 112 a0; Ld a5 120 a0; Ld a6 128 a0; Ld a7 136 a0;
   Ld s2 144 a0; Ld s3 152 a0; Ld s4 160 a0; Ld s5 168 a0; Ld s6 176 a0; Ld s7 184 a0; Ld s8 192 a0;
   Ld s9 200 a0; Ld s10 208 a0; Ld s11 216 a0; Ld t3 224 a0; Ld t4 232 a0; Ld t5 240 a0; Ld t6 248 a0;
   Ld sp 16 a0;
   Ld a0 80 a0].

(** The whole of [trap_handler] around the function it calls, which gets the
    frame's address in [a0]. *)
Definition trap_handler (handler : Cpu -> comp Cpu) (c : Cpu) : comp Cpu :=
  c ← run c trap_entry;
  c ← handler c;
  run c trap_exit.

(** ** The Rust handler *)

(** The halfword at an even address, out of its little-endian word. *)
Definition load_u16 (m : gmap Z Z) (a : Z) : comp Z :=
  w ← load m (a / 8 * 8);
  Ret (w / 2 ^ (8 * (a mod 8)) mod 2 ^ 16).

(** [trap_handler_rust] on the memory of the frame and the hart. *)
Definition trap_handler_rust (timer_frequency : Z) (hart : Hart) (m : gmap Z Z) (frame : Z)
    : comp (gmap Z Z * Hart) :=
  match reason (h_scause hart) with
  | SupervisorTimerInterrupt => hart ← new_time timer_frequency hart 1; Ret (m, hart)
  | Breakpoint =>
      sepc ← load m (frame + off_sepc);
      first_halfword ← load_u16 m sepc;
      let ebreak_size := Z.shiftl 2 (if Z.land first_halfword 3 =? 3 then 1 else 0) in
      sepc ← sepc +! ebreak_size;
      m ← store m (frame + off_sepc) sepc;
      Ret (m, hart)
  | _ => Ret (m, hart)
  end.

(** ** Setup *)
Definition setup_trap_frame (layout : KernelLayout) (frame_addr : Z) (m : gmap Z Z) (c : Cpu) : comp (gmap Z Z * Cpu) :=
  m ← store m frame_addr (trap_stack_top layout);
  Ret (m, set_sscratch c frame_addr).
Definition setup_trap_handler (trap_handler_addr : Z) (hart : Hart) : Hart :=
  write_stvec hart (Stvec_new trap_handler_addr).
Definition kernel_sp (m : gmap Z Z) (frame_addr : Z) : comp Z := load m frame_addr.

(** ** Loads and stores through the frame *)
Definition frame_mapped (m : gmap Z Z) (f : Z) : Prop := forall k, 0 <= k <= 32 -> is_Some (m !! (f + 8 * k)).

Definition frame_at (m : gmap Z Z) (f : Z) (fr : TrapFrame) : Prop :=
  m !! f = Some (tf_kernel_sp fr) /\ m !! (f + off_sepc) = Some (tf_sepc fr) /\
  forall r, m !! (f + off r) = Some (tf_regs fr r).

Lemma off_bounds r : 8 <= off r <= 248 /\ off r mod 8 = 0.
Proof. by destruct r. Qed.

Lemma off_inj r r' : off r = off r' -> r = r'.
Proof. by destruct r, r'. Qed.

Lemma frame_mapped_word m f o : frame_mapped m f -> 0 <= o <= 256 -> o mod 8 = 0 -> is_Some (m !! (f + o)).
Proof.
  intros Hm Ho Hm8. replace o with (8 * (o / 8)) by (Z.div_mod_to_equations; lia). apply Hm. Z.div_mod_to_equations. lia.
Qed.

Lemma frame_mapped_insert m f a v : frame_mapped m f -> frame_mapped (<[a := v]> m) f.
Proof. intros Hm k Hk. rewrite lookup_insert. case_decide; [done|by apply Hm]. Qed.

(** A run of stores of registers below the frame pointer [a0]. *)
Definition sds (l : list reg) : list instr := map (fun r => Sd r (off r) a0) l.

Lemma run_app c l1 l2 : run c (l1 ++ l2) = (c ← run c l1; run c l2).
Proof. revert c. induction l1 as [|i l1 IH]; intros c; [done|]. cbn [app run]. destruct (step c i); cbn [mbind comp_bind]; [apply IH|done..]. Qed.

Lemma run_sds l c : frame_mapped (c_mem c) (c_regs c a0) -> NoDup l ->
  exists m, run c (sds l) = Ret (set_cmem c m) /\ frame_mapped m (c_regs c a0) /\
    (forall r, r ∈ l -> m !! (c_regs c a0 + off r) = Some (c_regs c r)) /\
    forall z, (forall r, r ∈ l -> z <> c_regs c a0 + off r) -> m !! z = c_mem c !! z.
Proof.
  revert c. induction l as [|r l IH]; intros c Hm Hn.
  - exists (c_mem c). split; [by destruct c|]. split; [done|]. split; [by intros r ?%not_elem_of_nil|done].
  - apply NoDup_cons in Hn as [Hr Hn]. cbn [sds map run step]. destruct (off_bounds r) as [Ho Ho8].
    rewrite store_ok by (apply frame_mapped_word; [done|lia|done]). cbn [mbind comp_bind].
    set (c1 := set_cmem c (<[c_regs c a0 + off r := c_regs c r]> (c_mem c))).
    destruct (IH c1) as (m & E & Hm' & Hl & Hz); [by apply frame_mapped_insert|done|].
    exists m. split; [exact E|]. split; [exact Hm'|]. simpl in *. split.
    + intros r' Hr'. apply elem_of_cons in Hr' as [->|Hr']; [|by apply Hl].
      rewrite Hz; [by rewrite lookup_insert_eq|]. intros r' Hr' Heq. destruct (off_inj r r'); [lia|done].
    + intros z Hz'. rewrite Hz by (intros r' Hr'; apply Hz'; by right).
      apply lookup_insert_ne. specialize (Hz' r ltac:(by left)). lia.
Qed.

(** A run of loads into registers other than [a0]. *)
Definition lds (l : list reg) : list instr := map (fun r => Ld r (off r) a0) l.

Lemma run_lds l c fr : frame_at (c_mem c) (c_regs c a0) fr -> a0 ∉ l ->
  exists rs, run c (lds l) = Ret (mkCpu rs (c_sscratch c) (c_sepc c) (c_mem c)) /\
    (forall r, r ∈ l -> rs r = tf_regs fr r) /\ (forall r, r ∉ l -> rs r = c_regs c r).
Proof.
  revert c. induction l as [|r l IH]; intros c Hf Ha.
  - exists (c_regs c). split; [by destruct c|]. split; [by intros r ?%not_elem_of_nil|done].
  - apply not_elem_of_cons in Ha as [Har Hal]. cbn [lds map run step]. destruct Hf as (H1 & H2 & H3).
    rewrite (load_ok _ _ _ (H3 r)). cbn [mbind comp_bind].
    assert (Hr0 : c_regs (set_reg c r (tf_regs fr r)) a0 = c_regs c a0) by (simpl; by rewrite decide_False).
    destruct (IH (set_reg c r (tf_regs fr r))) as (rs & E & Hl & Hz); [by rewrite Hr0|done|].
    exists rs. split; [exact E|]. split.
    + intros r' Hr'. apply elem_of_cons in Hr' as [->|Hr']; [|by apply Hl].
      destruct (decide (r ∈ l)); [by apply Hl|]. rewrite Hz by done. simpl. by rewrite decide_True.
    + intros r' [Hne Hr']%not_elem_of_cons. rewrite Hz by done. simpl. by rewrite decide_False.
Qed.

(** ** The assembly *)
Definition all_but_a0 : list reg :=
  [ra; sp; gp; tp; t0; t1; t2; s0; s1; a1; a2; a3; a4; a5; a6; a7;
   s2; s3; s4; s5; s6; s7; s8; s9; s10; s11; t3; t4; t5; t6].
Definition restored : list reg :=
  [ra; gp; tp; t0; t1; t2; s0; s1; a1; a2; a3; a4; a5; a6; a7;
   s2; s3; s4; s5; s6; s7; s8; s9; s10; s11; t3; t4; t5; t6; sp].

Lemma all_but_a0_spec r : r <> a0 -> r ∈ all_but_a0.
Proof. intros Hr. apply (bool_decide_unpack _). by destruct r. Qed.

Lemma restored_spec r : r <> a0 -> r ∈ restored.
Proof. intros Hr. apply (bool_decide_unpack _). by destruct r. Qed.

Lemma all_but_a0_facts : NoDup all_but_a0 /\ a0 ∉ restored.
Proof. split; apply (bool_decide_unpack _); by vm_compute. Qed.

Lemma trap_entry_eq :
  trap_entry = [Swap_sscratch a0] ++ sds all_but_a0 ++
    [Csrr_sepc t0; Sd t0 256 a0; Csrr_sscratch t0; Sd t0 80 a0; Csrw_sscratch a0; Ld sp 0 a0].
Proof. reflexivity. Qed.

Lemma trap_exit_eq :
  trap_exit = [Csrr_sscratch a0; Ld t0 256 a0; Csrw_sepc t0] ++ lds restored ++ [Ld a0 80 a0].
Proof. reflexivity. Qed.

(** What [trap_entry] leaves: the context in the frame, the kernel's stack. *)
Record entered (c c1 : Cpu) (ks : Z) : Prop := {
  en_a0 : c_regs c1 a0 = c_sscratch c;
  en_sp : c_regs c1 sp = ks;
  en_sscratch : c_sscratch c1 = c_sscratch c;
  en_frame : frame_at (c_mem c1) (c_sscratch c) (mkTrapFrame ks (c_regs c) (c_sepc c));
  en_other z : (forall k, 0 <= k <= 32 -> z <> c_sscratch c + 8 * k) -> c_mem c1 !! z = c_mem c !! z;
}.

Lemma trap_entry_run c ks :
  frame_mapped (c_mem c) (c_sscratch c) -> c_mem c !! c_sscratch c = Some ks ->
  exists c1, run c trap_entry = Ret c1 /\ entered c c1 ks.
Proof.
  intros Hm Hks. rewrite trap_entry_eq, run_app. cbn [run step mbind comp_bind].
  set (c0 := set_reg (set_sscratch c (c_regs c a0)) a0 (c_sscratch c)).
  assert (Ha0 : c_regs c0 a0 = c_sscratch c) by (simpl; repeat case_decide; done).
  assert (Hr0 : forall r, r <> a0 -> c_regs c0 r = c_regs c r) by (intros r Hr; simpl; repeat case_decide; done).
  assert (Hs0 : c_sscratch c0 = c_regs c a0 /\ c_sepc c0 = c_sepc c /\ c_mem c0 = c_mem c) by done.
  clearbody c0. destruct Hs0 as (Hs0 & He0 & Hm0).
  rewrite run_app. destruct (run_sds all_but_a0 c0) as (m & -> & Hm1 & Hl & Hz);
    [by rewrite Hm0, Ha0|apply all_but_a0_facts|]. rewrite Ha0 in *. set (f := c_sscratch c) in *.
  cbn [mbind comp_bind run step]. set (c1 := set_reg (set_cmem c0 m) t0 (c_sepc (set_cmem c0 m))).
  assert (Hc1 : c_regs c1 a0 = f) by (simpl; repeat case_decide; done). rewrite Hc1.
  assert (Hc1t : c_regs c1 t0 = c_sepc c) by (simpl; repeat case_decide; done). rewrite Hc1t.
  change (c_mem c1) with m. rewrite store_ok by (apply frame_mapped_word; [done|lia|done]). cbn [mbind comp_bind].
  set (c2 := set_reg (set_cmem c1 (<[f + 256 := c_sepc c]> m)) t0 _).
  assert (Hc2 : c_regs c2 a0 = f) by (simpl; repeat case_decide; done). rewrite Hc2.
  assert (Hc2t : c_regs c2 t0 = c_regs c a0) by (simpl; repeat case_decide; done). rewrite Hc2t.
  change (c_mem c2) with (<[f + 256 := c_sepc c]> m).
  rewrite store_ok by (apply frame_mapped_word; [by apply frame_mapped_insert|lia|done]). cbn [mbind comp_bind].
  set (m2 := <[f + 80 := c_regs c a0]> (<[f + 256 := c_sepc c]> m)).
  change (c_regs (set_cmem c2 m2) a0) with (c_regs c2 a0). rewrite Hc2.
  change (c_mem (set_sscratch (set_cmem c2 m2) f)) with m2.
  change (c_regs (set_sscratch (set_cmem c2 m2) f) a0) with (c_regs c2 a0). rewrite Hc2.
  assert (Hf : m2 !! (f + 0) = Some ks).
  { unfold m2. rewrite !lookup_insert_ne by lia. rewrite Z.add_0_r, Hz, Hm0; [done|].
    intros r _. destruct (off_bounds r). lia. }
  rewrite (load_ok _ _ _ Hf). cbn [mbind comp_bind]. eexists. split; [reflexivity|]. constructor.
  - simpl. repeat case_decide; try done.
  - simpl. by repeat case_decide.
  - done.
  - cbn [c_mem set_reg set_sscratch set_cmem]. fold f. split; [by rewrite Z.add_0_r in Hf|]. split.
    + unfold m2, off_sepc. rewrite lookup_insert_ne by lia. by rewrite lookup_insert_eq.
    + intros r. destruct (decide (r = a0)) as [->|Hr]; [unfold m2; by rewrite lookup_insert_eq|].
      unfold m2. rewrite !lookup_insert_ne.
      * rewrite Hl by (by apply all_but_a0_spec). by rewrite Hr0.
      * destruct (off_bounds r). lia.
      * intros E. apply Hr, off_inj. simpl. lia.
  - intros z Ho. cbn [c_mem set_reg set_sscratch set_cmem]. unfold m2.
    pose proof (Ho 10 ltac:(lia)). pose proof (Ho 32 ltac:(lia)). rewrite !lookup_insert_ne by lia.
    rewrite Hz, Hm0; [done|]. intros r _. destruct (off_bounds r) as [? H8]. specialize (Ho (off r / 8)).
    Z.div_mod_to_equations. lia.
Qed.

Lemma trap_exit_run c fr :
  frame_at (c_mem c) (c_sscratch c) fr ->
  exists c1, run c trap_exit = Ret c1 /\ (forall r, c_regs c1 r = tf_regs fr r) /\ c_sepc c1 = tf_sepc fr /\
    c_sscratch c1 = c_sscratch c /\ c_mem c1 = c_mem c.
Proof.
  intros (H1 & H2 & H3). rewrite trap_exit_eq, run_app. cbn [run step mbind comp_bind].
  set (c0 := set_reg c a0 (c_sscratch c)).
  assert (Ha0 : c_regs c0 a0 = c_sscratch c) by (simpl; repeat case_decide; done). rewrite Ha0.
  change (c_mem c0) with (c_mem c). unfold off_sepc in H2. rewrite (load_ok _ _ _ H2). cbn [mbind comp_bind].
  assert (Ht : c_regs (set_reg c0 t0 (tf_sepc fr)) t0 = tf_sepc fr) by (simpl; repeat case_decide; done). rewrite Ht.
  set (c2 := set_sepc (set_reg c0 t0 (tf_sepc fr)) (tf_sepc fr)).
  assert (Ha2 : c_regs c2 a0 = c_sscratch c).
  { change (c_regs c2 a0) with (c_regs (set_reg c0 t0 (tf_sepc fr)) a0). simpl. by repeat case_decide. }
  assert (Hc2 : c_mem c2 = c_mem c /\ c_sscratch c2 = c_sscratch c /\ c_sepc c2 = tf_sepc fr) by done.
  clearbody c2. destruct Hc2 as (Hc2 & Hs2 & He2).
  rewrite run_app. destruct (run_lds restored c2 fr) as (rs & -> & Hl & Hz); [by rewrite Hc2, Ha2; split_and!|apply all_but_a0_facts|].
  cbn [mbind comp_bind run step c_mem c_regs]. rewrite Hz by apply all_but_a0_facts. rewrite Ha2, Hc2.
  specialize (H3 a0) as H3a. simpl in H3a. rewrite (load_ok _ _ _ H3a). cbn [mbind comp_bind].
  eexists. split; [reflexivity|]. split_and!; try done. intros r. simpl. case_decide as Hr; [by rewrite Hr|].
  apply Hl. by apply restored_spec.
Qed.

(** ** Claims *)

(** C23: The assembly switches contexts.  Whatever the handler does to the
    registers, it runs on the kernel stack with the interrupted context, all 31
    registers and [sepc], in the frame [sscratch] points to; and when it leaves
    a frame behind [sscratch], the same one or that of another process, the
    registers and [sepc] after the trap are exactly that frame's. *)
Theorem trap_switches_context c ks :
  frame_mapped (c_mem c) (c_sscratch c) -> c_mem c !! c_sscratch c = Some ks ->
  exists c1, entered c c1 ks /\ forall handler,
    trap_handler handler c = (c2 ← handler c1; run c2 trap_exit) /\
    forall c2 fr, handler c1 = Ret c2 -> frame_at (c_mem c2) (c_sscratch c2) fr ->
      exists c3, trap_handler handler c = Ret c3 /\
        (forall r, c_regs c3 r = tf_regs fr r) /\ c_sepc c3 = tf_sepc fr /\
        c_sscratch c3 = c_sscratch c2 /\ c_mem c3 = c_mem c2.
Proof.
  intros Hm Hks. destruct (trap_entry_run c ks Hm Hks) as (c1 & E & Hen). exists c1. split; [done|].
  intros handler. unfold trap_handler. rewrite E. cbn [mbind comp_bind]. split; [done|].
  intros c2 fr E2 Hfr. rewrite E2. cbn [mbind comp_bind]. by apply trap_exit_run.
Qed.

(** The Rust handler as the assembly calls it: it works on the frame in [a0]
    and may leave anything in the registers. *)
Definition call_rust (timer_frequency : Z) (hart : Hart) (clobbered : reg -> Z) (c : Cpu) : comp Cpu :=
  '(m, _) ← trap_handler_rust timer_frequency hart (c_mem c) (c_regs c a0);
  Ret (mkCpu clobbered (c_sscratch c) (c_sepc c) m).

(** The cause that the timer raises. *)
Definition scause_timer : Z := 2 ^ 63 + 5.

(** C15: Interrupts are transparent.  After a timer interrupt, and after every
    trap the kernel ignores, the interrupted program finds its registers, its
    program counter and its memory outside the frame as they were, whatever the
    Rust code left in the registers. *)
Theorem trap_is_transparent timer_frequency hart clobbered c ks :
  frame_mapped (c_mem c) (c_sscratch c) -> c_mem c !! c_sscratch c = Some ks ->
  reason (h_scause hart) <> Breakpoint -> 0 <= timer_frequency < 2 ^ 64 ->
  exists c', trap_handler (call_rust timer_frequency hart clobbered) c = Ret c' /\
    (forall r, c_regs c' r = c_regs c r) /\ c_sepc c' = c_sepc c /\ c_sscratch c' = c_sscratch c /\
    forall z, (forall k, 0 <= k <= 32 -> z <> c_sscratch c + 8 * k) -> c_mem c' !! z = c_mem c !! z.
Proof.
  intros Hm Hks Hr Hf. destruct (trap_entry_run c ks Hm Hks) as (c1 & E & [Ha0 _ Hss Hfr Ho]).
  unfold trap_handler. rewrite E. cbn [mbind comp_bind]. unfold call_rust.
  assert (exists hart', trap_handler_rust timer_frequency hart (c_mem c1) (c_regs c1 a0) = Ret (c_mem c1, hart')) as [hart' ->].
  { unfold trap_handler_rust. destruct (reason (h_scause hart)); try done; try (by eexists).
    unfold new_time. rewrite mul_ovf_ok by (unfold max_of; lia). cbn [mbind comp_bind]. by eexists. }
  cbn [mbind comp_bind].
  destruct (trap_exit_run (mkCpu clobbered (c_sscratch c1) (c_sepc c1) (c_mem c1)) (mkTrapFrame ks (c_regs c) (c_sepc c)))
    as (c' & -> & H1 & H2 & H3 & H4); [cbn; by rewrite Hss|].
  exists c'. split; [done|]. split; [exact H1|]. split; [exact H2|]. split; [by rewrite H3|]. intros z Hz. rewrite H4. by apply Ho.
Qed.

(** The length of an instruction, from its first halfword. *)
Definition instr_size (halfword : Z) : Z := if halfword mod 4 =? 3 then 4 else 2.

(** A breakpoint is skipped: execution resumes right behind the [ebreak],
    two bytes on for a compressed one and four otherwise, with every register
    as it was. *)
Theorem breakpoint_is_skipped timer_frequency hart clobbered c ks halfword :
  frame_mapped (c_mem c) (c_sscratch c) -> c_mem c !! c_sscratch c = Some ks ->
  reason (h_scause hart) = Breakpoint -> 0 <= c_sepc c < 2 ^ 64 - 4 ->
  (forall k, 0 <= k <= 32 -> c_sepc c / 8 * 8 <> c_sscratch c + 8 * k) ->
  load_u16 (c_mem c) (c_sepc c) = Ret halfword ->
  exists c', trap_handler (call_rust timer_frequency hart clobbered) c = Ret c' /\
    (forall r, c_regs c' r = c_regs c r) /\ c_sepc c' = c_sepc c + instr_size halfword /\
    c_sscratch c' = c_sscratch c.
Proof.
  intros Hm Hks Hr Hpc Hout Hh. destruct (trap_entry_run c ks Hm Hks) as (c1 & E & [Ha0 _ Hss Hfr Ho]).
  unfold trap_handler. rewrite E. cbn [mbind comp_bind]. unfold call_rust, trap_handler_rust. rewrite Hr, Ha0.
  destruct Hfr as (H1 & H2 & H3). cbn [tf_sepc tf_regs tf_kernel_sp] in *. rewrite (load_ok _ _ _ H2). cbn [mbind comp_bind].
  assert (Hh1 : load_u16 (c_mem c1) (c_sepc c) = Ret halfword).
  { unfold load_u16, load in *. by rewrite Ho by done. }
  rewrite Hh1. cbn [mbind comp_bind].
  assert (Hsz : Z.shiftl 2 (if Z.land halfword 3 =? 3 then 1 else 0) = instr_size halfword).
  { unfold instr_size. change 3 with (2 ^ 2 - 1) at 1. rewrite land_low by lia. change (2 ^ 2) with 4.
    by destruct (halfword mod 4 =? 3). }
  rewrite Hsz. assert (0 <= instr_size halfword <= 4) by (unfold instr_size; destruct (halfword mod 4 =? 3); lia).
  rewrite add_ovf_ok by (unfold max_of; lia). cbn [mbind comp_bind]. rewrite store_ok by (by eexists). cbn [mbind comp_bind].
  set (m := <[_ := _]> (c_mem c1)).
  destruct (trap_exit_run (mkCpu clobbered (c_sscratch c1) (c_sepc c1) m)
              (mkTrapFrame ks (c_regs c) (c_sepc c + instr_size halfword))) as (c' & -> & R1 & R2 & R3 & R4).
  { cbn [c_mem c_sscratch]. rewrite Hss. unfold m, off_sepc. split; [by rewrite lookup_insert_ne by lia|].
    split; [by rewrite lookup_insert_eq|]. intros r. destruct (off_bounds r). by rewrite lookup_insert_ne by lia. }
  exists c'. split; [done|]. split; [exact R1|]. split; [exact R2|]. by rewrite R3.
Qed.

(** ** Witness: a frame at 4096 and an [ebreak] at 8192 *)
Definition trap_mem : gmap Z Z :=
  <[8192 := 0x9002]> (list_to_map ((fun k => (4096 + 8 * k, 7)) <$> seqZ 0 33)).
Definition trap_cpu : Cpu := mkCpu off 4096 8192 trap_mem.

Lemma trap_frame_mapped : frame_mapped trap_mem 4096.
Proof.
  intros k Hk. assert (Hin : (k ∈ seqZ 0 33)) by (apply elem_of_seqZ; lia).
  unfold trap_mem. rewrite lookup_insert_ne by lia. apply not_eq_None_Some. rewrite <- not_elem_of_list_to_map.
  intros Hn. apply Hn. rewrite <- list_fmap_compose. apply list_elem_of_fmap. exists k. done.
Qed.

Definition timer_hart : Hart := mkHart 2 0 0 0 scause_timer 1000 0.
Definition break_hart : Hart := mkHart 2 0 0 0 3 1000 0.

Lemma trap_kernel_sp : trap_mem !! 4096 = Some 7.
Proof. vm_compute. reflexivity. Qed.

Lemma trap_switches_context_witness :
  exists c1, c_regs c1 sp = 7 /\ trap_handler Ret trap_cpu = (c2 ← Ret c1; run c2 trap_exit).
Proof.
  destruct (trap_switches_context trap_cpu 7 trap_frame_mapped trap_kernel_sp) as (c1 & Hen & Hall).
  exists c1. split; [exact (en_sp _ _ _ Hen)|exact (proj1 (Hall Ret))].
Defined.

Lemma trap_is_transparent_witness :
  exists c', trap_handler (call_rust 10 timer_hart (fun _ => 0)) trap_cpu = Ret c' /\ c_regs c' s11 = 216 /\ c_sepc c' = 8192.
Proof.
  destruct (trap_is_transparent 10 timer_hart (fun _ => 0) trap_cpu 7 trap_frame_mapped trap_kernel_sp) as (c' & E & Hr & Hp & _);
    [by vm_compute|lia|].
  exists c'. split; [exact E|]. split; [exact (Hr s11)|exact Hp].
Defined.

Lemma breakpoint_is_skipped_witness :
  exists c', trap_handler (call_rust 10 break_hart (fun _ => 0)) trap_cpu = Ret c' /\ c_regs c' a0 = 80 /\ c_sepc c' = 8194.
Proof.
  destruct (breakpoint_is_skipped 10 break_hart (fun _ => 0) trap_cpu 7 0x9002 trap_frame_mapped trap_kernel_sp) as (c' & E & Hr & Hp & _).
  - reflexivity.
  - simpl. lia.
  - intros k Hk. simpl. Z.div_mod_to_equations. lia.
  - vm_compute. reflexivity.
  - exists c'. split; [exact E|]. split; [exact (Hr a0)|exact Hp].
Defined.
