(* ===== verification/Kernel.v ===== *)
(** * Kernel paging and processes ([src/src/page_table.rs], [src/src/scheduler.rs])

    The kernel's page table, built from the frames of [FrameAlloc.v] through
    the [FrameSource] interface of [PageTable.v], and the round-robin scheduler
    over the trap frames of [Trap.v].  The static variables are arguments. *)
From S2P Require Import Prelude Bitmap Memory PhysRange FrameAlloc PageTable Riscv Trap.

Section Kernel.
Context {P : Type} `{IndexPoolLaws P}.

Abbreviation Frames := (option (list (FrameArena P))) (only parsing).

(** [|| page_frame_allocator::alloc_frame().unwrap()]. *)
Definition alloc_or_panic (g : Frames) : comp (Z * Frames) :=
  '(r, g) ← alloc_frame g; p ← unwrap r; Ret (p, g).

#[export] Instance frames_source : FrameSource Frames := {
  fs_alloc := alloc_or_panic;
  fs_ok g := exists arenas, g = Some arenas /\ pfa_ok 0 arenas;
  fs_fresh g p := exists arenas, g = Some arenas /\ managed (pfa_ranges arenas) p /\ taken arenas p = false;
}.

#[export] Instance frames_source_laws : FrameSourceLaws Frames.
Proof.
  split.
  - intros g p g' (arenas & -> & Ho) E. unfold fs_alloc, frames_source, alloc_or_panic, alloc_frame in E. cbn [unwrap mbind comp_bind] in E.
    destruct (pfa_alloc_run 0 arenas Ho) as [(q & arenas' & Ea & Ho' & Hr & Hm & Ht & Hq)|[Ea _]]; rewrite Ea in E;
      cbn [unwrap mbind comp_bind] in E; [|done]. injection E as <- <-. split_and!.
    + by exists arenas'.
    + by exists arenas.
    + intros (a & [= <-] & Hqm & Hqt). rewrite Hq in Hqt by apply Hm. by rewrite Z.eqb_refl in Hqt.
    + intros r (a & [= <-] & Hrm & Hrt). exists arenas. split; [done|]. rewrite <- Hr. split; [done|].
      rewrite Hq in Hrt by apply Hrm. by apply orb_false_iff in Hrt as [_ ?].
  - intros g p (arenas & -> & Ho & Hc) (a & [= <-] & (Hp & r & Hr & Hh1 & Hh2) & _). split; [done|].
    destruct (chain_in _ _ _ _ Hc Hr) as (? & ? & ?). lia.
Qed.

(** ** [page_table.rs] *)
Section Paging.
Context (root : Z).

Definition new_identity_map (m : gmap Z Z) (g : Frames) (phys : Z) : comp (gmap Z Z * Frames) :=
  let flags := Z.lor READ WRITE in
  map_page root m g phys phys flags.

(** [(start..end).step_by(PAGE_SIZE)]. *)
Definition step_pages (start end_ : Z) : list Z :=
  map (fun i => start + PAGE_SIZE * i) (seqZ 0 (div_ceil (end_ - start) PAGE_SIZE)).

Definition upper_half_offset : Z := 0xFFFFFFFF00000000.

Fixpoint map_kernel (pages : list Z) (m : gmap Z Z) (g : Frames) : comp (gmap Z Z * Frames) :=
  match pages with
  | [] => Ret (m, g)
  | page :: pages =>
      let flags := Z.lor (Z.lor READ WRITE) EXECUTE in
      '(m, g) ← map_page root m g page page flags;
      virt ← upper_half_offset +! page;
      '(m, g) ← map_page root m g virt page flags;
      map_kernel pages m g
  end.

Fixpoint map_pages (pages : list Z) (flags : Z) (m : gmap Z Z) (g : Frames) : comp (gmap Z Z * Frames) :=
  match pages with
  | [] => Ret (m, g)
  | page :: pages =>
      '(m, g) ← map_page root m g page page flags;
      map_pages pages flags m g
  end.

Definition id_map_region (range : PhysRange) (flags : Z) (m : gmap Z Z) (g : Frames) : comp (gmap Z Z * Frames) :=
  map_pages (step_pages (pr_start range) (pr_end range)) flags m g.

Fixpoint id_map_regions (ranges : list PhysRange) (flags : Z) (m : gmap Z Z) (g : Frames) : comp (gmap Z Z * Frames) :=
  match ranges with
  | [] => Ret (m, g)
  | r :: ranges => '(m, g) ← id_map_region r flags m g; id_map_regions ranges flags m g
  end.

(** [page_table::init]; the FDT's range and the MMIO regions are the device
    tree's.  The jump to the upper half is not modelled. *)
Definition page_table_init (layout : KernelLayout) (fdt : PhysRange) (mmio : list PhysRange)
    (m : gmap Z Z) (g : Frames) (hart : Hart) : comp (gmap Z Z * Frames * Hart) :=
  '(m, g) ← map_kernel (step_pages (kernel_start layout) (kernel_end layout)) m g;
  ranges ← managed_ranges g;
  '(m, g) ← id_map_regions ranges (Z.lor READ WRITE) m g;
  fdt_range ← match covering_pages fdt with Ok r => Ret r | Err _ => Panic end;
  '(m, g) ← id_map_region fdt_range READ m g;
  '(m, g) ← id_map_regions mmio (Z.lor READ WRITE) m g;
  let satp := Satp_new Sv39 KERNEL_ASID root in
  Ret (m, g, write_satp_and_flush_tlb hart satp).

(** ** The mappings [init] makes, as a table *)
Abbreviation mapping := (Z * Z * Z)%type (only parsing).
Definition RWX : Z := Z.lor (Z.lor READ WRITE) EXECUTE.
Definition RW : Z := Z.lor READ WRITE.

Definition id_mappings (flags : Z) (r : PhysRange) : list mapping :=
  map (fun p => (p, p, flags)) (step_pages (pr_start r) (pr_end r)).

Definition kernel_mappings (layout : KernelLayout) (ranges : list PhysRange) (fdt : PhysRange) (mmio : list PhysRange) : list mapping :=
  flat_map (fun p => [(p, p, RWX); (upper_half_offset + p, p, RWX)]) (step_pages (kernel_start layout) (kernel_end layout)) ++
  flat_map (id_mappings RW) ranges ++
  id_mappings READ (mkPhysRange (pr_start fdt / 4096 * 4096) ((pr_end fdt + 4095) / 4096 * 4096)) ++
  flat_map (id_mappings RW) mmio.

(** Where a table of mappings sends an address. *)
Definition mapped_to (l : list mapping) (v : Z) : option (Z * Z) :=
  '(virt, phys, flags) ← find (fun '(virt, _, _) => same_page v virt) l;
  Some (phys / 4096 * 4096 + v mod 4096, Z.lor flags 1).

Fixpoint map_all (l : list mapping) (m : gmap Z Z) (g : Frames) : comp (gmap Z Z * Frames) :=
  match l with
  | [] => Ret (m, g)
  | (virt, phys, flags) :: l => '(m, g) ← map_page root m g virt phys flags; map_all l m g
  end.

Definition mapping_ok (x : mapping) : Prop :=
  let '(virt, phys, flags) := x in 0 <= phys < 2 ^ 64 /\ 0 <= flags < 1024 /\ Z.land flags 14 <> 0.

(** No two mappings are for the same virtual page. *)
Fixpoint distinct_pages (l : list mapping) : Prop :=
  match l with
  | [] => True
  | (virt, _, _) :: l => Forall (fun '(w, _, _) => same_page w virt = false) l /\ distinct_pages l
  end.

#[export] Instance distinct_pages_dec l : Decision (distinct_pages l).
Proof.
  induction l as [|[[virt phys] flags] l IH]; simpl; [apply _|].
  assert (forall x : mapping, Decision ((fun '(w, _, _) => same_page w virt = false) x)) by (intros [[w p] f]; apply _).
  apply and_dec; [by apply Forall_dec|done].
Defined.

Lemma same_page_refl v : same_page v v = true.
Proof. unfold same_page. apply Z.eqb_refl. Qed.

Lemma same_page_trans u v w : same_page u v = true -> same_page u w = same_page v w.
Proof. unfold same_page. intros E%Z.eqb_eq. by rewrite E. Qed.

(** The tables that a list of mappings goes through. *)
Definition all_paths (l : list mapping) : gset (list Z) := ⋃ map (fun '(virt, _, _) => paths virt) l.

Lemma map_all_run l : forall m g T,
  pt_inv root m g T -> avail g (size (all_paths l ∖ dom T)) -> Forall mapping_ok l -> distinct_pages l ->
  Forall (fun '(virt, _, _) => sv39 m root virt = None) l ->
  exists m' g', map_all l m g = Ret (m', g') /\ pt_ok root m' g' /\
    forall v, sv39 m' root v = match mapped_to l v with Some t => Some t | None => sv39 m root v end.
Proof.
  induction l as [|[[virt phys] flags] l IH]; intros m g T Hpt Hav Hok Hd Hn.
  - exists m, g. split_and!; [done|by exists T|done].
  - apply Forall_cons in Hok as [(Hp & Hf & Hr) Hok]. destruct Hd as [Hv Hd]. apply Forall_cons in Hn as [Hn1 Hn].
    destruct (map_run root m g T virt phys flags Hpt Hp Hf Hr) as [_ Hm].
    assert (Hsz : size (all_paths ((virt, phys, flags) :: l) ∖ dom T) =
                  (size (paths virt ∖ dom T) + size (all_paths l ∖ (dom T ∪ paths virt)))%nat).
    { rewrite <- size_union by set_solver. f_equal. unfold all_paths. cbn [map union_list].
      apply set_eq. intros p. rewrite !elem_of_union, !elem_of_difference, elem_of_union.
      destruct (decide (p ∈ paths virt)); set_solver. }
    rewrite Hsz in Hav. destruct (Hm Hn1) as (m1 & g1 & T1 & E & Hpt1 & Hdom & Hav1 & Ht).
    { eapply avail_mono; [|exact Hav]. lia. }
    destruct (IH m1 g1 T1 Hpt1) as (m2 & g2 & E2 & Hpt2 & Ht2); [rewrite Hdom; by apply Hav1|done|done| |].
    { rewrite Forall_forall in *. intros [[w p] f] Hw. specialize (Hn _ Hw). specialize (Hv _ Hw). simpl in *.
      by rewrite Ht, Hv. }
    cbn [map_all]. rewrite E. cbn [mbind comp_bind]. exists m2, g2. split; [done|]. split; [done|].
    intros v. rewrite Ht2, Ht. unfold mapped_to. cbn [find]. destruct (same_page v virt) eqn:Ev; [|done].
    destruct (find _ l) as [[[w p] f]|] eqn:Ef; [|done]. apply find_some in Ef as [Hin Hw].
    rewrite Forall_forall in Hv. apply list_elem_of_In in Hin. specialize (Hv _ Hin). simpl in Hv.
    rewrite <- (same_page_trans v w virt Hw) in Hv. congruence.
Qed.

(** ** [init] is [map_all] of the table *)
Lemma map_all_app l1 l2 m g : map_all (l1 ++ l2) m g = ('(m, g) ← map_all l1 m g; map_all l2 m g).
Proof.
  revert m g. induction l1 as [|[[virt phys] flags] l1 IH]; intros m g; [done|]. cbn [app map_all].
  destruct (map_page root m g virt phys flags) as [[m1 g1]| |]; cbn [mbind comp_bind]; [apply IH|done..].
Qed.

Lemma map_pages_all pages flags m g : map_pages pages flags m g = map_all (map (fun p => (p, p, flags)) pages) m g.
Proof.
  revert m g. induction pages as [|p pages IH]; intros m g; [done|]. cbn [map_pages map map_all].
  destruct (map_page root m g p p flags) as [[m1 g1]| |]; cbn [mbind comp_bind]; [apply IH|done..].
Qed.

Lemma id_map_regions_all ranges flags m g :
  id_map_regions ranges flags m g = map_all (flat_map (id_mappings flags) ranges) m g.
Proof.
  revert m g. induction ranges as [|r ranges IH]; intros m g; [done|]. cbn [id_map_regions flat_map].
  rewrite map_all_app. unfold id_map_region. rewrite map_pages_all. fold (id_mappings flags r).
  destruct (map_all (id_mappings flags r) m g) as [[m1 g1]| |]; cbn [mbind comp_bind]; [apply IH|done..].
Qed.

Lemma map_kernel_all pages m g :
  Forall (fun p => p < 2 ^ 32) pages ->
  map_kernel pages m g = map_all (flat_map (fun p => [(p, p, RWX); (upper_half_offset + p, p, RWX)]) pages) m g.
Proof.
  intros Hp. revert m g. induction Hp as [|p pages Hp Hps IH]; intros m g; [done|]. cbn [map_kernel flat_map app map_all].
  fold RWX. destruct (map_page root m g p p RWX) as [[m1 g1]| |]; cbn [mbind comp_bind]; [|done..].
  rewrite add_ovf_ok by (unfold upper_half_offset, max_of; lia). cbn [mbind comp_bind].
  destruct (map_page root m1 g1 (upper_half_offset + p) p RWX) as [[m2 g2]| |]; cbn [mbind comp_bind]; [apply IH|done..].
Qed.
(** ** [init] *)
Lemma frame_alloc_range (a : FrameArena P) r a' : FrameArena_alloc a = Ret (r, a') -> fr_range a' = fr_range a.
Proof.
  unfold FrameArena_alloc. destruct (pool_find_free _); [|by intros [= _ <-]]. intros E.
  destruct (pool_set _ _); cbn [mbind comp_bind] in E; try done. destruct (_ *! _); cbn [mbind comp_bind] in E; try done.
  destruct (_ +! _); cbn [mbind comp_bind] in E; try done. by injection E as _ <-.
Qed.

Lemma pfa_alloc_ranges (arenas : list (FrameArena P)) r arenas' :
  pfa_alloc arenas = Ret (r, arenas') -> pfa_ranges arenas' = pfa_ranges arenas.
Proof.
  revert r arenas'. induction arenas as [|a arenas IH]; intros r arenas' E; [by injection E as _ <-|]. cbn [pfa_alloc] in E.
  destruct (FrameArena_alloc a) as [[r1 a1]| |] eqn:Ea; cbn [mbind comp_bind] in E; try done.
  apply frame_alloc_range in Ea. destruct r1 as [p|].
  - injection E as _ <-. simpl. by rewrite Ea.
  - destruct (pfa_alloc arenas) as [[r2 l2]| |] eqn:El; cbn [mbind comp_bind] in E; try done. injection E as _ <-.
    simpl. by rewrite Ea, (IH _ _ eq_refl).
Qed.

Definition has_ranges (ranges : list PhysRange) (g : Frames) : Prop :=
  exists arenas, g = Some arenas /\ pfa_ranges arenas = ranges.

Lemma map_all_ranges l ranges : forall m g m' g',
  has_ranges ranges g -> map_all l m g = Ret (m', g') -> has_ranges ranges g'.
Proof.
  induction l as [|[[virt phys] flags] l IH]; intros m g m' g' Hr E; [by injection E as _ <-|]. cbn [map_all] in E.
  destruct (map_page root m g virt phys flags) as [[m1 g1]| |] eqn:E1; cbn [mbind comp_bind] in E; try done.
  eapply IH; [|exact E]. eapply (map_page_source (has_ranges ranges)); [|exact Hr|exact E1].
  clear. intros g p g' (arenas & -> & Hr) E. unfold fs_alloc, frames_source, alloc_or_panic, alloc_frame in E. cbn [unwrap mbind comp_bind] in E.
  destruct (pfa_alloc arenas) as [[r arenas']| |] eqn:Ea; cbn [mbind comp_bind] in E; try done.
  destruct r; cbn [unwrap mbind comp_bind] in E; try done. injection E as _ <-. exists arenas'. split; [done|].
  rewrite <- Hr. by eapply pfa_alloc_ranges.
Qed.

(** What [init] needs to know of the machine: the kernel lies below 4 GiB, the
    regions are proper ranges of addresses, and no page is asked for twice. *)
Record paging_ok (layout : KernelLayout) (ranges : list PhysRange) (fdt : PhysRange) (mmio : list PhysRange) : Prop := {
  pg_kernel : 0 <= kernel_start layout /\ kernel_end layout <= 2 ^ 32;
  pg_fdt : range_wf fdt /\ pr_end fdt + 4095 < 2 ^ 64;
  pg_mmio : Forall range_wf mmio;
  pg_distinct : distinct_pages (kernel_mappings layout ranges fdt mmio);
}.

Lemma step_pages_in start end_ p : p ∈ step_pages start end_ -> start <= p < end_.
Proof.
  unfold step_pages, PAGE_SIZE. intros (i & -> & Hi)%list_elem_of_fmap. apply elem_of_seqZ in Hi.
  destruct (Z.le_gt_cases 0 (end_ - start)).
  - destruct (div_ceil_bounds (end_ - start) 4096); lia.
  - unfold div_ceil in Hi. destruct (0 <? (end_ - start) mod 4096); Z.div_mod_to_equations; lia.
Qed.

Lemma mapping_flags virt phys flags :
  0 <= phys < 2 ^ 64 -> flags ∈ [READ; RW; RWX] -> mapping_ok (virt, phys, flags).
Proof.
  intros Hp Hf. split; [done|]. assert (Hd : forall f, f ∈ [READ; RW; RWX] -> 0 <= f < 1024 /\ Z.land f 14 <> 0).
  { apply Forall_forall. by repeat constructor. }
  by apply Hd.
Qed.

Lemma id_mappings_ok flags r :
  0 <= pr_start r -> pr_end r <= 2 ^ 64 -> flags ∈ [READ; RW; RWX] -> Forall mapping_ok (id_mappings flags r).
Proof.
  intros Hs He Hf. apply Forall_forall. intros x (p & -> & Hp)%list_elem_of_fmap. apply step_pages_in in Hp.
  apply mapping_flags; [lia|done].
Qed.

Lemma kernel_mappings_ok layout ranges fdt mmio :
  paging_ok layout ranges fdt mmio -> chain 0 ranges (2 ^ 64 - 1) -> Forall mapping_ok (kernel_mappings layout ranges fdt mmio).
Proof.
  intros [[Hk1 Hk2] [[Hf1 Hf2 Hf3] Hf4] Hm _] Hc. unfold kernel_mappings. rewrite !Forall_app. split_and!.
  - apply Forall_flat_map, Forall_forall. intros p Hp%step_pages_in.
    assert (Hpp : 0 <= p < 2 ^ 64) by lia. constructor; [apply mapping_flags; [done|set_solver]|]. constructor; [apply mapping_flags; [done|set_solver]|constructor].
  - apply Forall_flat_map, Forall_forall. intros r Hr. destruct (chain_in _ _ _ _ Hc Hr) as (? & ? & ?).
    apply id_mappings_ok; [lia|lia|set_solver].
  - apply id_mappings_ok; cbn [pr_start pr_end]; [Z.div_mod_to_equations; lia..|set_solver].
  - apply Forall_flat_map. eapply Forall_impl; [exact Hm|]. intros r []. apply id_mappings_ok; [lia|lia|set_solver].
Qed.

Lemma page_table_init_all layout fdt mmio m arenas hart m' g' :
  paging_ok layout (pfa_ranges arenas) fdt mmio ->
  map_all (kernel_mappings layout (pfa_ranges arenas) fdt mmio) m (Some arenas) = Ret (m', g') ->
  page_table_init layout fdt mmio m (Some arenas) hart =
    Ret (m', g', write_satp_and_flush_tlb hart (Satp_new Sv39 KERNEL_ASID root)).
Proof.
  intros [[Hk1 Hk2] [[Hf1 Hf2 Hf3] Hf4] Hm _] E. unfold kernel_mappings in E. rewrite map_all_app in E.
  unfold page_table_init. rewrite map_kernel_all.
  2: { apply Forall_forall. intros p Hp%step_pages_in. lia. }
  destruct (map_all (flat_map _ (step_pages _ _)) m (Some arenas)) as [[m1 g1]| |] eqn:E1; cbn [mbind comp_bind] in *; try done.
  destruct (map_all_ranges _ (pfa_ranges arenas) _ _ _ _ ltac:(by eexists) E1) as (arenas1 & -> & Hr).
  cbn [managed_ranges unwrap mbind comp_bind]. rewrite Hr, id_map_regions_all. fold RW. rewrite map_all_app in E.
  destruct (map_all (flat_map (id_mappings RW) (pfa_ranges arenas)) m1 _) as [[m2 g2]| |]; cbn [mbind comp_bind] in *; try done.
  rewrite map_all_app in E. unfold covering_pages. rewrite page_align_up_spec, page_align_down_spec by lia. rewrite (proj2 (Z.ltb_lt _ _)) by lia.
  cbn [mbind comp_bind]. unfold id_map_region. rewrite map_pages_all. cbn [pr_start pr_end].
  change (map (fun p => (p, p, READ)) (step_pages ?a ?b)) with (id_mappings READ (mkPhysRange a b)).
  destruct (map_all (id_mappings READ _) m2 g2) as [[m3 g3]| |]; cbn [mbind comp_bind] in *; try done.
  rewrite id_map_regions_all. by rewrite E.
Qed.

Lemma mapped_to_in l virt phys flags v :
  distinct_pages l -> (virt, phys, flags) ∈ l -> same_page v virt = true ->
  mapped_to l v = Some (phys / 4096 * 4096 + v mod 4096, Z.lor flags 1).
Proof.
  unfold mapped_to. induction l as [|[[w p] f] l IH]; intros Hd Hin Hv; [by apply not_elem_of_nil in Hin|].
  destruct Hd as [Hw Hd]. cbn [find]. apply elem_of_cons in Hin as [E|Hin].
  - injection E as -> -> ->. by rewrite Hv.
  - rewrite Forall_forall in Hw. specialize (Hw _ Hin). simpl in Hw. rewrite (same_page_trans v virt w Hv), Hw. by apply IH.
Qed.

Lemma step_pages_cover start end_ p :
  start mod 4096 = 0 -> p mod 4096 = 0 -> start <= p < end_ -> p ∈ step_pages start end_.
Proof.
  intros Hs Hp Hr. unfold step_pages, PAGE_SIZE. apply list_elem_of_fmap. exists ((p - start) / 4096).
  split; [Z.div_mod_to_equations; lia|]. apply elem_of_seqZ.
  pose proof (div_ceil_bounds (end_ - start) 4096 ltac:(lia) ltac:(lia)). Z.div_mod_to_equations. lia.
Qed.
(** ** [scheduler.rs] *)
Record Process := mkProcess { pid : Z; trap_frame : TrapFrame; running : bool }.
Record Scheduler := mkScheduler { processes : list Process; currently_running : Z }.

(** [self.processes[i] = f(self.processes[i])]. *)
Definition update_process (s : Scheduler) (i : Z) (f : Process -> Process) : comp Scheduler :=
  p ← index (processes s) i;
  Ret (mkScheduler (<[Z.to_nat i := f p]> (processes s)) (currently_running s)).

(** [next]; the pointer to a process's trap frame is the process's index. *)
Definition next (s : Scheduler) (current_trap_frame : TrapFrame) : comp (Z * Scheduler) :=
  s ← update_process s (currently_running s) (fun p => mkProcess (pid p) (trap_frame p) false);
  s ← update_process s (currently_running s) (fun p => mkProcess (pid p) current_trap_frame (running p));
  c ← currently_running s +! 1;
  c ← (if zlen (processes s) =? 0 then Panic else Ret (c mod zlen (processes s)));
  s ← update_process (mkScheduler (processes s) c) c (fun p => mkProcess (pid p) (trap_frame p) true);
  _ ← index (processes s) (currently_running s);
  Ret (currently_running s, s).

Definition new_process (s : Scheduler) (m : gmap Z Z) (g : Frames) (kernel_sp entry : Z)
    : comp (Scheduler * gmap Z Z * Frames) :=
  '(addr, g) ← alloc_or_panic g;
  '(m, g) ← new_identity_map m g addr;
  top ← addr +! PAGE_SIZE;
  let frame := mkTrapFrame kernel_sp (fun r => if decide (r = sp) then top else tf_regs TrapFrame_zero r) entry in
  let process := mkProcess (zlen (processes s)) frame false in
  Ret (mkScheduler (processes s ++ [process]) (currently_running s), m, g).

Lemma page_table_init_run layout fdt mmio m arenas hart :
  pfa_ok 0 arenas -> root mod 4096 = 0 -> 0 <= root < 2 ^ 56 -> (forall i, 0 <= i < 512 -> m !! (root + 8 * i) = Some 0) ->
  (forall f, managed (pfa_ranges arenas) f -> taken arenas f = false ->
     f <> root /\ forall i, 0 <= i < 512 -> is_Some (m !! (f + 8 * i))) ->
  paging_ok layout (pfa_ranges arenas) fdt mmio ->
  let l := kernel_mappings layout (pfa_ranges arenas) fdt mmio in
  avail (Some arenas) (size (all_paths l)) ->
  exists m' g' hart', page_table_init layout fdt mmio m (Some arenas) hart = Ret (m', g', hart') /\
    pt_ok root m' g' /\ has_ranges (pfa_ranges arenas) g' /\ h_satp hart' mod 2 ^ 44 = root / 4096 /\
    (forall v, sv39 m' root v = mapped_to l v) /\
    (forall f o, managed (pfa_ranges arenas) f -> 0 <= o < 4096 -> sv39 m' root (f + o) = Some (f + o, Z.lor RW 1)).
Proof.
  intros Ho Hr Hrb Hz Hf Hpg. cbv zeta. intros Hav. pose proof (po_chain _ _ Ho) as Hc.
  destruct (empty_tree root m (Some arenas)) as (T & HT & Hdom & Hn).
  { by exists arenas. }
  { done. }
  { lia. }
  { done. }
  { intros f (a & [= <-] & Hm & Ht). by apply Hf. }
  set (l := kernel_mappings layout (pfa_ranges arenas) fdt mmio) in *.
  destruct (map_all_run l m (Some arenas) T HT) as (m' & g' & E & Hpt & Ht); [|by apply kernel_mappings_ok|apply Hpg| |].
  { eapply avail_mono; [|exact Hav]. apply subseteq_size. set_solver. }
  { apply Forall_forall. intros [[virt phys] flags] _. apply Hn. }
  exists m', g', (write_satp_and_flush_tlb hart (Satp_new Sv39 KERNEL_ASID root)).
  split; [by apply page_table_init_all|]. split; [done|].
  split; [eapply map_all_ranges; [by eexists|exact E]|]. split.
  { simpl. rewrite satp_arith by (unfold KERNEL_ASID; lia). unfold KERNEL_ASID. simpl. Z.div_mod_to_equations. lia. }
  assert (Hall : forall v, sv39 m' root v = mapped_to l v) by (intros v; rewrite Ht, Hn; by destruct (mapped_to l v)).
  split; [done|]. intros f o (Hfp & r & Hri & Hh1 & Hh2) Hoo. rewrite Hall.
  destruct (chain_in _ _ _ _ Hc Hri) as (? & ? & ?).
  assert (Hin : (f, f, RW) ∈ l).
  { unfold l, kernel_mappings. apply elem_of_app. right. apply elem_of_app. left. apply list_elem_of_In, in_flat_map.
    exists r. split; [by apply list_elem_of_In|]. apply list_elem_of_In. unfold id_mappings.
    apply list_elem_of_fmap. exists f. split; [done|]. apply step_pages_cover; [|done|lia].
    pose proof (po_arenas _ _ Ho) as Har. rewrite Forall_forall in Har. apply list_elem_of_fmap in Hri as (a & -> & Ha).
    by destruct (ao_pages _ (Har a Ha)). }
  rewrite (mapped_to_in l f f RW (f + o) (pg_distinct _ _ _ _ Hpg) Hin).
  - f_equal. f_equal. Z.div_mod_to_equations. lia.
  - unfold same_page. apply Z.eqb_eq. f_equal. Z.div_mod_to_equations. lia.
Qed.

(** ** Claims *)

(** C20: [init] builds the kernel's address space.  Starting from an empty root
    table, with a frame for every intermediate table, it maps exactly the
    table [kernel_mappings]: the kernel image twice (at its address and in the
    upper half), every frame the allocator may hand out, the FDT read-only, and
    the device regions; no other address translates, and [satp] selects the
    table. *)
Theorem page_table_init_maps layout fdt mmio m arenas hart :
  pfa_ok 0 arenas -> root mod 4096 = 0 -> 0 <= root < 2 ^ 56 -> (forall i, 0 <= i < 512 -> m !! (root + 8 * i) = Some 0) ->
  (forall f, managed (pfa_ranges arenas) f -> taken arenas f = false ->
     f <> root /\ forall i, 0 <= i < 512 -> is_Some (m !! (f + 8 * i))) ->
  paging_ok layout (pfa_ranges arenas) fdt mmio ->
  let l := kernel_mappings layout (pfa_ranges arenas) fdt mmio in
  avail (Some arenas) (size (all_paths l)) ->
  exists m' g' hart', page_table_init layout fdt mmio m (Some arenas) hart = Ret (m', g', hart') /\
    pt_ok root m' g' /\ h_satp hart' mod 2 ^ 44 = root / 4096 /\
    (forall v, sv39 m' root v = mapped_to l v) /\
    (forall f o, managed (pfa_ranges arenas) f -> 0 <= o < 4096 -> sv39 m' root (f + o) = Some (f + o, Z.lor RW 1)).
Proof.
  intros Ho Hr Hrb Hz Hf Hpg. cbv zeta. intros Hav.
  destruct (page_table_init_run layout fdt mmio m arenas hart Ho Hr Hrb Hz Hf Hpg Hav) as (m' & g' & hart' & E & Hpt & _ & Hrest).
  by exists m', g', hart'.
Qed.

(** C40: A process cannot be created.  [new_process] identity-maps the frame it
    just allocated, but [init] has mapped every frame the allocator manages, so
    the assertion in [map] fails. *)
Theorem new_process_panics s m arenas kernel_sp entry :
  pfa_ok 0 arenas -> pt_ok root m (Some arenas) ->
  (forall f, managed (pfa_ranges arenas) f -> is_Some (sv39 m root f)) ->
  new_process s m (Some arenas) kernel_sp entry = Panic.
Proof.
  intros Ho [T HT] Hm. unfold new_process, alloc_or_panic, alloc_frame. cbn [unwrap mbind comp_bind].
  destruct (pfa_alloc_run 0 arenas Ho) as [(p & arenas' & -> & Ho' & Hr & Hmp & Ht & Hq)|[-> _]]; [|done].
  cbn [unwrap mbind comp_bind]. unfold new_identity_map.
  assert (HT' : pt_inv root m (Some arenas') T).
  { destruct HT as [? ? ? ? ? ? ? Hfr]. constructor; try done; [by exists arenas'|].
    intros f (a & [= <-] & Hfm & Hft). apply Hfr. exists arenas. split; [done|]. rewrite <- Hr. split; [done|].
    rewrite Hq in Hft by apply Hfm. by apply orb_false_iff in Hft as [_ ?]. }
  pose proof Hmp as [Hpp (r & Hri & Hh1 & Hh2)]. destruct (chain_in _ _ _ _ (po_chain _ _ Ho) Hri) as (? & ? & ?).
  destruct (map_run root m (Some arenas') T p p (Z.lor READ WRITE) HT') as [Hpanic _]; [lia|by vm_compute|by vm_compute|].
  by rewrite Hpanic by (by apply Hm).
Qed.

(** One process runs, and its index is the current one. *)
Definition sched_ok (s : Scheduler) : Prop :=
  0 <= currently_running s < zlen (processes s) /\ zlen (processes s) < 2 ^ 64 /\
  forall i p, processes s !! i = Some p -> running p = bool_decide (Z.of_nat i = currently_running s).

(** One switch. *)
Lemma next_run s frame :
  sched_ok s ->
  let n := zlen (processes s) in
  let c := (currently_running s + 1) mod n in
  exists s', next s frame = Ret (c, s') /\ sched_ok s' /\ currently_running s' = c /\ zlen (processes s') = n /\
    forall i p, processes s !! i = Some p -> exists p', processes s' !! i = Some p' /\ pid p' = pid p /\
      trap_frame p' = if decide (Z.of_nat i = currently_running s) then frame else trap_frame p.
Proof.
  intros (Hc & Hn & Hrun). cbv zeta. unfold next, update_process, index. set (n := zlen (processes s)) in *.
  destruct (lookup_lt_is_Some_2 (processes s) (Z.to_nat (currently_running s))) as [p0 Hp0]; [unfold n, zlen in *; lia|].
  rewrite Hp0. cbn [unwrap mbind comp_bind processes currently_running].
  assert (Hlt : (Z.to_nat (currently_running s) < length (processes s))%nat) by (unfold n, zlen in *; lia).
  rewrite list_lookup_insert_eq by done. cbn [unwrap mbind comp_bind processes currently_running].
  rewrite add_ovf_ok by (unfold max_of; lia). cbn [mbind comp_bind]. rewrite list_insert_insert_eq.
  set (l1 := <[Z.to_nat (currently_running s) := _]> (processes s)).
  assert (Hl1 : zlen l1 = n) by (unfold l1, n, zlen; by rewrite length_insert).
  rewrite Hl1. destruct (Z.eqb_spec n 0); [lia|]. cbn [mbind comp_bind processes currently_running].
  set (c := (currently_running s + 1) mod n). assert (Hcb : 0 <= c < n) by (apply Z.mod_pos_bound; lia).
  assert (Hclt : (Z.to_nat c < length l1)%nat) by (unfold zlen in Hl1; lia).
  destruct (lookup_lt_is_Some_2 l1 (Z.to_nat c) Hclt) as [p1 Hp1]. rewrite Hp1. cbn [unwrap mbind comp_bind processes currently_running].
  rewrite list_lookup_insert_eq by done. cbn [unwrap mbind comp_bind].
  set (l2 := <[Z.to_nat c := _]> l1). assert (Hl2 : zlen l2 = n) by (unfold l2, zlen in *; by rewrite length_insert).
  assert (Hlook1 : forall i p, processes s !! i = Some p -> exists p', l1 !! i = Some p' /\ pid p' = pid p /\ running p' = false /\
            trap_frame p' = if decide (Z.of_nat i = currently_running s) then frame else trap_frame p).
  { intros i p Hp. unfold l1. destruct (decide (Z.of_nat i = currently_running s)) as [E|E].
    - replace i with (Z.to_nat (currently_running s)) in * by lia. rewrite list_lookup_insert_eq by done.
      eexists. split; [done|]. rewrite Hp0 in Hp. by injection Hp as <-.
    - rewrite list_lookup_insert_ne by lia. exists p. split_and!; try done. rewrite (Hrun _ _ Hp). by rewrite bool_decide_false. }
  eexists. split; [reflexivity|]. split; [|split; [done|split; [done|]]].
  - unfold sched_ok. cbn [processes currently_running]. rewrite Hl2. split; [lia|]. split; [lia|]. intros i p Hp. unfold l2 in Hp.
    destruct (decide (Z.of_nat i = c)) as [E|E].
    + replace i with (Z.to_nat c) in * by lia. rewrite list_lookup_insert_eq in Hp by done. injection Hp as <-.
      by rewrite bool_decide_true by lia.
    + rewrite list_lookup_insert_ne in Hp by lia. rewrite bool_decide_false by done.
      destruct (lookup_lt_is_Some_2 (processes s) i) as [q Hq].
      { apply lookup_lt_Some in Hp. unfold l1 in Hp. by rewrite length_insert in Hp. }
      destruct (Hlook1 i q Hq) as (p' & Hp' & _ & Hr & _). rewrite Hp' in Hp. by injection Hp as <-.
  - intros i p Hp. destruct (Hlook1 i p Hp) as (p' & Hp' & Hid & _ & Htf). cbn [processes]. unfold l2.
    destruct (decide (Z.to_nat c = i)) as [<-|E].
    + rewrite list_lookup_insert_eq by done. rewrite Hp' in Hp1. injection Hp1 as <-. eexists. split; [done|]. by split.
    + rewrite list_lookup_insert_ne by done. by exists p'.
Qed.
(** Any number of switches; the frames are the contexts that are interrupted. *)
Fixpoint switches (s : Scheduler) (frames : list TrapFrame) : comp Scheduler :=
  match frames with
  | [] => Ret s
  | frame :: frames => '(_, s) ← next s frame; switches s frames
  end.

Lemma switches_run frames : forall s,
  sched_ok s ->
  let n := zlen (processes s) in
  exists s', switches s frames = Ret s' /\ sched_ok s' /\ zlen (processes s') = n /\
    currently_running s' = (currently_running s + zlen frames) mod n /\
    forall i p, processes s !! i = Some p -> zlen frames <= (Z.of_nat i - currently_running s) mod n ->
      exists p', processes s' !! i = Some p' /\ pid p' = pid p /\ trap_frame p' = trap_frame p.
Proof.
  induction frames as [|frame frames IH]; intros s Hs n; pose proof Hs as (Hc & _ & _); fold n in Hc.
  - exists s. split_and!; try done; [by rewrite Z.add_0_r, Z.mod_small by done|eauto].
  - destruct (next_run s frame Hs) as (s1 & E & Hs1 & Hc1 & Hn1 & Hp1). fold n in E, Hc1, Hn1.
    destruct (IH s1 Hs1) as (s2 & E2 & Hs2 & Hn2 & Hc2 & Hp2). rewrite Hn1 in *. exists s2.
    cbn [switches]. rewrite E. cbn [mbind comp_bind]. split_and!; try done.
    + rewrite Hc2, Hc1, Z.add_mod_idemp_l by lia. f_equal. unfold zlen. simpl length. lia.
    + intros i p Hp Hle. assert (Hlen : zlen (frame :: frames) = zlen frames + 1) by (unfold zlen; simpl length; lia).
      rewrite Hlen in Hle. assert (0 <= zlen frames) by (unfold zlen; lia).
      destruct (Hp1 i p Hp) as (p1 & Hq & Hid & Hf). rewrite decide_False in Hf.
      2:{ intros Ei. rewrite Ei, Z.sub_diag, Z.mod_0_l in Hle by lia. lia. }
      destruct (Hp2 i p1 Hq) as (p2 & Hq2 & Hid2 & Hf2); [|exists p2; split_and!; congruence].
      rewrite Hc1, Zminus_mod_idemp_r. replace (Z.of_nat i - (currently_running s + 1)) with
        ((Z.of_nat i - currently_running s) - 1) by lia. rewrite <- Zminus_mod_idemp_l, (Z.mod_small (_ - 1)); [lia|].
      pose proof (Z.mod_pos_bound (Z.of_nat i - currently_running s) n). lia.
Qed.
End Paging.
End Kernel.

(** The scheduler is a round robin: [next] saves the interrupted context in
    the current process, and runs the process behind it, the first after the
    last, from the context that process was interrupted with. *)
Theorem next_is_round_robin s frame :
  sched_ok s ->
  let n := zlen (processes s) in
  let c := (currently_running s + 1) mod n in
  exists s', next s frame = Ret (c, s') /\ sched_ok s' /\ currently_running s' = c /\ zlen (processes s') = n /\
    forall i p, processes s !! i = Some p -> exists p', processes s' !! i = Some p' /\ pid p' = pid p /\
      trap_frame p' = if decide (Z.of_nat i = currently_running s) then frame else trap_frame p.
Proof. apply next_run. Qed.

(** C24: Every process gets its turn.  Whatever is interrupted meanwhile, after
    fewer switches than there are processes any given process runs, from the
    context it had when it was last saved. *)
Theorem every_process_gets_its_turn s i p :
  sched_ok s -> processes s !! i = Some p ->
  exists k, (k < length (processes s))%nat /\ forall frames, length frames = k ->
    exists s' p', switches s frames = Ret s' /\ sched_ok s' /\ currently_running s' = Z.of_nat i /\
      processes s' !! i = Some p' /\ running p' = true /\ pid p' = pid p /\ trap_frame p' = trap_frame p.
Proof.
  intros Hs Hp. pose proof Hs as (Hc & _ & _). set (n := zlen (processes s)) in *.
  pose proof (lookup_lt_Some _ _ _ Hp) as Hi.
  pose proof (Z.mod_pos_bound (Z.of_nat i - currently_running s) n ltac:(lia)) as Hb.
  exists (Z.to_nat ((Z.of_nat i - currently_running s) mod n)). split; [unfold n, zlen in *; lia|]. intros frames Hlen.
  assert (Hz : zlen frames = (Z.of_nat i - currently_running s) mod n) by (unfold zlen; lia).
  destruct (switches_run frames s Hs) as (s' & E & Hs' & Hn' & Hc' & Hf). fold n in Hn', Hc', Hf.
  destruct (Hf i p Hp) as (p' & Hp' & Hid & Htf); [lia|]. exists s', p'.
  assert (Hcur : currently_running s' = Z.of_nat i).
  { rewrite Hc', Hz, Z.add_mod_idemp_r by lia. replace (_ + _) with (Z.of_nat i) by lia. apply Z.mod_small. unfold n, zlen. lia. }
  split_and!; try done. destruct Hs' as (_ & _ & Hrun). rewrite (Hrun _ _ Hp'), Hcur. by apply bool_decide_true.
Qed.

(** ** Witnesses

    64 KiB of RAM at 0x80000000: the root table at its start, the kernel in the
    two pages behind it, the FDT in the last page, eleven frames between. *)
Definition ram : gmap Z Z := zero_mem (Z.to_nat 8192) 0x80000000.
Definition k_arenas : list (FrameArena Bitmap) := [mkArena (mkPhysRange 0x80004000 0x8000F000) (bitmap_new 11)].
Definition k_layout : KernelLayout := mkKernelLayout 0x80001000 0x80003000 0 0 0.
Definition k_fdt : PhysRange := mkPhysRange 0x8000F000 0x8000F800.
Definition k_mmio : list PhysRange := [mkPhysRange 0x10000000 0x10001000].

Lemma k_arenas_ok : pfa_ok 0 k_arenas.
Proof.
  destruct (FrameArena_new_spec (P := Bitmap) (mkPhysRange 0x80004000 0x8000F000)) as (a & E & Ha & _); [by constructor|done|].
  injection E as <-. constructor; [constructor; [exact Ha|constructor]|]. vm_compute. by split_and!.
Qed.

Lemma k_managed f : managed (pfa_ranges k_arenas) f -> f mod 4096 = 0 /\ 0x80004000 <= f < 0x8000F000.
Proof.
  intros (Hf & r & Hr & H1 & H2). apply list_elem_of_singleton in Hr as ->. unfold holds_page in *. simpl in *. lia.
Qed.

Lemma ram_lookup a : a mod 8 = 0 -> 0x80000000 <= a < 0x80010000 -> ram !! a = Some 0.
Proof.
  intros Ha Hr. unfold ram. replace a with (0x80000000 + 8 * ((a - 0x80000000) / 8)) by (Z.div_mod_to_equations; lia).
  apply zero_mem_lookup. Z.div_mod_to_equations. lia.
Qed.

Lemma k_paging_ok : paging_ok k_layout (pfa_ranges k_arenas) k_fdt k_mmio.
Proof.
  constructor; [by vm_compute|by split; [constructor|]|by repeat constructor|].
  apply (bool_decide_unpack _). by vm_compute.
Qed.

Lemma k_avail : avail (Some k_arenas) (size (all_paths (kernel_mappings k_layout (pfa_ranges k_arenas) k_fdt k_mmio))).
Proof.
  replace (size _) with 6%nat by (vm_compute; reflexivity).
  cbn [avail fs_alloc frames_source].
  eexists _, _. split; [vm_compute; reflexivity|].
  eexists _, _. split; [vm_compute; reflexivity|].
  eexists _, _. split; [vm_compute; reflexivity|].
  eexists _, _. split; [vm_compute; reflexivity|].
  eexists _, _. split; [vm_compute; reflexivity|].
  eexists _, _. split; [vm_compute; reflexivity|].
  exact I.
Qed.

Lemma k_root_zero i : 0 <= i < 512 -> ram !! (0x80000000 + 8 * i) = Some 0.
Proof. intros Hi. apply ram_lookup; [Z.div_mod_to_equations; lia|lia]. Qed.

Lemma k_frames_mapped f : managed (pfa_ranges k_arenas) f -> taken k_arenas f = false ->
  f <> 0x80000000 /\ forall i, 0 <= i < 512 -> is_Some (ram !! (f + 8 * i)).
Proof.
  intros Hf%k_managed _. split; [lia|]. intros i Hi. rewrite ram_lookup; [by eexists|Z.div_mod_to_equations; lia|].
  Z.div_mod_to_equations. lia.
Qed.

Lemma page_table_init_maps_witness :
  exists m g hart', page_table_init 0x80000000 k_layout k_fdt k_mmio ram (Some k_arenas) sample_hart = Ret (m, g, hart') /\
    sv39 m 0x80000000 0xFFFFFFFF80002010 = Some (0x80002010, 15) /\ sv39 m 0x80000000 0x80008004 = Some (0x80008004, 7).
Proof.
  destruct (page_table_init_maps 0x80000000 k_layout k_fdt k_mmio ram k_arenas sample_hart k_arenas_ok eq_refl ltac:(lia)
              k_root_zero k_frames_mapped k_paging_ok k_avail) as (m & g & hart' & E & _ & _ & Ht & Hf).
  exists m, g, hart'. split; [exact E|]. split; [rewrite Ht; vm_compute; reflexivity|]. rewrite Ht. vm_compute. reflexivity.
Defined.

Definition idle : Process := mkProcess 0 TrapFrame_zero true.
Definition k_sched : Scheduler := mkScheduler [idle; mkProcess 1 TrapFrame_zero false] 0.

Lemma new_process_panics_witness :
  exists m arenas, new_process 0x80000000 k_sched m (Some arenas) 0 0x80001000 = Panic.
Proof.
  destruct (page_table_init_run 0x80000000 k_layout k_fdt k_mmio ram k_arenas sample_hart k_arenas_ok eq_refl ltac:(lia)
              k_root_zero k_frames_mapped k_paging_ok k_avail) as (m & g & hart' & _ & Hpt & (arenas & -> & Hr) & _ & _ & Hf).
  exists m, arenas. apply (new_process_panics 0x80000000 k_sched m arenas).
  - destruct Hpt as [T HT]. destruct (ti_source _ _ _ _ HT) as (a & E & Ho). injection E as <-. exact Ho.
  - exact Hpt.
  - intros f Hfm. rewrite Hr in Hfm. replace f with (f + 0) by lia. rewrite (Hf f 0 Hfm) by lia. by eexists.
Defined.

Lemma k_sched_ok : sched_ok k_sched.
Proof.
  split; [by vm_compute|]. split; [by vm_compute|]. intros i p Hp.
  destruct i as [|[|i]]; simpl in Hp; [by injection Hp as <-|by injection Hp as <-|done].
Qed.

Lemma next_is_round_robin_witness : exists s', next k_sched (mkTrapFrame 1 off 2) = Ret (1, s') /\ sched_ok s'.
Proof.
  destruct (next_is_round_robin k_sched (mkTrapFrame 1 off 2) k_sched_ok) as (s' & E & Hok & _).
  exists s'. split; [exact E|exact Hok].
Defined.

Lemma every_process_gets_its_turn_witness :
  sched_ok k_sched /\ exists k, (k < 2)%nat /\ forall frames, length frames = k ->
    exists s' p', switches k_sched frames = Ret s' /\ currently_running s' = 1 /\ processes s' !! 1%nat = Some p'.
Proof.
  split; [exact k_sched_ok|].
  destruct (every_process_gets_its_turn k_sched 1 (mkProcess 1 TrapFrame_zero false) k_sched_ok eq_refl) as (k & Hk & Hf).
  exists k. split; [exact Hk|]. intros frames Hl. destruct (Hf frames Hl) as (s' & p' & E & _ & Hc & Hp & _).
  exists s', p'. split; [exact E|]. split; [exact Hc|exact Hp].
Defined.
