(* ===== verification/DeviceTree.v ===== *)
(** * The device tree ([src/src/device_tree.rs])

    What the kernel reads from the flattened device tree the firmware hands it:
    RAM, reservations, device windows, the processor and the block device.  The
    parser is the third-party [fdt] crate, which the class [FdtCrate] stands
    for; its tree is a value and the volatile read of a VirtIO device's identity
    a function of the address.  [SYSINFO], a [spin::Once], is an option that
    the functions pass along.  What [init] logs is in [BootLog]. *)
From S2P Require Import Prelude DirEntry PhysRange.

(** ** The [fdt] crate *)
Record MemoryRegion := mkRegion { starting_address : Z; region_size : option Z }.
Record NodeProperty := mkProperty { np_name : list Z; np_value : list Z }.

Class FdtCrate (Fdt FdtNode Cpu : Type) := {
  from_ptr : Z -> option Fdt;
  total_size : Fdt -> Z;
  all_nodes : Fdt -> list FdtNode;
  memory_reservations : Fdt -> list (Z * Z);
  find_node : Fdt -> list Z -> option FdtNode;
  fdt_cpus : Fdt -> list Cpu;
  children : FdtNode -> list FdtNode;
  property : FdtNode -> list Z -> option NodeProperty;
  as_str : NodeProperty -> option (list Z);
  compatible : FdtNode -> option (list (list Z));
  reg : FdtNode -> option (list MemoryRegion);
  cpu_properties : Cpu -> list NodeProperty;
  timebase_frequency : Cpu -> comp Z;
}.

(** Addresses and sizes are [usize] values. *)
Record region_typed (r : MemoryRegion) : Prop := {
  rt_start : is_usize (starting_address r);
  rt_size : forall size, region_size r = Some size -> is_usize size;
}.
Class FdtCrateTypes {Fdt FdtNode Cpu : Type} `(FdtCrate Fdt FdtNode Cpu) := {
  total_size_typed fdt : is_usize (total_size fdt);
  reservations_typed fdt a s : (a, s) ∈ memory_reservations fdt -> is_usize a /\ is_usize s;
  reg_typed node regions r : reg node = Some regions -> r ∈ regions -> region_typed r;
}.

(** ** Definitions *)
Inductive DeviceTreeError :=
| InvalidFdt | DtAddressOverflow | DtEmptyRange | MissingMemoryReg | MissingRegionSize | NoMemoryRegions
| MalformedReservedMemory | DynamicReservedMemoryUnsupported | MissingMmioReg | NoMmioRegions | MissingCpu
| MissingCpuIsa | InvalidCpuIsa | MissingBlockDevice | AlreadyInitialized.

(** [impl From<PhysRangeError>], which [?] applies. *)
Definition dt_error (error : PhysRangeError) : DeviceTreeError :=
  match error with AddressOverflow => DtAddressOverflow | EmptyRange => DtEmptyRange end.
Definition dt_range {A} (r : result PhysRangeError A) : result DeviceTreeError A :=
  match r with Ok a => Ok a | Err e => Err (dt_error e) end.

Record SystemInfo := mkSystemInfo {
  si_timer_frequency : Z;
  si_cpus : Z;
  si_cpu_isa : list Z;
  si_memory_regions : list PhysRange;
  si_reserved_memory_regions : list PhysRange;
  si_mmio_regions : list PhysRange;
  si_fdt_range : PhysRange;
  si_total_memory : Z;
  si_block_device_addr : Z;
}.

(** [str::split_once(c)]. *)
Fixpoint split_once (c : Z) (s : list Z) : option (list Z * list Z) :=
  match s with
  | [] => None
  | b :: s =>
      if b =? c then Some ([], s)
      else match split_once c s with Some (p, q) => Some (b :: p, q) | None => None end
  end.

(** A [for] loop whose body may leave the function with [?]. *)
Fixpoint for_each {E A S : Type} (body : A -> S -> result E S) (l : list A) (s : S) : result E S :=
  match l with
  | [] => Ok s
  | a :: l => s ← body a s; for_each body l s
  end.

Section DeviceTree.
Context {Fdt FdtNode Cpu : Type} `{Crate : FdtCrate Fdt FdtNode Cpu}.
(** The volatile 32-bit read of a device register. *)
Context (read_volatile : Z -> Z).

Definition property_str (node : FdtNode) (name : list Z) : option (list Z) := property node name ≫= as_str.

Definition node_is_enabled (node : FdtNode) : bool :=
  match property_str node (str "status") with
  | None => true
  | Some s => bool_decide (s = str "okay") || bool_decide (s = str "ok")
  end.

Definition node_has_compatible (expected : list Z) (node : FdtNode) : bool :=
  match compatible node with
  | None => false
  | Some all => existsb (fun value => bool_decide (value = expected)) all
  end.

Definition node_is_kernel_mmio_device (node : FdtNode) : bool :=
  node_has_compatible (str "ns16550a") node || node_has_compatible (str "virtio,mmio") node.

(** The inner loops over [node.reg()]; [finish] is what is done with a range
    before it is pushed. *)
Definition push_region (finish : PhysRange -> result PhysRangeError PhysRange) (region : MemoryRegion)
    (ranges : list PhysRange) : result DeviceTreeError (list PhysRange) :=
  size ← ok_or (region_size region) MissingRegionSize;
  range ← dt_range (from_start_size (starting_address region) size);
  range ← dt_range (finish range);
  Ok (ranges ++ [range]).

Definition is_memory (node : FdtNode) : bool :=
  bool_decide (property_str node (str "device_type") = Some (str "memory")).

Definition collect_memory_regions (fdt : Fdt) : result DeviceTreeError (list PhysRange) :=
  ranges ← for_each (fun node ranges =>
      if is_memory node then
        regions ← ok_or (reg node) MissingMemoryReg;
        for_each (push_region Ok) regions ranges
      else Ok ranges) (List.filter node_is_enabled (all_nodes fdt)) [];
  if bool_decide (ranges = []) then Err NoMemoryRegions else Ok (normalize_ranges ranges).

Definition push_child (child : FdtNode) (ranges : list PhysRange) : result DeviceTreeError (list PhysRange) :=
  match reg child with
  | Some regions => for_each (push_region Ok) regions ranges
  | None =>
      match property child (str "size") with
      | Some _ => Err DynamicReservedMemoryUnsupported
      | None => Err MalformedReservedMemory
      end
  end.

Definition collect_reserved_memory_regions (fdt : Fdt) : result DeviceTreeError (list PhysRange) :=
  ranges ← for_each (fun '(address, size) ranges =>
      range ← dt_range (from_start_size address size);
      Ok (ranges ++ [range])) (memory_reservations fdt) [];
  ranges ← match find_node fdt (str "/reserved-memory") with
           | Some parent =>
               if node_is_enabled parent
               then for_each push_child (List.filter node_is_enabled (children parent)) ranges
               else Ok ranges
           | None => Ok ranges
           end;
  Ok (normalize_ranges ranges).

Definition collect_mmio_regions (fdt : Fdt) : result DeviceTreeError (list PhysRange) :=
  ranges ← for_each (fun node ranges =>
      regions ← ok_or (reg node) MissingMmioReg;
      for_each (push_region covering_pages) regions ranges)
    (List.filter node_is_kernel_mmio_device (List.filter node_is_enabled (all_nodes fdt))) [];
  if bool_decide (ranges = []) then Err NoMmioRegions else Ok (normalize_ranges ranges).

(** The [try_fold] of [total_memory]. *)
Fixpoint sum_regions (regions : list PhysRange) (total : Z) : comp (result DeviceTreeError Z) :=
  match regions with
  | [] => Ret (Ok total)
  | range :: regions =>
      size ← pr_size range;
      match checked_add total size with
      | Some total => sum_regions regions total
      | None => Ret (Err DtAddressOverflow)
      end
  end.

(** The address of a VirtIO transport: [reg.next()] of a compatible node. *)
Definition virtio_address (node : FdtNode) : option Z :=
  if node_has_compatible (str "virtio,mmio") node
  then match reg node with
       | Some (region :: _) => Some (starting_address region)
       | _ => None
       end
  else None.

(** The loop that looks for the block device: the last one that answers 2. *)
Fixpoint probe_block_device (nodes : list FdtNode) (found : option Z) : comp (option Z) :=
  match nodes with
  | [] => Ret found
  | node :: nodes =>
      match virtio_address node with
      | Some addr =>
          id_addr ← addr +! 0x008;
          probe_block_device nodes (if read_volatile id_addr =? 2 then Some addr else found)
      | None => probe_block_device nodes found
      end
  end.

(** The [riscv,isa] property up to the first underscore. *)
Definition base_isa (cpu : Cpu) : result DeviceTreeError (list Z) :=
  isa ← ok_or (List.find (fun p => bool_decide (np_name p = str "riscv,isa")) (cpu_properties cpu)) MissingCpuIsa;
  isa ← ok_or (from_utf8 (np_value isa)) InvalidCpuIsa;
  '(base_isa, _) ← ok_or (split_once 95 isa) InvalidCpuIsa;
  Ok base_isa.

Definition SystemInfo_new (fdt_addr : Z) : comp (result DeviceTreeError SystemInfo) :=
  let? fdt := Ret (ok_or (from_ptr fdt_addr) InvalidFdt) in
  let? memory_regions := Ret (collect_memory_regions fdt) in
  let? reserved_memory_regions := Ret (collect_reserved_memory_regions fdt) in
  let? mmio_regions := Ret (collect_mmio_regions fdt) in
  let? fdt_range := Ret (dt_range (from_start_size fdt_addr (total_size fdt))) in
  let? total_memory := sum_regions memory_regions 0 in
  block_device_addr ← probe_block_device (List.filter node_is_enabled (all_nodes fdt)) None;
  let? cpu := Ret (ok_or (head (fdt_cpus fdt)) MissingCpu) in
  let? base_isa := Ret (base_isa cpu) in
  timer_frequency ← timebase_frequency cpu;
  let? block_device_addr := Ret (ok_or block_device_addr MissingBlockDevice) in
  Ret (Ok (mkSystemInfo timer_frequency (zlen (fdt_cpus fdt)) base_isa memory_regions reserved_memory_regions
             mmio_regions fdt_range total_memory block_device_addr)).

(** [init]; [try_call_once] leaves [SYSINFO] empty when its closure fails. *)
Definition device_tree_init (sysinfo : option SystemInfo) (fdt_addr : Z)
    : comp (result DeviceTreeError unit * option SystemInfo) :=
  match sysinfo with
  | Some _ => Ret (Err AlreadyInitialized, sysinfo)
  | None =>
      r ← SystemInfo_new fdt_addr;
      Ret match r with
          | Ok info => (Ok tt, Some info)
          | Err e => (Err e, None)
          end
  end.

Definition system_info (sysinfo : option SystemInfo) : comp SystemInfo := unwrap sysinfo.
Definition timer_frequency (sysinfo : option SystemInfo) : comp Z := info ← system_info sysinfo; Ret (si_timer_frequency info).
Definition cpus (sysinfo : option SystemInfo) : comp Z := info ← system_info sysinfo; Ret (si_cpus info).
Definition memory_regions (sysinfo : option SystemInfo) : comp (list PhysRange) :=
  info ← system_info sysinfo; Ret (si_memory_regions info).
Definition reserved_memory_regions (sysinfo : option SystemInfo) : comp (list PhysRange) :=
  info ← system_info sysinfo; Ret (si_reserved_memory_regions info).
Definition system_mmio_regions (sysinfo : option SystemInfo) : comp (list PhysRange) :=
  info ← system_info sysinfo; Ret (si_mmio_regions info).
Definition fdt_range (sysinfo : option SystemInfo) : comp PhysRange := info ← system_info sysinfo; Ret (si_fdt_range info).
Definition total_memory (sysinfo : option SystemInfo) : comp Z := info ← system_info sysinfo; Ret (si_total_memory info).
Definition cpu_isa (sysinfo : option SystemInfo) : comp (list Z) := info ← system_info sysinfo; Ret (si_cpu_isa info).
Definition block_device_addr (sysinfo : option SystemInfo) : comp Z :=
  info ← system_info sysinfo; Ret (si_block_device_addr info).

Definition mmio_regions (fdt_addr : Z) : result DeviceTreeError (list PhysRange) :=
  fdt ← ok_or (from_ptr fdt_addr) InvalidFdt;
  collect_mmio_regions fdt.

Definition virtio_mmio_devices (fdt_addr : Z) : comp (list Z) :=
  fdt ← unwrap (from_ptr fdt_addr);
  Ret (omap virtio_address (List.filter node_is_enabled (all_nodes fdt))).
End DeviceTree.

(** ** Fallible loops *)

(** [l] is the canonical form of the set [P] of addresses. *)
Definition canonical (l : list PhysRange) (P : Z -> Prop) : Prop :=
  separated (-1) l /\ Forall range_wf l /\ forall z, in_ranges l z <-> P z.

(** [body] pushes ranges that hold the addresses [P a]. *)
Definition pushes {E A : Type} (body : A -> list PhysRange -> result E (list PhysRange)) (P : A -> Z -> Prop) (a : A) : Prop :=
  forall ranges res, body a ranges = Ok res -> Forall range_wf ranges ->
    Forall range_wf res /\ forall z, in_ranges res z <-> in_ranges ranges z \/ P a z.

Ltac inv_result_step :=
  match goal with
  | H : mbind _ _ = Ok _ |- _ => let Hc := fresh "Hc" in apply result_bind_inv in H as (? & Hc & H); simpl in H
  | H : ok_or _ _ = Ok _ |- _ => apply ok_or_inv in H
  | H : Ok _ = Ok _ |- _ => injection H as H; try subst
  | H : Err _ = Ok _ |- _ => discriminate H
  end.
Ltac inv_result := repeat inv_result_step.

Lemma dt_range_inv {A} (r : result PhysRangeError A) a : dt_range r = Ok a -> r = Ok a.
Proof. destruct r; simpl; congruence. Qed.

Lemma for_each_pushes {E A} (body : A -> list PhysRange -> result E (list PhysRange)) (P : A -> Z -> Prop) l :
  (forall a, a ∈ l -> pushes body P a) -> pushes (fun l => for_each body l) (fun l z => exists a, a ∈ l /\ P a z) l.
Proof.
  induction l as [|a l IH]; intros Hb ranges res E1 Hw; simpl in E1.
  - injection E1 as <-. split; [done|]. set_solver.
  - inv_result. destruct (Hb a (list_elem_of_here _ _) _ _ Hc Hw) as [Hw1 Hz1].
    destruct (IH (fun b Hb' => Hb b (list_elem_of_further _ _ _ Hb')) _ _ E1 Hw1) as [Hw2 Hz2].
    split; [done|]. intros z. rewrite Hz2, Hz1. set_solver.
Qed.

Lemma in_ranges_snoc l r z : in_ranges (l ++ [r]) z <-> in_ranges l z \/ has r z.
Proof. rewrite in_ranges_app, in_ranges_cons. pose proof (in_ranges_nil z). tauto. Qed.

(** A page touched by the range [r]. *)
Lemma covering_pages_has r c z :
  range_wf r -> covering_pages r = Ok c -> range_wf c /\ (has c z <-> exists y, has r y /\ y / 4096 = z / 4096).
Proof.
  intros Hr Hc. assert (Hb : 0 <= pr_start c /\ pr_end c < 2 ^ 64).
  { destruct Hr as [H1 H2 H3]. revert Hc. unfold covering_pages. rewrite page_align_up_spec, page_align_down_spec by lia.
    destruct (Z.ltb_spec (pr_end r + 4095) (2 ^ 64)); [|done]. intros [= <-]. simpl. Z.div_mod_to_equations. lia. }
  destruct (covering_pages_spec _ _ Hr Hc) as ([Ha1 Ha2] & Hs & He). destruct Hr as [H1 H2 H3].
  split; [constructor; lia|]. unfold has. split.
  - intros Hz. exists (Z.max (z / 4096 * 4096) (pr_start r)). Z.div_mod_to_equations. lia.
  - intros (y & Hy & E). Z.div_mod_to_equations. lia.
Qed.

(** ** What the tree describes *)
Section Describes.
Context {Fdt FdtNode Cpu : Type} `{Types : FdtCrateTypes Fdt FdtNode Cpu}.

Definition region_has (r : MemoryRegion) (z : Z) : Prop :=
  exists size, region_size r = Some size /\ starting_address r <= z < starting_address r + size.
Definition node_has (node : FdtNode) (z : Z) : Prop :=
  exists regions, reg node = Some regions /\ exists r, r ∈ regions /\ region_has r z.
Definition enabled (fdt : Fdt) (node : FdtNode) : Prop := node ∈ all_nodes fdt /\ node_is_enabled node = true.

Definition ram (fdt : Fdt) (z : Z) : Prop :=
  exists node, enabled fdt node /\ is_memory node = true /\ node_has node z.
Definition firmware_reserved (fdt : Fdt) (z : Z) : Prop :=
  (exists a s, (a, s) ∈ memory_reservations fdt /\ a <= z < a + s) \/
  (exists parent child, find_node fdt (str "/reserved-memory") = Some parent /\ node_is_enabled parent = true /\
     child ∈ children parent /\ node_is_enabled child = true /\ node_has child z).
Definition device_page (fdt : Fdt) (z : Z) : Prop :=
  exists node, enabled fdt node /\ node_is_kernel_mmio_device node = true /\
    exists y, node_has node y /\ y / 4096 = z / 4096.

Definition total_bytes (l : list PhysRange) : Z := foldr (fun r n => pr_end r - pr_start r + n) 0 l.

Lemma enabled_filter fdt node : node ∈ List.filter node_is_enabled (all_nodes fdt) <-> enabled fdt node.
Proof. unfold enabled. by rewrite !list_elem_of_In, filter_In. Qed.

Lemma push_region_pushes (P : PhysRange -> Z -> Prop) finish r :
  (forall c c' z, range_wf c -> finish c = Ok c' -> range_wf c' /\ (has c' z <-> P c z)) -> region_typed r ->
  pushes (push_region finish)
    (fun r z => exists size, region_size r = Some size /\ P (mkPhysRange (starting_address r) (starting_address r + size)) z) r.
Proof.
  intros HP [[Hs1 Hs2] Hsz] ranges res E Hw. unfold push_region in E. inv_result.
  apply dt_range_inv in Hc0, Hc1. destruct (Hsz _ Hc) as [Hz1 Hz2].
  destruct (from_start_size_wf _ _ _ Hs1 Hz1 Hc0) as (Hwf & Es & Ee).
  destruct x0 as [s e]. simpl in Es, Ee. subst s e. destruct (HP _ _ 0 Hwf Hc1) as [Hwf' _].
  split; [apply Forall_app; by split; [|constructor]|]. intros z. rewrite in_ranges_snoc.
  destruct (HP _ _ z Hwf Hc1) as [_ ->]. rewrite Hc. split; [|by intros [?|(? & [= <-] & ?)]; auto].
  intros [?|?]; eauto.
Qed.

Lemma push_regions_pushes (P : PhysRange -> Z -> Prop) finish node regions :
  (forall c c' z, range_wf c -> finish c = Ok c' -> range_wf c' /\ (has c' z <-> P c z)) -> reg node = Some regions ->
  pushes (fun l => for_each (push_region finish) l)
    (fun l z => exists r, r ∈ l /\ exists size, region_size r = Some size /\
       P (mkPhysRange (starting_address r) (starting_address r + size)) z) regions.
Proof.
  intros HP Hreg. apply for_each_pushes. intros r Hr. apply push_region_pushes; [done|]. by eapply reg_typed.
Qed.

Lemma node_pushes (P : PhysRange -> Z -> Prop) (F : Z -> Z -> Prop) finish node regions :
  (forall c c' z, range_wf c -> finish c = Ok c' -> range_wf c' /\ (has c' z <-> exists y, has c y /\ F y z)) ->
  reg node = Some regions ->
  pushes (fun l => for_each (push_region finish) l) (fun _ z => exists y, node_has node y /\ F y z) regions.
Proof.
  intros HP Hreg ranges res E Hw.
  destruct (push_regions_pushes (fun c z => exists y, has c y /\ F y z) _ _ _ HP Hreg _ _ E Hw) as [? Hz].
  split; [done|]. intros z. rewrite Hz. unfold node_has, region_has, has. rewrite Hreg. simpl. naive_solver.
Qed.

Lemma finish_Ok (c c' : PhysRange) z :
  range_wf c -> Ok (E := PhysRangeError) c = Ok c' -> range_wf c' /\ (has c' z <-> exists y, has c y /\ y = z).
Proof. intros ? [= <-]. split; [done|]. naive_solver. Qed.

Lemma finish_pages (c c' : PhysRange) z :
  range_wf c -> covering_pages c = Ok c' -> range_wf c' /\ (has c' z <-> exists y, has c y /\ y / 4096 = z / 4096).
Proof. apply covering_pages_has. Qed.

Lemma collected_canonical ranges (P : Z -> Prop) :
  Forall range_wf ranges -> (forall z, in_ranges ranges z <-> P z) -> canonical (normalize_ranges ranges) P.
Proof.
  intros Hw Hz. destruct (normalize_run _ Hw) as (Hs & Hw' & Hz'). split_and!; [done..|]. intros z. by rewrite Hz'.
Qed.

Lemma collect_memory_run fdt res : collect_memory_regions fdt = Ok res -> canonical res (ram fdt).
Proof.
  unfold collect_memory_regions. intros E. inv_result. case_bool_decide as Hne; [done|]. injection E as <-.
  eapply (for_each_pushes _ (fun node z => is_memory node = true /\ node_has node z)) in Hc as [Hw Hz]; [constructor| |clear -Types].
  - apply collected_canonical; [done|]. intros z. rewrite Hz. setoid_rewrite enabled_filter. unfold ram.
    pose proof (in_ranges_nil z). naive_solver.
  - intros node _ ranges res E Hw. destruct (is_memory node); [|injection E as <-; split; [done|]; naive_solver].
    inv_result. destruct (node_pushes has eq _ _ _ finish_Ok Hc _ _ E Hw) as [? Hz].
    split; [done|]. intros z. rewrite Hz. naive_solver.
Qed.

Lemma push_child_pushes child : pushes push_child node_has child.
Proof.
  intros ranges res E Hw. unfold push_child in E. destruct (reg child) eqn:Hr; [|by destruct (property child _)].
  destruct (node_pushes has eq _ _ _ finish_Ok Hr _ _ E Hw) as [? Hz]. split; [done|]. intros z. rewrite Hz. naive_solver.
Qed.

Lemma reservations_pushes fdt :
  pushes (fun l => for_each (fun '(address, size) ranges =>
      range ← dt_range (from_start_size address size); Ok (ranges ++ [range])) l)
    (fun l z => exists a s, (a, s) ∈ l /\ a <= z < a + s) (memory_reservations fdt).
Proof.
  intros ranges res E Hw.
  eapply (for_each_pushes _ (fun '(a, s) z => a <= z < a + s)) in E as [? Hz]; [done| |clear -Types].
  - split; [done|]. intros z. rewrite Hz. split; (intros [?|Hr]; [by left|right]); [by destruct Hr as ([a s] & ?); eauto|].
    destruct Hr as (a & s & ?). by exists (a, s).
  - intros [a s] Has ranges res E Hw. inv_result. apply dt_range_inv in Hc.
    destruct (reservations_typed _ _ _ Has) as [[Ha _] [Hs _]].
    destruct (from_start_size_wf _ _ _ Ha Hs Hc) as (? & Es & Ee).
    split; [apply Forall_app; by split; [|constructor]|]. intros z. rewrite in_ranges_snoc. unfold has. by rewrite Es, Ee.
Qed.

Lemma collect_reserved_run fdt res :
  collect_reserved_memory_regions fdt = Ok res -> canonical res (firmware_reserved fdt).
Proof.
  unfold collect_reserved_memory_regions. intros E. inv_result.
  destruct (reservations_pushes _ _ _ Hc (List.Forall_nil _)) as [Hw Hz].
  assert (Hx0 : Forall range_wf x0 /\ forall z, in_ranges x0 z <-> in_ranges x z \/
    exists parent child, find_node fdt (str "/reserved-memory") = Some parent /\ node_is_enabled parent = true /\
     child ∈ children parent /\ node_is_enabled child = true /\ node_has child z).
  { destruct (find_node fdt _) as [parent|] eqn:Hp; [destruct (node_is_enabled parent) eqn:He|];
      cycle 1;
      [injection Hc0 as <-; split; [done|]; intros z; split; [by left|intros [?|(p & c & [= <-] & ? & _)]; congruence]..|].
    destruct (for_each_pushes push_child node_has _ (fun a _ => push_child_pushes a) _ _ Hc0 Hw) as [? Hz2].
    split; [done|]. intros z. rewrite Hz2. setoid_rewrite list_elem_of_In. setoid_rewrite filter_In.
    setoid_rewrite <- list_elem_of_In. naive_solver. }
  destruct Hx0 as [? Hz2]. apply collected_canonical; [done|]. intros z. rewrite Hz2, Hz. unfold firmware_reserved.
  pose proof (in_ranges_nil z). tauto.
Qed.

Lemma collect_mmio_run fdt res : collect_mmio_regions fdt = Ok res -> canonical res (device_page fdt).
Proof.
  unfold collect_mmio_regions. intros E. inv_result. case_bool_decide as Hne; [done|]. injection E as <-.
  eapply (for_each_pushes _ (fun node z => exists y, node_has node y /\ y / 4096 = z / 4096)) in Hc as [Hw Hz]; [constructor| |clear -Types].
  - apply collected_canonical; [done|]. intros z. rewrite Hz. unfold device_page.
    setoid_rewrite list_elem_of_In. setoid_rewrite filter_In. setoid_rewrite <- list_elem_of_In.
    setoid_rewrite enabled_filter. pose proof (in_ranges_nil z). naive_solver.
  - intros node _ ranges res E Hw. inv_result. by destruct (node_pushes has _ _ _ _ finish_pages Hc _ _ E Hw).
Qed.

Lemma sum_regions_ok l : forall total res,
  Forall range_wf l -> sum_regions l total = Ret (Ok res) -> res = total + total_bytes l.
Proof.
  induction l as [|r l IH]; intros total res Hw E; simpl in E; [injection E as <-; simpl; lia|].
  apply Forall_cons in Hw as [[] Hw]. unfold pr_size in E. rewrite sub_ovf_ok in E by lia. cbn [mbind comp_bind] in E.
  unfold checked_add in E. destruct (_ <=? _); [|done]. apply IH in E; [|done]. simpl. lia.
Qed.

Context (read_volatile : Z -> Z).

Lemma probe_block_device_found nodes : forall found addr,
  probe_block_device read_volatile nodes found = Ret (Some addr) ->
  found = Some addr \/ exists node, node ∈ nodes /\ virtio_address node = Some addr /\ read_volatile (addr + 8) = 2.
Proof.
  induction nodes as [|node nodes IH]; intros found addr E; simpl in E; [injection E as ->; by left|].
  destruct (virtio_address node) as [a|] eqn:Ha.
  - inv_comp. apply IH in E as [E|(n & ? & ?)]; [|set_solver].
    destruct (Z.eqb_spec (read_volatile (a + 8)) 2); [|by left]. injection E as ->. set_solver.
  - apply IH in E as [?|(n & ? & ?)]; [by left|set_solver].
Qed.

(** What [SystemInfo::new] promises of its result. *)
Record describes (fdt_addr : Z) (fdt : Fdt) (info : SystemInfo) : Prop := {
  ds_memory : canonical (si_memory_regions info) (ram fdt);
  ds_reserved : canonical (si_reserved_memory_regions info) (firmware_reserved fdt);
  ds_mmio : canonical (si_mmio_regions info) (device_page fdt);
  ds_fdt : range_wf (si_fdt_range info) /\ si_fdt_range info = mkPhysRange fdt_addr (fdt_addr + total_size fdt);
  ds_total : si_total_memory info = total_bytes (si_memory_regions info);
  ds_block : exists node, enabled fdt node /\ virtio_address node = Some (si_block_device_addr info) /\
    read_volatile (si_block_device_addr info + 8) = 2;
}.

Lemma system_info_run fdt_addr info :
  is_usize fdt_addr -> SystemInfo_new read_volatile fdt_addr = Ret (Ok info) ->
  exists fdt, from_ptr fdt_addr = Some fdt /\ describes fdt_addr fdt info.
Proof.
  intros [Ha _] E. unfold SystemInfo_new in E.
  destruct (from_ptr fdt_addr) as [fdt|]; simpl in E; [|done]. exists fdt. split; [done|].
  destruct (collect_memory_regions fdt) as [mem|] eqn:Hm; simpl in E; [|done]. apply collect_memory_run in Hm.
  destruct (collect_reserved_memory_regions fdt) as [res|] eqn:Hr; simpl in E; [|done]. apply collect_reserved_run in Hr.
  destruct (collect_mmio_regions fdt) as [mmio|] eqn:Hi; simpl in E; [|done]. apply collect_mmio_run in Hi.
  destruct (dt_range _) as [range|] eqn:Hf; simpl in E; [|done]. apply dt_range_inv in Hf.
  destruct (from_start_size_wf _ _ _ Ha (proj1 (total_size_typed fdt)) Hf) as (Hwf & Hs & He).
  destruct (sum_regions mem 0) as [[total|]| |] eqn:Ht; simpl in E; try done.
  apply sum_regions_ok in Ht; [|apply Hm].
  destruct (probe_block_device _ _ _) as [block| |] eqn:Hb; simpl in E; try done.
  destruct (head (fdt_cpus fdt)) as [cpu|]; simpl in E; [|done].
  destruct (base_isa cpu) as [isa|]; simpl in E; [|done].
  destruct (timebase_frequency cpu) as [freq| |]; simpl in E; try done.
  destruct block as [addr|]; simpl in E; [|done]. injection E as <-.
  apply probe_block_device_found in Hb as [?|(node & Hn & ?)]; [done|].
  constructor; simpl; try done; [|by exists node; split; [apply enabled_filter|]].
  split; [done|]. destruct range. simpl in *. by subst.
Qed.

(** C21: The kernel reads its memory map off the device tree exactly.  When
    [SystemInfo::new] succeeds, its RAM is the addresses of the enabled memory
    nodes, its reservations are the reservation block and the enabled children
    of an enabled [/reserved-memory], and its device windows are the pages the
    kernel's devices touch, each as sorted ranges with gaps between them; the
    totals add up, and the block device is an enabled VirtIO transport that
    answers with the identity of a block device. *)
Theorem system_info_describes_tree fdt_addr info :
  is_usize fdt_addr -> SystemInfo_new read_volatile fdt_addr = Ret (Ok info) ->
  exists fdt, from_ptr fdt_addr = Some fdt /\ describes fdt_addr fdt info.
Proof. apply system_info_run. Qed.

(** Initialisation happens once.  Once [SYSINFO] holds a value, every later
    [init] reports [AlreadyInitialized] and changes nothing; an attempt that
    fails leaves it empty, so that a later attempt may succeed; and the
    accessors panic until one has. *)
Theorem init_once sysinfo fdt_addr r sysinfo' :
  device_tree_init read_volatile sysinfo fdt_addr = Ret (r, sysinfo') ->
  match sysinfo with
  | Some _ => r = Err AlreadyInitialized /\ sysinfo' = sysinfo
  | None =>
      match r with
      | Ok _ => exists info, sysinfo' = Some info /\ SystemInfo_new read_volatile fdt_addr = Ret (Ok info) /\
                  memory_regions sysinfo' = Ret (si_memory_regions info)
      | Err e => sysinfo' = None /\ SystemInfo_new read_volatile fdt_addr = Ret (Err e) /\ memory_regions sysinfo' = Panic
      end
  end.
Proof.
  unfold device_tree_init. destruct sysinfo; [by intros [= <- <-]|].
  destruct (SystemInfo_new _ _) as [[info|e]| |]; simpl; intros [= <- <-]; eauto.
Qed.
End Describes.

(** ** Witnesses: a small machine with one memory node, a UART and a disk *)
Section Sample.
Record SampleNode := mkNode {
  sn_props : list NodeProperty;
  sn_compatible : option (list (list Z));
  sn_reg : option (list MemoryRegion);
}.
Record SampleFdt := mkFdt { sf_nodes : list SampleNode; sf_reserved : list SampleNode }.

Definition sample_nodes : list SampleNode := [
  mkNode [mkProperty (str "device_type") (str "memory")] None (Some [mkRegion 0x80000000 (Some 0x8000000)]);
  mkNode [mkProperty (str "status") (str "okay")] (Some [str "ns16550a"]) (Some [mkRegion 0x10000000 (Some 0x100)]);
  mkNode [] (Some [str "virtio,mmio"]) (Some [mkRegion 0x10008000 (Some 0x1000)]);
  mkNode [mkProperty (str "status") (str "disabled")] (Some [str "virtio,mmio"]) None].
Definition sample_reserved_nodes : list SampleNode := [mkNode [] None (Some [mkRegion 0x80000000 (Some 0x40000)])].
Definition sample_tree : SampleFdt := mkFdt sample_nodes sample_reserved_nodes.

(** A crate that finds [tree], of [size] bytes, at [addr]. *)
Definition sample_crate (addr size : Z) (tree : SampleFdt) : FdtCrate SampleFdt SampleNode unit := {|
  from_ptr a := if a =? addr then Some tree else None;
  total_size _ := size mod 2 ^ 64;
  all_nodes := sf_nodes;
  memory_reservations _ := [];
  find_node fdt name := if bool_decide (name = str "/reserved-memory") then Some (mkNode [] None None) else None;
  fdt_cpus _ := [tt];
  children _ := sf_reserved tree;
  property node name := List.find (fun p => bool_decide (np_name p = name)) (sn_props node);
  as_str p := from_utf8 (np_value p);
  compatible := sn_compatible;
  reg node := if forallb (fun r => bool_decide (is_usize (starting_address r)) &&
                from_option (fun s => bool_decide (is_usize s)) true (region_size r)) (default [] (sn_reg node))
              then sn_reg node else None;
  cpu_properties _ := [mkProperty (str "riscv,isa") (str "rv64imafdch_zicbom")];
  timebase_frequency _ := Ret 10000000;
|}.

Lemma sample_crate_types addr size tree : FdtCrateTypes (sample_crate addr size tree).
Proof.
  constructor.
  - intros fdt. simpl. apply Z.mod_pos_bound. lia.
  - intros fdt a s H. by apply elem_of_nil in H.
  - intros node regions r Hreg Hr. unfold reg, sample_crate in Hreg.
    destruct (forallb _ _) eqn:Hall; [|done]. rewrite Hreg in Hall. simpl in Hall. rewrite forallb_forall in Hall.
    apply list_elem_of_In in Hr. specialize (Hall r Hr). apply andb_true_iff in Hall as [Hs Hz].
    constructor; [by apply bool_decide_eq_true in Hs|]. intros s E. rewrite E in Hz. by apply bool_decide_eq_true in Hz.
Qed.

#[local] Instance virt_crate : FdtCrate SampleFdt SampleNode unit := sample_crate 0x87e00000 0x2000 sample_tree.
#[local] Instance virt_crate_types : FdtCrateTypes virt_crate := sample_crate_types _ _ _.

(** The disk at 0x10008000 answers 2. *)
Definition sample_device (a : Z) : Z := if a =? 0x10008008 then 2 else 0.
Definition sample_info : SystemInfo :=
  mkSystemInfo 10000000 1 (str "rv64imafdch") [mkPhysRange 0x80000000 0x88000000] [mkPhysRange 0x80000000 0x80040000]
    [mkPhysRange 0x10000000 0x10001000; mkPhysRange 0x10008000 0x10009000] (mkPhysRange 0x87e00000 0x87e02000)
    0x8000000 0x10008000.

Lemma sample_info_runs : SystemInfo_new sample_device 0x87e00000 = Ret (Ok sample_info).
Proof. vm_compute. reflexivity. Qed.

Lemma system_info_describes_tree_witness :
  is_usize 0x87e00000 /\ SystemInfo_new sample_device 0x87e00000 = Ret (Ok sample_info) /\
  exists fdt, from_ptr 0x87e00000 = Some fdt /\ describes sample_device 0x87e00000 fdt sample_info.
Proof.
  split; [by vm_compute|]. split; [exact sample_info_runs|].
  apply system_info_describes_tree; [by vm_compute|exact sample_info_runs].
Defined.

Lemma init_once_witness :
  device_tree_init sample_device (Some sample_info) 0 = Ret (Err AlreadyInitialized, Some sample_info) /\
  device_tree_init sample_device None 0 = Ret (Err InvalidFdt, None) /\
  memory_regions None = Panic.
Proof.
  split; [reflexivity|]. split; [reflexivity|].
  exact (proj2 (proj2 (init_once sample_device None 0 (Err InvalidFdt) None eq_refl))).
Defined.
End Sample.
