(* ===== verification/Klog.v ===== *)
(** * The kernel log ([src/src/klog.rs], the console of [src/src/virtio2.rs])

    Log lines are formatted into a fixed-capacity string and sent to the VirtIO
    console, or kept in a fixed buffer until that console exists.  The
    [virtio_drivers] crate is third-party: a transport, a console and what it
    does with bytes are parameters.  The text of [record.args()] is the list of
    the pieces the formatting machinery writes. *)
From S2P Require Import Prelude DirEntry.

(** ** [EarlyBuffer] *)
Record EarlyBuffer := mkEarlyBuffer { eb_buf : list Z; eb_len : Z }.

Definition EarlyBuffer_new : EarlyBuffer := mkEarlyBuffer (replicate 2048 0) 0.

Definition early_append (b : EarlyBuffer) (bytes : list Z) : comp EarlyBuffer :=
  let len := zlen bytes in
  e ← eb_len b +! len;
  if 2048 <? e then Ret b
  else
    buf ← copy_to_slice (eb_buf b) (eb_len b) e bytes;
    l ← eb_len b +! len;
    Ret (mkEarlyBuffer buf l).

Definition early_as_bytes (b : EarlyBuffer) : comp (list Z) := slice (eb_buf b) 0 (eb_len b).

(** ** [StackString] *)
Record StackString := mkStackString { ss_buf : list Z; ss_len : Z }.

Definition StackString_new (n : nat) : StackString := mkStackString (replicate n 0) 0.
Definition ss_as_bytes (s : StackString) : comp (list Z) := slice (ss_buf s) 0 (ss_len s).

Definition write_str (s : StackString) (bytes : list Z) : comp StackString :=
  remaining ← zlen (ss_buf s) -! ss_len s;
  let to_copy := Z.min (zlen bytes) remaining in
  chunk ← slice bytes 0 to_copy;
  e ← ss_len s +! to_copy;
  buf ← copy_to_slice (ss_buf s) (ss_len s) e chunk;
  l ← ss_len s +! to_copy;
  Ret (mkStackString buf l).

(** [write!]: the pieces of the formatted text, one [write_str] each. *)
Fixpoint write_pieces (s : StackString) (pieces : list (list Z)) : comp StackString :=
  match pieces with
  | [] => Ret s
  | p :: pieces => s ← write_str s p; write_pieces s pieces
  end.

(** ** Labels *)

(** [str::trim_start_matches(p)]: removes [p] as often as it is a prefix. *)
Fixpoint trim_start_matches (fuel : nat) (s p : list Z) : list Z :=
  match fuel with
  | O => s
  | S fuel => if starts_with s p then trim_start_matches fuel (drop (length p) s) p else s
  end.

Definition starts (target : list Z) (p : String.string) : bool := starts_with target (str p).
Arguments starts target p%_string.

Definition module_prefix (target : list Z) : list Z :=
  if starts target "lemon_shark::filesystem" || starts target "filesystem" then str "fs"
  else if starts target "lemon_shark::allocator" || starts target "allocator" then str "alloc"
  else if starts target "lemon_shark::virtio" || starts target "virtio_drivers" then str "virtio"
  else if starts target "lemon_shark::trap_handler" then str "trap"
  else if starts target "lemon_shark::interrupts" then str "irq"
  else if starts target "lemon_shark::device_tree" then str "dtb"
  else if starts target "lemon_shark::shell" then str "shell"
  else if starts target "lemon_shark::timer" then str "timer"
  else if starts target "lemon_shark::klog" then str "klog"
  else if starts target "lemon_shark::page_frame_allocator" then str "pfa"
  else trim_start_matches (length target) target (str "lemon_shark::").

(** ** Records and lines *)
Inductive LogLevel := LError | LWarn | LInfo | LDebug | LTrace.
Definition level_name (l : LogLevel) : list Z :=
  match l with
  | LError => str "ERROR" | LWarn => str "WARN" | LInfo => str "INFO" | LDebug => str "DEBUG" | LTrace => str "TRACE"
  end.

Record LogRecord := mkRecord { lr_target : list Z; lr_level : LogLevel; lr_args : list (list Z) }.

(** [{:<w}] counts characters: the bytes that are not continuation bytes. *)
Definition char_count (s : list Z) : nat := length (List.filter (fun b => negb (utf8_cont b)) s).
Definition pad_chars (w : nat) (s : list Z) : list Z := s ++ replicate (w - char_count s) 32.

Definition ESC : Z := 27.
Definition log_pieces (record : LogRecord) : list (list Z) :=
  let label := module_prefix (lr_target record) in
  let '(pre, post) :=
    match lr_level record with
    | LError => (ESC :: str "[31m", ESC :: str "[0m")
    | LWarn => (ESC :: str "[33m", ESC :: str "[0m")
    | _ => ([], [])
    end in
  [pre; str "["; pad_chars 5 (level_name (lr_level record)); str " "; pad_chars 8 label; str "] "] ++
  lr_args record ++ [post; [10]].

(** ** The logger and the console *)
Section Klog.
Context {Transport Console : Type}.
(** [MmioTransport::new] at an address, its device type, [VirtIOConsole::new]
    and [send_bytes], whose error is ignored. *)
Context (mmio_transport : Z -> option Transport) (is_console : Transport -> bool)
        (VirtIOConsole_new : Transport -> option Console) (send_bytes : Console -> list Z -> Console).

Record Klog := mkKlog { kl_early : EarlyBuffer; kl_console : option Console }.
Definition klog_start : Klog := mkKlog EarlyBuffer_new None.

Definition console_write (k : Klog) (bytes : list Z) : bool * Klog :=
  match kl_console k with
  | Some console => (true, mkKlog (kl_early k) (Some (send_bytes console bytes)))
  | None => (false, k)
  end.

Definition flush_early_buffer (k : Klog) : comp Klog :=
  bytes ← early_as_bytes (kl_early k);
  Ret (snd (console_write k bytes)).

Definition log (k : Klog) (record : LogRecord) : comp Klog :=
  buf ← write_pieces (StackString_new 512) (log_pieces record);
  bytes ← ss_as_bytes buf;
  let '(written, k) := console_write k bytes in
  if written then Ret k
  else
    bytes ← ss_as_bytes buf;
    early ← early_append (kl_early k) bytes;
    Ret (mkKlog early (kl_console k)).

Fixpoint log_all (k : Klog) (records : list LogRecord) : comp Klog :=
  match records with
  | [] => Ret k
  | r :: records => k ← log k r; log_all k records
  end.

(** The addresses [0x10001000..=0x10008000] in steps of [0x1000]. *)
Definition console_slots : list Z := map (fun i => 0x10001000 + 0x1000 * i) (seqZ 0 8).

Fixpoint init_console_from (slots : list Z) (k : Klog) : comp Klog :=
  match slots with
  | [] => Ret k
  | slot :: slots =>
      match mmio_transport slot with
      | None => init_console_from slots k
      | Some transport =>
          if is_console transport then
            match VirtIOConsole_new transport with
            | Some console => flush_early_buffer (mkKlog (kl_early k) (Some console))
            | None => init_console_from slots k
            end
          else init_console_from slots k
      end
  end.
Definition init_console (k : Klog) : comp Klog := init_console_from console_slots k.

(** ** Facts *)

(** The fixed-capacity string keeps a prefix of what is written to it. *)
Definition ss_holds (n : nat) (s : StackString) (text : list Z) : Prop :=
  length (ss_buf s) = n /\ ss_len s = zlen (take n text) /\ take (Z.to_nat (ss_len s)) (ss_buf s) = take n text.

Lemma write_str_holds n s text bytes :
  Z.of_nat n < 2 ^ 32 -> ss_holds n s text ->
  exists s', write_str s bytes = Ret s' /\ ss_holds n s' (text ++ bytes).
Proof.
  intros Hn (Hb & Hl & Ht). unfold write_str. unfold zlen in *. rewrite length_take in Hl.
  rewrite sub_ovf_ok by lia. cbn [mbind comp_bind].
  set (to_copy := Z.min _ _). rewrite slice_ok by (unfold zlen, to_copy; lia). cbn [mbind comp_bind].
  rewrite add_ovf_ok by (unfold max_of, to_copy; lia). cbn [mbind comp_bind]. rewrite drop_0.
  set (chunk := take _ bytes).
  assert (Hch : zlen chunk = to_copy) by (unfold zlen, chunk; rewrite length_take; lia).
  rewrite copy_to_slice_ok by (unfold zlen, to_copy in *; lia). cbn [mbind comp_bind].
  eexists. split; [reflexivity|]. unfold ss_holds. simpl.
  assert (Htext : take n (text ++ bytes) = take n text ++ chunk).
  { rewrite take_app. f_equal. unfold chunk. destruct (decide (length bytes <= n - length text)%nat).
    - by rewrite !take_ge by (unfold to_copy; lia).
    - f_equal. unfold to_copy. lia. }
  split_and!.
  - rewrite length_splice by (unfold zlen in *; lia). done.
  - rewrite Htext. unfold zlen in *. rewrite length_app, length_take. lia.
  - rewrite Htext, <- Ht. unfold splice. rewrite app_assoc. unfold zlen in *.
    rewrite take_app_length' by (rewrite length_app, length_take; lia). done.
Qed.

Lemma write_pieces_holds n pieces : forall s text,
  Z.of_nat n < 2 ^ 32 -> ss_holds n s text ->
  exists s', write_pieces s pieces = Ret s' /\ ss_holds n s' (text ++ concat pieces).
Proof.
  induction pieces as [|p pieces IH]; intros s text Hn Hs; simpl; [exists s; by rewrite app_nil_r|].
  destruct (write_str_holds n s text p Hn Hs) as (s1 & -> & Hs1). cbn [mbind comp_bind].
  destruct (IH _ _ Hn Hs1) as (s2 & -> & Hs2). exists s2. by rewrite app_assoc.
Qed.

(** The line of a record: its text, cut after 512 bytes. *)
Definition log_line (record : LogRecord) : list Z := take 512 (concat (log_pieces record)).

Lemma log_line_formatted record :
  exists s, write_pieces (StackString_new 512) (log_pieces record) = Ret s /\ ss_as_bytes s = Ret (log_line record).
Proof.
  destruct (write_pieces_holds 512 (log_pieces record) (StackString_new 512) []) as (s & E & Hb & Hl & Ht);
    [done|split_and!; try reflexivity; by rewrite length_replicate|].
  exists s. split; [done|]. unfold ss_as_bytes. simpl in Hl, Ht. unfold zlen in Hl. rewrite length_take in Hl.
  rewrite slice_ok by (unfold zlen; lia). rewrite Z.sub_0_r, drop_0. by rewrite Ht.
Qed.

(** The early buffer holds [text]. *)
Definition early_holds (b : EarlyBuffer) (text : list Z) : Prop :=
  length (eb_buf b) = 2048%nat /\ eb_len b = zlen text /\ (length text <= 2048)%nat /\ take (length text) (eb_buf b) = text.

Lemma early_bytes b text : early_holds b text -> early_as_bytes b = Ret text.
Proof.
  intros (Hb & Hl & Hle & Ht). unfold early_as_bytes. unfold zlen in *. rewrite slice_ok by (unfold zlen; lia).
  rewrite Z.sub_0_r, drop_0, Hl, Nat2Z.id. by rewrite Ht.
Qed.

(** What the early buffer keeps: every message that still fits, whole. *)
Definition keep (text bytes : list Z) : list Z := if 2048 <? zlen text + zlen bytes then text else text ++ bytes.

Lemma early_append_holds b text bytes :
  zlen bytes <= 512 -> early_holds b text -> exists b', early_append b bytes = Ret b' /\ early_holds b' (keep text bytes).
Proof.
  intros Hz (Hb & Hl & Hle & Ht). unfold early_append, keep. unfold zlen in *. rewrite Hl.
  rewrite add_ovf_ok by (unfold max_of; lia). cbn [mbind comp_bind].
  destruct (Z.ltb_spec 2048 (Z.of_nat (length text) + Z.of_nat (length bytes))); [by exists b|].
  rewrite copy_to_slice_ok by (unfold zlen; lia).
  cbn [mbind comp_bind]. eexists. split; [reflexivity|]. unfold early_holds. simpl.
  split_and!; [by rewrite length_splice by (unfold zlen; lia)|unfold zlen; rewrite length_app; lia|rewrite length_app; lia|].
  unfold splice. rewrite Nat2Z.id, Ht, app_assoc, take_app_length. done.
Qed.

Lemma log_early k text record :
  kl_console k = None -> early_holds (kl_early k) text ->
  exists k', log k record = Ret k' /\ kl_console k' = None /\ early_holds (kl_early k') (keep text (log_line record)).
Proof.
  intros Hc He. unfold log. destruct (log_line_formatted record) as (s & -> & Es). cbn [mbind comp_bind].
  rewrite Es. cbn [mbind comp_bind]. unfold console_write. rewrite Hc. cbn [mbind comp_bind].
  destruct (early_append_holds (kl_early k) text (log_line record)) as (b' & -> & Hb'); [|done|].
  - unfold zlen, log_line. rewrite length_take. lia.
  - eexists. split; [reflexivity|]. by rewrite Hc.
Qed.

Lemma log_all_early records : forall k text,
  kl_console k = None -> early_holds (kl_early k) text ->
  exists k', log_all k records = Ret k' /\ kl_console k' = None /\
    early_holds (kl_early k') (foldl keep text (map log_line records)).
Proof.
  induction records as [|r records IH]; intros k text Hc He; simpl; [by exists k|].
  destruct (log_early k text r Hc He) as (k1 & -> & Hc1 & He1). cbn [mbind comp_bind]. by apply IH.
Qed.

Lemma log_all_console records : forall k console,
  kl_console k = Some console ->
  log_all k records = Ret (mkKlog (kl_early k) (Some (foldl send_bytes console (map log_line records)))).
Proof.
  induction records as [|r records IH]; intros k console Hc; simpl; [destruct k; simpl in *; by subst|].
  unfold log. destruct (log_line_formatted r) as (s & -> & Es). cbn [mbind comp_bind].
  rewrite Es. cbn [mbind comp_bind]. unfold console_write. rewrite Hc. cbn [mbind comp_bind]. by rewrite (IH _ (send_bytes console (log_line r))).
Qed.

Lemma early_start : early_holds EarlyBuffer_new [].
Proof. split_and!; try reflexivity; simpl; try lia. Qed.

(** The console [init_console] finds. *)
Fixpoint first_console (slots : list Z) : option Console :=
  match slots with
  | [] => None
  | slot :: slots =>
      match mmio_transport slot with
      | Some t =>
          if is_console t
          then match VirtIOConsole_new t with Some c => Some c | None => first_console slots end
          else first_console slots
      | None => first_console slots
      end
  end.

Lemma init_console_run slots k text console :
  early_holds (kl_early k) text -> first_console slots = Some console ->
  init_console_from slots k = Ret (mkKlog (kl_early k) (Some (send_bytes console text))).
Proof.
  intros He. induction slots as [|slot slots IH]; simpl; [done|].
  destruct (mmio_transport slot) as [t|]; [|exact IH]. destruct (is_console t); [|exact IH].
  destruct (VirtIOConsole_new t) as [c|]; [|exact IH]. intros [= ->].
  unfold flush_early_buffer. simpl. by rewrite (early_bytes _ _ He).
Qed.

(** C29: Where the log lines go.  Nothing in the log path panics.  Every line is
    cut after 512 bytes.  Of the lines logged before the console exists, those
    that still fit the 2048 bytes of the early buffer when they arrive are kept
    and any other is dropped, never a part of a line; once a console is found it
    receives what was kept, in order, in one piece, and every later line
    directly. *)
Theorem boot_log_is_delivered before after console :
  first_console console_slots = Some console ->
  exists early, (k ← log_all klog_start before; k ← init_console k; log_all k after) =
    Ret (mkKlog early
           (Some (foldl send_bytes console (foldl keep [] (map log_line before) :: map log_line after)))).
Proof.
  intros Hc. destruct (log_all_early before klog_start [] eq_refl early_start) as (k & -> & Hn & He).
  exists (kl_early k). cbn [mbind comp_bind]. unfold init_console. rewrite (init_console_run _ _ _ _ He Hc). cbn [mbind comp_bind].
  rewrite (log_all_console after _ (send_bytes console (foldl keep [] (map log_line before)))) by done. done.
Qed.
End Klog.

(** ** Witness *)
Definition boot_record : LogRecord := mkRecord (str "lemon_shark::timer") LWarn [str "tick "; str "1"].

(** One transport at 0x10007000; the console records what it is sent. *)
Definition sample_transport (a : Z) : option unit := if a =? 0x10007000 then Some tt else None.
Definition sample_send (sent : list (list Z)) (bytes : list Z) : list (list Z) := sent ++ [bytes].

Lemma boot_log_is_delivered_witness :
  log_line boot_record = ESC :: str "[33m[WARN  timer   ] tick 1" ++ ESC :: str "[0m" ++ [10] /\
  exists early,
    (k ← log_all sample_send klog_start [boot_record; boot_record];
     k ← init_console sample_transport (fun _ => true) (fun _ => Some []) sample_send k;
     log_all sample_send k [boot_record]) =
    Ret (mkKlog early (Some [log_line boot_record ++ log_line boot_record; log_line boot_record])).
Proof.
  split; [vm_compute; reflexivity|].
  exact (boot_log_is_delivered sample_transport (fun _ => true) (fun _ => Some []) sample_send
           [boot_record; boot_record] [boot_record] [] eq_refl).
Defined.
