(* ===== verification/KernelFs.v ===== *)
(** * The kernel's filesystem ([src/src/filesystem.rs], the disk of [src/src/virtio2.rs])

    The block device of the kernel, which is the RAM disk or a VirtIO disk, and
    the global filesystem behind a lock that the shell's commands go through.
    The VirtIO driver is the third-party [virtio_drivers] crate, a class here
    with the laws its documentation gives.  The static array of the RAM disk is
    part of the device value that uses it, and the lock is not modelled: every
    function takes and returns the state of [FS]. *)
From S2P Require Import Prelude Bitmap Bytes Layout INode DirEntry BlockDev INodeCache SuperBlock Filesystem.

(** ** The VirtIO disk *)
Class VirtIOBlk (B : Type) := {
  blk_read_blocks : B -> Z -> option (list Z);
  blk_write_blocks : B -> Z -> list Z -> option B;
  blk_capacity : B -> Z;
}.

(** Blocks below the capacity can be read and written, and a read gives what
    was written last. *)
Class VirtIOBlkLaws (B : Type) `{VirtIOBlk B} := {
  blk_ok : B -> Prop;
  blk_capacity_nonneg b : blk_ok b -> 0 <= blk_capacity b;
  blk_read b i : blk_ok b -> 0 <= i < blk_capacity b -> exists v, blk_read_blocks b i = Some v /\ block_ok v;
  blk_write b i v : blk_ok b -> 0 <= i < blk_capacity b -> block_ok v ->
    exists b', blk_write_blocks b i v = Some b' /\ blk_ok b' /\ blk_capacity b' = blk_capacity b /\
      blk_read_blocks b' i = Some v /\
      forall j, j <> i -> 0 <= j < blk_capacity b -> blk_read_blocks b' j = blk_read_blocks b j;
}.

Section KernelFs.
Context {B : Type} `{Blk : VirtIOBlk B}.

(** [LockedBlockDevice]: errors of the driver panic. *)
Definition locked_read_block (disk : B) (block_idx : BlockIndex) : comp (list Z) := unwrap (blk_read_blocks disk block_idx).
Definition locked_write_block (disk : B) (block_idx : BlockIndex) (data : list Z) : comp B :=
  unwrap (blk_write_blocks disk block_idx data).
Definition locked_total_blocks (disk : B) : Z := blk_capacity disk.

(** ** [KernelBlockDevice] *)
Inductive KernelBlockDevice := Ramdisk (ram : Disk) | VirtIO (blk : B).

#[export] Instance KernelBlockDevice_BlockDevice : BlockDevice KernelBlockDevice := {
  read_block d block_idx :=
    match d with
    | Ramdisk ram => ramdisk_read_block ram block_idx BLOCK_SIZE
    | VirtIO blk => locked_read_block blk block_idx
    end;
  write_block d block_idx data :=
    match d with
    | Ramdisk ram => ram ← ramdisk_write_block ram block_idx data; Ret (Ramdisk ram)
    | VirtIO blk => blk ← locked_write_block blk block_idx data; Ret (VirtIO blk)
    end;
  total_blocks d :=
    match d with
    | Ramdisk ram => disk_bytes ram / BLOCK_SIZE
    | VirtIO blk => locked_total_blocks blk
    end;
}.

#[export] Instance KernelBlockDevice_laws `{!VirtIOBlkLaws B} : BlockDeviceLaws KernelBlockDevice.
Proof.
  refine {| dev_ok d := match d with Ramdisk ram => Disk_ok ram | VirtIO blk => blk_ok blk end |}.
  - intros [ram|blk] Hd; [exact (dev_total_nonneg ram Hd)|exact (blk_capacity_nonneg blk Hd)].
  - intros [ram|blk] i Hd Hi; [exact (dev_read ram i Hd Hi)|].
    destruct (blk_read blk i Hd Hi) as (v & E & Hv). exists v. simpl. unfold locked_read_block. by rewrite E.
  - intros [ram|blk] i b Hd Hi Hb; simpl.
    + destruct (@dev_write Disk _ Disk_BlockDeviceLaws ram i b Hd Hi Hb) as (ram' & E & Hr). simpl in E. rewrite E. by exists (Ramdisk ram').
    + destruct (blk_write blk i b Hd Hi Hb) as (blk' & E & Hok & Hc & Hr & Hj). unfold locked_write_block. rewrite E.
      exists (VirtIO blk'). simpl. unfold locked_read_block, locked_total_blocks. rewrite Hr.
      split_and!; try done. intros j Hne Hji. by rewrite Hj.
Defined.

(** ** [dump_non_empty_pages] *)
Definition PAGE_BYTES : Z := 4096.
Definition BYTES_PER_ROW : Z := 16.
Definition BLOCKS_PER_PAGE : Z := PAGE_BYTES / BLOCK_SIZE.

Definition device_name (d : KernelBlockDevice) : list Z :=
  match d with Ramdisk _ => str "RAMDISK" | VirtIO _ => str "VIRTIO" end.

(** [{:02X}] and [{:08x}]: hexadecimal digits, padded with zeros. *)
Definition hex_digit (alpha d : Z) : Z := if d <? 10 then 48 + d else alpha + d - 10.
Fixpoint hex_digits (fuel : nat) (alpha n : Z) (acc : list Z) : list Z :=
  match fuel with
  | O => acc
  | S fuel =>
      let acc := hex_digit alpha (n mod 16) :: acc in
      if n / 16 =? 0 then acc else hex_digits fuel alpha (n / 16) acc
  end.
Definition show_hex (width : nat) (alpha n : Z) : list Z :=
  let s := hex_digits 16 alpha n [] in replicate (width - length s) 48 ++ s.
Definition lower_x : Z := 97.
Definition upper_x : Z := 65.

(** One row of the dump: the bytes in hexadecimal, then as characters. *)
Definition hex_column (row_bytes : list Z) (i : nat) : list Z :=
  match row_bytes !! i with
  | Some byte => show_hex 2 upper_x byte ++ str " "
  | None => str "   "
  end ++ (if (i =? 7)%nat then str " " else []).
Definition char_column (row_bytes : list Z) (i : nat) : list Z :=
  match row_bytes !! i with
  | Some byte => if (0x20 <=? byte) && (byte <? 0x7f) then [byte] else str "."
  | None => str " "
  end.
Definition dump_row (addr : Z) (row_bytes : list Z) : list Z :=
  show_hex 8 lower_x addr ++ str "  " ++ concat (map (hex_column row_bytes) (seq 0 16)) ++ str " |" ++
  concat (map (char_column row_bytes) (seq 0 16)) ++ str "|" ++ [NL].

Fixpoint dump_rows (rows : nat) (page : list Z) (page_offset row : Z) : list Z :=
  match rows with
  | O => []
  | S rows =>
      dump_row (page_offset + row) (take 16 page) ++ dump_rows rows (drop 16 page) page_offset (row + BYTES_PER_ROW)
  end.

(** The blocks of one page. *)
Fixpoint read_page (d : KernelBlockDevice) (first_block : Z) (blocks : nat) (block_offset : Z) : comp (list Z) :=
  match blocks with
  | O => Ret []
  | S blocks =>
      b ← read_block d (as_u32 (first_block + block_offset));
      rest ← read_page d first_block blocks (block_offset + 1);
      Ret (b ++ rest)
  end.

Fixpoint dump_pages (d : KernelBlockDevice) (pages : nat) (page_idx total_blocks : Z) : comp (list Z) :=
  match pages with
  | O => Ret []
  | S pages =>
      first_block ← page_idx *! BLOCKS_PER_PAGE;
      left ← total_blocks -! first_block;
      let blocks_in_page := Z.min left BLOCKS_PER_PAGE in
      bytes_in_page ← blocks_in_page *! BLOCK_SIZE;
      page ← read_page d first_block (Z.to_nat blocks_in_page) 0;
      text ← (if forallb (Z.eqb 0) page then Ret []
              else
                page_offset ← first_block *! BLOCK_SIZE;
                Ret ([NL] ++ str "--- Page " ++ show_z page_idx ++ str " (block " ++ show_z first_block ++
                     str ", offset 0x" ++ show_hex 8 lower_x page_offset ++ str ") ---" ++ [NL] ++
                     dump_rows (Z.to_nat (div_ceil bytes_in_page BYTES_PER_ROW)) page page_offset 0));
      rest ← dump_pages d pages (page_idx + 1) total_blocks;
      Ret (text ++ rest)
  end.

Definition dump_non_empty_pages (d : KernelBlockDevice) : comp (list Z) :=
  let total := total_blocks d in
  let total_pages := div_ceil total BLOCKS_PER_PAGE in
  bytes ← total *! BLOCK_SIZE;
  pages ← dump_pages d (Z.to_nat total_pages) 0 total;
  Ret (str "=== " ++ device_name d ++ str " DUMP (" ++ show_z total ++ str " blocks, " ++ show_z total_pages ++
       str " pages, " ++ show_z bytes ++ str " bytes total) ===" ++ [NL] ++ pages ++
       [NL] ++ str "=== END DUMP ===" ++ [NL]).

(** ** [LockedFilesystem] and [api] *)
Abbreviation LockedFilesystem := (option (Filesystem KernelBlockDevice)) (only parsing).

Definition LockedFilesystem_new : LockedFilesystem := None.
Definition fs_get (g : LockedFilesystem) : comp (Filesystem KernelBlockDevice) := unwrap g.

(** [self.get().op(..)] for an operation that may fail. *)
Definition with_fs {R : Type} (op : Filesystem KernelBlockDevice -> comp (R * Filesystem KernelBlockDevice))
    (g : LockedFilesystem) : comp (R * LockedFilesystem) :=
  fs ← fs_get g;
  '(r, fs) ← op fs;
  Ret (r, Some fs).

Definition api_mkdir (g : LockedFilesystem) (name : list Z) := with_fs (fun fs => mkdir fs name) g.
Definition api_create_file (g : LockedFilesystem) (name : list Z) := with_fs (fun fs => create_file fs name) g.
Definition api_remove_dir_entry (g : LockedFilesystem) (path : list Z) := with_fs (fun fs => remove_dir_entry fs path) g.
Definition api_write_to_file (g : LockedFilesystem) (path text : list Z) := with_fs (fun fs => write_to_file fs path text) g.
Definition api_read_file (g : LockedFilesystem) (path : list Z) := with_fs (fun fs => read_file fs path) g.
Definition api_dump_dir (g : LockedFilesystem) (path : list Z) := with_fs (fun fs => dump_dir fs path []) g.
Definition api_tree (fuel : nat) (g : LockedFilesystem) := with_fs (fun fs => tree fuel fs []) g.
Definition api_dump (g : LockedFilesystem) : comp (list Z) := fs ← fs_get g; dump_non_empty_pages (block_device fs).
Definition api_flush (g : LockedFilesystem) : comp LockedFilesystem := fs ← fs_get g; fs ← flush fs; Ret (Some fs).

(** [ramdisk::reset] clears the array under the filesystem, if it uses it. *)
Definition api_reset (g : LockedFilesystem) : LockedFilesystem :=
  match g with
  | Some fs =>
      match block_device fs with
      | Ramdisk ram => Some (with_device fs (Ramdisk (ramdisk_reset ram)))
      | VirtIO _ => g
      end
  | None => g
  end.

Definition init_with_device (g : LockedFilesystem) (dev : KernelBlockDevice) : comp LockedFilesystem :=
  match g with
  | Some _ => Ret g
  | None =>
      r ← Filesystem_new dev;
      Ret match r with Ok fs => Some fs | Err _ => g end
  end.
End KernelFs.
Arguments KernelBlockDevice B : clear implicits.
