(* ===== verification/Virtio.v ===== *)
(** * The legacy VirtIO driver ([src/src/virtio.rs], [src/src/println.rs])

    The hand-written driver for a legacy VirtIO block device.  It only talks to
    the device's registers, so the device is a class that answers register
    accesses, and the state the driver threads through is the device with the
    log of all accesses and the bytes printed, which a panic does not undo.  What
    a driver may do when is stated independently, as an automaton over accesses
    that follows the VirtIO 1.1 specification ([legacy_step]); the theorem compares the
    accesses of [init] with it on whatever device, panicking runs included. *)
From S2P Require Import Prelude Bitmap Layout KernelFs.

(** ** Printing ([println.rs])

    [UartWriter] writes the bytes of a string one by one to the UART; the pieces
    of formatted text arrive as strings. *)
Definition UART_ADDRESS : Z := 0x10000000.
Definition write_char_to_uart (out : list Z) (c : Z) : list Z := out ++ [c].
Definition uart_write_str (out s : list Z) : list Z := fold_left write_char_to_uart s out.
Definition _print (out : list Z) (args : list (list Z)) : list Z := fold_left uart_write_str args out.
Definition _println (out : list Z) (args : list (list Z)) : list Z := uart_write_str (_print out args) [10].

Lemma uart_write_str_app out s : uart_write_str out s = out ++ s.
Proof.
  unfold uart_write_str. revert out. induction s as [|c s IH]; intros out; cbn [fold_left]; [by rewrite app_nil_r|].
  rewrite IH. unfold write_char_to_uart. by rewrite <- app_assoc.
Qed.

Lemma _println_app out args : _println out args = out ++ concat args ++ [10].
Proof.
  unfold _println, _print. rewrite uart_write_str_app, app_assoc. f_equal.
  revert out. induction args as [|s args IH]; intros out; cbn [fold_left concat]; [by rewrite app_nil_r|].
  rewrite IH, uart_write_str_app. by rewrite app_assoc.
Qed.

(** [{:b}]: binary digits. *)
Fixpoint binary_digits (fuel : nat) (n : Z) (acc : list Z) : list Z :=
  match fuel with
  | O => acc
  | S fuel =>
      let acc := (48 + n mod 2) :: acc in
      if n / 2 =? 0 then acc else binary_digits fuel (n / 2) acc
  end.

(** ** Constants *)
Definition QUEUE_SIZE : Z := 64.
Definition QUEUE_ALIGN_BYTES : Z := 4096.
Definition BASE : Z := 0x10008000.
Definition EXPECTED_MAGIC : Z := 0x74726976.
Definition MAGIC : Z := 0x000.
Definition VERSION : Z := 0x004.
Definition DEVICE_ID : Z := 0x008.
Definition HOST_FEATURES : Z := 0x010.
Definition GUEST_FEATURES : Z := 0x020.
Definition GUEST_PAGE_SIZE : Z := 0x028.
Definition QUEUE_SEL : Z := 0x030.
Definition QUEUE_NUM_MAX : Z := 0x034.
Definition QUEUE_NUM : Z := 0x038.
Definition QUEUE_ALIGN : Z := 0x03c.
Definition QUEUE_PFN : Z := 0x040.
Definition INTERRUPT_STATUS : Z := 0x060.
Definition STATUS : Z := 0x070.
Definition CONFIG : Z := 0x100.

(** [align_up] with the overflow checks of its additions. *)
Definition virtio_align_up (x a : Z) : comp Z :=
  s ← x +! a;
  s ← s -! 1;
  a1 ← a -! 1;
  Ret (Z.land s (not_w 64 a1)).

Definition QUEUE_BYTES : comp Z :=
  let descriptor := 16 * QUEUE_SIZE in
  let available := 6 + 2 * QUEUE_SIZE in
  let used := 6 + 8 * QUEUE_SIZE in
  used_offset ← virtio_align_up (descriptor + available) QUEUE_ALIGN_BYTES;
  used_offset +! used.

(** ** The device *)
Class MmioDevice (D : Type) := {
  dev_read32 : D -> Z -> Z * D;
  dev_read64 : D -> Z -> Z * D;
  dev_write32 : D -> Z -> Z -> D;
}.

Inductive Access := Read32 (offset value : Z) | Read64 (offset value : Z) | Write32 (offset value : Z).

Record Bus (D : Type) := mkBus { bus_device : D; bus_log : list Access; bus_out : list Z }.
Arguments mkBus {D}.
Arguments bus_device {D}.
Arguments bus_log {D}.
Arguments bus_out {D}.

(** A call of the driver: its result, or none if it panicked, and the bus. *)
Definition Drv (D A : Type) : Type := Bus D -> option A * Bus D.
#[export] Instance Drv_ret {D} : MRet (Drv D) := fun A x b => (Some x, b).
#[export] Instance Drv_bind {D} : MBind (Drv D) := fun A B k m b =>
  match m b with (Some x, b) => k x b | (None, b) => (None, b) end.

Section Driver.
Context {D : Type} `{MmioDevice D}.

Definition read_volatile (offset : Z) : Drv D Z := fun b =>
  let '(v, d) := dev_read32 (bus_device b) offset in
  (Some v, mkBus d (bus_log b ++ [Read32 offset v]) (bus_out b)).
Definition read_volatile_u64 (offset : Z) : Drv D Z := fun b =>
  let '(v, d) := dev_read64 (bus_device b) offset in
  (Some v, mkBus d (bus_log b ++ [Read64 offset v]) (bus_out b)).
Definition write_volatile (offset value : Z) : Drv D unit := fun b =>
  (Some tt, mkBus (dev_write32 (bus_device b) offset value) (bus_log b ++ [Write32 offset value]) (bus_out b)).
Definition println (args : list (list Z)) : Drv D unit := fun b =>
  (Some tt, mkBus (bus_device b) (bus_log b) (_println (bus_out b) args)).
Definition panic {A} : Drv D A := fun b => (None, b).
Definition drv_assert (c : bool) : Drv D unit := if c then mret tt else panic.
(** Arithmetic that may overflow. *)
Definition checked {A} (c : comp A) : Drv D A := match c with Ret x => mret x | _ => panic end.

Definition read_config : Drv D unit :=
  size_max ← read_volatile 0x8;
  println [str "size_max="; show_z size_max].

Definition initialize_driver : Drv D bool :=
  write_volatile STATUS 0 ;;
  write_volatile STATUS (Z.lor 1 2) ;;
  host_features ← read_volatile HOST_FEATURES;
  println [str "Found host features: "; binary_digits 32 host_features []; str " ";
           str "0x"; show_hex 0 lower_x host_features] ;;
  write_volatile GUEST_FEATURES 0 ;;
  write_volatile GUEST_PAGE_SIZE 4096 ;;
  mret true.

(** [virtq] is the address of the static buffer. *)
Definition setup_virtqueue (virtq : Z) : Drv D unit :=
  write_volatile QUEUE_SEL 0 ;;
  ready ← read_volatile QUEUE_PFN;
  if negb (ready =? 0) then println [str "Queue is not ready"]
  else
    queue_num_max ← read_volatile QUEUE_NUM_MAX;
    if queue_num_max =? 0 then println [str "Queue is not available"]
    else if queue_num_max <? as_u32 QUEUE_SIZE then panic
    else
      let base := virtq in
      write_volatile QUEUE_NUM (as_u32 QUEUE_SIZE) ;;
      write_volatile QUEUE_ALIGN (as_u32 QUEUE_ALIGN_BYTES) ;;
      write_volatile QUEUE_PFN (as_u32 (base / QUEUE_ALIGN_BYTES)).

(** The loop of [read_capacity]. *)
Fixpoint read_capacity_loop (tries : nat) (prev : Z) : Drv D Z :=
  match tries with
  | O => panic
  | S tries =>
      new ← read_volatile_u64 CONFIG;
      if new =? prev then mret new else read_capacity_loop tries new
  end.
Definition read_capacity : Drv D Z := read_capacity_loop 10 0.

Definition virtio_init (virtq : Z) : Drv D unit :=
  magic ← read_volatile MAGIC;
  drv_assert (magic =? EXPECTED_MAGIC) ;;
  version ← read_volatile VERSION;
  drv_assert (version =? 1) ;;
  device_id ← read_volatile DEVICE_ID;
  if device_id =? 0 then println [str "[VIRTIO] DeviceID zero. Aborting."]
  else
    capacity ← read_capacity;
    bytes ← checked (mul_ovf 64 capacity 512);
    println [str "[VIRTIO] Found disk with Capacity: "; show_z (bytes / 1024 / 1024); str "MB"] ;;
    max_queue_size ← read_volatile QUEUE_NUM_MAX;
    println [str "[VIRTIO] Max queue size: "; show_z max_queue_size] ;;
    read_config ;;
    ok ← initialize_driver;
    if negb ok then mret tt
    else
      setup_virtqueue virtq ;;
      status ← read_volatile STATUS;
      write_volatile STATUS (Z.lor status 4) ;;
      interrupt_status ← read_volatile INTERRUPT_STATUS;
      drv_assert (interrupt_status =? 0) ;;
      println [str "[VIRTIO] initialized"].
End Driver.

(** ** What the VirtIO specification allows

    The legacy interface of VirtIO 1.1, as an automaton that watches the
    accesses of a driver.  It knows what the driver has been told and what it has
    done, and refuses an access the specification does not allow at that point:
    section 4.2.2.2 and 4.2.3.1.1 (identification), 2.1.1 (the status register),
    3.1.1 (the order of initialisation) and 4.2.4 (the registers and the
    configuration of a queue). *)
Inductive Found := FNothing | FMagic | FVersion | FDevice | FIgnored.

(** How far queue 0 is configured. *)
Inductive QueueState :=
| QUnknown | QSelected | QInUse | QFree | QUnavailable | QAvailable (max : Z) | QSized | QAligned | QPlaced.

Record Progress := mkProgress {
  pr_found : Found;
  pr_status : option Z;    (* the status register as the driver knows it, once reset *)
  pr_driver : bool;        (* ACKNOWLEDGE and DRIVER are set *)
  pr_offered : option Z;   (* the feature bits the device offers *)
  pr_features : bool;      (* the accepted features are written *)
  pr_page : bool;          (* the page size is written *)
  pr_queue : QueueState;
}.
Definition untouched : Progress := mkProgress FNothing None false None false false QUnknown.
Definition identified (f : Found) : Progress := mkProgress f None false None false false QUnknown.
Definition with_queue (p : Progress) (q : QueueState) : Progress :=
  mkProgress (pr_found p) (pr_status p) (pr_driver p) (pr_offered p) (pr_features p) (pr_page p) q.

Definition ACKNOWLEDGE : Z := 1.
Definition DRIVER : Z := 2.
Definition DRIVER_OK : Z := 4.
Definition has (bits v : Z) : bool := Z.land v bits =? bits.
Definition power_of_two (v : Z) : bool := (0 <? v) && (2 ^ Z.log2 v =? v).

(** Writing 0 resets.  Otherwise no bit may be cleared, [DRIVER] comes with
    [ACKNOWLEDGE], and [DRIVER_OK] needs everything else to be done. *)
Definition step_status (p : Progress) (v : Z) : option Progress :=
  if v =? 0 then Some (mkProgress FDevice (Some 0) false None false false QUnknown)
  else
    match pr_status p with
    | None => None
    | Some s =>
        if negb (has s v) then None
        else if negb (has DRIVER s) && has DRIVER v && negb (has ACKNOWLEDGE v) then None
        else if has DRIVER_OK v
             && negb (pr_driver p && pr_features p && pr_page p && match pr_queue p with QPlaced => true | _ => false end) then None
        else Some (mkProgress (pr_found p) (Some v) (pr_driver p || has (ACKNOWLEDGE + DRIVER) v) (pr_offered p)
                     (pr_features p) (pr_page p) (pr_queue p))
    end.

(** Reads of a device that is there. *)
Definition step_read (p : Progress) (o v : Z) : option Progress :=
  if bool_decide (o ∈ [MAGIC; VERSION; DEVICE_ID; INTERRUPT_STATUS]) then Some p
  else if o =? HOST_FEATURES then
    Some (mkProgress (pr_found p) (pr_status p) (pr_driver p) (Some v) (pr_features p) (pr_page p) (pr_queue p))
  else if o =? STATUS then
    Some (mkProgress (pr_found p) (pr_status p ≫= fun _ => Some v) (pr_driver p) (pr_offered p) (pr_features p) (pr_page p) (pr_queue p))
  else if o =? QUEUE_PFN then
    match pr_queue p with QSelected => Some (with_queue p (if v =? 0 then QFree else QInUse)) | _ => None end
  else if o =? QUEUE_NUM_MAX then
    match pr_queue p with
    | QFree => Some (with_queue p (if v =? 0 then QUnavailable else QAvailable v))
    | _ => Some p
    end
  else None.

(** Writes; the queue is at the address [virtq]. *)
Definition step_write (virtq : Z) (p : Progress) (o v : Z) : option Progress :=
  if o =? STATUS then step_status p v
  else if negb (pr_driver p) then None
  else if o =? GUEST_FEATURES then
    match pr_offered p with
    | Some offered =>
        if has v offered then Some (mkProgress (pr_found p) (pr_status p) true (pr_offered p) true (pr_page p) (pr_queue p)) else None
    | None => None
    end
  else if o =? GUEST_PAGE_SIZE then
    match pr_queue p with
    | QUnknown => if power_of_two v then Some (mkProgress (pr_found p) (pr_status p) true (pr_offered p) (pr_features p) true QUnknown) else None
    | _ => None
    end
  else if o =? QUEUE_SEL then
    if pr_features p && pr_page p && (v =? 0) then Some (with_queue p QSelected) else None
  else
    match pr_queue p with
    | QAvailable max => if (o =? QUEUE_NUM) && power_of_two v && (v <=? max) then Some (with_queue p QSized) else None
    | QSized => if (o =? QUEUE_ALIGN) && power_of_two v then Some (with_queue p QAligned) else None
    | QAligned => if (o =? QUEUE_PFN) && negb (v =? 0) && (v * 4096 =? virtq) then Some (with_queue p QPlaced) else None
    | _ => None
    end.

Definition legacy_step (virtq : Z) (p : Progress) (a : Access) : option Progress :=
  match pr_found p, a with
  | FNothing, Read32 o v =>
      if o =? MAGIC then Some (identified (if v =? EXPECTED_MAGIC then FMagic else FIgnored)) else None
  | FMagic, Read32 o v => if o =? VERSION then Some (identified (if v =? 1 then FVersion else FIgnored)) else None
  | FVersion, Read32 o v => if o =? DEVICE_ID then Some (identified (if v =? 0 then FIgnored else FDevice)) else None
  | FDevice, Read32 o v => step_read p o v
  | FDevice, Read64 o _ => if o =? CONFIG then Some p else None
  | FDevice, Write32 o v => step_write virtq p o v
  | _, _ => None
  end.

Fixpoint follows (virtq : Z) (p : Progress) (log : list Access) : option Progress :=
  match log with
  | [] => Some p
  | a :: log => p ← legacy_step virtq p a; follows virtq p log
  end.

Lemma follows_app virtq p l1 l2 : follows virtq p (l1 ++ l2) = p ← follows virtq p l1; follows virtq p l2.
Proof. revert p. induction l1 as [|a l1 IH]; intros p; [done|]. simpl. destruct (legacy_step virtq p a); [apply IH|done]. Qed.

(** The device is running. *)
Definition running (p : Progress) : bool :=
  match pr_status p with Some s => has DRIVER_OK s | None => false end.

(** ** The driver against the specification *)

(** The accesses [log] after [p] of a driver that returned or panicked.  Either
    all of them are allowed, and then the driver only returns from a device it
    must ignore or one that is running.  Or all are but the last two: it sets
    [DRIVER_OK] although queue 0 is in use or unavailable, and reads the
    interrupt status. *)
Definition conforms (virtq : Z) (p : Progress) (r : option unit) (log : list Access) : Prop :=
  (exists p', follows virtq p log = Some p' /\ (r = Some tt -> pr_found p' = FIgnored \/ running p' = true)) \/
  (exists pre v i p', log = pre ++ [Write32 STATUS v; Read32 INTERRUPT_STATUS i] /\ follows virtq p pre = Some p' /\
     has DRIVER_OK v = true /\ (pr_queue p' = QInUse \/ pr_queue p' = QUnavailable)).

Lemma conforms_cons virtq p a p' r log :
  legacy_step virtq p a = Some p' -> conforms virtq p' r log -> conforms virtq p r (a :: log).
Proof.
  intros E [(q & Hq & Hr)|(pre & v & i & q & -> & Hq & ?)].
  - left. exists q. split; [|done]. simpl. by rewrite E.
  - right. exists (a :: pre), v, i, q. split; [done|]. split; [|done]. simpl. by rewrite E.
Qed.

Section Rules.
Context {D : Type} `{MmioDevice D} (virtq : Z).

(** From every bus on, [m] conforms. *)
Definition good (p : Progress) (m : Drv D unit) : Prop :=
  forall b, exists log, bus_log (m b).2 = bus_log b ++ log /\ conforms virtq p (m b).1 log.

Lemma good_access p a p' (b b1 : Bus D) (m : Drv D unit) :
  bus_log b1 = bus_log b ++ [a] -> legacy_step virtq p a = Some p' -> good p' m ->
  exists log, bus_log (m b1).2 = bus_log b ++ log /\ conforms virtq p (m b1).1 log.
Proof.
  intros Eb Es Hm. destruct (Hm b1) as (log & El & Hc). exists (a :: log). split; [|by eapply conforms_cons].
  rewrite El, Eb. by rewrite <- app_assoc.
Qed.

Lemma good_read p o k :
  (forall v, exists p', legacy_step virtq p (Read32 o v) = Some p' /\ good p' (k v)) -> good p (read_volatile o ≫= k).
Proof.
  intros Hk b. unfold mbind, Drv_bind, read_volatile. destruct (dev_read32 (bus_device b) o) as [v d].
  destruct (Hk v) as (p' & Es & Hm). by eapply good_access.
Qed.

Lemma good_read64 p o k :
  (forall v, exists p', legacy_step virtq p (Read64 o v) = Some p' /\ good p' (k v)) -> good p (read_volatile_u64 o ≫= k).
Proof.
  intros Hk b. unfold mbind, Drv_bind, read_volatile_u64. destruct (dev_read64 (bus_device b) o) as [v d].
  destruct (Hk v) as (p' & Es & Hm). by eapply good_access.
Qed.

Lemma good_write p o v p' k : legacy_step virtq p (Write32 o v) = Some p' -> good p' (k tt) -> good p (write_volatile o v ≫= k).
Proof. intros Es Hm b. unfold mbind, Drv_bind, write_volatile. by eapply good_access. Qed.

Lemma good_println p args k : good p (k tt) -> good p (println args ≫= k).
Proof. intros Hm b. unfold mbind, Drv_bind, println. apply (Hm (mkBus _ _ _)). Qed.

Lemma good_panic p : good p panic.
Proof. intros b. exists []. rewrite app_nil_r. split; [done|]. left. by exists p. Qed.

Lemma good_assert p c k : (c = true -> good p (k tt)) -> good p (drv_assert c ≫= k).
Proof. intros Hm. destruct c; [by apply Hm|]. apply good_panic. Qed.

Lemma good_checked {A} p (c : comp A) k : (forall x, good p (k x)) -> good p (checked c ≫= k).
Proof. intros Hm. destruct c; [apply Hm|apply good_panic..]. Qed.

Lemma good_done p args : pr_found p = FIgnored \/ running p = true -> good p (println args).
Proof. intros Hp b. exists []. rewrite app_nil_r. split; [done|]. left. by exists p. Qed.

Lemma good_assoc {A B} p (m : Drv D A) (f : A -> Drv D B) k :
  good p (m ≫= fun x => f x ≫= k) -> good p ((m ≫= f) ≫= k).
Proof.
  intros Hm b. specialize (Hm b). unfold mbind, Drv_bind in *. by destruct (m b) as [[x|] b'].
Qed.

(** Reading the capacity, however often, changes nothing. *)
Lemma good_capacity tries : forall prev p k,
  pr_found p = FDevice -> (forall v, good p (k v)) -> good p (read_capacity_loop tries prev ≫= k).
Proof.
  induction tries as [|tries IH]; intros prev p k Hp Hk; cbn [read_capacity_loop]; [apply good_panic|].
  apply good_assoc, good_read64. intros v. exists p. split; [unfold legacy_step; by rewrite Hp|].
  destruct (v =? prev); [apply Hk|by apply IH].
Qed.
End Rules.

(** *** Bits of the status register *)
Lemma land_lor_other s a b : Z.land a b = 0 -> Z.land (Z.lor s a) b = Z.land s b.
Proof. intros E. by rewrite Z.land_lor_distr_l, E, Z.lor_0_r. Qed.

Lemma has_lor_left s a : has s (Z.lor s a) = true.
Proof. unfold has. apply Z.eqb_eq. apply Z.bits_inj'. intros n _. rewrite Z.land_spec, Z.lor_spec. by destruct (Z.testbit s n), (Z.testbit a n). Qed.

Lemma has_lor_right s a : has a (Z.lor s a) = true.
Proof. rewrite Z.lor_comm. apply has_lor_left. Qed.

(** Adding [DRIVER_OK] to the status the device reports. *)
Lemma driver_ok_step s fd dr off ft pg q :
  step_status (mkProgress fd (Some s) dr off ft pg q) (Z.lor s DRIVER_OK) =
    if dr && ft && pg && match q with QPlaced => true | _ => false end
    then Some (mkProgress fd (Some (Z.lor s DRIVER_OK)) (dr || has (ACKNOWLEDGE + DRIVER) (Z.lor s DRIVER_OK)) off ft pg q)
    else None.
Proof.
  unfold step_status. cbn [pr_status pr_found pr_driver pr_offered pr_features pr_page pr_queue].
  rewrite has_lor_left, has_lor_right. cbn [negb andb].
  assert (Hd : has DRIVER (Z.lor s DRIVER_OK) = has DRIVER s) by (unfold has; by rewrite land_lor_other).
  rewrite Hd. destruct (Z.eqb_spec (Z.lor s DRIVER_OK) 0) as [Hz|_].
  { apply Z.lor_eq_0_iff in Hz as [_ Hz]. discriminate Hz. }
  destruct (has DRIVER s); simpl; by destruct (dr && ft && pg && _).
Qed.

Section Runs.
Context {D : Type} `{MmioDevice D} (virtq : Z).

(** The driver is done but for the queue. *)
Definition configured (offered : Z) (q : QueueState) : Progress := mkProgress FDevice (Some 3) true (Some offered) true true q.

(** The last part of [init]. *)
Definition finish : Drv D unit :=
  status ← read_volatile STATUS;
  write_volatile STATUS (Z.lor status 4) ;;
  interrupt_status ← read_volatile INTERRUPT_STATUS;
  drv_assert (interrupt_status =? 0) ;;
  println [str "[VIRTIO] initialized"].

Lemma finish_placed offered : good virtq (configured offered QPlaced) finish.
Proof.
  apply good_read. intros s. eexists. split; [reflexivity|].
  eapply good_write; [exact (driver_ok_step s FDevice true (Some offered) true true QPlaced)|].
  apply good_read. intros i. eexists. split; [reflexivity|]. apply good_assert. intros _. apply good_done. right.
  unfold running. simpl. apply has_lor_right.
Qed.

Lemma finish_without_queue offered q : q = QInUse \/ q = QUnavailable -> good virtq (configured offered q) finish.
Proof.
  intros Hq b. unfold finish, read_volatile, write_volatile, mbind, Drv_bind.
  destruct (dev_read32 (bus_device b) STATUS) as [s d1]. cbn [bus_device bus_log bus_out].
  destruct (dev_read32 _ INTERRUPT_STATUS) as [i d2]. exists ([Read32 STATUS s] ++ [Write32 STATUS (Z.lor s 4); Read32 INTERRUPT_STATUS i]).
  split.
  - destruct (i =? 0); cbn [drv_assert mret Drv_ret panic println bus_log snd]; by rewrite <- !app_assoc.
  - right. exists [Read32 STATUS s], (Z.lor s 4), i, (mkProgress FDevice (Some s) true (Some offered) true true q).
    split; [done|]. split; [reflexivity|]. split; [apply has_lor_right|exact Hq].
Qed.

Context (virtq_range : 0 < virtq < 2 ^ 44) (virtq_page : virtq mod 4096 = 0).

Lemma setup_good offered : good virtq (configured offered QUnknown) (setup_virtqueue virtq ≫= fun _ => finish).
Proof.
  unfold setup_virtqueue. apply good_assoc. eapply good_write; [reflexivity|].
  apply good_assoc, good_read. intros pfn. eexists. split; [reflexivity|].
  destruct (Z.eqb_spec pfn 0) as [->|Hp]; cbn [negb].
  2:{ apply good_println, finish_without_queue. by left. }
  apply good_assoc, good_read. intros num_max. eexists. split; [reflexivity|].
  destruct (Z.eqb_spec num_max 0) as [->|Hn].
  { apply good_println, finish_without_queue. by right. }
  change (as_u32 QUEUE_SIZE) with 64. destruct (Z.ltb_spec num_max 64) as [|Hm]; [apply good_panic|].
  apply good_assoc. eapply good_write.
  { unfold legacy_step, step_write. simpl. rewrite (proj2 (Z.leb_le 64 num_max)) by lia. reflexivity. }
  apply good_assoc. eapply good_write; [reflexivity|]. eapply good_write; [|apply finish_placed].
  unfold QUEUE_ALIGN_BYTES, as_u32. rewrite Z.mod_small by (Z.div_mod_to_equations; lia).
  unfold legacy_step, step_write. simpl. rewrite (proj2 (Z.eqb_neq _ 0)) by (Z.div_mod_to_equations; lia).
  rewrite (proj2 (Z.eqb_eq _ virtq)) by (Z.div_mod_to_equations; lia). reflexivity.
Qed.

Lemma init_good : good virtq untouched (virtio_init virtq).
Proof.
  unfold virtio_init. apply good_read. intros magic. eexists. split; [reflexivity|]. apply good_assert. intros ->.
  apply good_read. intros version. eexists. split; [reflexivity|]. apply good_assert. intros ->.
  apply good_read. intros id. eexists. split; [reflexivity|]. destruct (id =? 0); [apply good_done; by left|].
  apply good_capacity; [done|]. intros capacity. apply good_checked. intros bytes. apply good_println.
  apply good_read. intros num_max. eexists. split; [reflexivity|]. apply good_println.
  unfold read_config. apply good_assoc, good_read. intros size_max. eexists. split; [reflexivity|]. apply good_println.
  unfold initialize_driver. apply good_assoc. eapply good_write; [reflexivity|].
  apply good_assoc. eapply good_write; [reflexivity|]. apply good_assoc, good_read. intros offered.
  eexists. split; [reflexivity|]. apply good_assoc, good_println. apply good_assoc. eapply good_write.
  { unfold legacy_step, step_write, has. simpl. rewrite Z.land_0_r. reflexivity. }
  apply good_assoc. eapply good_write; [reflexivity|]. apply setup_good.
Qed.
End Runs.

(** ** Properties *)

(** The specification is not met by declaring an unprepared device ready. *)
Example driver_ok_too_early :
  follows 0x1000 untouched [Read32 MAGIC EXPECTED_MAGIC; Read32 VERSION 1; Read32 DEVICE_ID 2; Write32 STATUS 0;
    Write32 STATUS 3; Write32 STATUS 7] = None.
Proof. reflexivity. Qed.


(** A register file that answers reads with its contents. *)
Definition RegisterFile : Type := gmap Z Z.
#[export] Instance RegisterFile_MmioDevice : MmioDevice RegisterFile := {
  dev_read32 d o := (default 0 (d !! o), d);
  dev_read64 d o := (default 0 (d !! o), d);
  dev_write32 d o v := <[o := v]> d;
}.

(** QEMU's disk of 2048 sectors, and one that offers no queue. *)
Definition sample_regs (num_max : Z) : RegisterFile :=
  list_to_map [(MAGIC, EXPECTED_MAGIC); (VERSION, 1); (DEVICE_ID, 2); (QUEUE_NUM_MAX, num_max); (CONFIG, 2048)].
Definition sample_init (num_max : Z) : option unit * Bus RegisterFile :=
  virtio_init 0x80201000 (mkBus (sample_regs num_max) [] []).


(** *** The capacity *)
Section Capacity.
Context {D : Type} `{MmioDevice D}.

(** The values of [n] consecutive reads of the capacity. *)
Fixpoint capacity_reads (n : nat) (d : D) : list Z :=
  match n with
  | O => []
  | S n => let '(c, d) := dev_read64 d CONFIG in c :: capacity_reads n d
  end.

(** Read [n], counted from 0, gives what the read before it gave; the first is
    compared with [prev]. *)
Definition repeats (prev : Z) (reads : list Z) (n : nat) : Prop := reads !! n = (prev :: reads) !! n.

Lemma read_capacity_loop_spec tries : forall prev (b : Bus D),
  let reads := capacity_reads tries (bus_device b) in
  match read_capacity_loop tries prev b with
  | (Some v, b') => exists n, (n < tries)%nat /\ reads !! n = Some v /\ repeats prev reads n /\
      (forall i, (i < n)%nat -> ~ repeats prev reads i) /\
      bus_log b' = bus_log b ++ map (Read64 CONFIG) (take (S n) reads)
  | (None, b') => (forall i, (i < tries)%nat -> ~ repeats prev reads i) /\
      bus_log b' = bus_log b ++ map (Read64 CONFIG) reads
  end.
Proof.
  induction tries as [|tries IH]; intros prev b; cbn [read_capacity_loop capacity_reads].
  { split; [lia|]. by rewrite app_nil_r. }
  unfold read_volatile_u64, mbind, Drv_bind. destruct (dev_read64 (bus_device b) CONFIG) as [c d].
  set (b1 := mkBus d _ _). destruct (Z.eqb_spec c prev) as [->|Hne].
  { exists 0%nat. split_and!; [lia|done|done|lia|done]. }
  assert (H0 : ~ repeats prev (c :: capacity_reads tries d) 0) by (unfold repeats; simpl; congruence).
  specialize (IH c b1). change (bus_device b1) with d in IH. change (bus_log b1) with (bus_log b ++ [Read64 CONFIG c]) in IH.
  destruct (read_capacity_loop tries c b1) as [[v|] b'].
  - destruct IH as (n & Hn & Hv & Hr & Hi & Hl). exists (S n). split_and!; [lia|done|done| |].
    + intros [|i] Hlt; [exact H0|apply (Hi i); lia].
    + rewrite Hl, <- app_assoc. done.
  - destruct IH as [Hi Hl]. split.
    + intros [|i] Hlt; [exact H0|apply (Hi i); lia].
    + rewrite Hl, <- app_assoc. done.
Qed.
End Capacity.

(** C37: [read_capacity] compares each of at most ten reads with the one before
    it, and the first with zero: it returns the value of the first read that
    repeats the one before, having made no read after it, and panics after
    exactly ten reads when none does.  So a capacity other than zero is confirmed
    by a second read; a first read of zero is returned at once. *)
Theorem read_capacity_is_confirmed {D : Type} `{MmioDevice D} (b : Bus D) :
  let reads := capacity_reads 10 (bus_device b) in
  match read_capacity b with
  | (Some v, b') => exists n, (n < 10)%nat /\ reads !! n = Some v /\ repeats 0 reads n /\
      (forall i, (i < n)%nat -> ~ repeats 0 reads i) /\
      bus_log b' = bus_log b ++ map (Read64 CONFIG) (take (S n) reads)
  | (None, b') => (forall i, (i < 10)%nat -> ~ repeats 0 reads i) /\
      bus_log b' = bus_log b ++ map (Read64 CONFIG) reads
  end.
Proof. apply read_capacity_loop_spec. Qed.

(** A stable capacity is read twice, an initial zero once. *)
Lemma read_capacity_is_confirmed_witness :
  (exists b', read_capacity (mkBus (sample_regs 1024) [] []) = (Some 2048, b') /\
    bus_log b' = [Read64 CONFIG 2048; Read64 CONFIG 2048]) /\
  (exists b', read_capacity (mkBus (∅ : RegisterFile) [] []) = (Some 0, b') /\ bus_log b' = [Read64 CONFIG 0]).
Proof.
  split.
  - pose proof (read_capacity_is_confirmed (mkBus (sample_regs 1024) [] [])) as Hc. cbv zeta in Hc.
    destruct (read_capacity (mkBus (sample_regs 1024) [] [])) as [[v|] b'].
    + destruct Hc as (n & Hn & Hv & Hr & Hi & Hl). exists b'. destruct n as [|[|n]].
      * vm_compute in Hr. discriminate Hr.
      * vm_compute in Hv. injection Hv as <-. split; [reflexivity|]. rewrite Hl. vm_compute. reflexivity.
      * exfalso. apply (Hi 1%nat); [lia|]. vm_compute. reflexivity.
    + exfalso. apply (proj1 Hc 1%nat); [lia|]. vm_compute. reflexivity.
  - pose proof (read_capacity_is_confirmed (mkBus (∅ : RegisterFile) [] [])) as Hc. cbv zeta in Hc.
    destruct (read_capacity (mkBus (∅ : RegisterFile) [] [])) as [[v|] b'].
    + destruct Hc as (n & Hn & Hv & Hr & Hi & Hl). exists b'. destruct n as [|n].
      * vm_compute in Hv. injection Hv as <-. split; [reflexivity|]. rewrite Hl. vm_compute. reflexivity.
      * exfalso. apply (Hi 0%nat); [lia|]. vm_compute. reflexivity.
    + exfalso. apply (proj1 Hc 0%nat); [lia|]. vm_compute. reflexivity.
Defined.

(** The queue needs a page for descriptors and available ring, and the used ring. *)
Example queue_bytes : QUEUE_BYTES = Ret 4614.
Proof. vm_compute. reflexivity. Qed.
