(* ===== verification/ShellHeap.v ===== *)
(** * The shell's heap commands ([src/src/shell.rs])

    [allocate] and [bench] exercise the global allocator through the standard
    library's vectors.  A vector's buffer is an allocation; what matters of its
    contents is the list of its elements, which is kept beside it: pushing a vector
    does not write its header into the buffer, whose words are moved as they are
    when the buffer grows.  The layouts are those of a 64-bit target. *)
From S2P Require Import Prelude Bitmap Memory FreeList Riscv.

(** ** Allocation by the standard library *)
Definition isize_max : Z := 2 ^ 63 - 1.
Definition allocate_or_panic (fuel : nat) (heap : FreeListAllocator) (size align : Z) : comp (Z * FreeListAllocator) :=
  '(p, heap) ← alloc fuel heap size align;
  if p =? 0 then Panic else Ret (p, heap).

Fixpoint zero_words (n : nat) (m : mem) (a : Z) : comp mem :=
  match n with
  | O => Ret m
  | S n => m ← store m a 0; zero_words n m (a + 8)
  end.
(** The bytes [p .. p + size] become zero; [p] is 8-aligned, and the last word
    keeps its bytes above the end. *)
Definition zero_bytes (m : mem) (p size : Z) : comp mem :=
  m ← zero_words (Z.to_nat (size / 8)) m p;
  if size mod 8 =? 0 then Ret m
  else
    let a := p + size / 8 * 8 in
    v ← load m a;
    store m a (v / 2 ^ (8 * (size mod 8)) * 2 ^ (8 * (size mod 8))).

(** [vec![0; size]] of bytes.  An empty vector does not allocate; its pointer
    is dangling. *)
Definition vec_zeroed (fuel : nat) (heap : FreeListAllocator) (size : Z) : comp (Z * FreeListAllocator) :=
  if isize_max <? size then Panic
  else if size =? 0 then Ret (1, heap)
  else
    '(p, heap) ← allocate_or_panic fuel heap size 1;
    m ← zero_bytes (fa_mem heap) p size;
    Ret (p, with_mem heap m).

(** Dropping a vector of [cap] elements of one byte, or a buffer of [cap]
    headers. *)
Definition drop_vec (fuel : nat) (heap : FreeListAllocator) (ptr cap : Z) : comp FreeListAllocator :=
  if cap =? 0 then Ret heap else dealloc fuel heap ptr.

(** [shell_allocate]: the bytes are leaked, and so is the vector's header of 24
    bytes, which the box holds. *)
Definition shell_allocate (fuel : nat) (heap : FreeListAllocator) (size : Z) : comp FreeListAllocator :=
  '(_, heap) ← vec_zeroed fuel heap size;
  '(_, heap) ← allocate_or_panic fuel heap 24 8;
  Ret heap.

(** ** The benchmark *)

(** The buffer of a [Vec<Vec<u8>>]: its pointer and its capacity. *)
Record RawVec := mkRawVec { rv_ptr : Z; rv_cap : Z }.
Definition RawVec_new : RawVec := mkRawVec 8 0.

(** [ptr::copy_nonoverlapping] of bytes between 8-aligned addresses; the last
    word of the destination keeps its bytes above the end. *)
Fixpoint copy_words (n : nat) (m : mem) (src dst : Z) : comp mem :=
  match n with
  | O => Ret m
  | S n => v ← load m src; m ← store m dst v; copy_words n m (src + 8) (dst + 8)
  end.
Definition copy_bytes (m : mem) (src dst size : Z) : comp mem :=
  m ← copy_words (Z.to_nat (size / 8)) m src dst;
  if size mod 8 =? 0 then Ret m
  else
    let k := 8 * (size mod 8) in
    v ← load m (src + size / 8 * 8);
    w ← load m (dst + size / 8 * 8);
    store m (dst + size / 8 * 8) (w / 2 ^ k * 2 ^ k + v mod 2 ^ k).

(** [GlobalAlloc::realloc], which [LockedAllocator] does not override: a new
    block, the copy of what fits, and the old block is freed. *)
Definition realloc (fuel : nat) (heap : FreeListAllocator) (ptr size align new_size : Z) : comp (Z * FreeListAllocator) :=
  '(new_ptr, heap) ← alloc fuel heap new_size align;
  if new_ptr =? 0 then Ret (0, heap)
  else
    m ← copy_bytes (fa_mem heap) ptr new_ptr (Z.min size new_size);
    heap ← dealloc fuel (with_mem heap m) ptr;
    Ret (new_ptr, heap).

(** The amortised growth of a full vector of 24-byte elements. *)
Definition grow_one (fuel : nat) (heap : FreeListAllocator) (v : RawVec) : comp (RawVec * FreeListAllocator) :=
  let cap := Z.max 4 (Z.max (rv_cap v * 2) (rv_cap v + 1)) in
  if isize_max - 7 <? 24 * cap then Panic
  else
    '(p, heap) ← (if rv_cap v =? 0 then alloc fuel heap (24 * cap) 8
                  else realloc fuel heap (rv_ptr v) (24 * rv_cap v) 8 (24 * cap));
    if p =? 0 then Panic else Ret (mkRawVec p cap, heap).

(** [for _ in 0..n { allocations.push(vec![0; size]) }]; the newest first. *)
Fixpoint bench_push (fuel n : nat) (size : Z) (v : RawVec) (allocations : list Z) (heap : FreeListAllocator)
    : comp (RawVec * list Z * FreeListAllocator) :=
  match n with
  | O => Ret (v, allocations, heap)
  | S n =>
      '(p, heap) ← vec_zeroed fuel heap size;
      '(v, heap) ← (if zlen allocations =? rv_cap v then grow_one fuel heap v else Ret (v, heap));
      bench_push fuel n size v (p :: allocations) heap
  end.

(** [for _ in 0..n { drop(allocations.pop().unwrap()) }]. *)
Fixpoint bench_pop (fuel n : nat) (size : Z) (allocations : list Z) (heap : FreeListAllocator)
    : comp (list Z * FreeListAllocator) :=
  match n with
  | O => Ret (allocations, heap)
  | S n =>
      match allocations with
      | [] => Panic
      | p :: allocations => heap ← drop_vec fuel heap p size; bench_pop fuel n size allocations heap
      end
  end.

Definition took (ms : Z) : list Z := str "Took: " ++ show_z ms ++ str "ms" ++ [10].

(** [end_time] is what the time register holds when the loops are done. *)
Definition benchmark_allocator (fuel : nat) (timer_frequency end_time n size : Z) (hart : Hart) (heap : FreeListAllocator)
    : comp (list Z * Hart * FreeListAllocator) :=
  freq ← div_checked timer_frequency 1000;
  start ← div_checked (h_time hart) freq;
  '(v, allocations, heap) ← bench_push fuel (Z.to_nat n) size RawVec_new [] heap;
  '(_, heap) ← bench_pop fuel (Z.to_nat n) size allocations heap;
  let hart := with_time hart end_time in
  end_ ← div_checked (h_time hart) freq;
  ms ← end_ -! start;
  heap ← drop_vec fuel heap (rv_ptr v) (rv_cap v);
  Ret (took ms, hart, heap).
