(* ===== verification/ShellHeapProps.v ===== *)
(** * Properties of the shell's heap commands

    Zeroed buffers, the free list as a function of the live allocations, and
    what [allocate] and [bench] leave behind. *)
From S2P Require Import Prelude Bitmap Memory FreeList HeapSpec HeapProofs HeapInv HeapFree HeapProps PageTable Riscv ShellHeap.

(** ** The free list is determined by what it covers *)
Lemma sorted_head_min lo (l : list iv) i z :
  sorted_above lo (i :: l) -> Forall (fun i => 0 < snd i) (i :: l) -> 0 < covers (i :: l) z -> fst i <= z.
Proof.
  revert lo i. induction l as [|j l IH]; intros lo i [_ Hs] Hp Hc; apply Forall_cons in Hp as [Hi Hp]; simpl in Hc.
  - destruct (iv_has i z) eqn:E; [apply iv_has_spec in E; lia|lia].
  - destruct (iv_has i z) eqn:E; [apply iv_has_spec in E; lia|]. simpl in Hs. destruct Hs as [Hij Hs].
    assert (fst j <= z); [|lia]. apply (IH (fst i + snd i) j); [done|done|simpl; lia].
Qed.

Lemma covers_past lo (l : list iv) z : sorted_above lo l -> Forall (fun i => 0 < snd i) l -> z <= lo -> covers l z = 0.
Proof.
  intros Hs Hp Hz. pose proof (covers_nonneg l z). destruct l as [|i l]; [done|].
  destruct (Z.eq_dec (covers (i :: l) z) 0); [done|]. pose proof (sorted_head_min lo l i z Hs Hp ltac:(lia)).
  destruct Hs. lia.
Qed.

Lemma covers_head lo (l : list iv) i : sorted_above lo (i :: l) -> Forall (fun i => 0 < snd i) (i :: l) ->
  covers (i :: l) (fst i) = 1 /\ covers (i :: l) (fst i + snd i - 1) = 1 /\ covers (i :: l) (fst i + snd i) = 0.
Proof.
  intros [_ Hs] [Hi Hp]%Forall_cons. simpl.
  rewrite !(covers_past (fst i + snd i) l) by (done || lia).
  assert (iv_has i (fst i) = true) as -> by (apply iv_has_spec; lia).
  assert (iv_has i (fst i + snd i - 1) = true) as -> by (apply iv_has_spec; lia).
  assert (iv_has i (fst i + snd i) = false) as -> by (apply not_true_iff_false; rewrite iv_has_spec; lia).
  done.
Qed.

Lemma sorted_cover_unique l : forall lo lo' l',
  sorted_above lo l -> sorted_above lo' l' -> Forall (fun i => 0 < snd i) l -> Forall (fun i => 0 < snd i) l' ->
  (forall z, covers l z = covers l' z) -> l = l'.
Proof.
  induction l as [|i l IH]; intros lo lo' l' Hs Hs' Hp Hp' Hc.
  - destruct l' as [|j l']; [done|]. destruct (covers_head _ _ _ Hs' Hp') as (E & _). rewrite <- Hc in E. done.
  - destruct l' as [|j l'].
    { destruct (covers_head _ _ _ Hs Hp) as (E & _). rewrite Hc in E. done. }
    destruct (covers_head _ _ _ Hs Hp) as (A1 & A2 & A3). destruct (covers_head _ _ _ Hs' Hp') as (B1 & B2 & B3).
    pose proof (sorted_head_min _ _ _ (fst j) Hs Hp ltac:(rewrite Hc, B1; done)) as L1.
    pose proof (sorted_head_min _ _ _ (fst i) Hs' Hp' ltac:(rewrite <- Hc, A1; done)) as L2.
    assert (Ef : fst i = fst j) by lia.
    assert (Es : snd i = snd j).
    { pose proof (Forall_inv Hp) as P1. pose proof (Forall_inv Hp') as P2. simpl in P1, P2.
      destruct (Z.lt_trichotomy (snd i) (snd j)) as [Hlt|[?|Hlt]]; [exfalso|done|exfalso].
      - rewrite Hc in A3. simpl in A3. assert (iv_has j (fst i + snd i) = true) as Hh by (apply iv_has_spec; lia).
        rewrite Hh in A3. pose proof (covers_nonneg l' (fst i + snd i)). lia.
      - rewrite <- Hc in B3. simpl in B3. assert (iv_has i (fst j + snd j) = true) as Hh by (apply iv_has_spec; lia).
        rewrite Hh in B3. pose proof (covers_nonneg l (fst j + snd j)). lia. }
    assert (i = j) as -> by (destruct i, j; simpl in *; congruence). f_equal.
    apply Forall_cons in Hp as [_ Hp], Hp' as [_ Hp']. destruct Hs as [_ Hs], Hs' as [_ Hs'].
    apply (IH (fst j + snd j) (fst j + snd j)); [done..|]. intros z. specialize (Hc z). simpl in Hc. lia.
Qed.

(** ** Zeroing *)
Section Zero.
Context (base hi : Z) (base_pos : 0 < base) (hi_max : hi <= 2 ^ 62).

Lemma zero_words_run h fl al1 a al2 n : forall p,
  heap_inv base hi h fl (al1 ++ a :: al2) -> p mod 8 = 0 -> lv_ptr a <= p -> p + 8 * Z.of_nat n <= lv_ptr a + lv_size a ->
  exists m, zero_words n (fa_mem h) p = Ret m /\ heap_inv base hi (with_mem h m) fl (al1 ++ a :: al2) /\
    forall z, m !! z = if (p <=? z) && (z <? p + 8 * Z.of_nat n) && (z mod 8 =? 0) then Some 0 else fa_mem h !! z.
Proof.
  revert h. induction n as [|n IH]; intros h p Hv Hp Hlo Hhi.
  { exists (fa_mem h). split; [done|]. split; [by destruct h|]. intros z. destruct (_ && _) eqn:E; [lia|done]. }
  cbn [zero_words].
  assert (Hm : is_Some (fa_mem h !! p)).
  { pose proof (hv_live _ _ _ _ _ Hv) as Hl. rewrite Forall_forall in Hl. destruct (Hl a ltac:(set_solver)) as [[] ? ? ? ? ? ?].
    apply (hv_mapped _ _ _ _ _ Hv); [done|lia]. }
  rewrite store_ok by done. cbn [mbind comp_bind].
  assert (Hin : in_payload a p) by (unfold in_payload; lia).
  pose proof (write_inv base hi base_pos hi_max h fl al1 a al2 p 0 Hv Hin) as Hv1.
  destruct (IH (with_mem h (<[p := 0]> (fa_mem h))) (p + 8) Hv1) as (m & E & Hv2 & Hlk);
    [Z.div_mod_to_equations; lia|lia|lia|].
  cbn [fa_mem with_mem] in E, Hlk. exists m. split; [exact E|]. split; [exact Hv2|]. intros z. rewrite Hlk, lookup_insert.
  case_decide; [subst z|].
  - rewrite (proj2 (Z.leb_gt (p + 8) p)) by lia. cbn [andb]. rewrite Z.leb_refl, Hp, (proj2 (Z.ltb_lt _ _)) by lia. done.
  - assert ((p + 8 <=? z) && (z <? p + 8 + 8 * Z.of_nat n) && (z mod 8 =? 0) =
            (p <=? z) && (z <? p + 8 * Z.of_nat (S n)) && (z mod 8 =? 0)) as ->; [|done].
    apply eq_true_iff_eq. rewrite !andb_true_iff, !Z.leb_le, !Z.ltb_lt, !Z.eqb_eq. Z.div_mod_to_equations. lia.
Qed.

(** Copying into an allocation changes nothing outside it. *)
Lemma copy_words_run h fl al1 a al2 n : forall src dst,
  heap_inv base hi h fl (al1 ++ a :: al2) -> src mod 8 = 0 -> base <= src -> src + 8 * Z.of_nat n <= hi ->
  dst mod 8 = 0 -> lv_ptr a <= dst -> dst + 8 * Z.of_nat n <= lv_ptr a + lv_size a ->
  exists m, copy_words n (fa_mem h) src dst = Ret m /\ heap_inv base hi (with_mem h m) fl (al1 ++ a :: al2) /\
    forall z, ~ in_payload a z -> m !! z = fa_mem h !! z.
Proof.
  revert h. induction n as [|n IH]; intros h src dst Hv Hs8 Hs1 Hs2 Hd8 Hd1 Hd2.
  { exists (fa_mem h). split; [done|]. split; [by destruct h|done]. }
  cbn [copy_words].
  assert (Hin : in_payload a dst) by (unfold in_payload; lia).
  assert (Hm : is_Some (fa_mem h !! dst)).
  { pose proof (hv_live _ _ _ _ _ Hv) as Hl. rewrite Forall_forall in Hl. destruct (Hl a ltac:(set_solver)) as [[] ? ? ? ? ? ?].
    apply (hv_mapped _ _ _ _ _ Hv); [done|lia]. }
  destruct (hv_mapped _ _ _ _ _ Hv src Hs8 ltac:(lia)) as [v Hsv]. rewrite (load_ok _ _ _ Hsv). cbn [mbind comp_bind].
  rewrite store_ok by done. cbn [mbind comp_bind].
  pose proof (write_inv base hi base_pos hi_max h fl al1 a al2 dst v Hv Hin) as Hv1.
  destruct (IH (with_mem h (<[dst := v]> (fa_mem h))) (src + 8) (dst + 8) Hv1) as (m & E & Hv2 & Hk);
    [Z.div_mod_to_equations; lia|lia|lia|Z.div_mod_to_equations; lia|lia|lia|].
  cbn [fa_mem with_mem] in E, Hk. exists m. split; [exact E|]. split; [exact Hv2|]. intros z Hz. rewrite Hk by done.
  apply lookup_insert_ne. by intros ->.
Qed.

(** Moving a whole number of words from one allocation into another. *)
Lemma copy_bytes_run h fl a b al size :
  heap_inv base hi h fl (a :: b :: al) -> 0 <= size -> size mod 8 = 0 -> size <= lv_size a -> size <= lv_size b ->
  exists m, copy_bytes (fa_mem h) (lv_ptr b) (lv_ptr a) size = Ret m /\ heap_inv base hi (with_mem h m) fl (a :: b :: al) /\
    payloads_kept h (with_mem h m) (b :: al).
Proof.
  intros Hv Hs H8 Ha Hb. pose proof (hv_live _ _ _ _ _ Hv) as Hl. rewrite Forall_forall in Hl.
  destruct (Hl a ltac:(set_solver)) as [[] Ha8 ? ? ? ? ?]. destruct (Hl b ltac:(set_solver)) as [[] Hb8 ? ? ? ? ?].
  destruct (copy_words_run h fl [] a (b :: al) (Z.to_nat (size / 8)) (lv_ptr b) (lv_ptr a)) as (m & E & Hv1 & Hk);
    [done|done|lia|Z.div_mod_to_equations; lia|done|lia|Z.div_mod_to_equations; lia|].
  exists m. unfold copy_bytes. rewrite E. cbn [mbind comp_bind]. rewrite H8. split_and!; [done|done|].
  intros c z Hc Hz. apply Hk. intros Hza.
  destruct (live_live_apart base hi base_pos hi_max h fl [] a (b :: al) c Hv Hc); destruct (Hl c ltac:(set_solver));
    unfold in_payload in *; lia.
Qed.

Lemma zero_bytes_pages m p n : zero_bytes m p (8 * Z.of_nat n) = zero_words n m p.
Proof.
  unfold zero_bytes. rewrite Z.mul_comm, Z.div_mul, Z.mod_mul, Nat2Z.id by done. cbn [Z.eqb].
  by destruct (zero_words n m p).
Qed.

Lemma zero_bytes_run h fl al1 a al2 size :
  heap_inv base hi h fl (al1 ++ a :: al2) -> 0 <= size <= lv_size a -> lv_size a mod 8 = 0 ->
  exists m, zero_bytes (fa_mem h) (lv_ptr a) size = Ret m /\ heap_inv base hi (with_mem h m) fl (al1 ++ a :: al2) /\
    payloads_kept h (with_mem h m) (al1 ++ al2).
Proof.
  intros Hv Hs Hm8. pose proof (hv_live _ _ _ _ _ Hv) as Hl. rewrite Forall_forall in Hl.
  destruct (Hl a ltac:(set_solver)) as [[] Hp8 ? ? ? ? ?].
  destruct (zero_words_run h fl al1 a al2 (Z.to_nat (size / 8)) (lv_ptr a)) as (m & E & Hv1 & Hlk);
    [done|done|lia|Z.div_mod_to_equations; lia|].
  assert (Hkept : forall m', (forall z, ~ in_payload a z -> m' !! z = fa_mem h !! z) -> payloads_kept h (with_mem h m') (al1 ++ al2)).
  { intros m' Hm' b z Hb Hz. apply Hm'. intros Hza. destruct (live_live_apart base hi base_pos hi_max h fl al1 a al2 b Hv Hb);
      destruct (Hl b ltac:(set_solver)); unfold in_payload in *; lia. }
  assert (Hout : forall z, ~ in_payload a z -> m !! z = fa_mem h !! z).
  { intros z Hz. rewrite Hlk. destruct (_ && _) eqn:Ez; [|done]. exfalso. apply Hz. unfold in_payload.
    Z.div_mod_to_equations; lia. }
  unfold zero_bytes. rewrite E. cbn [mbind comp_bind]. destruct (Z.eqb_spec (size mod 8) 0) as [|Hne].
  { exists m. split_and!; [done|done|by apply Hkept]. }
  set (z := lv_ptr a + size / 8 * 8). assert (Hz : in_payload a z).
  { unfold in_payload, z. Z.div_mod_to_equations. lia. }
  assert (is_Some (m !! z)) as [v Hlv].
  { apply (hv_mapped _ _ _ _ _ Hv1); unfold z, in_payload in *; Z.div_mod_to_equations; lia. }
  rewrite (load_ok _ _ _ Hlv). cbn [mbind comp_bind]. rewrite store_ok by (by eexists).
  eexists. split; [reflexivity|]. split.
  - apply (write_inv base hi base_pos hi_max (with_mem h m) fl al1 a al2 z _ Hv1 Hz).
  - apply Hkept. intros y Hy. rewrite lookup_insert_ne by (intros ->; done). by apply Hout.
Qed.
End Zero.

Section Heap.
Context (base hi : Z) (base_pos : 0 < base) (base_hi : base <= hi) (hi_max : hi <= 2 ^ 62).
Context (fuel : nat) (enough : (hi - base) / 24 <= Z.of_nat fuel).

Lemma block_positive l : Forall (block_ok base hi) l -> Forall (fun i => 0 < snd i) l.
Proof. intros H. eapply Forall_impl; [exact H|]. intros i []. lia. Qed.

Lemma free_list_unique h h' fl fl' al al' :
  heap_inv base hi h fl al -> heap_inv base hi h' fl' al' -> (forall z, covers (map lv_block al) z = covers (map lv_block al') z) ->
  fl = fl'.
Proof.
  intros Hv Hv' Hc. apply (sorted_cover_unique fl (base - 1) (base - 1)).
  - apply Hv.
  - apply Hv'.
  - apply block_positive, Hv.
  - apply block_positive, Hv'.
  - intros z. pose proof (hv_covers _ _ _ _ _ Hv z) as A. pose proof (hv_covers _ _ _ _ _ Hv' z) as B.
    rewrite covers_app in A, B. specialize (Hc z). lia.
Qed.

Lemma covers_perm (l l' : list iv) z : l ≡ₚ l' -> covers l z = covers l' z.
Proof. induction 1; simpl; lia. Qed.

Lemma heap_inv_perm h fl al al' : al ≡ₚ al' -> heap_inv base hi h fl al -> heap_inv base hi h fl al'.
Proof.
  intros Hp [Ht Hm Hseg Hs Hok Hl Hc]. constructor; try done; [by rewrite <- Hp|]. intros z. rewrite <- Hc, !covers_app.
  f_equal. apply covers_perm. apply Permutation_map. by symmetry.
Qed.

(** ** One allocation *)
Lemma payloads_kept_trans h1 h2 h3 al : payloads_kept h1 h2 al -> payloads_kept h2 h3 al -> payloads_kept h1 h3 al.
Proof. intros A B a z Ha Hz. by rewrite (B a z), (A a z). Qed.

Lemma payloads_kept_sub h h' al al' : al' ⊆ al -> payloads_kept h h' al -> payloads_kept h h' al'.
Proof. intros Hs Hk a z Ha. apply Hk. by apply Hs. Qed.

Lemma alloc_step h fl al size align :
  heap_inv base hi h fl al -> layout_ok size align ->
  alloc fuel h size align = Ret (0, h) \/
  exists p h' fl' a, alloc fuel h size align = Ret (p, h') /\ p <> 0 /\ lv_ptr a = p /\ lv_size a = round_up size 8 /\
    heap_inv base hi h' fl' (a :: al) /\ payloads_kept h h' al.
Proof.
  intros Hv Hly. destruct (layout_request _ _ Hly) as (k & Hk & Hal & Hrq).
  pose proof (alloc_run base hi base_pos hi_max h fl al fuel size align k Hv
    (enough_fuel fuel base hi base_hi enough _ _ _ Hv) Hk Hal Hrq) as Hrun.
  destruct (alloc_spec _ _ _) as [[[p md] fl']|]; [right|by left]. destruct Hrun as (h' & E & Hv' & Hkp & _ & Hp).
  exists p, h', fl', (mkLive p (round_up size 8) md). split_and!; try done. lia.
Qed.

Lemma dealloc_step h fl al1 a al2 :
  heap_inv base hi h fl (al1 ++ a :: al2) ->
  exists h' fl', dealloc fuel h (lv_ptr a) = Ret h' /\ heap_inv base hi h' fl' (al1 ++ al2) /\ payloads_kept h h' (al1 ++ al2).
Proof.
  intros Hv. destruct (dealloc_run base hi base_pos hi_max h fl al1 a al2 fuel Hv
    (enough_fuel fuel base hi base_hi enough _ _ _ Hv)) as (h' & E & Hv' & Hk). by exists h', (dealloc_spec (lv_block a) fl).
Qed.

Lemma bytes_layout size : 0 < size <= isize_max -> layout_ok size 1.
Proof. unfold isize_max. intros Hs. split; [lia|]. exists 0. split_and!; lia. Qed.

Lemma headers_layout size : 0 < size <= isize_max - 7 -> layout_ok size 8.
Proof. unfold isize_max. intros Hs. split; [lia|]. exists 3. split_and!; lia. Qed.

(** A vector of zeroes: nothing for an empty one, else one new allocation. *)
Definition vec_lives (size : Z) (ptrs : list Z) (lives : list Live) : Prop :=
  if size =? 0 then lives = [] else map lv_ptr lives = ptrs.

Lemma vec_zeroed_step h fl al size :
  heap_inv base hi h fl al -> 0 <= size ->
  vec_zeroed fuel h size = Panic \/
  exists p h' fl' new, vec_zeroed fuel h size = Ret (p, h') /\ vec_lives size [p] new /\
    heap_inv base hi h' fl' (new ++ al) /\ payloads_kept h h' al.
Proof.
  intros Hv Hs. unfold vec_zeroed, vec_lives. destruct (Z.ltb_spec isize_max size); [by left|].
  destruct (Z.eqb_spec size 0) as [->|Hne]; [right; by exists 1, h, fl, []|].
  destruct (alloc_step h fl al size 1 Hv (bytes_layout size ltac:(lia))) as [E|(p & h1 & fl1 & a & E & Hp & Hap & Has & Hv1 & Hk)];
    unfold allocate_or_panic; rewrite E; cbn [mbind comp_bind]; [by left|]. right.
  rewrite (proj2 (Z.eqb_neq p 0)) by done. cbn [mbind comp_bind].
  destruct (round_up_spec size 3 ltac:(lia)) as [Hr1 Hr2]. change (2 ^ 3) with 8 in *.
  destruct (zero_bytes_run base hi base_pos hi_max h1 fl1 [] a al size Hv1) as (m & Em & Hv2 & Hk2); [rewrite Has; lia|by rewrite Has|].
  rewrite Hap in Em. rewrite Em. cbn [mbind comp_bind]. exists p, (with_mem h1 m), fl1, [a]. split_and!; [done|by rewrite <- Hap|done|].
  by eapply payloads_kept_trans.
Qed.

(** ** The vector of vectors *)
Definition buffer_live (v : RawVec) (lives : list Live) : Prop :=
  0 <= rv_cap v /\ Forall (fun a => 24 * rv_cap v <= lv_size a) lives /\
  if rv_cap v =? 0 then lives = [] else map lv_ptr lives = [rv_ptr v].

Lemma grow_step h fl v buf al :
  buffer_live v buf -> heap_inv base hi h fl (buf ++ al) ->
  grow_one fuel h v = Panic \/
  exists v' h' fl' buf', grow_one fuel h v = Ret (v', h') /\ buffer_live v' buf' /\
    heap_inv base hi h' fl' (buf' ++ al) /\ payloads_kept h h' al.
Proof.
  intros (Hc & Hbs & Hb) Hv. unfold grow_one. set (cap := Z.max 4 _). destruct (Z.ltb_spec (isize_max - 7) (24 * cap)); [by left|].
  pose proof (headers_layout (24 * cap) ltac:(lia)) as Hly.
  destruct (alloc_step h fl (buf ++ al) _ 8 Hv Hly) as [E|(p & h1 & fl1 & a & E & Hp & Hap & Has & Hv1 & Hk)].
  { left. unfold realloc. rewrite E. by destruct (_ =? 0). }
  assert (Hnew : buffer_live (mkRawVec p cap) [a]).
  { unfold buffer_live. simpl. split; [lia|]. rewrite (proj2 (Z.eqb_neq cap 0)) by lia. rewrite Hap. split; [|done].
    constructor; [|done]. rewrite Has. apply round_up_le. }
  right. destruct (Z.eqb_spec (rv_cap v) 0) as [Hz|Hz].
  - subst buf. rewrite E. cbn [mbind comp_bind]. rewrite (proj2 (Z.eqb_neq p 0)) by done.
    exists (mkRawVec p cap), h1, fl1, [a]. split; [done|]. split; [by apply Hnew|by split].
  - destruct buf as [|b [|? ?]]; try done. injection Hb as Hbp. apply Forall_cons in Hbs as [Hbs _].
    unfold realloc. rewrite E. cbn [mbind comp_bind]. rewrite (proj2 (Z.eqb_neq p 0)) by done. rewrite <- Hbp, Z.min_l by lia.
    pose proof (round_up_le (24 * cap)).
    destruct (copy_bytes_run base hi base_pos hi_max h1 fl1 a b al (24 * rv_cap v)) as (m & Em & Hvm & Hkm);
      [done|lia|Z.div_mod_to_equations; lia|lia|done|]. rewrite Hap in Em. rewrite Em. cbn [mbind comp_bind].
    destruct (dealloc_step (with_mem h1 m) fl1 [a] b al Hvm) as (h2 & fl2 & E2 & Hv2 & Hk2). rewrite E2. cbn [mbind comp_bind].
    rewrite (proj2 (Z.eqb_neq p 0)) by done. exists (mkRawVec p cap), h2, fl2, [a]. split; [done|].
    split; [by apply Hnew|split; [done|]].
    eapply payloads_kept_trans; [eapply payloads_kept_sub; [|exact Hk]; set_solver|].
    eapply payloads_kept_trans; [eapply payloads_kept_sub; [|exact Hkm]; set_solver|].
    eapply payloads_kept_sub; [|exact Hk2]; set_solver.
Qed.

Lemma bench_push_step n size : 0 <= size -> forall h fl v ptrs buf vecs al,
  buffer_live v buf -> vec_lives size ptrs vecs -> heap_inv base hi h fl (buf ++ vecs ++ al) ->
  bench_push fuel n size v ptrs h = Panic \/
  exists v' ptrs' h' fl' buf' vecs', bench_push fuel n size v ptrs h = Ret (v', ptrs', h') /\
    buffer_live v' buf' /\ vec_lives size ptrs' vecs' /\ length ptrs' = (n + length ptrs)%nat /\
    heap_inv base hi h' fl' (buf' ++ vecs' ++ al) /\ payloads_kept h h' al.
Proof.
  intros Hsz. induction n as [|n IH]; intros h fl v ptrs buf vecs al Hb Hvs Hv.
  { right. by exists v, ptrs, h, fl, buf, vecs. }
  cbn [bench_push]. destruct (vec_zeroed_step h fl _ size Hv Hsz) as [->|(p & h1 & fl1 & new & -> & Hn & Hv1 & Hk1)]; [by left|].
  cbn [mbind comp_bind].
  assert (Hvs1 : vec_lives size (p :: ptrs) (new ++ vecs)).
  { unfold vec_lives in *. destruct (size =? 0); [by subst|]. by rewrite map_app, Hn, Hvs. }
  assert (Hv1' : heap_inv base hi h1 fl1 (buf ++ (new ++ vecs) ++ al)).
  { eapply heap_inv_perm; [|exact Hv1]. solve_Permutation. }
  apply (payloads_kept_sub _ _ _ al) in Hk1; [|set_solver].
  assert (Hgrow : forall v1 h2 fl2 buf1, buffer_live v1 buf1 -> heap_inv base hi h2 fl2 (buf1 ++ (new ++ vecs) ++ al) ->
    payloads_kept h1 h2 al ->
    bench_push fuel n size v1 (p :: ptrs) h2 = Panic \/
    exists v' ptrs' h' fl' buf' vecs', bench_push fuel n size v1 (p :: ptrs) h2 = Ret (v', ptrs', h') /\
      buffer_live v' buf' /\ vec_lives size ptrs' vecs' /\ length ptrs' = (S n + length ptrs)%nat /\
      heap_inv base hi h' fl' (buf' ++ vecs' ++ al) /\ payloads_kept h h' al).
  { intros v1 h2 fl2 buf1 Hb1 Hv2 Hk2.
    destruct (IH h2 fl2 v1 (p :: ptrs) buf1 (new ++ vecs) al Hb1 Hvs1 Hv2)
      as [->|(v' & ptrs' & h' & fl' & buf' & vecs' & -> & ? & ? & Hl & ? & Hk3)]; [by left|right].
    exists v', ptrs', h', fl', buf', vecs'. split_and!; try done; [simpl in Hl; lia|].
    eapply payloads_kept_trans; [exact Hk1|]. by eapply payloads_kept_trans. }
  destruct (_ =? rv_cap v); [|by eapply Hgrow].
  destruct (grow_step h1 fl1 v buf _ Hb Hv1') as [->|(v1 & h2 & fl2 & buf1 & -> & Hb1 & Hv2 & Hk2)]; [by left|].
  cbn [mbind comp_bind]. eapply Hgrow; [done|done|]. eapply payloads_kept_sub; [|exact Hk2]. set_solver.
Qed.

Lemma bench_pop_step size n : forall h fl ptrs vecs buf al,
  vec_lives size ptrs vecs -> length ptrs = n -> heap_inv base hi h fl (buf ++ vecs ++ al) ->
  exists h' fl', bench_pop fuel n size ptrs h = Ret ([], h') /\ heap_inv base hi h' fl' (buf ++ al) /\ payloads_kept h h' al.
Proof.
  induction n as [|n IH]; intros h fl ptrs vecs buf al Hvs Hl Hv; (destruct ptrs as [|p ptrs]; [|]; try done).
  { exists h, fl. split_and!; try done. unfold vec_lives in Hvs. destruct (size =? 0); [by subst|]. by destruct vecs. }
  injection Hl as Hl. cbn [bench_pop]. unfold drop_vec, vec_lives in *. destruct (Z.eqb_spec size 0) as [->|Hne].
  - cbn [mbind comp_bind]. apply (IH h fl ptrs vecs); done.
  - destruct vecs as [|a vecs]; [done|]. injection Hvs as Hp Hvs. rewrite <- Hp.
    destruct (dealloc_step h fl buf a (vecs ++ al) Hv) as (h1 & fl1 & -> & Hv1 & Hk1). cbn [mbind comp_bind].
    destruct (IH h1 fl1 ptrs vecs buf al Hvs Hl Hv1) as (h2 & fl2 & -> & Hv2 & Hk2). exists h2, fl2. split_and!; [done..|].
    eapply payloads_kept_trans; [|exact Hk2]. eapply payloads_kept_sub; [|exact Hk1]. set_solver.
Qed.

Lemma drop_buffer_step h fl v buf al :
  buffer_live v buf -> heap_inv base hi h fl (buf ++ al) ->
  exists h' fl', drop_vec fuel h (rv_ptr v) (rv_cap v) = Ret h' /\ heap_inv base hi h' fl' al /\ payloads_kept h h' al.
Proof.
  intros (_ & _ & Hb) Hv. unfold drop_vec. destruct (rv_cap v =? 0); [subst; by exists h, fl|].
  destruct buf as [|b [|? ?]]; try done. injection Hb as <-. by apply (dealloc_step h fl [] b al).
Qed.

(** ** The commands *)
Lemma benchmark_run h fl al timer_frequency end_time n size hart :
  heap_inv base hi h fl al -> 0 <= n -> 0 <= size ->
  let freq := timer_frequency / 1000 in
  benchmark_allocator fuel timer_frequency end_time n size hart h = Panic \/
  exists h', benchmark_allocator fuel timer_frequency end_time n size hart h =
      Ret (took (end_time / freq - h_time hart / freq), with_time hart end_time, h') /\
    freq <> 0 /\ heap_inv base hi h' fl al /\ payloads_kept h h' al.
Proof.
  intros Hv Hn Hs freq. unfold benchmark_allocator, div_checked. cbn [Z.eqb mbind comp_bind]. fold freq.
  destruct (Z.eqb_spec freq 0); [by left|]. cbn [mbind comp_bind].
  destruct (bench_push_step (Z.to_nat n) size Hs h fl RawVec_new [] [] [] al)
    as [->|(v & ptrs & h1 & fl1 & buf & vecs & -> & Hb & Hvs & Hl & Hv1 & Hk1)]; [done|by unfold vec_lives; destruct (_ =? _)|done|by left|].
  cbn [mbind comp_bind].
  destruct (bench_pop_step size (Z.to_nat n) h1 fl1 ptrs vecs buf al) as (h2 & fl2 & -> & Hv2 & Hk2); [done|simpl in Hl; lia|done|].
  cbn [mbind comp_bind h_time with_time]. unfold sub_ovf. destruct (_ <=? _); [|by left]. cbn [mbind comp_bind].
  destruct (drop_buffer_step h2 fl2 v buf al Hb Hv2) as (h3 & fl3 & -> & Hv3 & Hk3). cbn [mbind comp_bind]. right.
  exists h3. split; [done|]. split; [done|]. split.
  - by rewrite (free_list_unique h h3 fl fl3 al al Hv Hv3).
  - eapply payloads_kept_trans; [exact Hk1|]. by eapply payloads_kept_trans.
Qed.

Lemma shell_allocate_run h fl al size :
  heap_inv base hi h fl al -> 0 <= size ->
  shell_allocate fuel h size = Panic \/
  exists h' fl' new, shell_allocate fuel h size = Ret h' /\ heap_inv base hi h' fl' (new ++ al) /\
    length new = (if size =? 0 then 1%nat else 2%nat) /\ payloads_kept h h' al.
Proof.
  intros Hv Hs. unfold shell_allocate.
  destruct (vec_zeroed_step h fl al size Hv Hs) as [->|(p & h1 & fl1 & new & -> & Hn & Hv1 & Hk1)]; [by left|].
  cbn [mbind comp_bind]. unfold allocate_or_panic.
  destruct (alloc_step h1 fl1 _ 24 8 Hv1 (headers_layout 24 ltac:(unfold isize_max; lia)))
    as [->|(q & h2 & fl2 & a & -> & Hq & _ & _ & Hv2 & Hk2)]; cbn [mbind comp_bind]; [by left|]. right.
  rewrite (proj2 (Z.eqb_neq q 0)) by done. cbn [mbind comp_bind]. exists h2, fl2, (a :: new). split_and!; [done|done| |].
  - unfold vec_lives in Hn. destruct (size =? 0); [by subst|]. destruct new as [|? [|? ?]]; done.
  - eapply payloads_kept_trans; [exact Hk1|]. eapply payloads_kept_sub; [|exact Hk2]. set_solver.
Qed.
End Heap.

(** ** Properties *)

(** C34: The benchmark leaves no trace in the heap.  Whatever the number and the
    size of its vectors, it either panics (out of memory, a vector or a buffer
    beyond the address space, a clock that runs backwards or whose frequency is
    below 1 kHz) or frees everything it allocated: the same allocations are
    live, their contents are untouched, and the free list is the one it found,
    block for block.  It prints the milliseconds between the two readings of
    the clock. *)
Theorem benchmark_restores_heap base hi fuel h fl al timer_frequency end_time n size hart :
  0 < base -> base <= hi <= 2 ^ 62 -> (hi - base) / 24 <= Z.of_nat fuel ->
  heap_inv base hi h fl al -> 0 <= n -> 0 <= size ->
  let freq := timer_frequency / 1000 in
  benchmark_allocator fuel timer_frequency end_time n size hart h = Panic \/
  exists h', benchmark_allocator fuel timer_frequency end_time n size hart h =
      Ret (took (end_time / freq - h_time hart / freq), with_time hart end_time, h') /\
    freq <> 0 /\ heap_inv base hi h' fl al /\ payloads_kept h h' al /\ fa_head h' = fa_head h.
Proof.
  intros Hb [Hh1 Hh2] Hf Hv Hn Hs freq.
  destruct (benchmark_run base hi Hb Hh1 Hh2 fuel Hf h fl al timer_frequency end_time n size hart Hv Hn Hs)
    as [E|(h' & E & Hz & Hv' & Hk)]; [by left|right]. exists h'. split_and!; [done..|].
  pose proof (hv_seg _ _ _ _ _ Hv) as S1. pose proof (hv_seg _ _ _ _ _ Hv') as S2. destruct fl as [|i fl]; [by rewrite S1, S2|].
  by rewrite (proj1 S1), (proj1 S2).
Qed.

(** ** Witness: five vectors of ten bytes in a heap of three pages *)
Definition page_heap_mem : mem := zero_mem 1600 64.

Lemma page_heap_bounds : heap_bounds 64 12352.
Proof. by constructor. Qed.

Lemma page_heap_mapped : mapped page_heap_mem (heap_base 64) (heap_hi 64 12352).
Proof.
  intros a Ha Hr. change (heap_base 64) with 64 in Hr. change (heap_hi 64 12352) with 12328 in Hr.
  replace a with (64 + 8 * ((a - 64) / 8)) by (Z.div_mod_to_equations; lia).
  unfold page_heap_mem. rewrite zero_mem_lookup by (Z.div_mod_to_equations; lia). by eexists.
Qed.

Lemma page_heap_range : 0 < heap_base 64 /\ heap_base 64 <= heap_hi 64 12352 <= 2 ^ 62.
Proof. change (heap_base 64) with 64. change (heap_hi 64 12352) with 12328. lia. Qed.

Lemma page_heap_fuel : (heap_hi 64 12352 - heap_base 64) / 24 <= Z.of_nat 600.
Proof. change (heap_base 64) with 64. change (heap_hi 64 12352) with 12328. Z.div_mod_to_equations. lia. Qed.

Lemma bench_runs :
  match (h ← init (FreeListAllocator_new page_heap_mem) 64 12352;
         benchmark_allocator 600 10000000 2500000 5 10 (mkHart 0 0 0 0 0 20000 0) h) with
  | Ret (text, _, _) => text = took 248
  | _ => False
  end.
Proof. vm_compute. reflexivity. Qed.

Lemma benchmark_restores_heap_witness :
  exists h h' hart', init (FreeListAllocator_new page_heap_mem) 64 12352 = Ret h /\
    benchmark_allocator 600 10000000 2500000 5 10 (mkHart 0 0 0 0 0 20000 0) h = Ret (took 248, hart', h') /\
    fa_head h' = fa_head h.
Proof.
  destruct (init_run page_heap_mem 64 12352 page_heap_bounds page_heap_mapped) as (h & E & Hv).
  pose proof (benchmark_restores_heap (heap_base 64) (heap_hi 64 12352) 600 h _ [] 10000000 2500000 5 10 (mkHart 0 0 0 0 0 20000 0)
    (proj1 page_heap_range) (proj2 page_heap_range) page_heap_fuel Hv ltac:(discriminate) ltac:(discriminate)) as Hbench.
  pose proof bench_runs as Hr. rewrite E in Hr. cbn [mbind comp_bind] in Hr.
  destruct Hbench as [Ep|(h' & Er & _ & _ & _ & Hh)]; [rewrite Ep in Hr; destruct Hr|].
  exists h, h', (with_time (mkHart 0 0 0 0 0 20000 0) 2500000). split; [exact E|]. split; [exact Er|exact Hh].
Defined.
