(* ===== verification/Shell.v ===== *)
(** * The shell ([src/src/shell.rs])

    The command history, the line editor over the UART, the command parser and
    the commands.  The bytes the UART delivers are a list, in which the polling
    of the line status register disappears; what is printed is appended to the
    list of the bytes sent.  Strings are UTF-8 bytes.  The commands that exercise
    the heap are in [ShellHeap]. *)
From S2P Require Import Prelude Bitmap Bytes Layout INode DirEntry BlockDev INodeCache SuperBlock Filesystem KernelFs.
From S2P Require Import Memory FreeList Riscv PhysRange DeviceTree ShellHeap.

(** ** Standard library strings *)

(** [char::is_whitespace] on the UTF-8 bytes at the front of a string: the
    number of bytes of the white-space character there. *)
Definition whitespace_len (s : list Z) : nat :=
  match s with
  | 0xC2 :: b :: _ => if (b =? 0x85) || (b =? 0xA0) then 2%nat else 0%nat
  | 0xE1 :: 0x9A :: 0x80 :: _ => 3%nat
  | 0xE2 :: 0x80 :: b :: _ =>
      if in_range 0x80 0x8A b || (b =? 0xA8) || (b =? 0xA9) || (b =? 0xAF) then 3%nat else 0%nat
  | 0xE2 :: 0x81 :: 0x9F :: _ => 3%nat
  | 0xE3 :: 0x80 :: 0x80 :: _ => 3%nat
  | b :: _ => if in_range 9 13 b || (b =? 32) then 1%nat else 0%nat
  | [] => 0%nat
  end.

(** The same at the end of a string, given in reverse. *)
Definition whitespace_len_rev (r : list Z) : nat :=
  match r with
  | b :: 0xC2 :: _ => if (b =? 0x85) || (b =? 0xA0) then 2%nat else 0%nat
  | 0x80 :: 0x9A :: 0xE1 :: _ => 3%nat
  | b :: 0x80 :: 0xE2 :: _ =>
      if in_range 0x80 0x8A b || (b =? 0xA8) || (b =? 0xA9) || (b =? 0xAF) then 3%nat else 0%nat
  | 0x9F :: 0x81 :: 0xE2 :: _ => 3%nat
  | 0x80 :: 0x80 :: 0xE3 :: _ => 3%nat
  | b :: _ => if in_range 9 13 b || (b =? 32) then 1%nat else 0%nat
  | [] => 0%nat
  end.

Fixpoint trim_by (fuel : nat) (ws : list Z -> nat) (s : list Z) : list Z :=
  match fuel with
  | O => s
  | S fuel => match ws s with O => s | n => trim_by fuel ws (drop n s) end
  end.

(** [str::trim]. *)
Definition trim (s : list Z) : list Z :=
  let s := trim_by (length s) whitespace_len s in
  rev (trim_by (length s) whitespace_len_rev (rev s)).

(** [c as char] of a byte, as [String::push] encodes it. *)
Definition encode_char (c : Z) : list Z := if c <? 128 then [c] else [192 + c / 64; 128 + c mod 64].

(** [String::pop]: the bytes up to and including the last lead byte go. *)
Fixpoint pop_rev (r : list Z) : option (list Z) :=
  match r with
  | [] => None
  | b :: r => if utf8_cont b then pop_rev r else Some r
  end.
Definition pop (s : list Z) : option (list Z) := match pop_rev (rev s) with Some r => Some (rev r) | None => None end.

(** [[&str]::join]. *)
Fixpoint join (sep : list Z) (parts : list (list Z)) : list Z :=
  match parts with
  | [] => []
  | [p] => p
  | p :: parts => p ++ sep ++ join sep parts
  end.

(** ** [CommandHistory] *)
Definition HISTORY_CAPACITY : Z := 100.

Definition history_push (entries : list (list Z)) (line : list Z) : list (list Z) :=
  if bool_decide (trim line = []) then entries
  else if bool_decide (last entries = Some line) then entries
  else
    let entries := if zlen entries =? HISTORY_CAPACITY then tail entries else entries in
    entries ++ [line].

Fixpoint history_print (index : Z) (entries : list (list Z)) : list Z :=
  match entries with
  | [] => []
  | command :: entries => pad_left 4 (show_z (index + 1)) ++ str "  " ++ command ++ [NL] ++ history_print (index + 1) entries
  end.

(** ** The line editor *)
Inductive InputState := Normal | Escape | ControlSequence.

Record Editor := mkEditor {
  ed_s : list Z;
  ed_draft : list Z;
  ed_history_index : Z;
  ed_input_state : InputState;
  ed_out : list Z;
}.

Definition ASCII_ESCAPE : Z := 27.
Definition ASCII_BACKSPACE : Z := 8.
Definition ASCII_DELETE : Z := 127.
Definition CR : Z := 13.

Definition redraw_line (line : list Z) : list Z := CR :: ASCII_ESCAPE :: str "[2K> " ++ line.

(** One byte other than the carriage return. *)
Definition editor_step (history : list (list Z)) (e : Editor) (c : Z) : comp Editor :=
  let '(mkEditor s draft history_index input_state out) := e in
  match input_state with
  | Escape => Ret (mkEditor s draft history_index (if c =? 91 then ControlSequence else Normal) out)
  | ControlSequence =>
      if (c =? 65) && (0 <? history_index) then
        let draft := if history_index =? zlen history then s else draft in
        history_index ← history_index -! 1;
        s ← index history history_index;
        Ret (mkEditor s draft history_index Normal (out ++ redraw_line s))
      else if (c =? 66) && (history_index <? zlen history) then
        history_index ← history_index +! 1;
        s ← (if history_index =? zlen history then Ret draft else index history history_index);
        Ret (mkEditor s draft history_index Normal (out ++ redraw_line s))
      else Ret (mkEditor s draft history_index Normal out)
  | Normal =>
      if c =? ASCII_ESCAPE then Ret (mkEditor s draft history_index Escape out)
      else if (c =? ASCII_DELETE) || (c =? ASCII_BACKSPACE) then
        match pop s with
        | Some s => Ret (mkEditor s draft history_index Normal (out ++ [8; 32; 8]))
        | None => Ret e
        end
      else Ret (mkEditor (s ++ encode_char c) draft history_index Normal (out ++ encode_char c))
  end.

(** The loop; [None] when the input ends and the editor is still waiting. *)
Fixpoint read_loop (history : list (list Z)) (e : Editor) (input : list Z)
    : comp (option (list Z * list Z) * list Z) :=
  match input with
  | [] => Ret (None, ed_out e)
  | c :: input =>
      if c =? CR then Ret (Some (ed_s e, input), ed_out e ++ [NL])
      else e ← editor_step history e c; read_loop history e input
  end.

Definition editor_start (history : list (list Z)) : Editor := mkEditor [] [] (zlen history) Normal (str "> ").

Definition read_line_and_display (history : list (list Z)) (input : list Z)
    : comp (option (list Z * list Z) * list Z) := read_loop history (editor_start history) input.

(** ** Commands *)
Definition percentage_tenths (part total : Z) : comp Z :=
  if total =? 0 then Ret 0 else Ret (saturating_add (saturating_mul part 1000) (total / 2) / total).

Definition normalize_root_path (path : list Z) : list Z := if starts_with path (str "/") then path else 47 :: path.

Inductive ShellCommand :=
| Hello | Exit | MemoryDump | Timer (secs : Z) | SysInfo | Uptime | Help | Allocate (size : Z) | Bench (n size : Z)
| Ls (path : list Z) | Mkdir (name : list Z) | DumpFs | Write (path text : list Z) | Cat (path : list Z)
| Touch (path : list Z) | Rm (path : list Z) | Tree | Flush | History.

(** [parts.get(i).and_then(|n| n.parse().ok())]. *)
Definition number_at (parts : list (list Z)) (i : nat) : option Z := parts !! i ≫= parse_usize.

Definition is_command (command : list Z) (name : String.string) : bool := bool_decide (command = str name).
Arguments is_command command name%_string.

Definition from_line (line : list Z) : comp (option ShellCommand) :=
  let parts := split_on 32 (trim line) in
  match parts with
  | [] => Ret None
  | command :: _ =>
      if is_command command "hello" then Ret (Some Hello)
      else if is_command command "exit" then Ret (Some Exit)
      else if is_command command "memory" then Ret (Some MemoryDump)
      else if is_command command "uptime" then Ret (Some Uptime)
      else if is_command command "sysinfo" then Ret (Some SysInfo)
      else if is_command command "tree" then Ret (Some Tree)
      else if is_command command "history" then Ret (Some History)
      else if is_command command "bench" then
        Ret (n ← number_at parts 1; size ← number_at parts 2; Some (Bench n size))
      else if is_command command "allocate" then Ret (n ← number_at parts 1; Some (Allocate n))
      else if is_command command "timer" then Ret (secs ← number_at parts 1; Some (Timer secs))
      else if is_command command "help" then Ret (Some Help)
      else if is_command command "mkdir" then Ret (name ← parts !! 1%nat; Some (Mkdir (normalize_root_path name)))
      else if is_command command "touch" then Ret (name ← parts !! 1%nat; Some (Touch (normalize_root_path name)))
      else if is_command command "rm" then Ret (path ← parts !! 1%nat; Some (Rm (normalize_root_path path)))
      else if is_command command "ls" then Ret (Some (Ls (normalize_root_path (default (str ".") (parts !! 1%nat)))))
      else if is_command command "dumpfs" then Ret (Some DumpFs)
      else if is_command command "flush" then Ret (Some Flush)
      else if is_command command "write" then
        assert (2 <=? zlen parts) ;;
        Ret (path ← parts !! 1%nat; Some (Write (normalize_root_path path) (join [32] (drop 2 parts))))
      else if is_command command "cat" then Ret (path ← parts !! 1%nat; Some (Cat (normalize_root_path path)))
      else Ret None
  end.

(** ** Running a command *)

(** [Debug] of [filesystem::Error]; [Display] is the same. *)
Definition show_error (e : Error) : list Z :=
  match e with
  | NotADirectory => str "NotADirectory" | IsDirectory => str "IsDirectory" | FileTooLarge => str "FileTooLarge"
  | NoSpaceLeft => str "NoSpaceLeft" | EntryExists => str "EntryExists" | EmptyName => str "EmptyName"
  | NameTooLong => str "NameTooLong" | NotFound => str "NotFound" | NotEmpty => str "NotEmpty"
  | NoFreeInodeBlocks => str "NoFreeInodeBlocks" | NoFreeInodes => str "NoFreeInodes"
  | OperationNotSupported => str "OperationNotSupported" | CorruptedRoot => str "CorruptedRoot"
  | InvalidSuperblock => str "InvalidSuperblock" | DeviceTooSmall => str "DeviceTooSmall"
  | UnsupportedFilesystemVersion v => str "UnsupportedFilesystemVersion(" ++ show_z v ++ str ")"
  end.

Definition hello : list Z := str "Hello there :)" ++ [NL].

Definition help : list Z := concat (map (fun l => l ++ [NL]) [
  str "Available commands:";
  str "  help                -- show this help menu";
  str "  exit                -- shutdown the OS";
  str "  sysinfo             -- print system information";
  str "  memory              -- show the current state of the global kernel allocator";
  str "  timer <n>           -- set a timer for N seconds which will cause an interrupt";
  str "  ls                  -- show directories";
  str "  mkdir <name>        -- creates a new directory";
  str "  touch <name>        -- creates a new file";
  str "  rm <path>           -- removes a file";
  str "  dumpfs              -- dump of the filesystem";
  str "  cat <file>          -- print content of file to the console";
  str "  uptime              -- show for how long the system is running";
  str "  write <file> <text> -- write text to the file";
  str "  tree                -- show a tree view of the filesystem";
  str "  flush               -- flush filesystem metadata to disk";
  str "  history             -- show recently entered commands";
  str "  allocate <n>        -- allocate memory of size n to test the kernel allocator"]).

(** [exit_qemu] of [src/src/lib.rs]: the reason of the SBI system reset. *)
Definition exit_qemu (exit_code : Z) : Z := if exit_code =? 0 then 0 else 1.

(** [memory]: the report on the allocator's statistics. *)
Definition kib (n : Z) : list Z := show_z n ++ str " bytes (" ++ show_z (n / 1024) ++ str " KiB".
Definition percent (p : Z) : list Z := show_z (p / 10) ++ str "." ++ show_z (p mod 10) ++ str "%)".
Definition memory (fuel : nat) (heap : FreeListAllocator) : comp (list Z) :=
  stats ← stats fuel heap;
  used_percent ← percentage_tenths (ms_used stats) (ms_total stats);
  free_percent ← percentage_tenths (ms_free stats) (ms_total stats);
  Ret (str "Heap memory:" ++ [NL] ++
       str "  Used:  " ++ kib (ms_used stats) ++ str ", " ++ percent used_percent ++ [NL] ++
       str "  Free:  " ++ kib (ms_free stats) ++ str ", " ++ percent free_percent ++ [NL] ++
       str "  Total: " ++ kib (ms_total stats) ++ str ")" ++ [NL] ++
       str "  Free blocks: " ++ show_z (ms_free_blocks stats) ++ [NL] ++
       str "  Largest free block: " ++ kib (ms_largest_free_block stats) ++ str ")" ++ [NL]).

Definition sysinfo (info : option SystemInfo) : comp (list Z) :=
  cpus ← cpus info;
  cpu_isa ← cpu_isa info;
  total_memory ← total_memory info;
  timer_frequency ← timer_frequency info;
  Ret (str "Kernel: LemonShark v0.0.1" ++ [NL] ++
       str "CPUs: " ++ show_z cpus ++ str " (" ++ cpu_isa ++ str ")" ++ [NL] ++
       str "Timer frequency: " ++ show_z (timer_frequency / 1000 / 1000) ++ str "MHz" ++ [NL] ++
       str "Total memory: " ++ show_z (total_memory / 1024 / 1024) ++ str "MB" ++ [NL]).

Section Shell.
Context {B : Type} `{Blk : VirtIOBlk B}.

(** What the commands act on: the filesystem, the heap, the registers of the
    hart, the device tree, the bytes sent to the UART, and the reason of a
    system reset once one is requested. *)
Record Machine := mkMachine {
  mc_fs : option (Filesystem (KernelBlockDevice B));
  mc_heap : FreeListAllocator;
  mc_hart : Hart;
  mc_sysinfo : option SystemInfo;
  mc_uart : list Z;
  mc_reset : option Z;
}.
Definition print (bytes : list Z) (m : Machine) : Machine :=
  mkMachine (mc_fs m) (mc_heap m) (mc_hart m) (mc_sysinfo m) (mc_uart m ++ bytes) (mc_reset m).
Definition set_fs g (m : Machine) := mkMachine g (mc_heap m) (mc_hart m) (mc_sysinfo m) (mc_uart m) (mc_reset m).
Definition set_heap h (m : Machine) := mkMachine (mc_fs m) h (mc_hart m) (mc_sysinfo m) (mc_uart m) (mc_reset m).
Definition set_hart h (m : Machine) := mkMachine (mc_fs m) (mc_heap m) h (mc_sysinfo m) (mc_uart m) (mc_reset m).
Definition set_reset r (m : Machine) := mkMachine (mc_fs m) (mc_heap m) (mc_hart m) (mc_sysinfo m) (mc_uart m) r.

(** The clock at the end of a benchmark that starts in some machine, and the
    fuel of the heap's list and of the directory tree. *)
Context (bench_end : Z -> Z -> Machine -> Z) (fuel : nat).

(** A filesystem command that prints its error after [what]. *)
Definition report {R : Type} (what : list Z) (c : comp (result Error R * option (Filesystem (KernelBlockDevice B))))
    (show : R -> list Z) (m : Machine) : comp Machine :=
  '(r, g) ← c;
  let m := set_fs g m in
  Ret match r with
      | Ok a => print (show a) m
      | Err e => print (what ++ str ": " ++ show_error e ++ [NL]) m
      end.

Definition silent {R : Type} (a : R) : list Z := [].

Definition call (command : ShellCommand) (history : list (list Z)) (m : Machine) : comp Machine :=
  match command with
  | Help => Ret (print help m)
  | Hello => Ret (print hello m)
  | Exit => g ← api_flush (mc_fs m); Ret (set_reset (Some (exit_qemu 0)) (set_fs g m))
  | SysInfo => text ← sysinfo (mc_sysinfo m); Ret (print text m)
  | MemoryDump => text ← memory fuel (mc_heap m); Ret (print text m)
  | Bench n size =>
      freq ← timer_frequency (mc_sysinfo m);
      '(text, hart, heap) ← benchmark_allocator fuel freq (bench_end n size m) n size (mc_hart m) (mc_heap m);
      Ret (print text (set_hart hart (set_heap heap m)))
  | Allocate size => heap ← shell_allocate fuel (mc_heap m) size; Ret (set_heap heap m)
  | Timer secs =>
      freq ← timer_frequency (mc_sysinfo m);
      hart ← new_time freq (mc_hart m) secs;
      Ret (set_hart hart m)
  | Ls path => report (str "ls failed") (api_dump_dir (mc_fs m) path) (fun out => out) m
  | Mkdir name => report (str "mkdir failed") (api_mkdir (mc_fs m) name) silent m
  | Touch path => report (str "touch failed") (api_create_file (mc_fs m) path) silent m
  | Rm path => report (str "rm failed") (api_remove_dir_entry (mc_fs m) path) silent m
  | DumpFs => text ← api_dump (mc_fs m); Ret (print text m)
  | Cat path => report (str "cat failed") (api_read_file (mc_fs m) path) (fun output => output ++ [NL]) m
  | Uptime =>
      freq ← timer_frequency (mc_sysinfo m);
      time ← uptime freq (mc_hart m);
      Ret (print (str "Currently running for " ++ show_z time ++ str "s" ++ [NL]) m)
  | Write path text => report (str "Writing to file failed") (api_write_to_file (mc_fs m) path text) silent m
  | Tree => '(text, g) ← api_tree fuel (mc_fs m); Ret (print text (set_fs g m))
  | Flush => g ← api_flush (mc_fs m); Ret (set_fs g m)
  | History => Ret (print (history_print 0 history) m)
  end.

(** One line: the history, the parser, the command. *)
Definition run_line (history : list (list Z)) (line : list Z) (m : Machine) : comp (list (list Z) * Machine) :=
  let history := history_push history line in
  command ← from_line line;
  m ← match command with
      | Some command => call command history m
      | None => Ret (print (str "ShellCommand not found: '" ++ line ++ str "'" ++ [NL]) m)
      end;
  Ret (history, m).

(** [shell]: the loop runs until the input ends or the machine is reset; every
    round consumes a byte, so the length of the input is fuel enough. *)
Fixpoint shell_loop (rounds : nat) (history : list (list Z)) (input : list Z) (m : Machine)
    : comp (list (list Z) * Machine) :=
  match rounds with
  | O => NoFuel
  | S rounds =>
      '(r, out) ← read_line_and_display history input;
      let m := print out m in
      match r with
      | None => Ret (history, m)
      | Some (line, input) =>
          '(history, m) ← run_line history line m;
          match mc_reset m with
          | Some _ => Ret (history, m)
          | None => shell_loop rounds history input m
          end
      end
  end.
Definition shell (input : list Z) (m : Machine) : comp (list (list Z) * Machine) :=
  shell_loop (S (length input)) [] input m.
End Shell.
Arguments Machine B : clear implicits.
