(* ===== verification/ShellProps.v ===== *)
(** * Properties of the shell

    The command history, the line editor, the parser, the percentages, and a
    file written and read back through the shell's own commands. *)
From S2P Require Import Prelude Bitmap Bytes Layout INode DirEntry BlockDev INodeCache SuperBlock Filesystem.
From S2P Require Import FsBase FsState FsFiles FsDirs FsCreate FsFormat FsProps FsUsage KernelFs.
From S2P Require Import Memory FreeList Riscv PhysRange DeviceTree Shell.

(** ** The history *)
Record history_ok (h : list (list Z)) : Prop := {
  ho_size : zlen h <= HISTORY_CAPACITY;
  ho_blank : Forall (fun line => trim line <> []) h;
  ho_repeat i line : h !! i = Some line -> h !! S i <> Some line;
}.

Lemma tail_ok (h : list (list Z)) : history_ok h -> history_ok (tail h).
Proof.
  destruct h as [|x h]; [done|]. intros [Hs Hb Hr]. constructor; simpl.
  - unfold zlen in *. simpl in Hs. lia.
  - by apply Forall_cons in Hb as [].
  - intros i. apply (Hr (S i)).
Qed.

Lemma last_tail {A} (h : list A) x : last (tail h) = Some x -> last h = Some x.
Proof. destruct h as [|y [|z h]]; done. Qed.

Lemma snoc_ok h line :
  history_ok h -> zlen h < HISTORY_CAPACITY -> trim line <> [] -> last h <> Some line -> history_ok (h ++ [line]).
Proof.
  intros [Hs Hb Hr] Hlt Ht Hl. constructor.
  - rewrite zlen_app. unfold zlen in *. simpl. lia.
  - apply Forall_app. split; [done|]. by constructor.
  - intros i x. destruct (decide (S i < length h)%nat).
    + rewrite !lookup_app_l by lia. apply Hr.
    + destruct (decide (S i = length h)) as [E|].
      * rewrite lookup_app_l by lia. intros Hx. rewrite lookup_app_r, E, Nat.sub_diag by lia. simpl. intros [= ->].
        apply Hl. rewrite last_lookup, <- E. done.
      * intros _. rewrite lookup_app_r by lia. destruct (S i - length h)%nat eqn:?; [lia|]. done.
Qed.

(** The history.  Pushing a line keeps at most 100 lines, none of them
    blank and no two neighbours equal.  A blank line changes nothing; any other
    line is the newest entry afterwards, and of the older ones at most the
    oldest is gone. *)
Theorem history_push_keeps h line :
  history_ok h ->
  history_ok (history_push h line) /\
  (trim line = [] -> history_push h line = h) /\
  (trim line <> [] -> last (history_push h line) = Some line /\
     exists k, (k <= 1)%nat /\ (drop k h ++ [line] = history_push h line \/ h = history_push h line)).
Proof.
  intros Hh. unfold history_push. case_bool_decide as Hb; [split_and!; [done..|by intros []]|].
  case_bool_decide as Hl; [split_and!; [done..|]; intros _; split; [done|]; exists 0%nat; split; [lia|by right]|].
  destruct (Z.eqb_spec (zlen h) HISTORY_CAPACITY) as [E|E].
  - split_and!; [|by intros|].
    + apply snoc_ok; [by apply tail_ok| |done|by intros ?%last_tail].
      destruct h; [done|]. unfold zlen, HISTORY_CAPACITY in *. simpl in *. lia.
    + intros _. split; [apply last_snoc|]. exists 1%nat. split; [done|]. left. by destruct h.
  - split_and!; [|by intros|].
    + apply snoc_ok; [done| |done|done]. destruct Hh as [Hs _ _]. lia.
    + intros _. split; [apply last_snoc|]. exists 0%nat. split; [lia|]. by left.
Qed.

Lemma history_push_keeps_witness :
  history_ok [str "ls"] /\ history_push [str "ls"] (str "ls") = [str "ls"] /\ last (history_push [str "ls"] (str "help")) = Some (str "help").
Proof.
  assert (H : history_ok [str "ls"]).
  { constructor; [by vm_compute|by repeat constructor|]. by intros [|[|i]] line. }
  split; [exact H|]. split; [reflexivity|]. apply (history_push_keeps [str "ls"] (str "help") H). by vm_compute.
Defined.

(** ** The line editor *)

(** Text typed byte by byte: every byte is a Latin-1 character. *)
Definition latin1 (cs : list Z) : list Z := concat (map encode_char cs).
Definition text_of (P : Z -> Prop) (s : list Z) : Prop := exists cs, Forall P cs /\ s = latin1 cs.
Definition is_latin1 : list Z -> Prop := text_of is_u8.

Lemma encode_char_cases c :
  is_u8 c -> (encode_char c = [c] /\ utf8_cont c = false) \/
    exists b0 b1, encode_char c = [b0; b1] /\ in_range 194 195 b0 = true /\ utf8_cont b0 = false /\ utf8_cont b1 = true.
Proof.
  intros [? Hc]. change (2 ^ 8) with 256 in Hc. unfold encode_char, utf8_cont, in_range. destruct (Z.ltb_spec c 128); [left|right].
  - split; [done|]. lia.
  - exists (192 + c / 64), (128 + c mod 64). split; [done|]. Z.div_mod_to_equations. lia.
Qed.

Lemma pop_encode s c : is_u8 c -> pop (s ++ encode_char c) = Some s.
Proof.
  intros Hc. unfold pop. destruct (encode_char_cases c Hc) as [[-> E]|(b0 & b1 & -> & _ & E0 & E1)].
  - rewrite rev_app_distr. simpl. by rewrite E, rev_involutive.
  - rewrite rev_app_distr. simpl. by rewrite E1, E0, rev_involutive.
Qed.

Lemma latin1_snoc cs c : latin1 (cs ++ [c]) = latin1 cs ++ encode_char c.
Proof. unfold latin1. rewrite map_app, concat_app. simpl. by rewrite app_nil_r. Qed.

Lemma utf8_valid_latin1 s : is_latin1 s -> utf8_valid s = true.
Proof.
  intros (cs & Hcs & ->). induction Hcs as [|c cs Hc _ IH]; [done|]. unfold latin1 in *. cbn [map concat].
  destruct Hc as [? Hc]. change (2 ^ 8) with 256 in Hc. unfold encode_char. destruct (Z.ltb_spec c 128) as [Hlt|Hge].
  - cbn [app utf8_valid]. by rewrite (proj2 (Z.ltb_lt c 128)).
  - cbn [app utf8_valid]. unfold utf8_cont, in_range.
    rewrite (proj2 (Z.ltb_ge _ _)) by (Z.div_mod_to_equations; lia).
    replace (_ && _ && _) with true; [done|]. symmetry. Z.div_mod_to_equations. lia.
Qed.

(** The editor keeps texts of the bytes that are typed. *)
Section Editor.
Context (P : Z -> Prop) (P_u8 : forall c, P c -> is_u8 c).

Lemma pop_text s s' : text_of P s -> pop s = Some s' -> text_of P s'.
Proof.
  intros (cs & Hcs & ->). destruct cs as [|c cs _] using rev_ind; [by cbv|].
  apply Forall_app in Hcs as [Hcs Hc]. apply Forall_cons in Hc as [Hc _]. rewrite latin1_snoc, pop_encode by auto.
  intros [= <-]. by exists cs.
Qed.

(** What the editor keeps. *)
Record editor_ok (h : list (list Z)) (e : Editor) : Prop := {
  eo_s : text_of P (ed_s e);
  eo_draft : text_of P (ed_draft e);
  eo_index : 0 <= ed_history_index e <= zlen h;
}.

Lemma entry_at_ok (h : list (list Z)) i : Forall (text_of P) h -> 0 <= i < zlen h -> exists s, index h i = Ret s /\ text_of P s.
Proof.
  intros Hh Hi. unfold zlen in *. destruct (lookup_lt_is_Some_2 h (Z.to_nat i)) as [s Hs]; [lia|].
  exists s. unfold index. rewrite Hs. split; [done|]. by eapply Forall_lookup_1.
Qed.

Lemma editor_step_ok h e c :
  zlen h <= HISTORY_CAPACITY -> Forall (text_of P) h -> P c -> editor_ok h e ->
  exists e', editor_step h e c = Ret e' /\ editor_ok h e'.
Proof.
  intros Hn Hh Hc [Hs Hd Hi]. destruct e as [s draft i st out]. simpl in *. unfold HISTORY_CAPACITY in Hn.
  unfold editor_step. destruct st.
  - destruct (c =? ASCII_ESCAPE); [eexists; split; [reflexivity|]; by constructor|]. destruct (_ || _).
    + destruct (pop s) as [s'|] eqn:Ep; eexists; (split; [reflexivity|]); constructor; simpl; eauto using pop_text.
    + eexists. split; [reflexivity|]. constructor; simpl; [|done..]. destruct Hs as (cs & Hcs & ->).
      exists (cs ++ [c]). split; [apply Forall_app; by split; [|constructor]|]. by rewrite latin1_snoc.
  - eexists. split; [reflexivity|]. by constructor.
  - destruct ((c =? 65) && (0 <? i)) eqn:Eup; [|destruct ((c =? 66) && (i <? zlen h)) eqn:Edn].
    + rewrite sub_ovf_ok by lia. cbn [mbind comp_bind]. destruct (entry_at_ok h (i - 1) Hh ltac:(lia)) as (s1 & -> & Hs1).
      cbn [mbind comp_bind]. eexists. split; [reflexivity|]. destruct (i =? zlen h); constructor; simpl; done || lia.
    + rewrite add_ovf_ok by (unfold max_of; lia). cbn [mbind comp_bind].
      destruct (Z.eqb_spec (i + 1) (zlen h)).
      * cbn [mbind comp_bind]. eexists. split; [reflexivity|]. constructor; simpl; try done; lia.
      * destruct (entry_at_ok h (i + 1) Hh ltac:(lia)) as (s1 & -> & Hs1). cbn [mbind comp_bind].
        eexists. split; [reflexivity|]. constructor; simpl; [done..|lia].
    + eexists. split; [reflexivity|]. by constructor.
Qed.

Lemma read_loop_ok h input : forall e,
  zlen h <= HISTORY_CAPACITY -> Forall (text_of P) h -> Forall P input -> editor_ok h e ->
  exists r out, read_loop h e input = Ret (r, out) /\
    match r with
    | Some (line, rest) => text_of P line /\ exists pre, input = pre ++ CR :: rest /\ CR ∉ pre
    | None => CR ∉ input
    end.
Proof.
  induction input as [|c input IH]; intros e Hn Hh Hi He; simpl.
  - eexists _, _. split; [reflexivity|]. set_solver.
  - apply Forall_cons in Hi as [Hc Hi]. destruct (Z.eqb_spec c CR) as [->|Hne].
    + eexists _, _. split; [reflexivity|]. split; [apply He|]. exists []. split; [done|set_solver].
    + destruct (editor_step_ok h e c Hn Hh Hc He) as (e' & -> & He'). cbn [mbind comp_bind].
      destruct (IH e' Hn Hh Hi He') as (r & out & -> & Hr). exists r, out. split; [done|].
      destruct r as [[line rest]|]; [|set_solver]. destruct Hr as (? & pre & -> & ?). split; [done|].
      exists (c :: pre). split; [done|set_solver].
Qed.

Lemma editor_start_ok h : editor_ok h (editor_start h).
Proof.
  constructor; simpl; [by exists []|by exists []|]. unfold zlen. lia.
Qed.

End Editor.

(** C28: The line editor.  Whatever bytes arrive, it never panics: no key leads
    outside the history or pops half a character.  It returns exactly at the
    first carriage return, leaves the rest of the input alone, and the line it
    returns is valid UTF-8, like every line of the history. *)
Theorem line_editor_is_total h input :
  zlen h <= HISTORY_CAPACITY -> Forall is_latin1 h -> Forall is_u8 input ->
  exists r out, read_line_and_display h input = Ret (r, out) /\
    match r with
    | Some (line, rest) =>
        is_latin1 line /\ utf8_valid line = true /\ exists pre, input = pre ++ CR :: rest /\ CR ∉ pre
    | None => CR ∉ input
    end.
Proof.
  intros Hn Hh Hi. destruct (read_loop_ok is_u8 ltac:(done) h input (editor_start h) Hn Hh Hi (editor_start_ok is_u8 h)) as (r & out & E & Hr).
  exists r, out. split; [exact E|]. destruct r as [[line rest]|]; [|done]. destruct Hr as (Hl & Hp).
  split_and!; [done|by apply utf8_valid_latin1|done].
Qed.

(** Escape, an arrow up, a character above ASCII, a backspace. *)
Definition sample_keys : list Z := [27; 91; 65; 233; 127; 33; 13; 7].

Lemma line_editor_is_total_witness :
  Forall is_latin1 [str "ls"] /\ Forall is_u8 sample_keys /\
  exists out, read_line_and_display [str "ls"] sample_keys = Ret (Some (str "ls!", [7]), out).
Proof.
  assert (H1 : Forall is_latin1 [str "ls"]).
  { constructor; [|constructor]. exists (str "ls"). split; [|done]. by repeat (constructor; [by vm_compute|]). }
  assert (H2 : Forall is_u8 sample_keys) by (by repeat (constructor; [by vm_compute|])).
  split; [exact H1|]. split; [exact H2|].
  destruct (line_editor_is_total [str "ls"] sample_keys ltac:(by vm_compute) H1 H2) as (r & out & E & _).
  exists out. rewrite E. assert (Hr : read_line_and_display [str "ls"] sample_keys = Ret (Some (str "ls!", [7]),
    str "> " ++ redraw_line (str "ls") ++ encode_char 233 ++ [8; 32; 8] ++ str "!" ++ [NL])) by (vm_compute; reflexivity).
  rewrite E in Hr. by injection Hr as -> ->.
Defined.

(** *** Browsing the history *)
Definition key_up : list Z := [27; 91; 65].
Definition key_down : list Z := [27; 91; 66].
Definition keys (key : list Z) (n : nat) : list Z := concat (replicate n key).

(** A character that is only text: not a control byte. *)
Definition printable (c : Z) : Prop := 32 <= c < 256 /\ c <> 127.

Lemma read_step h e c input :
  c <> CR -> read_loop h e (c :: input) = e ← editor_step h e c; read_loop h e input.
Proof. intros Hc. cbn [read_loop]. by rewrite (proj2 (Z.eqb_neq _ _)). Qed.

Lemma type_text h cs : forall s d i out input,
  Forall printable cs ->
  read_loop h (mkEditor s d i Normal out) (cs ++ input) =
  read_loop h (mkEditor (s ++ latin1 cs) d i Normal (out ++ latin1 cs)) input.
Proof.
  induction cs as [|c cs IH]; intros s d i out input Hp; [by rewrite !app_nil_r|].
  apply Forall_cons in Hp as [[Hc1 Hc2] Hp]. cbn [app]. rewrite read_step by (unfold CR; lia).
  unfold editor_step, ASCII_ESCAPE, ASCII_DELETE, ASCII_BACKSPACE.
  rewrite !(proj2 (Z.eqb_neq c _)) by lia. cbn [orb mbind comp_bind]. rewrite IH by done.
  unfold latin1. cbn [map concat]. by rewrite !app_assoc.
Qed.

Lemma press_up h s d i out input :
  0 < i <= zlen h ->
  read_loop h (mkEditor s d i Normal out) (key_up ++ input) =
  s' ← index h (i - 1);
  read_loop h (mkEditor s' (if i =? zlen h then s else d) (i - 1) Normal (out ++ redraw_line s')) input.
Proof.
  intros Hi. unfold key_up. cbn [app]. rewrite !read_step by done. cbn [editor_step mbind comp_bind].
  change (27 =? ASCII_ESCAPE) with true. cbn match. cbn [mbind comp_bind]. rewrite read_step by done.
  cbn [editor_step mbind comp_bind]. change (91 =? 91) with true. cbn match. rewrite read_step by done.
  cbn [editor_step]. rewrite (proj2 (Z.ltb_lt 0 i)) by lia. cbn [andb Z.eqb]. change (65 =? 65) with true. cbn [andb].
  rewrite sub_ovf_ok by lia. cbn [mbind comp_bind]. by destruct (index h (i - 1)).
Qed.

Lemma press_down h s d i out input :
  0 <= i < zlen h -> zlen h <= HISTORY_CAPACITY ->
  read_loop h (mkEditor s d i Normal out) (key_down ++ input) =
  s' ← (if i + 1 =? zlen h then Ret d else index h (i + 1));
  read_loop h (mkEditor s' d (i + 1) Normal (out ++ redraw_line s')) input.
Proof.
  intros Hi Hn. unfold key_down, HISTORY_CAPACITY in *. cbn [app]. rewrite read_step by done. cbn [editor_step].
  change (27 =? ASCII_ESCAPE) with true. cbn match. cbn [mbind comp_bind]. rewrite read_step by done.
  cbn [editor_step]. change (91 =? 91) with true. cbn match. cbn [mbind comp_bind]. rewrite read_step by done.
  cbn [editor_step]. change (66 =? 65) with false. change (66 =? 66) with true.
  rewrite (proj2 (Z.ltb_lt i _)) by lia. cbn [andb]. rewrite add_ovf_ok by (unfold max_of; lia). cbn [mbind comp_bind].
  by destruct (_ =? _); [|destruct (index h _)].
Qed.

(** The line shown [k] steps above the prompt, over the draft [s]. *)
Definition shown (h : list (list Z)) (s : list Z) (k : nat) : list Z :=
  match k with O => s | _ => default [] (h !! (length h - k)%nat) end.

Lemma press_ups h s k : forall out input,
  (k <= length h)%nat ->
  exists out', forall d, read_loop h (mkEditor s d (zlen h) Normal out) (keys key_up k ++ input) =
    read_loop h (mkEditor (shown h s k) (if (k =? 0)%nat then d else s) (zlen h - Z.of_nat k) Normal out') input.
Proof.
  induction k as [|k IH]; intros out input Hk.
  - exists out. intros d. by rewrite Z.sub_0_r.
  - destruct (IH out (key_up ++ input)) as [out1 H1]; [lia|].
    destruct (lookup_lt_is_Some_2 h (length h - S k)) as [s' Hs']; [lia|].
    exists (out1 ++ redraw_line s'). intros d.
    replace (keys key_up (S k) ++ input) with (keys key_up k ++ key_up ++ input).
    2:{ unfold keys. rewrite replicate_S_end, concat_app. simpl. by rewrite <- app_assoc. }
    rewrite H1, press_up by (unfold zlen; lia). unfold index, zlen.
    replace (Z.to_nat (Z.of_nat (length h) - Z.of_nat k - 1)) with (length h - S k)%nat by lia.
    rewrite Hs'. cbn [unwrap mbind comp_bind shown]. rewrite Hs'. cbn [default].
    do 2 f_equal; [|lia]. destruct k; simpl; [by rewrite Z.sub_0_r, Z.eqb_refl|].
    by rewrite (proj2 (Z.eqb_neq _ _)) by lia.
Qed.

Lemma press_downs h s k : forall j out input,
  zlen h <= HISTORY_CAPACITY -> (j + k <= length h)%nat ->
  exists out', read_loop h (mkEditor (shown h s (j + k)) s (zlen h - Z.of_nat (j + k)) Normal out) (keys key_down k ++ input) =
    read_loop h (mkEditor (shown h s j) s (zlen h - Z.of_nat j) Normal out') input.
Proof.
  induction k as [|k IH]; intros j out input Hn Hk; [exists out; by rewrite Nat.add_0_r|].
  unfold keys. cbn [replicate concat]. rewrite <- app_assoc, press_down by (unfold zlen in *; lia).
  assert (Hs : (if zlen h - Z.of_nat (j + S k) + 1 =? zlen h then Ret s else index h (zlen h - Z.of_nat (j + S k) + 1))
               = Ret (shown h s (j + k))).
  { unfold zlen. destruct (Z.eqb_spec (Z.of_nat (length h) - Z.of_nat (j + S k) + 1) (Z.of_nat (length h))).
    - by replace (j + k)%nat with 0%nat by lia.
    - unfold index. destruct (j + k)%nat as [|n'] eqn:E; [lia|]. cbn [shown].
      replace (Z.to_nat _) with (length h - S n')%nat by lia.
      destruct (lookup_lt_is_Some_2 h (length h - S n')) as [x ->]; [lia|done]. }
  rewrite Hs. cbn [mbind comp_bind]. replace (zlen h - Z.of_nat (j + S k) + 1) with (zlen h - Z.of_nat (j + k)) by lia.
  apply IH; [done|lia].
Qed.

(** Browsing the history loses nothing.  After some text and [k] arrows up
    the return key enters the [k]-th newest line; [k] arrows down after them
    bring back the unfinished text. *)
Theorem history_browsing h cs k rest :
  zlen h <= HISTORY_CAPACITY -> Forall printable cs -> (k <= length h)%nat ->
  (exists out, read_line_and_display h (cs ++ keys key_up k ++ CR :: rest) = Ret (Some (shown h (latin1 cs) k, rest), out)) /\
  (exists out, read_line_and_display h (cs ++ keys key_up k ++ keys key_down k ++ CR :: rest) =
     Ret (Some (latin1 cs, rest), out)).
Proof.
  intros Hn Hp Hk. unfold read_line_and_display, editor_start. setoid_rewrite type_text; [|done..].
  cbn [app]. split.
  - destruct (press_ups h (latin1 cs) k (str "> " ++ latin1 cs) (CR :: rest) Hk) as [out ->]. by eexists.
  - destruct (press_ups h (latin1 cs) k (str "> " ++ latin1 cs) (keys key_down k ++ CR :: rest) Hk) as [out ->].
    destruct k as [|k]; [by eexists|]. cbn [Nat.eqb].
    destruct (press_downs h (latin1 cs) (S k) 0 out (CR :: rest) Hn Hk) as [out' E]. simpl Nat.add in E. rewrite E. by eexists.
Qed.

Lemma he_printable : Forall printable (str "he").
Proof. change (str "he") with [104; 101]. repeat (apply List.Forall_cons; [unfold printable; lia|]). apply List.Forall_nil. Qed.

Lemma history_browsing_witness :
  (exists out, read_line_and_display [str "ls"; str "tree"] (str "he" ++ keys key_up 2 ++ [CR]) = Ret (Some (str "ls", []), out)) /\
  (exists out, read_line_and_display [str "ls"; str "tree"] (str "he" ++ keys key_up 2 ++ keys key_down 2 ++ [CR]) =
     Ret (Some (str "he", []), out)).
Proof.
  exact (history_browsing [str "ls"; str "tree"] (str "he") 2 [] ltac:(by vm_compute) he_printable ltac:(simpl; lia)).
Defined.

(** ** The parser *)
Lemma split_on_single c s p : split_on c s = [p] -> s = p.
Proof.
  revert p. induction s as [|b s IH]; intros p; simpl; [by intros [= <-]|].
  destruct (b =? c); [by destruct (split_on c s) eqn:E; destruct s; simpl in E; repeat case_match|].
  destruct (split_on c s) as [|q [|]] eqn:E; intros [= <-].
  - by destruct s; simpl in E; repeat case_match.
  - f_equal. by apply IH.
Qed.

(** The parser handles every line but one: it panics on [write] without
    any argument, where [split_at(2)] is out of range, and on no other line. *)
Theorem from_line_panics_only_on_bare_write line :
  from_line line = Panic <-> trim line = str "write".
Proof.
  unfold from_line. destruct (split_on 32 (trim line)) as [|command parts] eqn:E; [by apply split_on_nonempty in E|].
  split.
  - unfold is_command. repeat (case_bool_decide; [subst; try done|]); [|done].
    destruct (Z.leb_spec 2 (zlen (str "write" :: parts))); [done|]. intros _.
    destruct parts; [|unfold zlen in *; simpl in *; lia]. by apply split_on_single in E.
  - intros Ht. rewrite Ht in E. vm_compute in E. injection E as <- <-. vm_compute. reflexivity.
Qed.

(** ** Percentages *)

(** The percentages of the [memory] command: tenths of a percent, rounded
    to the nearest, at most 1000 when the part is within the total, also where
    the multiplication saturates. *)
Theorem percentage_tenths_rounds part total :
  0 <= part <= total -> total <= usize_max ->
  exists p, percentage_tenths part total = Ret p /\ 0 <= p <= 1000 /\
    (0 < total -> part * 1000 + total / 2 <= usize_max -> 2 * Z.abs (part * 1000 - total * p) <= total).
Proof.
  intros Hp Ht. unfold percentage_tenths. destruct (Z.eqb_spec total 0); [exists 0; split; [done|]; lia|].
  eexists. split; [reflexivity|]. unfold saturating_add, saturating_mul. unfold usize_max, max_of in *.
  pose proof (Z.div_mod total 2 ltac:(lia)). pose proof (Z.mod_pos_bound total 2 ltac:(lia)).
  set (q := Z.min (Z.min (part * 1000) (2 ^ 64 - 1) + total / 2) (2 ^ 64 - 1)).
  assert (Hn : 0 <= q <= part * 1000 + total / 2) by lia.
  pose proof (Z.div_mod q total ltac:(lia)). pose proof (Z.mod_pos_bound q total ltac:(lia)). split.
  - split; [apply Z.div_pos; lia|]. nia.
  - intros _ Hs. assert (En : q = part * 1000 + total / 2) by lia. nia.
Qed.

Lemma percentage_tenths_rounds_witness :
  percentage_tenths 1 3 = Ret 333 /\ exists p, percentage_tenths (2 ^ 63) (2 ^ 64 - 1) = Ret p /\ 0 <= p <= 1000.
Proof.
  split; [reflexivity|]. destruct (percentage_tenths_rounds (2 ^ 63) (2 ^ 64 - 1)) as (p & E & Hp & _); [by vm_compute|by vm_compute|].
  by exists p.
Defined.

(** ** Commands on one line *)
Definition graphic (b : Z) : Prop := 33 <= b < 127.

Lemma trim_id line a b pre :
  line = a :: pre ++ [b] -> graphic a -> graphic b -> trim line = line.
Proof.
  intros -> Ha Hb. unfold graphic in *. unfold trim.
  assert (E1 : forall t, whitespace_len (a :: t) = 0%nat).
  { intros t. unfold whitespace_len, in_range. destruct (Z.leb_spec 9 a), (Z.leb_spec a 13), (Z.eqb_spec a 32); try lia;
      repeat case_match; try done; lia. }
  assert (E2 : forall t, whitespace_len_rev (b :: t) = 0%nat).
  { intros t. unfold whitespace_len_rev, in_range.
    destruct (Z.leb_spec 9 b), (Z.leb_spec b 13), (Z.eqb_spec b 32); try lia;
      repeat case_match; try done; lia. }
  assert (Er : rev (a :: pre ++ [b]) = b :: rev (a :: pre)) by (rewrite app_comm_cons, rev_app_distr; reflexivity).
  cbn [length trim_by]. rewrite E1. cbv zeta. rewrite Er. cbn [length trim_by]. rewrite E2.
  rewrite <- Er. apply rev_involutive.
Qed.

Lemma join_split c s : join [c] (split_on c s) = s.
Proof.
  induction s as [|b s IH]; simpl; [done|]. destruct (Z.eqb_spec b c) as [->|].
  - destruct (split_on c s) as [|q l] eqn:E; [by apply split_on_nonempty in E|]. by rewrite <- IH.
  - destruct (split_on c s) as [|q [|q' l]] eqn:E; [by apply split_on_nonempty in E|..]; by rewrite <- IH.
Qed.

Lemma graphic_not_space p : Forall graphic p -> 32 ∉ p.
Proof. intros Hp Hin. rewrite Forall_forall in Hp. specialize (Hp _ Hin). unfold graphic in Hp. lia. Qed.

Lemma ends_with {A} (P : A -> Prop) (l : list A) : Forall P l -> l <> [] -> exists pre b, l = pre ++ [b] /\ P b.
Proof.
  intros Hl Hne. destruct l as [|b l _] using rev_ind; [done|]. apply Forall_app in Hl as [_ Hb].
  apply Forall_cons in Hb as [Hb _]. eauto.
Qed.

Definition write_line (path text : list Z) : list Z := str "write " ++ path ++ 32 :: text.
Definition cat_line (path : list Z) : list Z := str "cat " ++ path.

Lemma from_line_write path pre b :
  Forall graphic path -> graphic b ->
  from_line (write_line path (pre ++ [b])) = Ret (Some (Write (normalize_root_path path) (pre ++ [b]))).
Proof.
  intros Hp Hb. unfold from_line.
  rewrite (trim_id _ 119 b (str "rite " ++ path ++ 32 :: pre)); [|by rewrite !app_assoc_reverse|by unfold graphic|done].
  replace (write_line path (pre ++ [b])) with (str "write" ++ 32 :: path ++ 32 :: (pre ++ [b])) by reflexivity.
  rewrite split_on_app by (by apply graphic_not_space; repeat constructor).
  rewrite split_on_app by (by apply graphic_not_space). unfold is_command.
  repeat (rewrite bool_decide_eq_false_2 by done). rewrite bool_decide_eq_true_2 by done.
  rewrite (proj2 (Z.leb_le _ _)) by (unfold zlen; simpl; lia). cbn [assert mbind comp_bind lookup list_lookup drop option_bind].
  by rewrite drop_0, join_split.
Qed.

Lemma from_line_cat path : Forall graphic path -> path <> [] -> from_line (cat_line path) = Ret (Some (Cat (normalize_root_path path))).
Proof.
  intros Hp Hne. destruct (ends_with _ _ Hp Hne) as (pre & b & E & Hb). unfold from_line.
  rewrite (trim_id _ 99 b (str "at " ++ pre)); [|unfold cat_line; by rewrite E, !app_assoc_reverse|by unfold graphic|done].
  replace (cat_line path) with (str "cat" ++ 32 :: path) by reflexivity.
  rewrite split_on_app by (by apply graphic_not_space; repeat constructor).
  rewrite split_on_none by (by apply graphic_not_space). unfold is_command.
  repeat (rewrite bool_decide_eq_false_2 by done). rewrite bool_decide_eq_true_2 by done. done.
Qed.

(** ** Writing and reading back *)
Section Files.
Context {D : Type} `{BlockDeviceLaws D}.
Implicit Types fs : Filesystem D.

(** Growing a file moves no name. *)
Lemma walk_spec_grown fs fs' i chunk parts :
  tree_inv fs -> allocated fs i -> in_is_directory (fs_inode fs i) = false -> grown fs fs' i chunk ->
  forall dir, allocated fs dir -> in_is_directory (fs_inode fs dir) = true ->
  walk_spec fs' dir parts = walk_spec fs dir parts.
Proof.
  intros Hti Hi Hf Hg. induction parts as [|p parts IH]; intros dir Ha Hd; [done|]. cbn [walk_spec].
  assert (Hne : dir <> i) by congruence.
  destruct (grown_frame fs fs' i chunk dir Hti Hi Hg Ha Hne) as (_ & _ & -> & _).
  destruct (find_entry p _) as [e|] eqn:E; [|done]. apply find_entry_some in E as [Hin _].
  pose proof (ti_entry _ Hti _ _ Ha Hin) as Hae.
  assert (Ed : in_is_directory (fs_inode fs' (de_inode e)) = in_is_directory (fs_inode fs (de_inode e))).
  { destruct (Z.eq_dec (de_inode e) i) as [->|Hne']; [apply Hg|].
    by destruct (grown_frame fs fs' i chunk (de_inode e) Hti Hi Hg Hae Hne') as (-> & _). }
  rewrite Ed. destruct (in_is_directory (fs_inode fs (de_inode e))) eqn:Hde; [|done]. by apply IH.
Qed.

Lemma resolve_spec_grown fs fs' i chunk path :
  tree_inv fs -> allocated fs i -> in_is_directory (fs_inode fs i) = false -> grown fs fs' i chunk ->
  resolve_spec fs' path = resolve_spec fs path.
Proof.
  intros Hti Hi Hf Hg. pose proof (ti_root _ Hti) as [Hra Hrd]. unfold resolve_spec.
  destruct (default (path, path) _) as [dirs basename].
  rewrite (walk_spec_grown fs fs' i chunk) by done.
  destruct (walk_spec fs 0 (path_parts dirs)) as [parent|] eqn:Ew; [|done].
  destruct (walk_spec_allocated fs _ Hti 0 parent Hra Hrd Ew) as [Hpa Hpd].
  assert (Hne : parent <> i) by congruence.
  by destruct (grown_frame fs fs' i chunk parent Hti Hi Hg Hpa Hne) as (_ & _ & -> & _).
Qed.

Definition ascii (s : list Z) : Prop := Forall (fun b => 0 <= b < 128) s.

(** [write_to_file] and then [read_file]: as much of the text as the disk has room
    for. *)
Lemma write_read_run fs path text r :
  tree_inv fs -> resolve_spec fs path = Ok r -> in_is_directory (fs_inode fs (rp_basename_inode r)) = false ->
  ascii (fs_content fs (rp_basename_inode r)) -> ascii text ->
  in_size (fs_inode fs (rp_basename_inode r)) + zlen text <= 8192 ->
  let w := Z.min (zlen text) (room_behind fs (in_size (fs_inode fs (rp_basename_inode r)))) in
  exists res fs1 fs2, 0 <= w /\
    write_to_file fs path text = Ret (res, fs1) /\
    res = (if w <? zlen text then Err NoSpaceLeft else Ok (zlen text)) /\
    read_file fs1 path = Ret (Ok (fs_content fs (rp_basename_inode r) ++ take (Z.to_nat w) text), fs2).
Proof.
  intros Hti Er Hd Hc Ht Hsz. set (i := rp_basename_inode r) in *.
  destruct (resolve_spec_allocated fs path r Hti Er) as (_ & Ha & _). fold i in Ha.
  pose proof (ti_dir _ Hti _ Ha) as [Hii _]. destruct (ii_shape _ _ Hii) as [[Hs0 _] _].
  assert (Hz : 0 <= in_size (fs_inode fs i)) by lia.
  destruct (append_to_file_run fs path text Hti) as (res & fs1 & E & Hti1 & Hres).
  { eapply Forall_impl; [exact Ht|]. unfold in_width. simpl. lia. }
  { unfold zlen in *. lia. }
  rewrite Er in Hres. cbv zeta in Hres. fold i in Hres. rewrite Hd in Hres.
  rewrite (proj2 (Z.ltb_ge _ _)) in Hres by done. destruct Hres as (w & Hw & Hg & Hres).
  pose proof (read_file_run fs1 path Hti1) as Hread. rewrite (resolve_spec_grown fs fs1 i _ path Hti Ha Hd Hg), Er in Hread.
  cbv zeta in Hread. fold i in Hread. destruct Hread as (fs2 & Hok2 & He2 & Eread).
  assert (Hii1 : inode_inv fs1 i) by apply Hg.
  rewrite (gr_dir _ _ _ _ Hg), Hd in Eread.
  assert (Hc1 : fs_content fs2 i = fs_content fs i ++ take (Z.to_nat w) text)
    by (rewrite (fs_content_equiv fs1 fs2) by done; apply Hg).
  rewrite (read_file_content fs2 i []) in Eread; [|done|by apply (inode_inv_equiv fs1)|].
  2:{ rewrite Hc1. apply Forall_app. split; [done|]. by apply Forall_take. }
  cbn [mbind comp_bind app] in Eread. rewrite Hc1 in Eread.
  assert (Hlen : zlen (take (Z.to_nat w) text) = w) by (unfold zlen in *; rewrite length_take; lia).
  assert (Ew : w = Z.min (zlen text) (room_behind fs (in_size (fs_inode fs i)))).
  { rewrite <- Hlen at 1. apply (grown_room fs fs1 i); rewrite ?Hlen; [done..|lia|lia|].
    intros Hlt. destruct Hres as [[_ ->]|(_ & _ & Hm & Hn)]; [lia|done]. }
  cbv zeta. rewrite <- Ew. exists res, fs1, fs2. split; [lia|]. split; [exact E|]. split; [|exact Eread].
  destruct Hres as [[-> ->]|(-> & Hlt & _)]; [by rewrite Z.ltb_irrefl|by rewrite (proj2 (Z.ltb_lt _ _))].
Qed.
End Files.

(** C17: A file written in the shell reads back.  On a mounted filesystem, with a
    path of graphic ASCII characters that resolves to a file of ASCII contents,
    and an ASCII text that ends with a graphic character and with which the file
    stays within 8192 bytes: the line [write path text] followed by the line
    [cat path] prints the old contents of the file and the text behind it.  Only
    when the text is longer than the rest of the file's last block and all the
    free blocks together can hold, the error is printed first and the text is cut
    to exactly that length. *)
Theorem write_then_cat {B : Type} `{VirtIOBlkLaws B} bench_end fuel h (m : Machine B) fs path pre b r :
  let text := pre ++ [b] in
  let i := rp_basename_inode r in
  let w := Z.min (zlen text) (room_behind fs (in_size (fs_inode fs i))) in
  mc_fs m = Some fs -> tree_inv fs ->
  Forall graphic path -> path <> [] -> ascii pre -> graphic b ->
  resolve_spec fs (normalize_root_path path) = Ok r ->
  in_is_directory (fs_inode fs i) = false ->
  ascii (fs_content fs i) ->
  in_size (fs_inode fs i) + zlen text <= 8192 ->
  exists h1 m1 h2 m2,
    run_line bench_end fuel h (write_line path text) m = Ret (h1, m1) /\
    run_line bench_end fuel h1 (cat_line path) m1 = Ret (h2, m2) /\
    mc_uart m2 = mc_uart m ++ (if w <? zlen text then str "Writing to file failed: NoSpaceLeft" ++ [NL] else []) ++
                 fs_content fs i ++ take (Z.to_nat w) text ++ [NL].
Proof.
  intros text i w Hm Hti Hp Hne Hpre Hb Er Hd Hc Hsz.
  assert (Ht : ascii text) by (apply Forall_app; split; [done|]; constructor; [unfold graphic in Hb; lia|constructor]).
  destruct (write_read_run fs _ text r Hti Er Hd Hc Ht Hsz) as (res & fs1 & fs2 & Hw & E1 & Eres & E2).
  fold i in Hw, Eres, E2. fold w in Hw, Eres, E2.
  set (m1 := match res with
             | Ok _ => print [] (set_fs (Some fs1) m)
             | Err e => print (str "Writing to file failed: " ++ show_error e ++ [NL]) (set_fs (Some fs1) m)
             end).
  assert (Hfs1 : mc_fs m1 = Some fs1) by (by destruct res).
  exists (history_push h (write_line path text)), m1, (history_push (history_push h (write_line path text)) (cat_line path)),
    (print ((fs_content fs i ++ take (Z.to_nat w) text) ++ [NL]) (set_fs (Some fs2) m1)).
  split_and!.
  - unfold run_line, text. rewrite from_line_write by done. cbn [mbind comp_bind call].
    unfold report, api_write_to_file, with_fs, fs_get. rewrite Hm. cbn [unwrap mbind comp_bind]. fold text. rewrite E1.
    cbn [mbind comp_bind]. unfold m1. by destruct res.
  - unfold run_line. rewrite from_line_cat by done. cbn [mbind comp_bind call].
    unfold report, api_read_file, with_fs, fs_get. rewrite Hfs1. cbn [unwrap mbind comp_bind]. rewrite E2. done.
  - unfold m1. rewrite Eres. destruct (w <? zlen text); cbn [mc_uart print set_fs app]; rewrite ?app_nil_r, <- ?app_assoc; reflexivity.
Qed.

(** ** Witness: a machine whose filesystem is on the RAM disk *)
#[local] Instance no_virtio : VirtIOBlk Empty_set := {
  blk_read_blocks b _ := None; blk_write_blocks b _ _ := None; blk_capacity _ := 0;
}.
#[local] Instance no_virtio_laws : VirtIOBlkLaws Empty_set.
Proof. by refine {| blk_ok _ := True |}. Defined.

Definition ram_device : KernelBlockDevice Empty_set := Ramdisk sample_disk.
Definition ram_fs : Filesystem (KernelBlockDevice Empty_set) :=
  match ('(_, dev) ← format ram_device; Filesystem_new dev) with
  | Ret (Ok fs) => fs
  | _ => blank ram_device (mkLayout 0 0 0 0 0 0 0 0)
  end.
Definition ram_fs_a : Filesystem (KernelBlockDevice Empty_set) :=
  match create_file ram_fs sample_path with Ret (_, fs) => fs | _ => ram_fs end.

Lemma ram_empty_tree : empty_tree ram_fs.
Proof.
  destruct (format_spec ram_device (mkLayout 1 1 2 1 3 586 589 111)) as (dev' & fs & E1 & E2 & _ & _ & _ & Het).
  - apply disk_empty_ok. lia.
  - by vm_compute.
  - by vm_compute.
  - unfold ram_fs. rewrite E1. cbn [mbind comp_bind]. by rewrite E2.
Qed.

Lemma ram_a_tree : tree_inv ram_fs_a.
Proof.
  destruct (create_file_run ram_fs sample_path 0 (str "a") 1) as (fs' & E & Hcr).
  - apply ram_empty_tree.
  - apply sample_path_bytes.
  - by vm_compute.
  - by vm_compute.
  - unfold ram_fs_a. rewrite E. apply Hcr.
Qed.

Definition sample_machine : Machine Empty_set :=
  mkMachine (Some ram_fs_a) (mkAllocator ∅ None 0) (mkHart 0 0 0 0 0 0 0) None [] None.

Lemma ram_a_empty : fs_content ram_fs_a 1 = [].
Proof. by vm_compute. Qed.

Lemma ram_a_room : room_behind ram_fs_a 0 = 56320.
Proof. vm_compute. reflexivity. Qed.

Lemma ram_a_size : in_size (fs_inode ram_fs_a 1) = 0.
Proof. vm_compute. reflexivity. Qed.

Lemma write_then_cat_witness :
  exists h1 m1 h2 m2,
    run_line (fun _ _ _ => 0) 10 [] (write_line (str "a") (str "hell" ++ [111])) sample_machine = Ret (h1, m1) /\
    run_line (fun _ _ _ => 0) 10 h1 (cat_line (str "a")) m1 = Ret (h2, m2) /\
    mc_uart m2 = str "hello" ++ [NL].
Proof.
  destruct (write_then_cat (fun _ _ _ => 0) 10 [] sample_machine ram_fs_a (str "a") (str "hell") 111 (mkResolved 0 (str "a") 1))
    as (h1 & m1 & h2 & m2 & H1 & H2 & Hu).
  - reflexivity.
  - exact ram_a_tree.
  - apply List.Forall_cons; [by vm_compute|apply List.Forall_nil].
  - done.
  - change (str "hell") with [104; 101; 108; 108]. repeat (apply List.Forall_cons; [lia|]). apply List.Forall_nil.
  - by vm_compute.
  - by vm_compute.
  - by vm_compute.
  - cbn [rp_basename_inode]. rewrite ram_a_empty. apply List.Forall_nil.
  - by vm_compute.
  - exists h1, m1, h2, m2. split; [exact H1|]. split; [exact H2|]. cbn [rp_basename_inode] in Hu.
    rewrite ram_a_size, ram_a_room, ram_a_empty in Hu. exact Hu.
Defined.
