(* ===== verification/ShellSession.v ===== *)
(** * Shell sessions

    What any sequence of keys does to the machine.  The line editor, the parser
    and the commands compose: the lines are texts of what was typed, the paths
    the parser makes of them are ones the filesystem's invariant allows, every
    command is a sequence of filesystem steps and of allocations, and leaving
    the shell writes the filesystem back. *)
From stdpp Require Import relations.
From S2P Require Import Prelude Bitmap Bytes Layout INode DirEntry BlockDev INodeCache SuperBlock Filesystem.
From S2P Require Import FsBase FsState FsFiles FsDirs FsCreate FsFormat FsProps FsUsage FsRemove FsLinks FsSound KernelFs.
From S2P Require Import Memory FreeList HeapSpec HeapInv HeapProps Riscv PhysRange DeviceTree ShellHeap ShellHeapProps Shell ShellProps.
Open Scope Z_scope.

(** ** Typed text *)

(** A key: any byte; with [nul_free], any but NUL, which a name cannot hold. *)
Definition key (nul_free : Prop) (c : Z) : Prop := is_u8 c /\ (nul_free -> c <> 0).

Lemma key_u8 nul_free c : key nul_free c -> is_u8 c.
Proof. by intros []. Qed.

Abbreviation typed nul_free := (text_of (key nul_free)).

Lemma text_nil (P : Z -> Prop) : text_of P [].
Proof. by exists []. Qed.

Lemma text_cons (P : Z -> Prop) c s : P c -> text_of P s -> text_of P (encode_char c ++ s).
Proof. intros Hc (cs & Hcs & ->). exists (c :: cs). by split; [constructor|]. Qed.

Lemma text_ascii (P : Z -> Prop) c s : c < 128 -> P c -> text_of P s -> text_of P (c :: s).
Proof.
  intros Hlt Hc Hs. pose proof (text_cons P c s Hc Hs) as H. unfold encode_char in H. by rewrite (proj2 (Z.ltb_lt _ _)) in H.
Qed.

Lemma text_app (P : Z -> Prop) s t : text_of P s -> text_of P t -> text_of P (s ++ t).
Proof.
  intros (cs & Hcs & ->) (ds & Hds & ->). exists (cs ++ ds). split; [by apply Forall_app|].
  unfold latin1. by rewrite map_app, concat_app.
Qed.

Lemma text_weaken (P Q : Z -> Prop) s : (forall c, P c -> Q c) -> text_of P s -> text_of Q s.
Proof. intros HPQ (cs & Hcs & ->). exists cs. split; [by eapply Forall_impl|done]. Qed.

Lemma typed_bytes nul_free s : typed nul_free s -> Forall (fun b => is_u8 b /\ (nul_free -> b <> 0)) s.
Proof.
  intros (cs & Hcs & ->). induction Hcs as [|c cs [[Hc1 Hc2] Hc0] _ IH]; [constructor|].
  unfold latin1 in *. cbn [map concat]. apply Forall_app. split; [|done]. change (2 ^ 8) with 256 in Hc2.
  unfold encode_char, in_width. change (2 ^ 8) with 256.
  destruct (Z.ltb_spec c 128); repeat constructor; try (intros Hn; specialize (Hc0 Hn)); Z.div_mod_to_equations; lia.
Qed.

Lemma typed_path_ok nul_free s : typed nul_free s -> path_ok nul_free s.
Proof.
  intros Hs. pose proof (typed_bytes _ s Hs) as Hb. constructor.
  - eapply Forall_impl; [exact Hb|]. by intros ? [].
  - apply utf8_valid_latin1. eapply text_weaken; [|exact Hs]. apply key_u8.
  - intros Hn. eapply Forall_impl; [exact Hb|]. intros ? [_ ?]. auto.
Qed.

(** *** Trimming *)
Lemma ws_ascii c t : 0 <= c < 128 -> whitespace_len (c :: t) = 0%nat \/ whitespace_len (c :: t) = 1%nat.
Proof.
  intros Hc. unfold whitespace_len. repeat case_match; auto; lia.
Qed.

Lemma ws_rev_ascii c t : 0 <= c < 128 -> whitespace_len_rev (c :: t) = 0%nat \/ whitespace_len_rev (c :: t) = 1%nat.
Proof.
  intros Hc. unfold whitespace_len_rev, in_range. repeat case_match; auto; lia.
Qed.

Lemma ws_latin b0 b1 t : in_range 194 195 b0 = true ->
  whitespace_len (b0 :: b1 :: t) = 0%nat \/ whitespace_len (b0 :: b1 :: t) = 2%nat.
Proof.
  unfold in_range. intros Hb. assert (b0 = 194 \/ b0 = 195) as [->| ->] by lia; cbn; [case_match|]; auto.
Qed.

Lemma ws_rev_latin b0 b1 t : in_range 194 195 b0 = true -> utf8_cont b1 = true ->
  whitespace_len_rev (b1 :: b0 :: t) = 0%nat \/ whitespace_len_rev (b1 :: b0 :: t) = 2%nat.
Proof.
  unfold in_range, utf8_cont. intros Hb Hc. assert (b0 = 194 \/ b0 = 195) as [->| ->] by lia;
    unfold whitespace_len_rev, in_range in *; repeat case_match; auto; lia.
Qed.

Section Text.
Context (P : Z -> Prop) (P_u8 : forall c, P c -> is_u8 c).

Lemma trim_front_text fuel : forall s, text_of P s -> text_of P (trim_by fuel whitespace_len s).
Proof.
  induction fuel as [|fuel IH]; intros s Hs; [done|]. cbn [trim_by]. destruct Hs as (cs & Hcs & ->).
  destruct Hcs as [|c cs Hc Hcs]; [by exists []|]. unfold latin1. cbn [map concat]. fold (latin1 cs).
  assert (Hrest : text_of P (latin1 cs)) by (by exists cs).
  assert (Hall : text_of P (encode_char c ++ latin1 cs)) by (by apply text_cons).
  destruct (encode_char_cases c (P_u8 c Hc)) as [[E Hcont]|(b0 & b1 & E & Hr & _)]; rewrite E in *; cbn [app] in *.
  - assert (0 <= c < 128) as Hlt.
    { unfold encode_char in E. pose proof (P_u8 c Hc) as [? _]. destruct (Z.ltb_spec c 128); [lia|done]. }
    destruct (ws_ascii c (latin1 cs) Hlt) as [-> | ->]; [done|]. by apply IH.
  - destruct (ws_latin b0 b1 (latin1 cs) Hr) as [-> | ->]; [done|]. by apply IH.
Qed.

Lemma trim_back_text fuel : forall r, text_of P (rev r) -> text_of P (rev (trim_by fuel whitespace_len_rev r)).
Proof.
  induction fuel as [|fuel IH]; intros r Hs; [done|]. cbn [trim_by]. destruct Hs as (cs & Hcs & Er).
  assert (r = rev (latin1 cs)) as -> by (by rewrite <- Er, rev_involutive). clear Er.
  destruct cs as [|c cs _] using rev_ind; [by exists []|]. apply Forall_app in Hcs as [Hcs [Hc _]%Forall_cons].
  assert (Hall : text_of P (rev (rev (latin1 (cs ++ [c]))))).
  { rewrite rev_involutive. exists (cs ++ [c]). split; [|done]. apply Forall_app. by repeat constructor. }
  assert (Hrest : text_of P (rev (rev (latin1 cs)))) by (rewrite rev_involutive; by exists cs).
  rewrite latin1_snoc, rev_app_distr in *.
  destruct (encode_char_cases c (P_u8 c Hc)) as [[E Hcont]|(b0 & b1 & E & Hr & _ & Hb1)]; rewrite E in *; cbn [app rev] in *.
  - assert (0 <= c < 128) as Hlt.
    { unfold encode_char in E. pose proof (P_u8 c Hc) as [? _]. destruct (Z.ltb_spec c 128); [lia|done]. }
    destruct (ws_rev_ascii c (rev (latin1 cs)) Hlt) as [-> | ->]; [done|]. by apply IH.
  - destruct (ws_rev_latin b0 b1 (rev (latin1 cs)) Hr Hb1) as [-> | ->]; [done|]. by apply IH.
Qed.

Lemma trim_text s : text_of P s -> text_of P (trim s).
Proof. intros Hs. unfold trim. apply trim_back_text. rewrite rev_involutive. by apply trim_front_text. Qed.

(** *** Splitting and joining *)
Lemma split_text s : text_of P s -> Forall (text_of P) (split_on 32 s).
Proof.
  intros (cs & Hcs & ->). induction Hcs as [|c cs Hc _ IH]; [by repeat constructor; exists []|].
  unfold latin1 in *. cbn [map concat]. set (t := concat (map encode_char cs)) in *.
  pose proof (split_on_nonempty 32 t) as Hne. destruct (split_on 32 t) as [|p ps] eqn:Et; [done|].
  apply Forall_cons in IH as [Hp Hps]. pose proof (text_cons P c p Hc Hp) as Hcp.
  destruct (P_u8 c Hc) as [? Hc2]. change (2 ^ 8) with 256 in Hc2. unfold encode_char in *. destruct (Z.ltb_spec c 128); cbn [app split_on] in *; rewrite Et.
  - destruct (c =? 32); [|by constructor]. constructor; [by exists []|by constructor].
  - rewrite !(proj2 (Z.eqb_neq _ 32)) by (Z.div_mod_to_equations; lia). by constructor.
Qed.

Lemma join_text parts : P 32 -> Forall (text_of P) parts -> text_of P (join [32] parts).
Proof.
  intros H32. induction 1 as [|p [|q parts] Hp Hps IH]; [by exists []|done|].
  apply text_app; [done|]. apply (text_ascii P 32); [lia|done|exact IH].
Qed.
End Text.

(** *** Lengths *)
Lemma length_trim_by fuel ws s : (length (trim_by fuel ws s) <= length s)%nat.
Proof.
  revert s. induction fuel as [|fuel IH]; intros s; [done|]. cbn [trim_by]. destruct (ws s) as [|n]; [done|].
  etransitivity; [apply IH|]. rewrite length_drop. lia.
Qed.

Lemma length_trim s : (length (trim s) <= length s)%nat.
Proof.
  unfold trim. rewrite length_rev. etransitivity; [apply length_trim_by|]. rewrite length_rev. apply length_trim_by.
Qed.

Lemma length_join_tail p parts : (length (join [32%Z] parts) <= length (join [32%Z] (p :: parts)))%nat.
Proof. destruct parts as [|q parts]; simpl; [lia|]. rewrite length_app. simpl. lia. Qed.

Lemma length_join_drop n parts : (length (join [32%Z] (drop n parts)) <= length (join [32%Z] parts))%nat.
Proof.
  revert parts. induction n as [|n IH]; intros [|p parts]; [done..|]. cbn [drop]. etransitivity; [apply IH|]. apply length_join_tail.
Qed.

(** ** The parser *)
Definition command_ok (nul_free : Prop) (c : ShellCommand) : Prop :=
  match c with
  | Mkdir p | Touch p => path_ok nul_free p
  | Write p text => path_ok nul_free p /\ Forall is_u8 text /\ zlen text < 2 ^ 63
  | Allocate n => 0 <= n
  | Bench n size => 0 <= n /\ 0 <= size
  | _ => True
  end.

Lemma parse_digits_nonneg s : forall acc n, 0 <= acc -> parse_digits s acc = Some n -> 0 <= n.
Proof.
  induction s as [|b s IH]; intros acc n Ha; cbn [parse_digits]; [by intros [= <-]|].
  destruct (in_range 48 57 b) eqn:Hb; [|done]. unfold checked_mul, checked_add, in_range in *.
  destruct (acc * 10 <=? _); cbn; [|done]. destruct (acc * 10 + (b - 48) <=? _); cbn; [|done]. apply IH. lia.
Qed.

Lemma number_at_nonneg parts i n : number_at parts i = Some n -> 0 <= n.
Proof.
  unfold number_at. destruct (parts !! i) as [s|]; cbn; [|done]. intros E.
  assert (exists s', parse_digits s' 0 = Some n) as [s' Hs'] by (unfold parse_usize in E; repeat case_match; eauto; done).
  by eapply parse_digits_nonneg in Hs'.
Qed.

Lemma normalize_typed nul_free p : typed nul_free p -> typed nul_free (normalize_root_path p).
Proof. intros Hp. unfold normalize_root_path. destruct (starts_with _ _); [done|]. apply text_ascii; [done| |done]. by split. Qed.

Lemma part_typed nul_free line i p : typed nul_free line -> split_on 32 (trim line) !! i = Some p -> path_ok nul_free (normalize_root_path p).
Proof.
  intros Hl Hi. apply typed_path_ok, normalize_typed.
  pose proof (split_text (key nul_free) (key_u8 nul_free) _ (trim_text (key nul_free) (key_u8 nul_free) line Hl)) as Hs. by eapply Forall_lookup_1 in Hs.
Qed.

Lemma from_line_ok nul_free line c :
  typed nul_free line -> zlen line < 2 ^ 63 -> from_line line = Ret (Some c) -> command_ok nul_free c.
Proof.
  intros Hl Hlen. unfold from_line. pose proof (part_typed nul_free line) as Hpart.
  assert (Htext : let t := join [32] (drop 2 (split_on 32 (trim line))) in Forall is_u8 t /\ zlen t < 2 ^ 63).
  { split.
    - assert (Ht : typed nul_free (join [32] (drop 2 (split_on 32 (trim line))))).
      { apply join_text; [by split|]. apply Forall_drop, (split_text (key nul_free) (key_u8 nul_free)), (trim_text (key nul_free) (key_u8 nul_free)), Hl. }
      eapply Forall_impl; [exact (typed_bytes _ _ Ht)|]. by intros ? [].
    - unfold zlen in *. pose proof (length_join_drop 2 (split_on 32 (trim line))) as H2. rewrite join_split in H2.
      pose proof (length_trim line). lia. }
  cbv zeta in Htext. destruct (split_on 32 (trim line)) as [|command parts] eqn:Ep; [done|].
  set (all := command :: parts) in *.
  repeat (destruct (is_command command _); [clear -Hl Hpart Htext; first
    [by intros [= <-]
    |destruct (all !! 1%nat) as [p|] eqn:E1; cbn; [|done]; intros [= <-]; cbn; first [exact I | by apply (Hpart 1%nat)]
    |idtac]|]); [..|done].
  - destruct (number_at all 1) as [n|] eqn:E1, (number_at all 2) as [m|] eqn:E2; cbn; try done.
    intros [= <-]. split; by eapply number_at_nonneg.
  - destruct (number_at all 1) as [n|] eqn:E1; cbn; [|done]. intros [= <-]. by eapply number_at_nonneg.
  - destruct (number_at all 1) as [n|] eqn:E1; cbn; [|done]. by intros [= <-].
  - destruct (2 <=? _); cbn [assert mbind comp_bind]; [|done].
    destruct (all !! 1%nat) as [p|] eqn:E1; cbn; [|done]. intros [= <-]. cbn. split; [by apply (Hpart 1%nat)|exact Htext].
Qed.

(** ** How long a line gets *)
Definition shorter (n : Z) (s : list Z) : Prop := zlen s <= n.

Lemma zlen_encode c : zlen (encode_char c) <= 2.
Proof. unfold encode_char, zlen. destruct (_ <? _); simpl; lia. Qed.

Lemma pop_shorter s s' : pop s = Some s' -> zlen s' <= zlen s.
Proof.
  unfold pop. destruct (pop_rev (rev s)) as [r|] eqn:E; [|done]. intros [= <-].
  assert (Hl : forall l r, pop_rev l = Some r -> (length r <= length l)%nat).
  { induction l as [|b l IH]; intros r'; cbn [pop_rev]; [done|]. destruct (utf8_cont b).
    - intros H%IH. simpl. lia.
    - intros [= ->]. simpl. lia. }
  apply Hl in E. unfold zlen. rewrite length_rev in *. lia.
Qed.

Lemma index_shorter n (h : list (list Z)) i s : Forall (shorter n) h -> index h i = Ret s -> shorter n s.
Proof.
  unfold index. intros Hh E. apply unwrap_ret_inv in E. by eapply Forall_lookup_1 in Hh.
Qed.

Lemma editor_step_shorter n h e c e' :
  Forall (shorter n) h -> shorter n (ed_s e) -> shorter n (ed_draft e) -> editor_step h e c = Ret e' ->
  shorter (n + 2) (ed_s e') /\ shorter (n + 2) (ed_draft e').
Proof.
  intros Hh. destruct e as [s d i st out]. cbn [ed_s ed_draft]. intros Hs Hd. unfold shorter in *.
  unfold editor_step. destruct st.
  - destruct (c =? ASCII_ESCAPE); [intros [= <-]; cbn; lia|]. destruct (_ || _).
    + destruct (pop s) as [s'|] eqn:Ep; intros [= <-]; cbn; [apply pop_shorter in Ep|]; lia.
    + intros [= <-]. cbn. rewrite zlen_app. pose proof (zlen_encode c). lia.
  - intros [= <-]. cbn. lia.
  - destruct (_ && _); [|destruct (_ && _)]; intros E.
    + apply bind_ret_inv in E as (k & _ & E). apply bind_ret_inv in E as (s' & Es & [= <-]). cbn.
      apply (index_shorter n) in Es; [|done]. unfold shorter in Es. destruct (i =? _); lia.
    + apply bind_ret_inv in E as (k & _ & E). apply bind_ret_inv in E as (s' & Es & [= <-]). cbn.
      destruct (k =? zlen h); [injection Es as <-; lia|]. apply (index_shorter n) in Es; [|done]. unfold shorter in Es. lia.
    + injection E as <-. cbn. lia.
Qed.

Lemma read_loop_shorter h input : forall n e line rest out,
  Forall (shorter n) h -> shorter n (ed_s e) -> shorter n (ed_draft e) -> read_loop h e input = Ret (Some (line, rest), out) ->
  shorter (n + 2 * (zlen input - zlen rest)) line /\ zlen rest < zlen input /\ exists pre, input = pre ++ rest.
Proof.
  induction input as [|c input IH]; intros n e line rest out Hh Hs Hd; cbn [read_loop]; [done|].
  assert (Hc : zlen (c :: input) = zlen input + 1) by (unfold zlen; simpl; lia). unfold shorter in *.
  destruct (c =? CR).
  - intros [= <- <- _]. rewrite Hc. split; [lia|]. split; [lia|]. by exists [c].
  - intros E. apply bind_ret_inv in E as (e' & Ee & E).
    destruct (editor_step_shorter n h e c e' Hh Hs Hd Ee) as [Hs' Hd'].
    apply (IH (n + 2)) in E as (Hl & Hr & pre & ->); [|eapply Forall_impl; [exact Hh|]; unfold shorter; simpl; lia|done..].
    unfold shorter in *. rewrite Hc. split; [lia|]. split; [lia|]. by exists (c :: pre).
Qed.

Record history_typed (nul_free : Prop) (n : Z) (h : list (list Z)) : Prop := {
  ht_ok : history_ok h;
  ht_typed : Forall (typed nul_free) h;
  ht_short : Forall (shorter n) h;
}.

Lemma push_typed nul_free n h line :
  history_typed nul_free n h -> typed nul_free line -> shorter n line -> history_typed nul_free n (history_push h line).
Proof.
  intros [Ho Ht Hs] Hl Hn. constructor.
  - by apply history_push_keeps.
  - unfold history_push. repeat case_match; try done; (apply Forall_app; split; [|by constructor]); [|done].
    destruct h; [done|]. by apply Forall_cons in Ht as [].
  - unfold history_push. repeat case_match; try done; (apply Forall_app; split; [|by constructor]); [|done].
    destruct h; [done|]. by apply Forall_cons in Hs as [].
Qed.

Lemma history_typed_weaken nul_free n n' h : n <= n' -> history_typed nul_free n h -> history_typed nul_free n' h.
Proof. intros Hn [? ? Hs]. constructor; [done..|]. eapply Forall_impl; [exact Hs|]. unfold shorter. simpl. lia. Qed.

(** ** What a command does to the machine *)
Section Session.
Context {B : Type} `{VirtIOBlkLaws B} {nul_free : Prop}.
Context (bench_end : Z -> Z -> Machine B -> Z) (fuel : nat).
Context (base hi : Z) (base_pos : 0 < base) (base_hi : base <= hi) (hi_max : hi <= 2 ^ 62)
        (enough : (hi - base) / 24 <= Z.of_nat fuel).
Implicit Types (m : Machine B).

(** The filesystem takes steps, allocations only come on top of the live ones
    and leave their contents alone, output is only appended, and a reset
    happens only when everything is on the disk. *)
Record follows m m' : Prop := {
  fw_fs fs : mc_fs m = Some fs -> fs_sound nul_free fs -> exists fs', mc_fs m' = Some fs' /\ rtc (fs_step nul_free) fs fs';
  fw_heap fl al : heap_inv base hi (mc_heap m) fl al ->
    exists fl' new, heap_inv base hi (mc_heap m') fl' (new ++ al) /\ payloads_kept (mc_heap m) (mc_heap m') al;
  fw_uart : mc_uart m `prefix_of` mc_uart m';
  fw_reset fs : mc_reset m = None -> mc_fs m = Some fs -> fs_sound nul_free fs ->
    mc_reset m' = None \/ mc_reset m' = Some 0 /\ exists fs', mc_fs m' = Some fs' /\ flushed fs';
}.

Lemma follows_trans m1 m2 m3 fs : mc_fs m1 = Some fs -> fs_sound nul_free fs -> mc_reset m2 = None ->
  follows m1 m2 -> follows m2 m3 -> follows m1 m3.
Proof.
  intros Hfs Hs Hr [F1 G1 U1 R1] [F2 G2 U2 R2]. destruct (F1 fs Hfs Hs) as (fs2 & Hfs2 & Hst).
  pose proof (steps_sound _ _ Hst Hs) as Hs2. constructor.
  - intros fs1 Hfs1 _. rewrite Hfs in Hfs1. injection Hfs1 as <-. destruct (F2 fs2 Hfs2 Hs2) as (fs3 & ? & ?).
    exists fs3. split; [done|]. by transitivity fs2.
  - intros fl al Hv. destruct (G1 fl al Hv) as (fl1 & new1 & Hv1 & K1). destruct (G2 fl1 _ Hv1) as (fl2 & new2 & Hv2 & K2).
    exists fl2, (new2 ++ new1). rewrite <- app_assoc. split; [done|]. eapply payloads_kept_trans; [exact K1|].
    eapply payloads_kept_sub; [|exact K2]. set_solver.
  - by transitivity (mc_uart m2).
  - intros fs1 _ _ _. by apply (R2 fs2).
Qed.

(** A change of the filesystem, the heap, the registers, the output. *)
Lemma follows_change m m' :
  (forall fs, mc_fs m = Some fs -> fs_sound nul_free fs -> exists fs', mc_fs m' = Some fs' /\ rtc (fs_step nul_free) fs fs') ->
  (forall fl al, heap_inv base hi (mc_heap m) fl al ->
    exists fl' new, heap_inv base hi (mc_heap m') fl' (new ++ al) /\ payloads_kept (mc_heap m) (mc_heap m') al) ->
  mc_uart m `prefix_of` mc_uart m' -> mc_reset m' = mc_reset m -> follows m m'.
Proof. intros F G U R. constructor; [done..|]. intros fs Hr _ _. left. by rewrite R. Qed.

Lemma same_fs m m' : mc_fs m' = mc_fs m ->
  forall fs, mc_fs m = Some fs -> fs_sound nul_free fs -> exists fs', mc_fs m' = Some fs' /\ rtc (fs_step nul_free) fs fs'.
Proof. intros -> fs Hfs _. by exists fs. Qed.

Lemma same_heap m m' : mc_heap m' = mc_heap m ->
  forall fl al, heap_inv base hi (mc_heap m) fl al ->
    exists fl' new, heap_inv base hi (mc_heap m') fl' (new ++ al) /\ payloads_kept (mc_heap m) (mc_heap m') al.
Proof. intros -> fl al Hv. by exists fl, []. Qed.

Lemma follows_print bytes m : follows m (print bytes m).
Proof. apply follows_change; [by apply same_fs|by apply same_heap|by apply prefix_app_r|done]. Qed.

Lemma follows_hart hart m : follows m (set_hart hart m).
Proof. apply follows_change; [by apply same_fs|by apply same_heap|done..]. Qed.

Lemma follows_report {R : Type} what (op : Filesystem (KernelBlockDevice B) -> comp (result Error R * _)) show m m' :
  (forall fs r fs', op fs = Ret (r, fs') -> fs_step nul_free fs fs') ->
  report what (with_fs op (mc_fs m)) show m = Ret m' -> follows m m'.
Proof.
  intros Hop E. unfold report in E. apply bind_ret_inv in E as ([r g] & E & E'). unfold with_fs, fs_get in E.
  destruct (mc_fs m) as [fs|] eqn:Hfs; cbn [unwrap mbind comp_bind] in E; [|done].
  apply bind_ret_inv in E as ([r' fs'] & Eop & [= <- <-]). apply Hop in Eop. injection E' as <-.
  apply follows_change; [|by apply same_heap; destruct r'|by destruct r'; apply prefix_app_r|by destruct r'].
  intros fs0 Hfs0 _. rewrite Hfs in Hfs0. injection Hfs0 as <-. exists fs'. split; [by destruct r'|by apply rtc_once].
Qed.

Lemma follows_flush g m m' : api_flush (mc_fs m) = Ret g -> m' = set_fs g m ->
  follows m m' /\ exists fs', mc_fs m' = Some fs' /\ forall fs, mc_fs m = Some fs -> fs_sound nul_free fs -> flushed fs'.
Proof.
  intros E ->. unfold api_flush, fs_get in E. destruct (mc_fs m) as [fs|] eqn:Hfs; cbn [unwrap mbind comp_bind] in E; [|done].
  apply bind_ret_inv in E as (fs' & Ef & [= <-]). split.
  - apply follows_change; [|by apply same_heap|done|done]. intros fs0 Hfs0 _. rewrite Hfs in Hfs0. injection Hfs0 as <-.
    exists fs'. split; [done|]. apply rtc_once. by apply step_flush.
  - exists fs'. split; [done|]. intros fs0 Hfs0 Hs. injection Hfs0 as <-.
    destruct (flush_spec fs (ti_ok _ (so_tree _ Hs))) as (f & Ef' & _ & _ & Hfl). rewrite Ef' in Ef. by injection Ef as <-.
Qed.

Lemma call_follows command history m m' :
  command_ok nul_free command -> call bench_end fuel command history m = Ret m' -> follows m m'.
Proof.
  intros Hc E. destruct command; cbn [call command_ok] in *; try (injection E as <-; apply follows_print).
  - apply bind_ret_inv in E as (g & Ef & [= <-]). destruct (follows_flush g m _ Ef eq_refl) as [[F G U R] (fs' & Hfs' & Hfl)].
    constructor; [exact F|exact G|exact U|]. intros fs _ Hfs Hs. right. split; [done|]. exists fs'. split; [done|]. by apply (Hfl fs).
  - apply bind_ret_inv in E as (text & _ & [= <-]). apply follows_print.
  - apply bind_ret_inv in E as (freq & _ & E). apply bind_ret_inv in E as (hart & _ & [= <-]). apply follows_hart.
  - apply bind_ret_inv in E as (text & _ & [= <-]). apply follows_print.
  - apply bind_ret_inv in E as (freq & _ & E). apply bind_ret_inv in E as (time & _ & [= <-]). apply follows_print.
  - apply bind_ret_inv in E as (heap & Eh & [= <-]). apply follows_change; [by apply same_fs| |done|done].
    intros fl al Hv. destruct (shell_allocate_run base hi base_pos base_hi hi_max fuel enough _ fl al size Hv Hc)
      as [Ep|(h' & fl' & new & E' & Hv' & _ & Hk)]; rewrite Eh in *; [done|]. injection E' as <-. by exists fl', new.
  - apply bind_ret_inv in E as (freq & _ & E). apply bind_ret_inv in E as ([[text hart] heap] & Eb & [= <-]).
    apply follows_change; [by apply same_fs| |by apply prefix_app_r|done].
    intros fl al Hv. destruct (benchmark_run base hi base_pos base_hi hi_max fuel enough _ fl al freq (bench_end n size m) n size (mc_hart m) Hv (proj1 Hc) (proj2 Hc))
      as [Ep|(h' & E' & _ & Hv' & Hk)]; rewrite Eb in *; [done|]. injection E' as -> -> ->. by exists fl, [].
  - eapply follows_report; [|exact E]. intros ??? E0. cbv beta in E0. by eapply step_dump.
  - eapply follows_report; [|exact E]. intros ??? E0. cbv beta in E0. by eapply step_mkdir.
  - apply bind_ret_inv in E as (text & _ & [= <-]). apply follows_print.
  - eapply follows_report; [|exact E]. intros ??? E0. cbv beta in E0. destruct Hc as (_ & ? & ?). by eapply step_append.
  - eapply follows_report; [|exact E]. intros ??? E0. cbv beta in E0. by eapply step_read.
  - eapply follows_report; [|exact E]. intros ??? E0. cbv beta in E0. by eapply step_create.
  - eapply follows_report; [|exact E]. intros ??? E0. cbv beta in E0. by eapply step_remove.
  - apply bind_ret_inv in E as ([text g] & Et & [= <-]). unfold api_tree, with_fs, fs_get in Et.
    destruct (mc_fs m) as [fs|] eqn:Hfs; cbn [unwrap mbind comp_bind] in Et; [|done].
    apply bind_ret_inv in Et as ([r' fs'] & Eop & [= <- <-]).
    apply follows_change; [|by apply same_heap|by apply prefix_app_r|done].
    intros fs0 Hfs0 _. rewrite Hfs in Hfs0. injection Hfs0 as <-. exists fs'. split; [done|]. apply rtc_once. by eapply step_tree.
  - apply bind_ret_inv in E as (g & Ef & [= <-]). by apply (follows_flush g m _ Ef eq_refl).
Qed.

Lemma run_line_follows history line m history' m' :
  typed nul_free line -> zlen line < 2 ^ 63 -> run_line bench_end fuel history line m = Ret (history', m') ->
  history' = history_push history line /\ follows m m'.
Proof.
  intros Hl Hlen E. unfold run_line in E. apply bind_ret_inv in E as (c & Ec & E). apply bind_ret_inv in E as (m1 & Em & [= <- <-]).
  split; [done|]. destruct c as [c|].
  - eapply call_follows; [|exact Em]. by eapply from_line_ok.
  - injection Em as <-. apply follows_print.
Qed.

(** ** The loop *)
Lemma follows_refl m : follows m m.
Proof. apply follows_change; [by apply same_fs|by apply same_heap|done|done]. Qed.

Lemma follows_sound m m' fs : follows m m' -> mc_fs m = Some fs -> fs_sound nul_free fs ->
  exists fs', mc_fs m' = Some fs' /\ fs_sound nul_free fs'.
Proof. intros Hf Hfs Hs. destruct (fw_fs _ _ Hf fs Hfs Hs) as (fs' & ? & ?). exists fs'. split; [done|]. by eapply steps_sound. Qed.

Lemma shell_loop_follows rounds : forall history input m history' m' n fs,
  history_typed nul_free n history -> 0 <= n -> n + 2 * zlen input < 2 ^ 63 -> Forall (key nul_free) input ->
  mc_fs m = Some fs -> fs_sound nul_free fs -> mc_reset m = None ->
  shell_loop bench_end fuel rounds history input m = Ret (history', m') ->
  history_typed nul_free (n + 2 * zlen input) history' /\ follows m m'.
Proof.
  induction rounds as [|rounds IH]; intros history input m history' m' n fs Hh Hn Hlen Hk Hfs Hs Hr; cbn [shell_loop]; [done|].
  intros E. apply bind_ret_inv in E as ([r out] & Er & E). cbv zeta in E. set (m1 := print out m) in *.
  assert (F1 : follows m m1) by apply follows_print.
  assert (Hpos : 0 <= zlen input) by (unfold zlen; lia).
  destruct r as [[line rest]|]; [|injection E as <- <-; split; [by eapply history_typed_weaken; [|exact Hh]; lia|done]].
  destruct (read_loop_ok (key nul_free) (key_u8 nul_free) history input (editor_start history) (ho_size _ (ht_ok _ _ _ Hh)) (ht_typed _ _ _ Hh) Hk
    (editor_start_ok (key nul_free) history)) as (r' & out' & Er' & Hl).
  unfold read_line_and_display in Er. rewrite Er in Er'. injection Er' as <- <-. destruct Hl as [Htyped _].
  destruct (read_loop_shorter history input n (editor_start history) _ _ _ (ht_short _ _ _ Hh) Hn Hn Er) as (Hsh & Hlt & pre & Epre).
  unfold shorter in Hsh. assert (Hrest : 0 <= zlen rest) by (unfold zlen; lia).
  apply bind_ret_inv in E as ([history1 m2] & Erun & E).
  apply run_line_follows in Erun as [-> F2]; [|done|lia].
  set (n1 := n + 2 * (zlen input - zlen rest)) in *.
  assert (Hh1 : history_typed nul_free n1 (history_push history line)).
  { apply push_typed; [|done|done]. by eapply history_typed_weaken; [|exact Hh]; lia. }
  assert (F : follows m m2) by (exact (follows_trans m m1 m2 fs Hfs Hs Hr F1 F2)).
  destruct (mc_reset m2) as [code|] eqn:Hr2.
  - injection E as <- <-. split; [|done]. eapply history_typed_weaken; [|exact Hh1]. lia.
  - destruct (follows_sound m m2 fs F Hfs Hs) as (fs2 & Hfs2 & Hs2).
    destruct (IH _ rest m2 history' m' n1 fs2 Hh1) as [Hh' F3]; [lia|lia| |done..|].
    { rewrite Epre in Hk. by apply Forall_app in Hk as []. }
    split; [eapply history_typed_weaken; [|exact Hh']; lia|].
    eapply follows_trans; [exact Hfs|exact Hs|exact Hr2|exact F|exact F3].
Qed.

Lemma shell_run input m history m' fs fl al :
  Forall (key nul_free) input -> zlen input < 2 ^ 61 -> mc_fs m = Some fs -> fs_sound nul_free fs -> mc_reset m = None ->
  heap_inv base hi (mc_heap m) fl al -> shell bench_end fuel input m = Ret (history, m') ->
  history_ok history /\ Forall (typed nul_free) history /\ mc_uart m `prefix_of` mc_uart m' /\
  (exists fl' new, heap_inv base hi (mc_heap m') fl' (new ++ al) /\ payloads_kept (mc_heap m) (mc_heap m') al) /\
  exists fs', mc_fs m' = Some fs' /\ rtc (fs_step nul_free) fs fs' /\ fs_sound nul_free fs' /\
    (mc_reset m' = None \/
     mc_reset m' = Some 0 /\ exists fs2, Filesystem_new (block_device fs') = Ret (Ok fs2) /\ fs_sound nul_free fs2 /\ fs_equiv fs' fs2).
Proof.
  intros Hk Hlen Hfs Hs Hr Hv E. unfold shell in E.
  assert (Hh : history_typed nul_free 0 []) by (constructor; [by constructor|constructor..]).
  assert (Hn : 0 + 2 * zlen input < 2 ^ 63) by lia.
  destruct (shell_loop_follows _ _ _ _ _ _ 0 fs Hh ltac:(done) Hn Hk Hfs Hs Hr E) as [[Ho Ht _] F].
  split; [done|]. split; [done|]. split; [apply F|]. split; [by eapply fw_heap|].
  destruct (fw_fs _ _ F fs Hfs Hs) as (fs' & Hfs' & Hst). pose proof (steps_sound _ _ Hst Hs) as Hs'.
  exists fs'. split_and!; [done..|]. destruct (fw_reset _ _ F fs Hr Hfs Hs) as [?|[Hr' (f & Hf & Hfl)]]; [by left|right].
  split; [done|]. rewrite Hfs' in Hf. injection Hf as <-. pose proof (so_tree _ Hs') as Hti. destruct (ti_root _ Hti) as [_ Hd].
  destruct (mount_flushed fs' (ti_ok _ Hti) Hfl Hd) as (fs2 & E2 & Hok2 & He2 & _).
  exists fs2. split; [done|]. split; [by apply (sound_equiv fs')|done].
Qed.
End Session.

(** ** Witness: a file is made, written and read, and the machine shut down *)
#[local] Existing Instance no_virtio.
#[local] Existing Instance no_virtio_laws.

Definition sample_session : list Z :=
  str "touch b" ++ [13] ++ str "write b hi" ++ [13] ++ str "cat b" ++ [13] ++ str "bench 3 100" ++ [13] ++ str "exit" ++ [13].

Definition session_machine (h : FreeListAllocator) : Machine Empty_set :=
  mkMachine (Some ram_fs_a) h (mkHart 0 0 0 0 0 0 0)
    (Some (mkSystemInfo 10000000 1 [] [] [] [] (mkPhysRange 0 0) 0 0)) [] None.

Lemma sample_session_keys nul_free : Forall (key nul_free) sample_session.
Proof.
  apply Forall_forall. intros c Hc. assert (forallb (fun c => (0 <? c) && (c <? 256)) sample_session = true) as Hf by (by vm_compute).
  apply list_elem_of_In in Hc. eapply forallb_forall in Hf; [|exact Hc]. unfold key, in_width. change (2 ^ 8) with 256. split; [lia|]. intros _. lia.
Qed.

(** The two computations in a row return a pair with the property. *)
Definition leads_to {A X Y : Type} (c : comp A) (f : A -> comp (X * Y)) (P : X -> Y -> Prop) : Prop :=
  match (a ← c; f a) with Ret (x, y) => P x y | _ => False end.

Lemma leads_to_parts {A X Y : Type} (c : comp A) (f : A -> comp (X * Y)) (P : X -> Y -> Prop) :
  leads_to c f P -> exists a x y, c = Ret a /\ f a = Ret (x, y) /\ P x y.
Proof.
  unfold leads_to. destruct c as [a| |]; cbn; [|done..]. destruct (f a) as [[x y]| |] eqn:E; [|done..]. intros HP. by exists a, x, y.
Qed.

Definition shut_down (history : list (list Z)) (m : Machine Empty_set) : Prop := length history = 5%nat /\ mc_reset m = Some 0.

Lemma sample_session_runs :
  leads_to (init (FreeListAllocator_new page_heap_mem) 64 12352)
    (fun h => shell (fun _ _ _ => 0) 4096 sample_session (session_machine h)) shut_down.
Proof. vm_compute. by split. Qed.

Lemma sample_session_length : zlen sample_session < 2 ^ 61.
Proof. by vm_compute. Qed.
