(* ===== verification/ShellTotal.v ===== *)
(** * Sessions end

    What [ShellSession] says of a session that returns holds of every session
    that does not panic: no command and no loop of the shell runs out of fuel,
    when the fuel covers the heap's free list and the depth of the tree. *)
From stdpp Require Import relations.
From S2P Require Import Prelude Bitmap Bytes Layout INode DirEntry BlockDev INodeCache SuperBlock Filesystem.
From S2P Require Import FsBase FsState FsFiles FsDirs FsCreate FsFormat FsProps FsUsage FsRemove FsLinks FsSound FsTree FsEnds KernelFs.
From S2P Require Import Memory FreeList HeapSpec HeapInv HeapProps Riscv PhysRange DeviceTree ShellHeap ShellHeapProps Shell ShellProps ShellSession.
Open Scope Z_scope.

(** ** What does not loop *)
Lemma div_checked_ends a b : ends (div_checked a b).
Proof. unfold div_checked. ends. Qed.

Lemma percentage_tenths_ends a b : ends (percentage_tenths a b).
Proof. unfold percentage_tenths. ends. Qed.

Lemma index_ends {A} (l : list A) i : ends (index l i).
Proof. unfold index. ends. Qed.

#[local] Hint Resolve div_checked_ends percentage_tenths_ends index_ends : ends.

Lemma timer_frequency_ends info : ends (timer_frequency info).
Proof. unfold timer_frequency, system_info. ends. Qed.

Lemma sysinfo_ends info : ends (sysinfo info).
Proof. unfold sysinfo, cpus, cpu_isa, total_memory, timer_frequency, system_info. ends. Qed.

Lemma from_line_ends line : ends (from_line line).
Proof. unfold from_line. ends. Qed.

Lemma editor_step_ends h e c : ends (editor_step h e c).
Proof. unfold editor_step. ends. Qed.

Lemma read_loop_ends h input : forall e, ends (read_loop h e input).
Proof.
  induction input as [|c input IH]; intros e; cbn [read_loop]; [done|]. destruct (c =? CR); [done|].
  apply ends_bind; [apply editor_step_ends|]. intros e' _. apply IH.
Qed.

#[local] Hint Resolve timer_frequency_ends sysinfo_ends from_line_ends : ends.

Section Total.
Context {B : Type} `{VirtIOBlkLaws B} {nul_free : Prop}.

(** ** The dump of the device *)
Lemma kernel_read_ends (d : KernelBlockDevice B) i : ends (read_block d i).
Proof.
  destruct d as [ram|blk]; cbn [read_block KernelBlockDevice_BlockDevice].
  - unfold ramdisk_read_block. ends.
  - unfold locked_read_block. ends.
Qed.
#[local] Hint Resolve kernel_read_ends : ends.

Lemma read_page_ends (d : KernelBlockDevice B) first blocks : forall offset, ends (read_page d first blocks offset).
Proof. induction blocks as [|blocks IH]; intros offset; cbn [read_page]; ends. Qed.
#[local] Hint Resolve read_page_ends : ends.

Lemma dump_pages_ends (d : KernelBlockDevice B) pages : forall page total, ends (dump_pages d pages page total).
Proof. induction pages as [|pages IH]; intros page total; cbn [dump_pages]; cbv zeta; ends. Qed.
#[local] Hint Resolve dump_pages_ends : ends.

Lemma api_dump_ends (g : option (Filesystem (KernelBlockDevice B))) : ends (api_dump g).
Proof. unfold api_dump, fs_get, dump_non_empty_pages. cbv zeta. ends. Qed.

(** ** The commands *)
Context (bench_end : Z -> Z -> Machine B -> Z) (fuel : nat).
Context (base hi : Z) (base_pos : 0 < base) (base_hi : base <= hi) (hi_max : hi <= 2 ^ 62)
        (enough : (hi - base) / 24 <= Z.of_nat fuel).
Implicit Types (m : Machine B).

(** What a command needs of the machine to end. *)
Record ready m : Prop := {
  rd_fs : exists fs rank, mc_fs m = Some fs /\ fs_sound nul_free fs /\ hierarchy fs rank /\ inode_count fs <= Z.of_nat fuel;
  rd_heap : exists fl al, heap_inv base hi (mc_heap m) fl al;
}.

Lemma ready_follows m m' : follows (nul_free := nul_free) base hi m m' -> ready m -> ready m'.
Proof.
  intros [F G _ _] [(fs & rank & Hfs & Hs & Hh & Hc) (fl & al & Hv)].
  destruct (F fs Hfs Hs) as (fs' & Hfs' & Hst). destruct (steps_hierarchy fs fs' rank Hst Hs Hh) as [rank' Hh'].
  destruct (G fl al Hv) as (fl' & new & Hv' & _). constructor; [|by exists fl', (new ++ al)].
  exists fs', rank'. split_and!; [done|by eapply steps_sound|done|by rewrite (steps_count fs fs' Hst Hs)].
Qed.

Lemma with_fs_ends {R : Type} (op : Filesystem (KernelBlockDevice B) -> comp (R * Filesystem (KernelBlockDevice B))) g :
  (forall fs, g = Some fs -> ends (op fs)) -> ends (with_fs op g).
Proof.
  intros Hop. unfold with_fs, fs_get. apply ends_bind; [ends|]. intros fs E%unwrap_ret_inv. apply ends_bind; [by apply Hop|]. by intros [r f] _.
Qed.

Lemma report_ends {R : Type} what op (show : R -> list Z) m :
  (forall fs, mc_fs m = Some fs -> ends (op fs)) -> ends (report what (with_fs op (mc_fs m)) show m).
Proof. intros Hop. unfold report. apply ends_bind; [by apply with_fs_ends|]. by intros [r g] _. Qed.

Lemma api_flush_ends (g : option (Filesystem (KernelBlockDevice B))) : (forall fs, g = Some fs -> fs_sound nul_free fs) -> ends (api_flush g).
Proof.
  intros Hs. unfold api_flush, fs_get. apply ends_bind; [ends|]. intros fs E%unwrap_ret_inv. apply ends_bind; [|done].
  eapply flush_ends. by apply Hs.
Qed.

Lemma heap_commands_end m : ready m -> ends (memory fuel (mc_heap m)) /\
  (forall size, 0 <= size -> ends (shell_allocate fuel (mc_heap m) size)) /\
  (forall freq endt n size, 0 <= n -> 0 <= size -> ends (benchmark_allocator fuel freq endt n size (mc_hart m) (mc_heap m))).
Proof.
  intros [_ (fl & al & Hv)]. split_and!.
  - unfold memory. pose proof (heap_length base hi _ fl al Hv base_hi).
    rewrite (stats_run base hi base_pos hi_max _ fl al) by (done || (Z.div_mod_to_equations; lia)). cbn [mbind comp_bind]. ends.
  - intros size Hsz. destruct (shell_allocate_run base hi base_pos base_hi hi_max fuel enough _ fl al size Hv Hsz)
      as [->|(h' & fl' & new & -> & _)]; done.
  - intros freq endt n size Hn Hsz. destruct (benchmark_run base hi base_pos base_hi hi_max fuel enough _ fl al freq endt n size (mc_hart m) Hv Hn Hsz)
      as [->|(h' & -> & _)]; done.
Qed.

Lemma call_ends command history m : command_ok nul_free command -> ready m -> ends (call bench_end fuel command history m).
Proof.
  intros Hc Hr. pose proof (heap_commands_end m Hr) as (Hmem & Halloc & Hbench).
  destruct Hr as [(fs & rank & Hfs & Hs & Hh & Hn) _].
  assert (Hop : forall R (op : Filesystem (KernelBlockDevice B) -> comp (R * Filesystem (KernelBlockDevice B))),
    ends (op fs) -> forall f, mc_fs m = Some f -> ends (op f)) by (intros R op Ho f Hf; congruence).
  assert (Hflush : ends (api_flush (mc_fs m))) by (apply api_flush_ends; intros f Hf; congruence).
  destruct command; cbn [call command_ok] in *; try done.
  - by apply ends_bind.
  - by apply ends_bind.
  - unfold new_time. ends.
  - ends.
  - unfold uptime. ends.
  - apply ends_bind; [by apply Halloc|done].
  - apply ends_bind; [ends|]. intros freq _. apply ends_bind; [by apply Hbench; apply Hc|]. by intros [[text hart] heap] _.
  - apply report_ends, (Hop _ (fun fs => dump_dir fs _ _)). by eapply dump_dir_ends.
  - apply report_ends, (Hop _ (fun fs => mkdir fs _)). by eapply new_dir_entry_ends.
  - apply ends_bind; [apply api_dump_ends|done].
  - destruct Hc as (Hp & Ht & Hl). apply report_ends, (Hop _ (fun fs => write_to_file fs _ _)). by eapply append_to_file_ends.
  - apply report_ends, (Hop _ (fun fs => read_file fs _)). by eapply read_file_ends.
  - apply report_ends, (Hop _ (fun fs => create_file fs _)). by eapply new_dir_entry_ends.
  - apply report_ends, (Hop _ (fun fs => remove_dir_entry fs _)). by eapply remove_dir_entry_ends.
  - apply ends_bind; [|by intros [text g] _]. apply with_fs_ends, (Hop _ (fun fs => tree fuel fs [])). by eapply tree_ends.
  - by apply ends_bind.
Qed.
(** ** The loop *)
Lemma run_line_ends history line m : typed nul_free line -> zlen line < 2 ^ 63 -> ready m -> ends (run_line bench_end fuel history line m).
Proof.
  intros Hl Hlen Hr. unfold run_line. cbv zeta. apply ends_bind; [apply from_line_ends|]. intros c Ec.
  apply ends_bind; [|done]. destruct c as [c|]; [|done]. apply call_ends; [by eapply from_line_ok|done].
Qed.

Lemma shell_loop_ends rounds : forall history input m n,
  (length input < rounds)%nat -> history_typed nul_free n history -> 0 <= n -> n + 2 * zlen input < 2 ^ 63 -> Forall (key nul_free) input ->
  ready m -> ends (shell_loop bench_end fuel rounds history input m).
Proof.
  induction rounds as [|rounds IH]; intros history input m n Hlt Hh Hn Hlen Hk Hr; cbn [shell_loop]; [lia|].
  apply ends_bind; [apply read_loop_ends|]. intros [r out] Er. cbv zeta. set (m1 := print out m).
  assert (R1 : ready m1) by (eapply ready_follows; [apply follows_print|done]).
  destruct r as [[line rest]|]; [|done].
  destruct (read_loop_ok (key nul_free) (key_u8 nul_free) history input (editor_start history) (ho_size _ (ht_ok _ _ _ Hh)) (ht_typed _ _ _ Hh) Hk
    (editor_start_ok (key nul_free) history)) as (r' & out' & Er' & Hl).
  unfold read_line_and_display in Er. rewrite Er in Er'. injection Er' as <- <-. destruct Hl as [Htyped _].
  destruct (read_loop_shorter history input n (editor_start history) line rest out (ht_short _ _ _ Hh) Hn Hn Er) as (Hsh & Hrest & pre & Epre).
  unfold shorter in Hsh. assert (0 <= zlen rest) by (unfold zlen; lia).
  apply ends_bind; [apply run_line_ends; [done|lia|done]|]. intros [history1 m2] E2.
  apply (run_line_follows (nul_free := nul_free) bench_end fuel base hi base_pos base_hi hi_max enough) in E2 as [-> F2]; [|done|lia].
  destruct (mc_reset m2); [done|]. apply (IH _ rest m2 (n + 2 * (zlen input - zlen rest))); [| |lia|lia| |].
  - unfold zlen in *. lia.
  - apply push_typed; [apply (history_typed_weaken nul_free n); [lia|done]|done|done].
  - rewrite Epre in Hk. by apply Forall_app in Hk as [].
  - by apply (ready_follows m1).
Qed.

Lemma shell_ends input m : Forall (key nul_free) input -> zlen input < 2 ^ 61 -> ready m -> ends (shell bench_end fuel input m).
Proof.
  intros Hk Hlen Hr. unfold shell. apply (shell_loop_ends _ _ _ _ 0); [lia| |done|lia|done|done].
  constructor; [by constructor|constructor..].
Qed.

(** Both together: a session panics or ends soundly. *)
Lemma session_run input m fs rank fl al :
  Forall (key nul_free) input -> zlen input < 2 ^ 61 -> mc_fs m = Some fs -> fs_sound nul_free fs -> hierarchy fs rank ->
  inode_count fs <= Z.of_nat fuel -> mc_reset m = None -> heap_inv base hi (mc_heap m) fl al ->
  shell bench_end fuel input m = Panic \/
  exists history m', shell bench_end fuel input m = Ret (history, m') /\
    history_ok history /\ Forall (typed nul_free) history /\ mc_uart m `prefix_of` mc_uart m' /\
    (exists fl' new, heap_inv base hi (mc_heap m') fl' (new ++ al) /\ payloads_kept (mc_heap m) (mc_heap m') al) /\
    exists fs', mc_fs m' = Some fs' /\ rtc (fs_step nul_free) fs fs' /\ fs_sound nul_free fs' /\
      (mc_reset m' = None \/
       mc_reset m' = Some 0 /\ exists fs2, Filesystem_new (block_device fs') = Ret (Ok fs2) /\ fs_sound nul_free fs2 /\ fs_equiv fs' fs2).
Proof.
  intros Hk Hlen Hfs Hs Hh Hc Hreset Hv.
  assert (Hr : ready m) by (constructor; [by exists fs, rank|by exists fl, al]).
  pose proof (shell_ends input m Hk Hlen Hr) as He.
  destruct (shell bench_end fuel input m) as [[history m']| |] eqn:E; [right|by left|done].
  exists history, m'. split; [done|]. by apply (shell_run bench_end fuel base hi base_pos base_hi hi_max enough input m history m' fs fl al).
Qed.
End Total.

(** ** Properties *)

(** C6: Whatever is typed, the session ends and the machine stays sound.  From a
    filesystem reached from a fresh mount and a heap that keeps its invariant, any
    keys lead the shell to a panic or to its end, never to a command or a loop
    that runs forever (the fuel that suffices is the number of inodes, for the
    tree, and a unit for every 24 bytes of the heap, for the free list).  At its
    end the filesystem was reached by filesystem steps and is sound, in the heap
    every allocation that was live still is, with its contents, the output only
    grew, and the history has at most 100 lines, none of them blank or repeated.
    When the machine was shut down by [exit], mounting its disk again gives the
    same files back.  With [nul_free], the keys and the paths before them hold no
    NUL byte, and sound includes that the names in a directory are distinct. *)
Theorem session_is_sound {B : Type} `{VirtIOBlkLaws B} (nul_free : Prop) bench_end fuel base hi input (m : Machine B) fs0 fs fl al :
  0 < base -> base <= hi <= 2 ^ 62 -> (hi - base) / 24 <= Z.of_nat fuel -> inode_count fs <= Z.of_nat fuel ->
  Forall (key nul_free) input -> zlen input < 2 ^ 61 ->
  mc_fs m = Some fs -> freshly_mounted fs0 -> rtc (fs_step nul_free) fs0 fs ->
  mc_reset m = None -> heap_inv base hi (mc_heap m) fl al ->
  shell bench_end fuel input m = Panic \/
  exists history m', shell bench_end fuel input m = Ret (history, m') /\
    history_ok history /\ Forall (typed nul_free) history /\ mc_uart m `prefix_of` mc_uart m' /\
    (exists fl' new, heap_inv base hi (mc_heap m') fl' (new ++ al) /\ payloads_kept (mc_heap m) (mc_heap m') al) /\
    exists fs', mc_fs m' = Some fs' /\ rtc (fs_step nul_free) fs fs' /\ fs_sound nul_free fs' /\
      (mc_reset m' = None \/
       mc_reset m' = Some 0 /\ exists fs2, Filesystem_new (block_device fs') = Ret (Ok fs2) /\ fs_sound nul_free fs2 /\ fs_equiv fs' fs2).
Proof.
  intros Hb [Hh1 Hh2] Hf Hc Hk Hlen Hfs Hfresh Hst Hreset Hv. destruct (reached_hierarchy fs0 fs Hfresh Hst) as (Hs & rank & Hh).
  by apply (session_run bench_end fuel base hi Hb Hh1 Hh2 Hf input m fs rank fl al).
Qed.

(** ** Witness: the sample session *)
#[local] Existing Instance no_virtio.
#[local] Existing Instance no_virtio_laws.

Lemma ram_size : is_u32 (total_blocks ram_device).
Proof. by vm_compute. Qed.

Lemma ram_fresh : freshly_mounted ram_fs.
Proof.
  destruct (format_spec ram_device (mkLayout 1 1 2 1 3 586 589 111)) as (dev' & fs & E1 & E2 & _).
  - apply disk_empty_ok. lia.
  - by vm_compute.
  - by vm_compute.
  - assert (Es : ram_fs = fs) by (unfold ram_fs; rewrite E1; cbn [mbind comp_bind]; by rewrite E2).
    exists ram_device, dev'. rewrite Es. split; [apply disk_empty_ok; lia|]. split; [exact ram_size|]. split; [exact E1|exact E2].
Qed.

Lemma ram_a_steps nul_free : rtc (fs_step nul_free) ram_fs ram_fs_a.
Proof.
  destruct (create_file_run ram_fs sample_path 0 (str "a") 1) as (fs' & E & _).
  - apply ram_empty_tree.
  - apply sample_path_bytes.
  - by vm_compute.
  - by vm_compute.
  - assert (Ea : ram_fs_a = fs') by (unfold ram_fs_a; by rewrite E). rewrite Ea. apply rtc_once.
    eapply step_create; [exact (sample_path_ok nul_free)|exact E].
Qed.

Lemma ram_a_inodes : inode_count ram_fs_a <= Z.of_nat 4096.
Proof. by vm_compute. Qed.

Lemma page_heap_fuel_4096 : (heap_hi 64 12352 - heap_base 64) / 24 <= Z.of_nat 4096.
Proof. transitivity (Z.of_nat 600); [exact page_heap_fuel|lia]. Qed.

Lemma panic_no_return {A} (c : comp A) a : c = Panic -> c = Ret a -> False.
Proof. congruence. Qed.

Lemma returns_once {A X} (c : comp (A * X)) a a' x x' : c = Ret (a', x') -> c = Ret (a, x) -> a' = a /\ x' = x.
Proof. intros -> E. by injection E. Qed.

Lemma none_no_some (o : option Z) a : o = None -> o = Some a -> False.
Proof. congruence. Qed.

Lemma session_is_sound_witness :
  exists h history m' fs' fs2, init (FreeListAllocator_new page_heap_mem) 64 12352 = Ret h /\
    shell (fun _ _ _ => 0) 4096 sample_session (session_machine h) = Ret (history, m') /\
    mc_fs m' = Some fs' /\ rtc (fs_step False) ram_fs_a fs' /\ Filesystem_new (block_device fs') = Ret (Ok fs2) /\ fs_equiv fs' fs2.
Proof.
  destruct (leads_to_parts _ _ _ sample_session_runs) as (h & history & m' & E & Es & [_ Hreset]). cbv beta in Es.
  assert (Hv : heap_inv (heap_base 64) (heap_hi 64 12352) h [(heap_base 64, 12352 - 64 - 24)] []).
  { destruct (init_run page_heap_mem 64 12352 page_heap_bounds page_heap_mapped) as (h' & E' & Hv). rewrite E' in E. by injection E as ->. }
  destruct (session_is_sound False (fun _ _ _ => 0) 4096 (heap_base 64) (heap_hi 64 12352) sample_session (session_machine h) ram_fs ram_fs_a _ []
    (proj1 page_heap_range) (proj2 page_heap_range) page_heap_fuel_4096 ram_a_inodes (sample_session_keys False) sample_session_length
    eq_refl ram_fresh (ram_a_steps False) eq_refl Hv) as [Ep|(history' & m2 & Es' & _ & _ & _ & _ & fs' & Hfs' & Hst & _ & Hend)].
  - exact (False_ind _ (panic_no_return _ _ Ep Es)).
  - destruct (returns_once _ _ _ _ _ Es' Es) as [-> ->].
    destruct Hend as [Hnone|(_ & fs2 & Hm & _ & He)]; [exact (False_ind _ (none_no_some _ _ Hnone Hreset))|].
    exists h, history, m', fs', fs2. split; [exact E|]. split; [exact Es'|]. split; [exact Hfs'|]. split; [exact Hst|]. split; [exact Hm|exact He].
Defined.
