(* ===== verification/Mkfs.v ===== *)
(** * The image builder ([src/mkfs/src/lib.rs], [src/mkfs/src/main.rs])

    The command line of mkfs, the block device it keeps in a host file, and the
    import of a host directory into a new image.  The host is a record of the
    answers [std::fs] gives about the source tree, which does not change while
    mkfs runs, and of the operations it refuses; the files mkfs writes are a map
    from paths to contents.  Operating-system strings are bytes.  A [BuildError]
    is the call that made it with its arguments instead of the formatted text. *)
From S2P Require Import Prelude Bitmap Bytes Layout INode DirEntry BlockDev INodeCache SuperBlock Filesystem.

(** ** Standard library paths

    A path up to what [Path] compares: whether it starts at the root, and its
    components.  Empty components are dropped, and so is a dot unless a relative
    path begins with it. *)
Inductive Component := CurDir | ParentDir | Normal (name : list Z).
#[export] Instance Component_eq_dec : EqDecision Component.
Proof. solve_decision. Defined.
#[export] Instance Component_countable : Countable Component.
Proof.
  refine (inj_countable' (fun c => match c with CurDir => None | ParentDir => Some None | Normal n => Some (Some n) end)
    (fun o => match o with None => CurDir | Some None => ParentDir | Some (Some n) => Normal n end) _). by intros [].
Defined.

Record PathBuf := mkPath { pb_root : bool; pb_parts : list Component }.
#[export] Instance PathBuf_eq_dec : EqDecision PathBuf.
Proof. solve_decision. Defined.
#[export] Instance PathBuf_countable : Countable PathBuf.
Proof. refine (inj_countable' (fun p => (pb_root p, pb_parts p)) (fun '(r, l) => mkPath r l) _). by intros []. Defined.

Definition component (s : list Z) : option Component :=
  if bool_decide (s = []) then None
  else if bool_decide (s = [DOT]) then None
  else if bool_decide (s = [DOT; DOT]) then Some ParentDir
  else Some (Normal s).
Definition path_of (s : list Z) : PathBuf :=
  let parts := omap component (split_on SLASH s) in
  let root := starts_with s [SLASH] in
  let dot := bool_decide (head (split_on SLASH s) = Some [DOT]) in
  mkPath root (if dot then CurDir :: parts else parts).

Definition file_name (p : PathBuf) : option (list Z) :=
  match last (pb_parts p) with Some (Normal name) => Some name | _ => None end.
Definition parent (p : PathBuf) : option PathBuf :=
  match last (pb_parts p) with
  | Some _ => Some (mkPath (pb_root p) (removelast (pb_parts p)))
  | None => None
  end.
Definition path_join (p : PathBuf) (name : list Z) : PathBuf := mkPath (pb_root p) (pb_parts p ++ [Normal name]).
Definition path_starts_with (p base : PathBuf) : bool :=
  Bool.eqb (pb_root p) (pb_root base) && bool_decide (take (length (pb_parts base)) (pb_parts p) = pb_parts base).

(** ** The host *)
Inductive IoError := IoNotFound | IoAlreadyExists | IoOther (code : Z).
Inductive FileType := TyDir | TyFile | TyOther.

(** [read_dir] lists file names.  The last group says which operations on the
    files of mkfs the host refuses, which blocks of an image it fails to read or
    write (as when the host's own disk is full), and which paths are taken by
    anything that is not such a file. *)
Record Host := mkHost {
  symlink_metadata : PathBuf -> result IoError FileType;
  canonicalize : PathBuf -> result IoError PathBuf;
  read_dir : PathBuf -> result IoError (list (result IoError (list Z)));
  file_type : PathBuf -> result IoError FileType;
  metadata_len : PathBuf -> result IoError Z;
  fs_read : PathBuf -> result IoError (list Z);
  process_id : Z;
  create_error : PathBuf -> option IoError;
  set_len_error : PathBuf -> option IoError;
  open_error : PathBuf -> option IoError;
  inspect_error : PathBuf -> option IoError;
  rename_error : PathBuf -> option IoError;
  remove_error : PathBuf -> option IoError;
  read_fails : PathBuf -> BlockIndex -> bool;
  write_fails : PathBuf -> BlockIndex -> bool;
  occupied : PathBuf -> bool;
}.

(** The files: contents by path.  A file is a [Disk]: a length and the
    non-zero blocks, as [set_len] leaves holes that read as zeros. *)
Abbreviation Files := (gmap PathBuf Disk).

Definition path_exists (host : Host) (files : Files) (path : PathBuf) : bool :=
  bool_decide (is_Some (files !! path)) || occupied host path.

(** ** Configuration and errors *)
Definition DEFAULT_SOURCE : list Z := str "rootfs".
Definition DEFAULT_OUTPUT : list Z := str "lemonfs.img".
Definition DEFAULT_BLOCKS : Z := 16 * 1024 * 1024 / BLOCK_SIZE.
Definition MAX_FILE_SIZE : Z := 16 * BLOCK_SIZE.

Record Config := mkConfig { cf_source : PathBuf; cf_output : PathBuf; cf_total_blocks : Z }.
Definition Config_default : Config := mkConfig (path_of DEFAULT_SOURCE) (path_of DEFAULT_OUTPUT) DEFAULT_BLOCKS.

Inductive Command := Build (config : Config) | Help.

Inductive BuildError :=
| OnlyOnce (option : list Z)
| MissingValue (option : list Z)
| BlocksNotUtf8
| InvalidBlockCount (value : list Z)
| BlocksZero
| UnknownArgument (argument : list Z)
| ArgumentsNotUtf8
| IoFailed (action : list Z) (path : PathBuf) (error : IoError)
| ImageSizeOverflows
| NotWholeBlocks (path : PathBuf)
| SourceNotDirectory (path : PathBuf)
| BlockCountTooLarge (count : Z)
| OutputNotNamed
| OutputInsideSource (output source : PathBuf)
| NoTemporaryImage (output : PathBuf)
| FormatImage (error : Error)
| MountImage (error : Error)
| CreateDirectory (lemon_path : list Z) (host_path : PathBuf) (error : Error)
| SourceFileTooLarge (host_path : PathBuf) (len : Z)
| CreateFile (lemon_path : list Z) (host_path : PathBuf) (error : Error)
| WriteFile (lemon_path : list Z) (host_path : PathBuf) (error : Error)
| NameNotUtf8 (host_path : PathBuf).

Definition io_error (action : list Z) (path : PathBuf) (error : IoError) : BuildError := IoFailed action path error.

(** [Result::map_err], on a value and on a call with a state. *)
Definition map_err {E F A} (f : E -> F) (r : result E A) : result F A :=
  match r with Ok a => Ok a | Err e => Err (f e) end.
Definition map_err_in {E F A S} (f : E -> F) (c : comp (result E A * S)) : comp (result F A * S) :=
  '(r, s) ← c; Ret (map_err f r, s).

(** ** [Command::parse] *)
Definition reject_duplicate (seen : bool) (option : list Z) : result BuildError bool :=
  if seen then Err (OnlyOnce option) else Ok true.

Fixpoint parse_args (args : list (list Z)) (config : Config) (source_seen output_seen blocks_seen : bool)
    : result BuildError Command :=
  match args with
  | [] => Ok (Build config)
  | argument :: args =>
      if negb (utf8_valid argument) then Err ArgumentsNotUtf8
      else if bool_decide (argument = str "-h") || bool_decide (argument = str "--help") then Ok Help
      else if bool_decide (argument = str "--source") then
        source_seen ← reject_duplicate source_seen (str "--source");
        match args with
        | [] => Err (MissingValue (str "--source"))
        | value :: args =>
            parse_args args (mkConfig (path_of value) (cf_output config) (cf_total_blocks config))
              source_seen output_seen blocks_seen
        end
      else if bool_decide (argument = str "--output") then
        output_seen ← reject_duplicate output_seen (str "--output");
        match args with
        | [] => Err (MissingValue (str "--output"))
        | value :: args =>
            parse_args args (mkConfig (cf_source config) (path_of value) (cf_total_blocks config))
              source_seen output_seen blocks_seen
        end
      else if bool_decide (argument = str "--blocks") then
        blocks_seen ← reject_duplicate blocks_seen (str "--blocks");
        match args with
        | [] => Err (MissingValue (str "--blocks"))
        | value :: args =>
            if negb (utf8_valid value) then Err BlocksNotUtf8
            else
              total_blocks ← ok_or (parse_usize value) (InvalidBlockCount value);
              if total_blocks =? 0 then Err BlocksZero
              else
                parse_args args (mkConfig (cf_source config) (cf_output config) total_blocks)
                  source_seen output_seen blocks_seen
        end
      else Err (UnknownArgument argument)
  end.

Definition Command_parse (args : list (list Z)) : result BuildError Command :=
  parse_args args Config_default false false false.

(** ** [FileBlockDevice]

    The open file with the host's answers to reads and writes of its blocks. *)
Record FileBlockDevice := mkFileDevice {
  fd_file : Disk;
  fd_total_blocks : Z;
  fd_read_fails : BlockIndex -> bool;
  fd_write_fails : BlockIndex -> bool;
}.

(** Seek and [read_exact], which fails at the end of the file, too. *)
Definition file_read_block (d : FileBlockDevice) (block_idx : BlockIndex) : comp (list Z) :=
  pos ← block_idx *! BLOCK_SIZE;
  if fd_read_fails d block_idx || (disk_bytes (fd_file d) <? pos + BLOCK_SIZE) then Panic
  else Ret (disk_get (fd_file d) block_idx).

(** Seek and [write_all] of one block; writing past the end extends the file. *)
Definition file_write_block (d : FileBlockDevice) (block_idx : BlockIndex) (data : list Z) : comp FileBlockDevice :=
  pos ← block_idx *! BLOCK_SIZE;
  if fd_write_fails d block_idx then Panic
  else
    Ret (mkFileDevice
      (mkDisk (Z.max (disk_bytes (fd_file d)) (pos + zlen data)) (<[block_idx := data]> (disk_blocks (fd_file d))))
      (fd_total_blocks d) (fd_read_fails d) (fd_write_fails d)).

#[export] Instance FileBlockDevice_BlockDevice : BlockDevice FileBlockDevice := {
  read_block := file_read_block;
  write_block := file_write_block;
  total_blocks := fd_total_blocks;
}.

(** The file a device leaves behind when its handle is closed. *)
Definition close (files : Files) (path : PathBuf) (d : FileBlockDevice) : Files := <[path := fd_file d]> files.

Section Images.
Variable host : Host.

(** [let _ = fs::remove_file(path)]: a refusal is ignored and the file stays. *)
Definition remove_file (files : Files) (path : PathBuf) : Files :=
  match remove_error host path with Some _ => files | None => delete path files end.

Definition create_new (files : Files) (path : PathBuf) (total_blocks : Z)
    : result BuildError FileBlockDevice * Files :=
  match checked_mul total_blocks BLOCK_SIZE with
  | None => (Err ImageSizeOverflows, files)
  | Some image_bytes =>
      let create := if path_exists host files path then Some IoAlreadyExists else create_error host path in
      match create with
      | Some error => (Err (io_error (str "create temporary image") path error), files)
      | None =>
          let files := <[path := mkDisk 0 ∅]> files in
          match set_len_error host path with
          | Some error => (Err (io_error (str "size temporary image") path error), remove_file files path)
          | None =>
              let file := mkDisk image_bytes ∅ in
              (Ok (mkFileDevice file total_blocks (read_fails host path) (write_fails host path)), <[path := file]> files)
          end
      end
  end.

Definition file_open (files : Files) (path : PathBuf) : result BuildError FileBlockDevice :=
  match files !! path, open_error host path with
  | None, _ => Err (io_error (str "open formatted image") path IoNotFound)
  | Some _, Some error => Err (io_error (str "open formatted image") path error)
  | Some file, None =>
      match inspect_error host path with
      | Some error => Err (io_error (str "inspect formatted image") path error)
      | None =>
          let byte_len := disk_bytes file in
          if negb (byte_len mod BLOCK_SIZE =? 0) then Err (NotWholeBlocks path)
          else Ok (mkFileDevice file (byte_len / BLOCK_SIZE) (read_fails host path) (write_fails host path))
      end
  end.

Definition output_name (output : PathBuf) : result BuildError (list Z) :=
  match file_name output with
  | Some name => if bool_decide (name = []) then Err OutputNotNamed else Ok name
  | None => Err OutputNotNamed
  end.
Definition output_parent (output : PathBuf) : PathBuf := default (path_of (str ".")) (parent output).

Definition validate_output_location (source output : PathBuf) : result BuildError unit :=
  source ← map_err (io_error (str "resolve source directory") source) (canonicalize host source);
  name ← output_name output;
  parent ← map_err (io_error (str "resolve output directory") (output_parent output))
    (canonicalize host (output_parent output));
  let output := path_join parent name in
  if path_starts_with output source then Err (OutputInsideSource output source) else Ok tt.

Definition temporary_name (name : list Z) (attempt : Z) : list Z :=
  name ++ str ".tmp-" ++ show_z (process_id host) ++ str "-" ++ show_z attempt.

Fixpoint try_create (attempts : list Z) (files : Files) (output parent : PathBuf) (name : list Z) (total_blocks : Z)
    : result BuildError (PathBuf * FileBlockDevice) * Files :=
  match attempts with
  | [] => (Err (NoTemporaryImage output), files)
  | attempt :: attempts =>
      let path := path_join parent (temporary_name name attempt) in
      match create_new files path total_blocks with
      | (Ok device, files) => (Ok (path, device), files)
      | (Err error, files) =>
          if path_exists host files path then try_create attempts files output parent name total_blocks
          else (Err error, files)
      end
  end.

Definition create_temporary_image (files : Files) (output : PathBuf) (total_blocks : Z)
    : result BuildError (PathBuf * FileBlockDevice) * Files :=
  match output_name output with
  | Err e => (Err e, files)
  | Ok name => try_create (seqZ 0 100) files output (output_parent output) name total_blocks
  end.
End Images.

(** ** Importing a directory *)
Record ImportSummary := mkSummary { sm_directories : Z; sm_files : Z; sm_skipped : list PathBuf }.
Definition ImportSummary_default : ImportSummary := mkSummary 0 0 [].

Definition child_path (parent name : list Z) : list Z :=
  if bool_decide (parent = [SLASH]) then SLASH :: name else parent ++ SLASH :: name.

Definition utf8_name (name : list Z) (path : PathBuf) : result BuildError (list Z) :=
  ok_or (from_utf8 name) (NameNotUtf8 path).

(** [Ord] of strings, and the stable [sort_by_key]. *)
Fixpoint name_le (a b : list Z) : bool :=
  match a, b with
  | [], _ => true
  | _ :: _, [] => false
  | x :: a, y :: b => (x <? y) || ((x =? y) && name_le a b)
  end.
Section Sort.
Context {A : Type} (key : A -> list Z).
Fixpoint insert_by_key (x : A) (l : list A) : list A :=
  match l with
  | [] => [x]
  | y :: l' => if name_le (key x) (key y) then x :: l else y :: insert_by_key x l'
  end.
Definition sort_by_key (l : list A) : list A := foldr insert_by_key [] l.
End Sort.

(** [collect::<Result<Vec<_>, _>>]. *)
Fixpoint collect {E A} (l : list (result E A)) : result E (list A) :=
  match l with
  | [] => Ok []
  | r :: l => a ← r; rest ← collect l; Ok (a :: rest)
  end.

Section Importing.
Context {D : Type} `{BlockDevice D}.
Implicit Types (fs : Filesystem D).
Variable host : Host.

(** A regular file. *)
Definition import_file fs (host_path : PathBuf) (lemon_path : list Z) (summary : ImportSummary)
    : comp (result BuildError ImportSummary * Filesystem D) :=
  match metadata_len host host_path with
  | Err error => Ret (Err (io_error (str "inspect source file") host_path error), fs)
  | Ok len =>
      if MAX_FILE_SIZE <? len then Ret (Err (SourceFileTooLarge host_path len), fs)
      else
        match fs_read host host_path with
        | Err error => Ret (Err (io_error (str "read source file") host_path error), fs)
        | Ok contents =>
            let? (_i, fs) := map_err_in (CreateFile lemon_path host_path) (create_file fs lemon_path) in
            let? (_n, fs) := map_err_in (WriteFile lemon_path host_path) (write_to_file fs lemon_path contents) in
            files ← sm_files summary +! 1;
            Ret (Ok (mkSummary (sm_directories summary) files (sm_skipped summary)), fs)
        end
  end.

(** The body of the loop; [import] is the recursive call. *)
Definition import_entry (import : Filesystem D -> PathBuf -> list Z -> ImportSummary -> comp (result BuildError ImportSummary * Filesystem D))
    fs (host_directory : PathBuf) (lemon_directory : list Z) (summary : ImportSummary) (entry_name : list Z)
    : comp (result BuildError ImportSummary * Filesystem D) :=
  let host_path := path_join host_directory entry_name in
  match file_type host host_path with
  | Err error => Ret (Err (io_error (str "inspect source entry") host_path error), fs)
  | Ok TyOther => Ret (Ok (mkSummary (sm_directories summary) (sm_files summary) (sm_skipped summary ++ [host_path])), fs)
  | Ok ty =>
      match utf8_name entry_name host_path with
      | Err e => Ret (Err e, fs)
      | Ok name =>
          let lemon_path := child_path lemon_directory name in
          match ty with
          | TyDir =>
              let? (_i, fs) := map_err_in (CreateDirectory lemon_path host_path) (mkdir fs lemon_path) in
              directories ← sm_directories summary +! 1;
              import fs host_path lemon_path (mkSummary directories (sm_files summary) (sm_skipped summary))
          | _ => import_file fs host_path lemon_path summary
          end
      end
  end.

Fixpoint import_entries import fs host_directory lemon_directory summary (entries : list (list Z))
    : comp (result BuildError ImportSummary * Filesystem D) :=
  match entries with
  | [] => Ret (Ok summary, fs)
  | entry :: entries =>
      let? (summary, fs) := import_entry import fs host_directory lemon_directory summary entry in
      import_entries import fs host_directory lemon_directory summary entries
  end.

(** The fuel is the depth of the host's directory tree ([import_run]). *)
Fixpoint import_directory (fuel : nat) fs (host_directory : PathBuf) (lemon_directory : list Z) (summary : ImportSummary)
    : comp (result BuildError ImportSummary * Filesystem D) :=
  match fuel with
  | O => NoFuel
  | S fuel =>
      match read_dir host host_directory with
      | Err error => Ret (Err (io_error (str "read source directory") host_directory error), fs)
      | Ok reader =>
          match map_err (io_error (str "read entry in source directory") host_directory) (collect reader) with
          | Err e => Ret (Err e, fs)
          | Ok entries =>
              import_entries (import_directory fuel) fs host_directory lemon_directory summary (sort_by_key id entries)
          end
      end
  end.
End Importing.

(** ** [build_image] *)
Section BuildImage.
Variable host : Host.

(** What happens to the temporary image while its guard is alive: the result
    and the files, the image among them in its last state. *)
Definition fill_image (fuel : nat) (config : Config) (temporary : PathBuf) (device : FileBlockDevice) (files : Files)
    : comp (result BuildError ImportSummary * Files) :=
  '(r, device) ← format device;
  let files := close files temporary device in
  match map_err FormatImage r with
  | Err e => Ret (Err e, files)
  | Ok _ =>
      match file_open host files temporary with
      | Err e => Ret (Err e, files)
      | Ok device =>
          r ← Filesystem_new device;
          match map_err MountImage r with
          | Err e => Ret (Err e, files)
          | Ok filesystem =>
              '(r, filesystem) ← import_directory host fuel filesystem (cf_source config) [SLASH] ImportSummary_default;
              match r with
              | Err e => Ret (Err e, close files temporary (block_device filesystem))
              | Ok summary =>
                  filesystem ← flush filesystem;
                  let files := close files temporary (block_device filesystem) in
                  match rename_error host (cf_output config) with
                  | Some error => Ret (Err (io_error (str "replace output image") (cf_output config) error), files)
                  | None =>
                      file ← unwrap (files !! temporary);
                      Ret (Ok summary, <[cf_output config := file]> (delete temporary files))
                  end
              end
          end
      end
  end.

(** Dropping the guard [TemporaryImage] without [keep] removes the file, if the
    host lets it. *)
Definition drop_temporary (temporary : PathBuf) (r : result BuildError ImportSummary) (files : Files) : Files :=
  match r with Ok _ => files | Err _ => remove_file host files temporary end.

Definition build_image (fuel : nat) (config : Config) (files : Files)
    : comp (result BuildError ImportSummary * Files) :=
  match map_err (io_error (str "inspect source directory") (cf_source config)) (symlink_metadata host (cf_source config)) with
  | Err e => Ret (Err e, files)
  | Ok TyDir =>
      match validate_output_location host (cf_source config) (cf_output config) with
      | Err e => Ret (Err e, files)
      | Ok _ =>
          match try_u32 (cf_total_blocks config) with
          | None => Ret (Err (BlockCountTooLarge (cf_total_blocks config)), files)
          | Some _ =>
              match create_temporary_image host files (cf_output config) (cf_total_blocks config) with
              | (Err e, files) => Ret (Err e, files)
              | (Ok (temporary, device), files) =>
                  '(r, files) ← fill_image fuel config temporary device files;
                  Ret (r, drop_temporary temporary r files)
              end
          end
      end
  | Ok _ => Ret (Err (SourceNotDirectory (cf_source config)), files)
  end.
End BuildImage.

(** ** [main]: the exit status, next to the result that is reported *)
Inductive Report := ReportUsage | ReportError (error : BuildError) | ReportCreated (summary : ImportSummary) (bytes : Z).

Definition mkfs_main (host : Host) (fuel : nat) (args : list (list Z)) (files : Files) : comp (Z * Report * Files) :=
  match Command_parse args with
  | Err error => Ret (2, ReportError error, files)
  | Ok Help => Ret (0, ReportUsage, files)
  | Ok (Build config) =>
      '(r, files) ← build_image host fuel config files;
      match r with
      | Ok summary => bytes ← cf_total_blocks config *! BLOCK_SIZE; Ret (0, ReportCreated summary bytes, files)
      | Err error => Ret (1, ReportError error, files)
      end
  end.

(** ** The device satisfies the laws of block devices

    When the host transfers every block. *)
Definition no_failure (_ : BlockIndex) : bool := false.
Definition sound_device (file : Disk) (n : Z) : FileBlockDevice := mkFileDevice file n no_failure no_failure.

Record file_device_ok (d : FileBlockDevice) : Prop := {
  fdo_disk : Disk_ok (fd_file d);
  fdo_size : disk_bytes (fd_file d) = fd_total_blocks d * 512;
  fdo_read : fd_read_fails d = no_failure;
  fdo_write : fd_write_fails d = no_failure;
}.

Lemma file_range d i :
  file_device_ok d -> 0 <= i < fd_total_blocks d ->
  mul_ovf 64 i BLOCK_SIZE = Ret (i * 512) /\ i * 512 + 512 <= disk_bytes (fd_file d).
Proof.
  intros [[[_ Hs] _ _] Hd _ _] Hi. unfold BLOCK_SIZE. rewrite mul_ovf_ok by (unfold max_of; lia). split; [done|lia].
Qed.

Lemma file_read_ok d i : file_device_ok d -> 0 <= i < fd_total_blocks d -> file_read_block d i = Ret (disk_get (fd_file d) i).
Proof.
  intros Hok Hi. destruct (file_range d i Hok Hi) as [E Hle]. unfold file_read_block. rewrite E. cbn [mbind comp_bind].
  rewrite (fdo_read _ Hok). cbn [no_failure orb]. unfold BLOCK_SIZE. by rewrite (proj2 (Z.ltb_ge _ _)).
Qed.

Lemma file_write_ok d i b :
  file_device_ok d -> 0 <= i < fd_total_blocks d -> block_ok b ->
  exists d', file_write_block d i b = Ret d' /\ file_device_ok d' /\ fd_total_blocks d' = fd_total_blocks d /\
    forall j, disk_get (fd_file d') j = if decide (i = j) then b else disk_get (fd_file d) j.
Proof.
  intros Hok Hi Hb. destruct (file_range d i Hok Hi) as [E Hle]. unfold file_write_block. rewrite E. cbn [mbind comp_bind].
  rewrite (fdo_write _ Hok). cbn [no_failure].
  destruct Hok as [[Hs Ha Hbs] Hd Hrf Hwf]. destruct Hb as [Hl Hb]. unfold zlen. rewrite Hl, Z.max_l by lia.
  eexists. split; [done|]. split_and!; [|done|].
  - constructor; simpl; [|done..]. constructor; simpl; [done..|]. intros j c. rewrite lookup_insert.
    case_decide; [intros [= <-]; done|eauto].
  - intros j. unfold disk_get. simpl. rewrite lookup_insert. by case_decide.
Qed.

#[export] Instance FileBlockDevice_laws : BlockDeviceLaws FileBlockDevice.
Proof.
  refine {| dev_ok := file_device_ok |}; simpl.
  - intros d [[[Hs _] _ _] Hd _ _]. lia.
  - intros d i Hok Hi. exists (disk_get (fd_file d) i). split; [by apply file_read_ok|]. apply disk_get_ok, Hok.
  - intros d i b Hok Hi Hb. destruct (file_write_ok d i b Hok Hi Hb) as (d' & E & Hok' & Ht & Hg). exists d'.
    split; [exact E|]. split_and!; [done|done| |].
    + rewrite file_read_ok by (by rewrite ?Ht). by rewrite Hg, decide_True.
    + intros j Hne Hj. rewrite !file_read_ok by (by rewrite ?Ht). rewrite Hg, decide_False by done. done.
Defined.

Lemma new_device_ok n : is_u32 n -> file_device_ok (sound_device (mkDisk (n * 512) ∅) n).
Proof. intros [? ?]. constructor; [apply disk_empty_ok; lia|done..]. Qed.

(** Nothing the host is asked to do is refused or fails. *)
Record host_willing (host : Host) : Prop := {
  hw_create p : create_error host p = None;
  hw_set_len p : set_len_error host p = None;
  hw_open p : open_error host p = None;
  hw_inspect p : inspect_error host p = None;
  hw_rename p : rename_error host p = None;
  hw_read p : read_fails host p = no_failure;
  hw_write p : write_fails host p = no_failure;
}.

(** Reopening the file of a device gives the device. *)
Lemma file_reopen host files path d :
  file_device_ok d -> host_willing host -> file_open host (close files path d) path = Ok d.
Proof.
  intros [_ Hd Hr Hwf] []. unfold file_open, close. rewrite lookup_insert_eq, hw_open0, hw_inspect0. rewrite Hd. unfold BLOCK_SIZE.
  rewrite Z_mod_mult, Z.div_mul, hw_read0, hw_write0 by done. destruct d. simpl in *. by subst.
Qed.
