(* ===== verification/MkfsImport.v ===== *)
(** * Importing a host tree

    What a host directory tree is, what it becomes in an image ([imported]),
    when an image shows a tree ([shows]), and the proof that [import_directory]
    makes an image show the tree it is given, when the tree is within the limits
    of the format ([host_fits]) and of the image's free space. *)
From S2P Require Import Prelude Bitmap Bytes Layout INode DirEntry BlockDev INodeCache SuperBlock Filesystem.
From S2P Require Import FsBase FsState FsFiles FsDirs FsCreate FsFormat FsProps FsUsage FsLinks Mkfs.

(** ** Trees *)
Inductive HostTree := HostFile (contents : list Z) | HostDir (children : list (list Z * HostTree)) | HostOther.
Inductive Tree := TFile (contents : list Z) | TDir (children : list (list Z * Tree)).

(** What [import_directory] makes of a tree: children sorted by name, without
    those that are neither files nor directories. *)
Definition kept_child (c : list Z * option Tree) : option (list Z * Tree) := t ← c.2; Some (c.1, t).
Fixpoint imported (t : HostTree) : option Tree :=
  match t with
  | HostFile contents => Some (TFile contents)
  | HostDir children => Some (TDir (omap kept_child (sort_by_key fst (map (fun c => (c.1, imported c.2)) children))))
  | HostOther => None
  end.

(** Sums and maxima over the children. *)
Definition sum_of (l : list Z) : Z := foldr Z.add 0 l.
Fixpoint host_inodes (t : HostTree) : Z :=
  match t with
  | HostFile _ => 1
  | HostDir children => 1 + sum_of (map (fun c => host_inodes c.2) children)
  | HostOther => 0
  end.
Fixpoint host_blocks (t : HostTree) : Z :=
  match t with
  | HostFile contents => div_ceil (zlen contents) 512
  | HostDir children => 1 + sum_of (map (fun c => host_blocks c.2) children)
  | HostOther => 0
  end.
Fixpoint host_depth (t : HostTree) : nat :=
  match t with
  | HostDir children => S (foldr Nat.max 0%nat (map (fun c => host_depth c.2) children))
  | _ => 0
  end.

(** What the summary counts and lists, in the order of the import. *)
Fixpoint host_directories (t : HostTree) : Z :=
  match t with HostDir children => 1 + sum_of (map (fun c => host_directories c.2) children) | _ => 0 end.
Fixpoint host_files (t : HostTree) : Z :=
  match t with HostFile _ => 1 | HostDir children => sum_of (map (fun c => host_files c.2) children) | HostOther => 0 end.
Fixpoint host_skipped (t : HostTree) (path : PathBuf) : list PathBuf :=
  match t with
  | HostFile _ => []
  | HostOther => [path]
  | HostDir children =>
      concat (map snd (sort_by_key fst (map (fun c => (c.1, host_skipped c.2 (path_join path c.1))) children)))
  end.

(** The host shows [t] at [path]. *)
Fixpoint host_shows (host : Host) (path : PathBuf) (t : HostTree) : Prop :=
  match t with
  | HostFile contents =>
      file_type host path = Ok TyFile /\ metadata_len host path = Ok (zlen contents) /\ fs_read host path = Ok contents
  | HostOther => file_type host path = Ok TyOther
  | HostDir children =>
      file_type host path = Ok TyDir /\ read_dir host path = Ok (map (fun c => Ok c.1) children) /\
      foldr and True (map (fun c => host_shows host (path_join path c.1) c.2) children)
  end.

(** A name as a host gives it that the directory format can hold. *)
Record host_name_ok (name : list Z) : Prop := {
  hn_ok : name_ok name;
  hn_nonempty : name <> [];
  hn_slash : SLASH ∉ name;
  hn_dot : name <> [DOT] /\ name <> [DOT; DOT];
}.
Definition is_other (t : HostTree) : bool := match t with HostOther => true | _ => false end.

(** The limits of the format: sixteen children, names and file sizes. *)
Fixpoint host_fits (t : HostTree) : Prop :=
  match t with
  | HostFile contents => Forall is_u8 contents /\ zlen contents <= MAX_FILE_SIZE
  | HostOther => True
  | HostDir children =>
      NoDup (map fst children) /\
      zlen (List.filter (fun c => negb (is_other c.2)) children) <= 16 /\
      foldr and True (map (fun c => (is_other c.2 = false -> host_name_ok c.1) /\ host_fits c.2) children)
  end.

Section HostTreeInd.
Variable P : HostTree -> Prop.
Hypothesis Pfile : forall contents, P (HostFile contents).
Hypothesis Pother : P HostOther.
Hypothesis Pdir : forall children, Forall (fun c => P c.2) children -> P (HostDir children).
Fixpoint HostTree_nested_ind (t : HostTree) : P t :=
  match t with
  | HostFile contents => Pfile contents
  | HostOther => Pother
  | HostDir children =>
      Pdir children ((fix all (l : list (list Z * HostTree)) : Forall (fun c => P c.2) l :=
        match l with
        | [] => Forall_nil_2 _
        | c :: l => Forall_cons_2 _ c l (HostTree_nested_ind c.2) (all l)
        end) children)
  end.
End HostTreeInd.

(** Every imported node is a directory or a file. *)
Lemma host_counts t :
  0 <= host_directories t /\ 0 <= host_files t /\ host_directories t + host_files t = host_inodes t /\ 0 <= host_blocks t.
Proof.
  induction t as [c| |l IH] using HostTree_nested_ind; simpl; [|lia|].
  - pose proof (div_ceil_nonneg (zlen c) 512 (zlen_nonneg c) ltac:(lia)). lia.
  - induction IH as [|c l Hc _ IHl]; simpl; lia.
Qed.

Lemma total_nonneg (f : HostTree -> Z) (l : list (list Z * HostTree)) :
  (forall t, 0 <= f t) -> 0 <= sum_of (map (fun c => f c.2) l).
Proof. intros Hf. induction l as [|c l IH]; simpl; [done|]. specialize (Hf c.2). lia. Qed.

Lemma dir_positive l : 1 <= host_inodes (HostDir l) /\ 1 <= host_blocks (HostDir l).
Proof.
  simpl. pose proof (total_nonneg host_inodes l). pose proof (total_nonneg host_blocks l).
  assert (forall t, 0 <= host_inodes t /\ 0 <= host_blocks t) by (intros t; pose proof (host_counts t); lia).
  split; [enough (0 <= sum_of (map (fun c => host_inodes c.2) l)) by lia|enough (0 <= sum_of (map (fun c => host_blocks c.2) l)) by lia];
    apply total_nonneg; firstorder.
Qed.

Lemma host_positive t : is_other t = false -> 1 <= host_inodes t.
Proof. destruct t as [c|l|]; [done| |done]. intros _. apply dir_positive. Qed.

(** ** Sorting *)
Section SortFacts.
Context {A B : Type}.
Lemma insert_by_key_perm (key : A -> list Z) x l : insert_by_key key x l ≡ₚ x :: l.
Proof.
  induction l as [|y l IH]; simpl; [done|]. destruct (name_le _ _); [done|]. rewrite IH. constructor.
Qed.
Lemma sort_by_key_perm (key : A -> list Z) l : sort_by_key key l ≡ₚ l.
Proof. induction l as [|x l IH]; simpl; [done|]. by rewrite insert_by_key_perm, IH. Qed.

Lemma insert_by_key_map (f : A -> B) (key : B -> list Z) x l :
  map f (insert_by_key (fun a => key (f a)) x l) = insert_by_key key (f x) (map f l).
Proof. induction l as [|y l IH]; simpl; [done|]. destruct (name_le _ _); simpl; by rewrite ?IH. Qed.
Lemma sort_by_key_map (f : A -> B) (key : B -> list Z) l :
  map f (sort_by_key (fun a => key (f a)) l) = sort_by_key key (map f l).
Proof. induction l as [|x l IH]; simpl; [done|]. by rewrite insert_by_key_map, IH. Qed.
End SortFacts.

Lemma sum_of_perm l1 l2 : l1 ≡ₚ l2 -> sum_of l1 = sum_of l2.
Proof. induction 1; simpl; lia. Qed.

Lemma foldr_and_forall {A} (f : A -> Prop) l : foldr and True (map f l) <-> Forall f l.
Proof. induction l as [|x l IH]; simpl; [by split|]. by rewrite Forall_cons, IH. Qed.

(** The children in the order of the import. *)
Abbreviation sorted := (sort_by_key (A := list Z * HostTree) fst).

Lemma sorted_decorated {B} (f : list Z * HostTree -> B) l :
  sort_by_key fst (map (fun c => (c.1, f c)) l) = map (fun c => (c.1, f c)) (sorted l).
Proof. symmetry. apply (sort_by_key_map (fun c => (c.1, f c)) fst). Qed.

Lemma imported_dir l : imported (HostDir l) = Some (TDir (omap (fun c => t ← imported c.2; Some (c.1, t)) (sorted l))).
Proof.
  simpl. rewrite (sorted_decorated (fun c => imported c.2)). do 2 f_equal.
  induction (sorted l) as [|c cs IH]; [done|]. cbn [map omap list_omap]. by rewrite <- IH.
Qed.

Lemma skipped_dir l path :
  host_skipped (HostDir l) path = concat (map (fun c => host_skipped c.2 (path_join path c.1)) (sorted l)).
Proof. simpl. by rewrite (sorted_decorated (fun c => host_skipped c.2 (path_join path c.1))), map_map. Qed.

(** ** Paths of the image *)
Definition lemon_path (parts : list (list Z)) : list Z :=
  match parts with [] => [SLASH] | _ => concat (map (cons SLASH) parts) end.

Definition part_ok (p : list Z) : Prop := p <> [] /\ SLASH ∉ p /\ Forall is_u8 p.

Abbreviation new_path parts name := (concat (map (cons SLASH) (parts ++ [name]))).

Lemma child_path_lemon parts name :
  Forall part_ok parts -> child_path (lemon_path parts) name = new_path parts name.
Proof.
  intros Hp. unfold child_path. rewrite map_app, concat_app. simpl. rewrite app_nil_r.
  destruct Hp as [|p ps [Hne _] Hps]; [done|]. rewrite bool_decide_eq_false_2; [done|]. simpl.
  destruct p; [done|]. by intros [=].
Qed.

Lemma path_parts_concat parts : Forall part_ok parts -> path_parts (concat (map (cons SLASH) parts)) = parts.
Proof. intros Hp. apply path_parts_plain. eapply Forall_impl; [exact Hp|]. by intros p (? & ? & _). Qed.

Lemma lemon_path_concat parts : path_parts (lemon_path parts) = path_parts (concat (map (cons SLASH) parts)).
Proof. by destruct parts. Qed.

Lemma pop_last_snoc {A} (l : list A) x : pop_last (l ++ [x]) = Some (x, l).
Proof. unfold pop_last. rewrite rev_app_distr. simpl. by rewrite rev_involutive. Qed.

(** A name without a slash compares as it is. *)
Lemma byte_compare_name s name : SLASH ∉ name -> byte_compare s name = bool_decide (s = name).
Proof.
  destruct name as [|b name]; intros Hn; simpl; [done|]. apply not_elem_of_cons in Hn as [Hb _].
  by rewrite (proj2 (Z.eqb_neq b SLASH)).
Qed.

Section TreeInd.
Variable P : Tree -> Prop.
Hypothesis Pfile : forall contents, P (TFile contents).
Hypothesis Pdir : forall children, Forall (fun c => P c.2) children -> P (TDir children).
Fixpoint Tree_nested_ind (t : Tree) : P t :=
  match t with
  | TFile contents => Pfile contents
  | TDir children =>
      Pdir children ((fix all (l : list (list Z * Tree)) : Forall (fun c => P c.2) l :=
        match l with
        | [] => Forall_nil_2 _
        | c :: l => Forall_cons_2 _ c l (Tree_nested_ind c.2) (all l)
        end) children)
  end.
End TreeInd.

Section Shows.
Context {D : Type} `{BlockDeviceLaws D}.
Implicit Types (fs : Filesystem D).

(** Inode [i] and everything below it is exactly [t], in inodes of [A]: a file
    has its contents, a directory "." and ".." and an entry for each child in
    order, and nothing else. *)
Fixpoint shows (A : Z -> Prop) fs (parent i : Z) (t : Tree) : Prop :=
  A i /\
  match t with
  | TFile contents => in_is_directory (fs_inode fs i) = false /\ fs_content fs i = contents
  | TDir children =>
      exists es, fs_entries fs i = DirEntry_new [DOT] i :: DirEntry_new [DOT; DOT] parent :: es /\
      (fix all (es : list DirEntry) (l : list (list Z * Tree)) {struct l} : Prop :=
         match es, l with
         | [], [] => True
         | e :: es, (name, t) :: l => e = DirEntry_new name (de_inode e) /\ shows A fs i (de_inode e) t /\ all es l
         | _, _ => False
         end) es children
  end.

Definition shows_child (A : Z -> Prop) fs (d : Z) (e : DirEntry) (c : list Z * Tree) : Prop :=
  e = DirEntry_new c.1 (de_inode e) /\ shows A fs d (de_inode e) c.2.

Lemma shows_dir A fs parent i l :
  shows A fs parent i (TDir l) <->
  A i /\ exists es, fs_entries fs i = DirEntry_new [DOT] i :: DirEntry_new [DOT; DOT] parent :: es /\
    Forall2 (shows_child A fs i) es l.
Proof.
  simpl. apply and_iff_compat_l. split; intros (es & E & Hall); exists es; split; try done; clear E.
  - revert es Hall. induction l as [|[n t] l IH]; intros [|e es] Hall; try (by destruct Hall); try constructor.
    + destruct Hall as (He & Ht & Hall). done.
    + destruct Hall as (He & Ht & Hall). by apply IH.
  - induction Hall as [|e [n t] es l [He Ht] _ IH]; [done|]. done.
Qed.

(** What a tree is depends on the inodes of [A] only. *)
Definition same_node fs fs' (j : Z) : Prop :=
  fs_inode fs' j = fs_inode fs j /\ fs_content fs' j = fs_content fs j /\ fs_entries fs' j = fs_entries fs j.

Lemma shows_frame (A B : Z -> Prop) fs fs' t :
  (forall j, A j -> B j /\ same_node fs fs' j) -> forall parent i, shows A fs parent i t -> shows B fs' parent i t.
Proof.
  intros Hab. induction t as [c|l IH] using Tree_nested_ind; intros parent i.
  - intros (Hi & Hd & Hc). destruct (Hab i Hi) as (Hb & E1 & E2 & _). simpl. by rewrite E1, E2.
  - rewrite !shows_dir. intros (Hi & es & He & Hall). destruct (Hab i Hi) as (Hb & _ & _ & E3). split; [done|].
    exists es. rewrite E3. split; [done|]. clear He E3. revert IH. induction Hall as [|e c es l [Hc Hs] _ IHl]; [constructor|].
    intros [Hp Hl]%Forall_cons. constructor; [|by apply IHl]. split; [done|]. by apply Hp.
Qed.

(** ** Changes below one directory *)

(** Everything that was there stays; directory [d] only gains entries. *)
Record extends fs fs' (d : Z) : Prop := {
  ex_tree : tree_inv fs';
  ex_layout : fs_layout fs' = fs_layout fs;
  ex_count : inode_count fs' = inode_count fs;
  ex_alloc j : allocated fs j -> allocated fs' j;
  ex_frame j : allocated fs j -> j <> d -> same_node fs fs' j;
  ex_dir : in_is_directory (fs_inode fs' d) = in_is_directory (fs_inode fs d);
  ex_entries : exists es, fs_entries fs' d = fs_entries fs d ++ es;
}.

Lemma extends_refl fs d : tree_inv fs -> extends fs fs d.
Proof. intros Hti. constructor; try done. exists []. by rewrite app_nil_r. Qed.

Lemma extends_trans fs1 fs2 fs3 d : extends fs1 fs2 d -> extends fs2 fs3 d -> extends fs1 fs3 d.
Proof.
  intros [] []. constructor; try done; try congruence; auto.
  - intros j Hj Hne. destruct (ex_frame0 j Hj Hne) as (-> & -> & ->) || destruct (ex_frame0 j Hj Hne) as (E1 & E2 & E3).
    destruct (ex_frame1 j) as (F1 & F2 & F3); [by apply ex_alloc0|done|].
    split_and!; congruence.
  - destruct ex_entries0 as [es1 E1], ex_entries1 as [es2 E2]. exists (es1 ++ es2). by rewrite E2, E1, app_assoc.
Qed.

(** A change below a directory that is new. *)
Lemma extends_into fs1 fs2 fs3 d k :
  allocated fs1 d -> extends fs1 fs2 d -> ~ allocated fs1 k -> extends fs2 fs3 k -> extends fs1 fs3 d.
Proof.
  intros Hd [] Hk []. assert (Hdk : d <> k) by (by intros ->).
  assert (Hd2 : same_node fs2 fs3 d) by (apply ex_frame1; [by apply ex_alloc0|done]). destruct Hd2 as (D1 & D2 & D3).
  constructor; try done; try congruence; auto.
  - intros j Hj Hne. destruct (ex_frame0 j Hj Hne) as (E1 & E2 & E3).
    destruct (ex_frame1 j) as (F1 & F2 & F3); [by apply ex_alloc0|by intros ->|]. split_and!; congruence.
  - destruct ex_entries0 as [es1 E1]. exists es1. congruence.
Qed.

Lemma created_extends fs fs' t d name i :
  tree_inv fs -> allocated fs d -> in_is_directory (fs_inode fs d) = true -> created fs fs' t d name i -> extends fs fs' d.
Proof.
  intros Hti Hd Hdd Hcr. pose proof (cr_parent _ _ _ _ _ _ Hcr) as Hp. constructor.
  - apply Hcr.
  - apply Hcr.
  - apply Hcr.
  - intros j Hj. apply Hcr. by right.
  - intros j Hj Hne. by apply (cr_frame _ _ _ _ _ _ Hcr).
  - rewrite Hdd. apply (entries_dir fs' d (DirEntry_new name i)). rewrite Hp. apply elem_of_app. right. by left.
  - by eexists.
Qed.

Lemma grown_extends fs fs' i chunk :
  tree_inv fs -> allocated fs i -> in_is_directory (fs_inode fs i) = false -> grown fs fs' i chunk -> tree_inv fs' ->
  extends fs fs' i.
Proof.
  intros Hti Hi Hd Hg Hti'. constructor; try done.
  - apply Hg.
  - by rewrite (gr_ibm _ _ _ _ Hg).
  - intros j. by apply (grown_allocated fs fs' i chunk).
  - intros j Hj Hne. by destruct (grown_frame fs fs' i chunk j) as (? & ? & ? & _).
  - apply Hg.
  - exists []. unfold fs_entries. by rewrite (gr_dir _ _ _ _ Hg), Hd.
Qed.

(** Paths keep leading to the same directories. *)
Lemma find_entry_app name es es' e : find_entry name es = Some e -> find_entry name (es ++ es') = Some e.
Proof. unfold find_entry. induction es as [|x es IH]; simpl; [done|]. by destruct (byte_compare _ _). Qed.

Lemma walk_extends fs fs' d parts :
  tree_inv fs -> extends fs fs' d -> forall dir x, allocated fs dir -> walk_spec fs dir parts = Ok x -> walk_spec fs' dir parts = Ok x.
Proof.
  intros Hti Hex. induction parts as [|p parts IH]; intros dir x Ha; simpl; [done|].
  destruct (find_entry p (fs_entries fs dir)) as [e|] eqn:Ef; [|done].
  assert (Ef' : find_entry p (fs_entries fs' dir) = Some e).
  { destruct (decide (dir = d)) as [->|Hne].
    - destruct (ex_entries _ _ _ Hex) as [es ->]. by apply find_entry_app.
    - by destruct (ex_frame _ _ _ Hex dir Ha Hne) as (_ & _ & ->). }
  rewrite Ef'. apply find_entry_some in Ef as [Hin _]. pose proof (ti_entry _ Hti _ _ Ha Hin) as Hae.
  assert (Ed : in_is_directory (fs_inode fs' (de_inode e)) = in_is_directory (fs_inode fs (de_inode e))).
  { destruct (decide (de_inode e = d)) as [->|Hne]; [apply Hex|]. by destruct (ex_frame _ _ _ Hex _ Hae Hne) as (-> & _). }
  rewrite Ed. clear Ed. destruct (in_is_directory (fs_inode fs _)); [|done]. by apply IH.
Qed.

(** ** Creating one entry *)

(** Directory [d] at [parts] has room for an entry called [name]. *)
Record room_for fs (parts : list (list Z)) (d : Z) (name : list Z) : Prop := {
  rf_tree : tree_inv fs;
  rf_parts : Forall part_ok parts;
  rf_walk : walk_spec fs 0 parts = Ok d;
  rf_name : host_name_ok name;
  rf_fresh e : e ∈ fs_entries fs d -> byte_compare name (DirEntry_name e) = false;
  rf_some : fs_entries fs d <> [];
  rf_few : zlen (fs_entries fs d) < 18;
  rf_inode : inodes_used fs < inode_count fs;
}.

Lemma host_name_part name : host_name_ok name -> part_ok name.
Proof. intros [[] ? ? _]. by split_and!. Qed.

Lemma walk_directory fs parts d :
  tree_inv fs -> walk_spec fs 0 parts = Ok d -> allocated fs d /\ in_is_directory (fs_inode fs d) = true.
Proof. intros Hti. destruct (ti_root _ Hti). by apply walk_spec_allocated. Qed.

Lemma room_create fs parts d name :
  room_for fs parts d name ->
  exists k, create_check fs (new_path parts name) = Ok (d, name, k) /\ 0 < in_size (fs_inode fs d) < 504 /\
    Forall is_u8 (new_path parts name).
Proof.
  intros []. destruct (walk_directory fs parts d) as [Hd Hdd]; [done..|].
  pose proof (ti_dir _ rf_tree0 _ Hd) as Hdi. destruct (dir_size fs d Hdi Hdd) as [Hs _].
  assert (Hps : Forall part_ok (parts ++ [name])).
  { apply Forall_app. split; [done|]. constructor; [by apply host_name_part|constructor]. }
  destruct (free_inode_exists fs (ti_ok _ rf_tree0) rf_inode0) as [k Hk]. exists k.
  assert (0 < zlen (fs_entries fs d)).
  { destruct (fs_entries fs d); [done|]. rewrite zlen_cons. pose proof (zlen_nonneg l). lia. }
  split_and!; [|lia|lia|].
  - unfold create_check. rewrite path_parts_concat, pop_last_snoc by done.
    pose proof (name_ok_len _ (hn_ok _ rf_name0)). rewrite (proj2 (Z.ltb_ge _ _)) by done. rewrite rf_walk0.
    assert (Hsp : has_space (fs_inode fs d) = true).
    { unfold has_space. apply existsb_exists. exists None. split; [|done].
      pose proof (fs_inode_ok _ _ (ti_ok _ rf_tree0) (allocated_range _ _ (ti_ok _ rf_tree0) Hd)) as [_ Hl _].
      destruct (lookup_lt_is_Some_2 (in_blocks (fs_inode fs d)) 15) as [o Ho]; [lia|].
      destruct o as [b|]; [|apply list_elem_of_In; by eapply list_elem_of_lookup_2].
      destruct (ii_shape _ _ (di_inode _ _ Hdi)) as [_ Hsl]. pose proof (proj1 (Hsl _ _ Ho) ltac:(by eexists)). lia. }
    rewrite Hsp. cbn [negb]. rewrite Hk.
    destruct (existsb _ _) eqn:Hex; [|done]. apply existsb_exists in Hex as (e & He%list_elem_of_In & Hc).
    by rewrite rf_fresh0 in Hc.
  - clear -Hps. induction Hps as [|p ps (_ & _ & Hu) _ IH]; simpl; [constructor|].
    constructor; [by unfold in_width, SLASH|]. by apply Forall_app.
Qed.

Lemma find_new_entry fs parts d name k :
  room_for fs parts d name ->
  find_entry name (fs_entries fs d ++ [DirEntry_new name k]) = Some (DirEntry_new name k).
Proof.
  intros []. unfold find_entry. clear rf_some0 rf_few0. induction (fs_entries fs d) as [|e es IH]; simpl.
  - rewrite DirEntry_name_new by apply rf_name0. rewrite byte_compare_name by apply rf_name0.
    by rewrite bool_decide_eq_true_2.
  - rewrite rf_fresh0 by (by left). apply IH. intros e' He'. apply rf_fresh0. by right.
Qed.

(** The new entry is found, as a file or as a directory. *)
Lemma new_entry_found fs fs' parts d name k :
  room_for fs parts d name -> extends fs fs' d -> fs_entries fs' d = fs_entries fs d ++ [DirEntry_new name k] ->
  resolve_spec fs' (new_path parts name) = Ok (mkResolved d name k) /\
  (in_is_directory (fs_inode fs' k) = true -> walk_spec fs' 0 (parts ++ [name]) = Ok k).
Proof.
  intros Hroom Hex He. pose proof (find_new_entry fs parts d name k Hroom) as Ef. rewrite <- He in Ef. destruct Hroom.
  destruct (ti_root _ rf_tree0) as [Hr _].
  pose proof (walk_extends fs fs' d parts rf_tree0 Hex 0 d Hr rf_walk0) as Hw. split.
  - unfold resolve_spec. rewrite map_app, concat_app. simpl. rewrite app_nil_r.
    rewrite rsplit_once_app by apply rf_name0. simpl. rewrite path_parts_concat by done. by rewrite Hw, Ef.
  - intros Hd. by apply (walk_snoc fs' parts 0 d name (DirEntry_new name k)).
Qed.
End Shows.

(** ** The import *)
Section ImportRun.
Context {D : Type} `{BlockDeviceLaws D}.
Implicit Types (fs : Filesystem D).
Variable host : Host.

Definition new_nodes fs fs' (j : Z) : Prop := allocated fs' j /\ ~ allocated fs j.

(** [fs'] is [fs] with [inodes] inodes and [blocks] data blocks more in use,
    all below directory [d], whose new entries show [children]. *)
Record added fs fs' (d : Z) (children : list (list Z * Tree)) (inodes blocks : Z) : Prop := {
  ad_extends : extends fs fs' d;
  ad_inodes : inodes_used fs' = inodes_used fs + inodes;
  ad_blocks : blocks_used fs' = blocks_used fs + blocks;
  ad_children : exists es, fs_entries fs' d = fs_entries fs d ++ es /\ Forall2 (shows_child (new_nodes fs fs') fs' d) es children;
}.

Lemma added_nothing fs d : tree_inv fs -> added fs fs d [] 0 0.
Proof.
  intros Hti. constructor; [by apply extends_refl|lia..|]. exists []. rewrite app_nil_r. by split.
Qed.

Lemma added_trans fs1 fs2 fs3 d c1 c2 i1 i2 b1 b2 :
  allocated fs1 d -> added fs1 fs2 d c1 i1 b1 -> added fs2 fs3 d c2 i2 b2 -> added fs1 fs3 d (c1 ++ c2) (i1 + i2) (b1 + b2).
Proof.
  intros Hd [Hx1 Hi1 Hb1 (es1 & E1 & F1)] [Hx2 Hi2 Hb2 (es2 & E2 & F2)].
  constructor; [by eapply extends_trans|lia..|]. exists (es1 ++ es2). rewrite E2, E1, app_assoc. split; [done|].
  apply Forall2_app.
  - eapply Forall2_impl; [exact F1|]. intros e c [Hc Hs]. split; [done|]. eapply shows_frame; [|exact Hs].
    intros j [Hj Hn]. split; [split; [by apply Hx2|done]|]. apply (ex_frame _ _ _ Hx2); [done|by intros ->].
  - eapply Forall2_impl; [exact F2|]. intros e c [Hc Hs]. split; [done|]. eapply shows_frame; [|exact Hs].
    intros j [Hj Hn]. split; [|done]. split; [done|]. intros Ha. apply Hn. by apply Hx1.
Qed.

(** A regular file. *)
Lemma import_file_run fs parts d name host_path c summary :
  room_for fs parts d name -> metadata_len host host_path = Ok (zlen c) -> fs_read host host_path = Ok c ->
  Forall is_u8 c -> zlen c <= MAX_FILE_SIZE -> blocks_used fs + div_ceil (zlen c) 512 <= data_blocks (fs_layout fs) ->
  sm_files summary + 1 <= usize_max ->
  exists fs', import_file host fs host_path (new_path parts name) summary =
      Ret (Ok (mkSummary (sm_directories summary) (sm_files summary + 1) (sm_skipped summary)), fs') /\
    added fs fs' d [(name, TFile c)] 1 (div_ceil (zlen c) 512).
Proof.
  intros Hroom Hlen Hread Hu8 Hsz Hspace Hcount. pose proof (rf_tree _ _ _ _ Hroom) as Hti.
  destruct (walk_directory fs parts d Hti (rf_walk _ _ _ _ Hroom)) as [Hd Hdd].
  unfold import_file. rewrite Hlen, (proj2 (Z.ltb_ge _ _)), Hread by done. change MAX_FILE_SIZE with 8192 in Hsz.
  destruct (room_create fs parts d name Hroom) as (k & Hc & Hs & Hp).
  destruct (create_file_run fs _ d name k Hti Hp Hc Hs) as (fs1 & E1 & Hcr).
  unfold map_err_in. rewrite E1. cbn [mbind comp_bind map_err].
  pose proof (created_extends fs fs1 EFile d name k Hti Hd Hdd Hcr) as Hx1.
  pose proof (cr_tree _ _ _ _ _ _ Hcr) as Hti1. pose proof (cr_kind _ _ _ _ _ _ Hcr) as Hk.
  pose proof (cr_node _ _ _ _ _ _ Hcr) as Hempty. cbn in Hk, Hempty.
  assert (Hka : allocated fs1 k) by (apply Hcr; by left). pose proof (cr_new _ _ _ _ _ _ Hcr) as Hnew.
  destruct (created_usage fs fs1 EFile d name k Hti Hd (rf_some _ _ _ _ Hroom) Hcr) as [Hi1 Hb1].
  assert (Hsize1 : in_size (fs_inode fs1 k) = 0) by (by rewrite (file_size _ _ (di_inode _ _ (ti_dir _ Hti1 _ Hka))), Hempty).
  destruct (append_to_file_run fs1 (new_path parts name) c Hti1 Hu8) as (res & fs2 & E2 & Hti2 & Hres); [lia|].
  rewrite (proj1 (new_entry_found fs fs1 parts d name k Hroom Hx1 (cr_parent _ _ _ _ _ _ Hcr))) in Hres.
  cbv zeta in Hres. cbn [rp_basename_inode] in Hres. rewrite Hk, Hsize1, (proj2 (Z.ltb_ge _ _)) in Hres by lia.
  destruct Hres as (w & Hw & Hg & Hres).
  destruct (grown_usage fs1 fs2 k _ Hti1 Hka Hg) as [Hi2 Hb2]. rewrite Hsize1 in Hb2. change (div_ceil 0 512) with 0 in Hb2.
  assert (Hzw : zlen (take (Z.to_nat w) c) = w) by (unfold zlen in *; rewrite length_take; lia). rewrite Hzw, Z.add_0_l in Hb2. cbn in Hb1.
  destruct Hres as [[-> ->]|(_ & Hlt & Hfill & Hfull)].
  2:{ exfalso. pose proof (no_free_block fs2 Hti2 Hfull) as Hle. rewrite (gr_layout _ _ _ _ Hg), (cr_layout _ _ _ _ _ _ Hcr) in Hle.
      pose proof (div_ceil_bounds (zlen c) 512 ltac:(lia) ltac:(lia)). rewrite Z.add_0_l in Hfill.
      pose proof (Z.div_mod w 512 ltac:(lia)).
      rewrite (div_ceil_unique w 512 (w / 512)) in Hb2 by lia. lia. }
  unfold write_to_file. rewrite E2. cbn [mbind comp_bind map_err]. rewrite add_ovf_ok by done. cbn [mbind comp_bind].
  assert (Hx2 : extends fs1 fs2 k) by (by apply (grown_extends fs1 fs2 k (take (Z.to_nat (zlen c)) c))).
  pose proof (extends_into fs fs1 fs2 d k Hd Hx1 Hnew Hx2) as Hx. exists fs2. split; [done|].
  assert (Hdk : d <> k) by (by intros ->).
  constructor; [done|lia|lia|]. exists [DirEntry_new name k].
  destruct (ex_frame _ _ _ Hx2 d (ex_alloc _ _ _ Hx1 _ Hd) Hdk) as (_ & _ & ->).
  split; [apply Hcr|]. constructor; [|constructor]. split; [done|]. simpl. split; [split; [by apply Hx2|done]|].
  rewrite (gr_dir _ _ _ _ Hg), (gr_content _ _ _ _ Hg), Hempty, Hk. split; [done|]. simpl. apply take_ge. unfold zlen; lia.
Qed.

(** The result of importing [t] with [summary] so far. *)
Definition summed (summary : ImportSummary) (directories files : Z) (skipped : list PathBuf) : ImportSummary :=
  mkSummary (sm_directories summary + directories) (sm_files summary + files) (sm_skipped summary ++ skipped).

(** What is needed to import [inodes] nodes: space and counters that do not
    overflow. *)
Record space_for fs (summary : ImportSummary) (inodes blocks : Z) : Prop := {
  sf_inodes : inodes_used fs + inodes <= inode_count fs;
  sf_blocks : blocks_used fs + blocks <= data_blocks (fs_layout fs);
  sf_directories : sm_directories summary + inodes <= usize_max;
  sf_files : sm_files summary + inodes <= usize_max;
}.

(** [import_directory] with [fuel] on a fresh directory [k] at [parts]. *)
Definition imports (fuel : nat) : Prop := forall l path parts fs k parent summary,
  host_shows host path (HostDir l) -> host_fits (HostDir l) -> (host_depth (HostDir l) <= fuel)%nat ->
  tree_inv fs -> Forall part_ok parts -> walk_spec fs 0 parts = Ok k ->
  fs_entries fs k = [DirEntry_new [DOT] k; DirEntry_new [DOT; DOT] parent] ->
  space_for fs summary (host_inodes (HostDir l) - 1) (host_blocks (HostDir l) - 1) ->
  exists children, imported (HostDir l) = Some (TDir children) /\ exists fs',
    import_directory host fuel fs path (lemon_path parts) summary =
      Ret (Ok (summed summary (host_directories (HostDir l) - 1) (host_files (HostDir l)) (host_skipped (HostDir l) path)), fs') /\
    added fs fs' k children (host_inodes (HostDir l) - 1) (host_blocks (HostDir l) - 1).

(** A subdirectory: [mkdir] and the import of its contents. *)
Lemma import_subdirectory_run fuel fs parts d name host_path l summary :
  imports fuel -> room_for fs parts d name -> host_shows host host_path (HostDir l) -> host_fits (HostDir l) ->
  (host_depth (HostDir l) <= fuel)%nat ->
  space_for fs summary (host_inodes (HostDir l)) (host_blocks (HostDir l)) ->
  exists fs1 fs' k t, imported (HostDir l) = Some t /\
    mkdir fs (new_path parts name) = Ret (Ok k, fs1) /\
    import_directory host fuel fs1 host_path (new_path parts name)
      (mkSummary (sm_directories summary + 1) (sm_files summary) (sm_skipped summary)) =
      Ret (Ok (summed summary (host_directories (HostDir l)) (host_files (HostDir l)) (host_skipped (HostDir l) host_path)), fs') /\
    added fs fs' d [(name, t)] (host_inodes (HostDir l)) (host_blocks (HostDir l)).
Proof.
  intros Himp Hroom Hshow Hfit Hdepth [Hsi Hsb Hsd Hsf]. pose proof (rf_tree _ _ _ _ Hroom) as Hti.
  destruct (walk_directory fs parts d Hti (rf_walk _ _ _ _ Hroom)) as [Hd Hdd].
  destruct (room_create fs parts d name Hroom) as (k & Hc & Hs & Hp).
  destruct (host_counts (HostDir l)) as (Hc1 & Hc2 & Hc3 & Hc4).
  pose proof (dir_positive l) as Hpos.
  destruct (mkdir_run fs _ d name k Hti Hp Hc Hs) as (fs1 & E1 & Hcr); [apply free_block_exists; [done|lia]|].
  pose proof (created_extends fs fs1 EDirectory d name k Hti Hd Hdd Hcr) as Hx1.
  pose proof (cr_tree _ _ _ _ _ _ Hcr) as Hti1. pose proof (cr_new _ _ _ _ _ _ Hcr) as Hnew.
  pose proof (cr_node _ _ _ _ _ _ Hcr) as Hnode. pose proof (cr_kind _ _ _ _ _ _ Hcr) as Hk. cbn in Hnode, Hk.
  assert (Hka : allocated fs1 k) by (apply Hcr; by left). assert (Hdk : d <> k) by (by intros ->).
  destruct (created_usage fs fs1 EDirectory d name k Hti Hd (rf_some _ _ _ _ Hroom) Hcr) as [Hi1 Hb1]. cbn in Hb1.
  assert (Hparts : Forall part_ok (parts ++ [name])).
  { apply Forall_app. split; [apply Hroom|]. constructor; [apply host_name_part, Hroom|constructor]. }
  assert (Hlp : lemon_path (parts ++ [name]) = new_path parts name) by (by destruct parts).
  assert (Hwalk : walk_spec fs1 0 (parts ++ [name]) = Ok k).
  { by apply (new_entry_found fs fs1 parts d name k Hroom Hx1 (cr_parent _ _ _ _ _ _ Hcr)). }
  destruct (Himp l host_path (parts ++ [name]) fs1 k d
    (mkSummary (sm_directories summary + 1) (sm_files summary) (sm_skipped summary))) as (children & Et & fs2 & E2 & Had);
    try done.
  { constructor; cbn [sm_directories sm_files]; rewrite ?(cr_layout _ _ _ _ _ _ Hcr), ?(cr_count _ _ _ _ _ _ Hcr); lia. }
  rewrite Hlp in E2. exists fs1, fs2, k, (TDir children). split; [done|]. split; [done|]. split.
  { rewrite E2. unfold summed. cbn [sm_directories sm_files sm_skipped].
    by replace (sm_directories summary + 1 + (host_directories (HostDir l) - 1))
      with (sm_directories summary + host_directories (HostDir l)) by lia. }
  destruct Had as [Hx2 Hi2 Hb2 (es & He & Hall)].
  pose proof (extends_into fs fs1 fs2 d k Hd Hx1 Hnew Hx2) as Hx. constructor; [done|lia|lia|].
  exists [DirEntry_new name k]. destruct (ex_frame _ _ _ Hx2 d (ex_alloc _ _ _ Hx1 _ Hd) Hdk) as (_ & _ & ->).
  split; [apply Hcr|]. constructor; [|constructor]. split; [done|]. cbn [snd].
  change (de_inode (DirEntry_new name k)) with k. apply shows_dir. split; [split; [by apply Hx2|done]|].
  exists es. rewrite He, Hnode. split; [done|]. eapply Forall2_impl; [exact Hall|]. intros e c [Hec Hs2]. split; [done|].
  eapply shows_frame; [|exact Hs2]. intros j [Hj Hn]. split; [|done]. split; [done|]. intros Ha. apply Hn. by apply Hx1.
Qed.

(** The child [c] as a child of the imported directory, if it is kept. *)
Definition kept (c : list Z * HostTree) : option (list Z * Tree) := t ← imported c.2; Some (c.1, t).

Lemma kept_other c : is_other c.2 = true -> kept c = None.
Proof. unfold kept. by destruct c.2. Qed.

Lemma import_child_run fuel fs parts d path c summary :
  imports fuel -> tree_inv fs -> Forall part_ok parts -> host_shows host (path_join path c.1) c.2 -> host_fits c.2 ->
  (host_depth c.2 <= fuel)%nat -> (is_other c.2 = false -> room_for fs parts d c.1) ->
  space_for fs summary (host_inodes c.2) (host_blocks c.2) ->
  exists fs', import_entry host (import_directory host fuel) fs path (lemon_path parts) summary c.1 =
      Ret (Ok (summed summary (host_directories c.2) (host_files c.2) (host_skipped c.2 (path_join path c.1))), fs') /\
    added fs fs' d (option_list (kept c)) (host_inodes c.2) (host_blocks c.2).
Proof.
  destruct c as [name t]. cbn [fst snd]. intros Himp Hti Hparts Hshow Hfit Hdepth Hroom Hspace.
  unfold import_entry, utf8_name, from_utf8, kept. cbn [snd fst].
  destruct t as [contents|l|].
  - specialize (Hroom eq_refl). destruct Hshow as (Et & Elen & Eread). destruct Hfit as [Hu8 Hsz].
    rewrite Et, (name_ok_utf8 _ (hn_ok _ (rf_name _ _ _ _ Hroom))). cbn [ok_or]. rewrite child_path_lemon by done.
    destruct Hspace as [Hi Hb Hd Hf]. cbn [host_inodes host_blocks] in *.
    destruct (import_file_run fs parts d name (path_join path name) contents summary) as (fs' & E & Had); try done.
    exists fs'. rewrite E. unfold summed. simpl. by rewrite Z.add_0_r, app_nil_r.
  - specialize (Hroom eq_refl). pose proof Hshow as (Et & _).
    rewrite Et, (name_ok_utf8 _ (hn_ok _ (rf_name _ _ _ _ Hroom))). cbn [ok_or]. rewrite child_path_lemon by done.
    destruct (import_subdirectory_run fuel fs parts d name (path_join path name) l summary)
      as (fs1 & fs' & k & t & Et' & E1 & E2 & Had); try done.
    exists fs'. unfold map_err_in. rewrite E1. cbn [mbind comp_bind map_err].
    pose proof (host_counts (HostDir l)) as (? & ? & ? & ?). destruct Hspace as [Hi Hb Hd Hf].
    pose proof (dir_positive l).
    rewrite add_ovf_ok by (unfold usize_max in Hd; lia). cbn [mbind comp_bind]. split; [exact E2|]. by rewrite Et'.
  - cbn [host_shows] in Hshow. rewrite Hshow. exists fs. split; [|by apply added_nothing].
    unfold summed. cbn [host_directories host_files host_skipped]. by rewrite !Z.add_0_r.
Qed.

(** The loop over the sorted children. *)
Record children_ok (fuel : nat) (path : PathBuf) (cs : list (list Z * HostTree)) : Prop := {
  co_nodup : NoDup (map fst cs);
  co_child : Forall (fun c => host_shows host (path_join path c.1) c.2 /\ (is_other c.2 = false -> host_name_ok c.1) /\
    host_fits c.2 /\ (host_depth c.2 <= fuel)%nat) cs;
}.

Definition importable (cs : list (list Z * HostTree)) := List.filter (fun c => negb (is_other c.2)) cs.

Lemma import_entries_run fuel parts d path : imports fuel -> Forall part_ok parts ->
  forall cs fs summary, children_ok fuel path cs -> tree_inv fs -> walk_spec fs 0 parts = Ok d ->
  (forall c e, c ∈ cs -> is_other c.2 = false -> e ∈ fs_entries fs d -> byte_compare c.1 (DirEntry_name e) = false) ->
  fs_entries fs d <> [] -> zlen (fs_entries fs d) + zlen (importable cs) <= 18 ->
  space_for fs summary (sum_of (map (fun c => host_inodes c.2) cs)) (sum_of (map (fun c => host_blocks c.2) cs)) ->
  exists fs', import_entries host (import_directory host fuel) fs path (lemon_path parts) summary (map fst cs) =
      Ret (Ok (summed summary (sum_of (map (fun c => host_directories c.2) cs)) (sum_of (map (fun c => host_files c.2) cs))
        (concat (map (fun c => host_skipped c.2 (path_join path c.1)) cs))), fs') /\
    added fs fs' d (omap kept cs) (sum_of (map (fun c => host_inodes c.2) cs)) (sum_of (map (fun c => host_blocks c.2) cs)).
Proof.
  intros Himp Hparts cs. induction cs as [|c cs IH]; intros fs summary Hcs Hti Hwalk Hfresh Hsome Hfew Hspace.
  { exists fs. split; [|by apply added_nothing]. unfold summed. simpl. rewrite !Z.add_0_r, app_nil_r. by destruct summary. }
  destruct Hcs as [Hnd Hch]. cbn [map] in Hnd. apply NoDup_cons in Hnd as [Hnot Hnd].
  apply Forall_cons in Hch as [(Hshow & Hname & Hfit & Hdepth) Hch].
  destruct (walk_directory fs parts d Hti Hwalk) as [Hd Hdd].
  destruct (host_counts c.2) as (Hn1 & Hn2 & Hn3 & Hn4).
  assert (Hrest : 0 <= sum_of (map (fun c => host_inodes c.2) cs) /\ 0 <= sum_of (map (fun c => host_blocks c.2) cs)).
  { split; apply total_nonneg; intros t; pose proof (host_counts t); lia. }
  destruct Hspace as [Hsi Hsb Hsd Hsf]. cbn [map sum_of foldr] in Hsi, Hsb, Hsd, Hsf. fold (sum_of (map (fun c => host_inodes c.2) cs)) in *.
  fold (sum_of (map (fun c => host_blocks c.2) cs)) in *.
  destruct (import_child_run fuel fs parts d path c summary) as (fs1 & E1 & Had1); try done.
  { intros Ho. constructor; try done; [by apply Hname| | |].
    - intros e He. apply (Hfresh c e); [by left|done..].
    - unfold importable in Hfew. simpl in Hfew. rewrite Ho in Hfew. cbn [negb] in Hfew. rewrite zlen_cons in Hfew.
      pose proof (zlen_nonneg (List.filter (fun c => negb (is_other c.2)) cs)). lia.
    - pose proof (host_positive c.2 Ho). lia. }
  { constructor; lia. }
  pose proof Had1 as [Hx1 Hi1 Hb1 (es1 & He1 & Hall1)].
  assert (Hlen1 : length es1 = length (option_list (kept c))) by (by eapply Forall2_length).
  destruct (IH fs1 (summed summary (host_directories c.2) (host_files c.2) (host_skipped c.2 (path_join path c.1)))) as (fs' & E & Had).
  - by constructor.
  - apply Hx1.
  - destruct (ti_root _ Hti). by apply (walk_extends fs fs1 d).
  - intros c' e Hc' Ho. rewrite He1, elem_of_app. intros [He|He]; [by apply (Hfresh c' e); [by right|..]|].
    unfold kept in Hall1. destruct (imported c.2) as [t|] eqn:Et; simpl in Hall1;
      [|apply Forall2_nil_inv_r in Hall1 as ->; by apply not_elem_of_nil in He].
    apply Forall2_cons_inv_r in Hall1 as (e0 & es0 & [Hee _] & ->%Forall2_nil_inv_r & ->).
    apply list_elem_of_singleton in He as ->. rewrite Hee. simpl.
    assert (Ho' : is_other c.2 = false) by (by destruct c.2).
    rewrite DirEntry_name_new by apply (hn_ok _ (Hname Ho')).
    rewrite byte_compare_name by apply (hn_slash _ (Hname Ho')). apply bool_decide_eq_false_2. intros Heq.
    apply Hnot. rewrite <- Heq. apply list_elem_of_fmap. by exists c'.
  - rewrite He1. by destruct (fs_entries fs d).
  - rewrite He1, zlen_app. unfold importable in *. simpl in Hfew. unfold zlen in *. rewrite Hlen1. unfold kept.
    destruct c as [n [| |]]; simpl in *; lia.
  - constructor; unfold summed; simpl; rewrite ?(ex_count _ _ _ Hx1), ?(ex_layout _ _ _ Hx1); lia.
  - exists fs'. cbn [map import_entries]. rewrite E1. cbn [mbind comp_bind]. rewrite E. split.
    + unfold summed. cbn [sm_directories sm_files sm_skipped map sum_of foldr concat]. by rewrite <- !Z.add_assoc, <- app_assoc.
    + pose proof (added_trans fs fs1 fs' d _ _ _ _ _ _ Hd Had1 Had) as Ht.
      replace (omap kept (c :: cs)) with (option_list (kept c) ++ omap kept cs) by (simpl; by destruct (kept c)). done.
Qed.

(** ** The recursion *)
Lemma collect_ok {E A} (l : list A) : collect (map (@Ok E A) l) = Ok l.
Proof. induction l as [|a l IH]; simpl; [done|]. by rewrite IH. Qed.

Lemma children_sorted fuel path l :
  host_shows host path (HostDir l) -> host_fits (HostDir l) -> (host_depth (HostDir l) <= S fuel)%nat ->
  children_ok fuel path (sorted l) /\ zlen (importable (sorted l)) <= 16.
Proof.
  cbn [host_shows host_fits host_depth]. intros (_ & _ & Hs) (Hnd & Hfew & Hf) Hdepth.
  assert (Hperm : sorted l ≡ₚ l) by apply sort_by_key_perm. split.
  - constructor; [by rewrite Hperm|]. rewrite Hperm. apply Forall_forall. intros c Hc.
    apply foldr_and_forall in Hs, Hf. rewrite Forall_forall in Hs, Hf.
    specialize (Hs c Hc). destruct (Hf c Hc) as [Hname Hfit]. split_and!; try done.
    apply le_S_n in Hdepth. etrans; [|exact Hdepth]. clear -Hc. induction l as [|x l IH]; [by apply not_elem_of_nil in Hc|].
    simpl. apply elem_of_cons in Hc as [->|Hc]; [lia|]. specialize (IH Hc). lia.
  - assert (E : importable (sorted l) ≡ₚ importable l); [|unfold zlen; by rewrite E].
    clear -Hperm. revert Hperm. generalize (sorted l) as l'. unfold importable. induction 1; simpl; try done.
    + destruct (is_other _); simpl; [done|by constructor].
    + destruct (is_other _), (is_other _); simpl; try done. constructor.
    + by etrans.
Qed.

Lemma total_sorted f l : sum_of (map f (sorted l)) = sum_of (map f l).
Proof. apply sum_of_perm. apply Permutation_map, sort_by_key_perm. Qed.

Lemma import_run fuel : imports fuel.
Proof.
  induction fuel as [|fuel IH]; intros l path parts fs k parent summary Hshow Hfit Hdepth Hti Hparts Hwalk Hents Hspace.
  { cbn [host_depth] in Hdepth. lia. }
  destruct (children_sorted fuel path l Hshow Hfit Hdepth) as [Hcs Hfew].
  pose proof Hshow as (_ & Hread & _). eexists. split; [apply imported_dir|].
  cbn [import_directory]. rewrite Hread.
  replace (map (fun c : list Z * HostTree => Ok c.1) l) with (map (@Ok IoError (list Z)) (map fst l)) by (by rewrite map_map).
  rewrite collect_ok. cbn [map_err]. rewrite <- (sort_by_key_map fst id). change (fun a : list Z * HostTree => id a.1) with (@fst (list Z) HostTree).
  cbn [host_inodes host_blocks host_directories host_files] in *. rewrite skipped_dir.
  rewrite <- !(total_sorted _ l) in *. rewrite !Z.add_simpl_l in *.
  destruct (import_entries_run fuel parts k path IH Hparts (sorted l) fs summary) as (fs' & E & Had); try done.
  - intros c e Hc Ho. rewrite Hents. intros He. destruct Hcs as [_ Hch]. rewrite Forall_forall in Hch.
    destruct (Hch c Hc) as (_ & Hname & _). destruct (Hname Ho) as [_ _ _ [Hd1 Hd2]].
    apply elem_of_cons in He as [->|[->|Hn]%elem_of_cons]; [..|by apply not_elem_of_nil in Hn].
    all: rewrite DirEntry_name_new by (constructor; by repeat constructor).
    all: rewrite byte_compare_name by (by rewrite !not_elem_of_cons; split_and?; try apply not_elem_of_nil).
    all: by apply bool_decide_eq_false_2.
  - by rewrite Hents.
  - rewrite Hents. unfold zlen in *. simpl. lia.
  - exists fs'. by split.
Qed.
End ImportRun.
