(* ===== verification/MkfsProps.v ===== *)
(** * What mkfs guarantees

    The image holds the source tree, a failed build leaves the files that existed
    as they were and adds at most a temporary image the host refuses to remove,
    the order in which the host lists a directory does not matter, and the
    command line is read back. *)
From S2P Require Import Prelude Bitmap Bytes Layout INode DirEntry BlockDev INodeCache SuperBlock Filesystem.
From S2P Require Import FsBase FsState FsFiles FsDirs FsCreate FsFormat FsProps FsUsage Mkfs MkfsImport.

(** ** Creating the temporary image *)
Section Temporary.
Variable host : Host.

(** The names mkfs tries for the image while it is written. *)
Definition is_temporary (output path : PathBuf) : Prop :=
  exists name a, output_name output = Ok name /\ 0 <= a < 100 /\
    path = path_join (output_parent output) (temporary_name host name a).

(** Every file is as it was, but for new files with a temporary name that the
    host did not let mkfs remove. *)
Definition only_leftovers (output : PathBuf) (files files' : Files) : Prop :=
  forall path, files' !! path = files !! path \/
    files !! path = None /\ is_temporary output path /\ is_Some (remove_error host path).

Lemma only_leftovers_refl output files : only_leftovers output files files.
Proof. by left. Qed.

Lemma only_leftovers_trans output files1 files2 files3 :
  only_leftovers output files1 files2 -> only_leftovers output files2 files3 -> only_leftovers output files1 files3.
Proof.
  intros H1 H2 path. destruct (H1 path) as [E1|?]; [|by right]. destruct (H2 path) as [E2|(Hn & ?)]; [left; congruence|].
  right. split; [congruence|done].
Qed.

(** A new temporary file, whatever it holds, that mkfs then removes. *)
Lemma only_leftovers_remove output files files' path :
  files !! path = None -> is_temporary output path -> delete path files' = files ->
  only_leftovers output files (remove_file host files' path).
Proof.
  intros Hnone Ht Hd. unfold remove_file. destruct (remove_error host path) eqn:E; [|rewrite Hd; apply only_leftovers_refl].
  intros q. destruct (decide (q = path)) as [->|Hne]; [right; by split_and!; eauto|]. left.
  by rewrite <- Hd, lookup_delete_ne.
Qed.

Lemma only_leftovers_same output files files' :
  (forall path, remove_error host path = None) -> only_leftovers output files files' -> files' = files.
Proof.
  intros Hr Ho. apply map_eq. intros path. destruct (Ho path) as [E|(_ & _ & [e E])]; [done|]. by rewrite Hr in E.
Qed.

Lemma create_new_cases output files path n r files' :
  is_temporary output path -> create_new host files path n = (r, files') ->
  match r with
  | Err _ => only_leftovers output files files'
  | Ok d => files !! path = None /\ files' = <[path := fd_file d]> files
  end.
Proof.
  intros Ht. unfold create_new. destruct (checked_mul n BLOCK_SIZE) as [b|]; [|intros [= <- <-]; apply only_leftovers_refl].
  destruct (path_exists host files path) eqn:Ep; [intros [= <- <-]; apply only_leftovers_refl|].
  destruct (create_error host path); [intros [= <- <-]; apply only_leftovers_refl|].
  assert (Hnone : files !! path = None).
  { unfold path_exists in Ep. apply orb_false_iff in Ep as [Ep _]. apply bool_decide_eq_false in Ep.
    by apply eq_None_not_Some. }
  destruct (set_len_error host path); intros [= <- <-].
  - apply only_leftovers_remove; [done..|]. by rewrite delete_insert_id.
  - split; [done|]. simpl. by rewrite insert_insert_eq.
Qed.

Lemma try_create_cases attempts files output name n r files' :
  output_name output = Ok name -> Forall (fun a => 0 <= a < 100) attempts ->
  try_create host attempts files output (output_parent output) name n = (r, files') ->
  match r with
  | Err _ => only_leftovers output files files'
  | Ok (path, d) => exists files1, only_leftovers output files files1 /\ files1 !! path = None /\
      is_temporary output path /\ files' = <[path := fd_file d]> files1
  end.
Proof.
  intros Hname Hall. revert files. induction Hall as [|a attempts Ha _ IH]; intros files; simpl.
  { intros [= <- <-]. apply only_leftovers_refl. }
  set (path := path_join (output_parent output) (temporary_name host name a)).
  assert (Ht : is_temporary output path) by (exists name, a; done).
  destruct (create_new host files path n) as [[d|e] files1] eqn:E;
    pose proof (create_new_cases output files path n _ _ Ht E) as Hc; cbv beta iota in Hc.
  - destruct Hc as [Hnone ->]. intros [= <- <-]. exists files. split; [apply only_leftovers_refl|done].
  - destruct (path_exists host files1 path); [|by intros [= <- <-]]. intros Et. specialize (IH files1 Et).
    destruct r as [[q d]|e']; [|by eapply only_leftovers_trans].
    destruct IH as (files2 & Hk & ?). exists files2. split; [by eapply only_leftovers_trans|done].
Qed.
End Temporary.

Lemma try_create_ok host attempts files output parent name n :
  host_willing host -> is_u32 n ->
  Exists (fun a => path_exists host files (path_join parent (temporary_name host name a)) = false) attempts ->
  exists path, files !! path = None /\
    try_create host attempts files output parent name n =
      (Ok (path, sound_device (mkDisk (n * 512) ∅) n), <[path := mkDisk (n * 512) ∅]> files).
Proof.
  intros Hw Hn Hex. induction attempts as [|a attempts IH]; [by apply Exists_nil in Hex|]. cbn [try_create].
  set (path := path_join parent (temporary_name host name a)). unfold create_new, checked_mul, BLOCK_SIZE.
  rewrite (proj2 (Z.leb_le _ _)) by (unfold in_width, usize_max, max_of in *; lia).
  destruct (path_exists host files path) eqn:Ep.
  - apply Exists_cons in Hex as [Hex|Hex]; [unfold path in Ep; congruence|]. rewrite Ep. by apply IH.
  - rewrite (hw_create _ Hw), (hw_set_len _ Hw), (hw_read _ Hw), (hw_write _ Hw). exists path.
    apply orb_false_iff in Ep as [Ep _]. apply bool_decide_eq_false, eq_None_not_Some in Ep. split; [done|].
    by rewrite insert_insert_eq.
Qed.

(** ** A failed build *)
Lemma attempts_range : Forall (fun a => 0 <= a < 100) (seqZ 0 100).
Proof. apply Forall_seqZ. lia. Qed.

Lemma fill_image_files host fuel config temporary device files r files' :
  fill_image host fuel config temporary device files = Ret (r, files') ->
  match r with Err _ => delete temporary files' = delete temporary files | Ok _ => True end.
Proof.
  assert (Hclose : forall d f, delete temporary (close f temporary d) = delete temporary f)
    by (intros; apply delete_insert_eq).
  unfold fill_image. destruct (format device) as [[[u|e] device']| |]; simpl; try done; [|by intros [= <- <-]; simpl; rewrite Hclose].
  destruct (file_open host _ temporary) as [d2|e]; [|by intros [= <- <-]; simpl; rewrite Hclose].
  destruct (Filesystem_new d2) as [[fs|e]| |]; simpl; try done; [|by intros [= <- <-]; simpl; rewrite Hclose].
  destruct (import_directory host fuel fs _ _ _) as [[[s|e] fs2]| |]; simpl; try done; [|by intros [= <- <-]; simpl; rewrite !Hclose].
  destruct (flush fs2) as [fs3| |]; simpl; try done.
  destruct (rename_error host _) as [e|]; [intros [= <- <-]; simpl; by rewrite !Hclose|].
  destruct (close _ temporary (block_device fs3) !! temporary) as [file|]; simpl; [by intros [= <- <-]|done].
Qed.

(** C32: A build that returns an error leaves every file that existed as it was,
    the old output image among them, whatever the source tree and the host's
    answers.  The only files it can add are temporary images beside the output,
    named after it with the process number and the attempt, and one stays only
    if the host refuses to remove it, which mkfs ignores; on a host that removes
    files when asked a failed build changes nothing. *)
Theorem failed_build_changes_nothing host fuel config files e files' :
  build_image host fuel config files = Ret (Err e, files') ->
  only_leftovers host (cf_output config) files files' /\
  ((forall path, remove_error host path = None) -> files' = files).
Proof.
  intros E. assert (Ho : only_leftovers host (cf_output config) files files');
    [|split; [exact Ho|intros Hr; exact (only_leftovers_same _ _ _ _ Hr Ho)]].
  pose proof (only_leftovers_refl host (cf_output config) files) as Hrefl. revert E.
  unfold build_image. destruct (symlink_metadata host _) as [[]|]; cbn [map_err]; try by intros [= _ <-].
  destruct (validate_output_location _ _ _); [|by intros [= _ <-]].
  destruct (try_u32 _); [|by intros [= _ <-]]. unfold create_temporary_image.
  destruct (output_name _) as [name|] eqn:En; [|by intros [= _ <-]].
  destruct (try_create _ _ _ _ _ _ _) as [[[temporary device]|] files1] eqn:Et;
    apply (try_create_cases _ _ _ _ _ _ _ _ En attempts_range) in Et.
  - destruct Et as (files0 & Hk & Hnone & Ht & ->). intros E. apply bind_ret_inv in E as ([r files2] & Ef & E). injection E as -> <-.
    apply fill_image_files in Ef. eapply only_leftovers_trans; [exact Hk|].
    apply only_leftovers_remove; [done..|]. simpl in Ef. rewrite Ef, delete_insert_eq. by apply delete_id.
  - by intros [= _ <-].
Qed.

(** ** A successful build *)

(** A source tree within the limits of the format and of an image of the layout
    [l], on a host that lets mkfs work. *)
Record buildable (host : Host) (config : Config) (files : Files) (children : list (list Z * HostTree)) (l : Layout) : Prop := {
  bd_source : symlink_metadata host (cf_source config) = Ok TyDir;
  bd_tree : host_shows host (cf_source config) (HostDir children);
  bd_fits : host_fits (HostDir children);
  bd_output : validate_output_location host (cf_source config) (cf_output config) = Ok tt;
  bd_willing : host_willing host;
  bd_temporary : Exists (fun a =>
    exists name, output_name (cf_output config) = Ok name /\
    path_exists host files (path_join (output_parent (cf_output config)) (temporary_name host name a)) = false) (seqZ 0 100);
  bd_blocks : is_u32 (cf_total_blocks config);
  bd_layout : layout_new (cf_total_blocks config) MAX_INODES = Ret (Some l);
  bd_inodes : host_inodes (HostDir children) <= MAX_INODES;
  bd_space : host_blocks (HostDir children) <= data_blocks l;
}.

Lemma import_root {D : Type} `{BlockDeviceLaws D} host fuel source children (fs : Filesystem D) l :
  host_shows host source (HostDir children) -> host_fits (HostDir children) ->
  (host_depth (HostDir children) <= fuel)%nat -> empty_tree fs -> fs_layout fs = l -> inode_count fs = MAX_INODES ->
  host_inodes (HostDir children) <= MAX_INODES -> host_blocks (HostDir children) <= data_blocks l ->
  exists fs' t, imported (HostDir children) = Some t /\
    import_directory host fuel fs source [SLASH] ImportSummary_default =
      Ret (Ok (mkSummary (host_directories (HostDir children) - 1) (host_files (HostDir children))
        (host_skipped (HostDir children) source)), fs') /\
    fs_layout fs' = l /\ tree_inv fs' /\ shows (allocated fs') fs' 0 0 t.
Proof.
  intros Hshow Hfit Hdepth Het Hl Hn Hi Hb. destruct (empty_usage fs Het) as [Hu1 Hu2]. destruct Het as [Hti Ha He].
  destruct (host_counts (HostDir children)) as (Hc1 & Hc2 & Hc3 & Hc4).
  destruct (import_run host fuel children source [] fs 0 0 ImportSummary_default) as (cs & Et & fs' & E & Hadd); try done.
  { constructor; unfold ImportSummary_default; cbn [sm_directories sm_files]; rewrite ?Hl, ?Hn, ?Hu1, ?Hu2;
      unfold usize_max, max_of in *; change MAX_INODES with 4096 in *; lia. }
  exists fs', (TDir cs). split; [done|]. split; [exact E|]. destruct Hadd as [Hx _ _ (es & Hes & Hall)].
  split; [by rewrite (ex_layout _ _ _ Hx)|]. split; [apply Hx|]. apply shows_dir. split; [by apply (ex_alloc _ _ _ Hx), Ha|].
  exists es. rewrite Hes, He. split; [done|]. eapply Forall2_impl; [exact Hall|]. intros e c [Hc Hs]. split; [done|].
  eapply shows_frame; [|exact Hs]. by intros j [Hj _].
Qed.

(** Equivalent filesystems show the same tree. *)
Lemma shows_equiv {D : Type} `{BlockDeviceLaws D} (fs fs' : Filesystem D) t parent i :
  tree_inv fs -> fs_equiv fs fs' -> shows (allocated fs) fs parent i t -> shows (allocated fs') fs' parent i t.
Proof.
  intros Hti He. apply shows_frame. intros j Hj. split; [by apply (allocated_equiv _ _ _ He)|].
  pose proof (allocated_range _ _ (ti_ok _ Hti) Hj) as Hr. pose proof (di_inode _ _ (ti_dir _ Hti _ Hj)) as Hii.
  split; [by rewrite (fe_inode _ _ He)|]. by rewrite (fs_content_equiv fs fs'), (fs_entries_equiv fs fs').
Qed.

(** [fill_image] from the formatted device to the renamed file. *)
Lemma fill_image_run host fuel config temporary files children l :
  buildable host config files children l -> (host_depth (HostDir children) <= fuel)%nat -> files !! temporary = None ->
  let n := cf_total_blocks config in
  exists image fs t, imported (HostDir children) = Some t /\
    fill_image host fuel config temporary (sound_device (mkDisk (n * 512) ∅) n)
        (<[temporary := mkDisk (n * 512) ∅]> files) =
      Ret (Ok (mkSummary (host_directories (HostDir children) - 1) (host_files (HostDir children))
        (host_skipped (HostDir children) (cf_source config))), <[cf_output config := image]> files) /\
    disk_bytes image = n * 512 /\
    Filesystem_new (sound_device image n) = Ret (Ok fs) /\ tree_inv fs /\ shows (allocated fs) fs 0 0 t.
Proof.
  intros [] Hdepth Hnone n. set (dev := sound_device (mkDisk (n * 512) ∅) n).
  assert (Hdev : dev_ok dev) by (by apply new_device_ok).
  destruct (format_spec dev l Hdev bd_blocks0 bd_layout0) as (dev' & fs0 & E1 & E2 & Hd0 & Hl0 & Hn0 & Het).
  pose proof (et_tree _ Het) as Hti0. pose proof (ti_ok _ Hti0) as Hok0.
  assert (Hgeo : geometry n MAX_INODES l) by (by constructor).
  assert (Htotal : forall fs : Filesystem FileBlockDevice, fs_ok fs -> fs_layout fs = l -> fd_total_blocks (block_device fs) = n).
  { intros fs Hok Hl. pose proof (geometry_regions _ _ _ (fo_geo _ Hok)) as (_ & _ & _ & _ & _ & _ & Hs & _).
    pose proof (geometry_regions _ _ _ Hgeo) as (_ & _ & _ & _ & _ & _ & Hs' & _). rewrite Hl in Hs. simpl in Hs. lia. }
  unfold fill_image. rewrite E1. cbn [mbind comp_bind map_err].
  rewrite file_reopen; [|rewrite <- Hd0; apply (fo_dev _ Hok0)|exact bd_willing0].
  rewrite E2. cbn [mbind comp_bind map_err].
  destruct (import_root host fuel (cf_source config) children fs0 l) as (fs1 & t & Et & E3 & Hl1 & Hti1 & Hsh); try done.
  rewrite E3. cbn [mbind comp_bind].
  destruct (flush_spec fs1 (ti_ok _ Hti1)) as (fs2 & E4 & Hok2 & He2 & Hfl).
  rewrite E4. cbn [mbind comp_bind]. rewrite (hw_rename _ bd_willing0).
  unfold close. rewrite lookup_insert_eq. cbn [unwrap mbind comp_bind].
  rewrite !delete_insert_eq, (delete_id files) by done.
  destruct (mount_flushed fs2 Hok2 Hfl) as (fs3 & E5 & Hok3 & He3 & _).
  { destruct (ti_root _ Hti1). rewrite <- (fe_inode _ _ He2); [done|]. by apply allocated_range; [apply Hti1|]. }
  assert (He : fs_equiv fs1 fs3) by (by transitivity fs2).
  assert (Hl2 : fs_layout fs2 = l) by (by rewrite <- (fe_layout _ _ He2)).
  pose proof (Htotal fs2 Hok2 Hl2) as Ht2. pose proof (fo_dev _ Hok2) as [_ Hb2 Hr2 Hw2].
  exists (fd_file (block_device fs2)), fs3, t. split; [done|]. split; [done|]. split; [by rewrite Hb2, Ht2|].
  split; [rewrite <- Ht2; destruct (block_device fs2); simpl in *; by subst|]. split; [by apply (tree_inv_equiv fs1)|].
  by apply (shows_equiv fs1).
Qed.

(** C9: mkfs puts the source tree into the image.  If the source tree has at most
    sixteen importable children per directory, names of at most 24 bytes and
    files of at most 8192 bytes, needs no more inodes and data blocks than the
    image has, and the host refuses nothing, then the build succeeds and reports
    the directories, files and skipped entries; only the output file changes,
    it has the requested size, and mounting it gives a consistent filesystem
    that shows exactly the source tree: every directory lists ".", ".." and its
    importable children sorted by name, every file has its contents. *)
Theorem build_image_holds_tree host fuel config files children l :
  buildable host config files children l -> (host_depth (HostDir children) <= fuel)%nat ->
  exists image fs t, imported (HostDir children) = Some t /\
    build_image host fuel config files =
      Ret (Ok (mkSummary (host_directories (HostDir children) - 1) (host_files (HostDir children))
        (host_skipped (HostDir children) (cf_source config))), <[cf_output config := image]> files) /\
    disk_bytes image = cf_total_blocks config * 512 /\
    Filesystem_new (sound_device image (cf_total_blocks config)) = Ret (Ok fs) /\
    tree_inv fs /\ shows (allocated fs) fs 0 0 t.
Proof.
  intros Hb Hdepth. pose proof Hb as []. unfold build_image. rewrite bd_source0. cbn [map_err]. rewrite bd_output0.
  unfold try_u32. rewrite (proj2 (Z.leb_le _ _)) by (unfold in_width, u32_max, max_of in *; lia).
  unfold create_temporary_image. destruct (output_name (cf_output config)) as [name|e] eqn:En.
  2:{ exfalso. apply Exists_exists in bd_temporary0 as (a & _ & name & ? & _). congruence. }
  destruct (try_create_ok host (seqZ 0 100) files (cf_output config) (output_parent (cf_output config)) name
    (cf_total_blocks config) bd_willing0 bd_blocks0) as (temporary & Hnone & ->).
  { eapply Exists_impl; [exact bd_temporary0|]. intros a (name' & [= <-] & Hp). exact Hp. }
  destruct (fill_image_run host fuel config temporary files children l Hb Hdepth Hnone)
    as (image & fs & t & Et & E & Hs & Em & Hti & Hsh).
  cbv zeta in E. rewrite E. exists image, fs, t. by split_and!.
Qed.

(** *** A host with a small source tree *)
Fixpoint tree_at (t : HostTree) (parts : list Component) : option HostTree :=
  match parts with
  | [] => Some t
  | Normal p :: parts =>
      match t with
      | HostDir l => c ← List.find (fun c => bool_decide (c.1 = p)) l; tree_at c.2 parts
      | _ => None
      end
  | _ => None
  end.

Definition sample_node (source p : PathBuf) (t : HostTree) : result IoError HostTree :=
  ok_or (if path_starts_with p source then tree_at t (drop (length (pb_parts source)) (pb_parts p)) else None) IoNotFound.
Definition node_type (t : HostTree) : FileType :=
  match t with HostFile _ => TyFile | HostDir _ => TyDir | HostOther => TyOther end.

Definition sample_host (source : PathBuf) (t : HostTree) : Host := {|
  symlink_metadata p := t ← sample_node source p t; Ok (node_type t);
  canonicalize p := if pb_root p then Ok p else if bool_decide (pb_parts p = []) then Err IoNotFound
                    else Ok (mkPath true (Normal (str "work") :: pb_parts p));
  read_dir p := t ← sample_node source p t;
                match t with HostDir l => Ok (map (fun c => Ok c.1) l) | _ => Err (IoOther 20) end;
  file_type p := t ← sample_node source p t; Ok (node_type t);
  metadata_len p := t ← sample_node source p t; match t with HostFile c => Ok (zlen c) | _ => Ok 0 end;
  fs_read p := t ← sample_node source p t; match t with HostFile c => Ok c | _ => Err (IoOther 21) end;
  process_id := 42;
  create_error _ := None; set_len_error _ := None; open_error _ := None; inspect_error _ := None;
  rename_error _ := None; remove_error _ := None; read_fails _ := no_failure; write_fails _ := no_failure;
  occupied _ := false;
|}.

Definition sample_children : list (list Z * HostTree) :=
  [(str "nested", HostDir [(str "note", HostFile (str "lemon")); (str "empty", HostDir [])]);
   (str "link", HostOther); (str "a.txt", HostFile (str "hello"))].
Definition sample_config : Config := mkConfig (path_of (str "/rootfs")) (path_of (str "/out/root.img")) 700.
Definition sample_files : Files := {[ path_of (str "/out/root.img") := mkDisk 3 ∅ ]}.
Definition mkfs_host : Host := sample_host (path_of (str "/rootfs")) (HostDir sample_children).

Lemma sample_name_ok s :
  forallb (fun b => (0 <? b) && (b <? 128) && negb (b =? SLASH)) s = true -> zlen s <= 24 -> s <> [] -> s <> [DOT] -> s <> [DOT; DOT] ->
  host_name_ok s.
Proof.
  intros Hs Hl Hne Hd1 Hd2.
  assert (Hb : Forall (fun b => 0 < b < 128 /\ b <> SLASH) s).
  { rewrite List.forallb_forall in Hs. apply List.Forall_forall. intros b Hin. specialize (Hs b Hin). lia. }
  constructor; [constructor|done| |done].
  - apply utf8_ascii. eapply Forall_impl; [exact Hb|]. simpl. lia.
  - done.
  - eapply Forall_impl; [exact Hb|]. simpl. lia.
  - eapply Forall_impl; [exact Hb|]. unfold in_width. simpl. lia.
  - intros Hin. rewrite Forall_forall in Hb. by destruct (Hb _ Hin).
Qed.

Lemma sample_buildable : buildable mkfs_host sample_config sample_files sample_children (mkLayout 1 1 2 1 3 586 589 111).
Proof.
  constructor.
  - done.
  - repeat split.
  - cbn [host_fits sample_children map foldr fst snd]. split_and!.
    all: first
      [ by vm_compute
      | intros _; apply sample_name_ok; by vm_compute
      | by repeat constructor
      | rewrite !NoDup_cons, ?not_elem_of_cons; split_and!; by (apply not_elem_of_nil || apply NoDup_nil_2 || vm_compute) ].
  - vm_compute. reflexivity.
  - by constructor.
  - apply Exists_exists. exists 0. split; [by apply elem_of_seqZ|]. exists (str "root.img"). split; vm_compute; reflexivity.
  - split; done.
  - vm_compute. reflexivity.
  - apply Z.leb_le. vm_compute. reflexivity.
  - apply Z.leb_le. vm_compute. reflexivity.
Qed.

Lemma build_image_holds_tree_witness :
  exists image fs, build_image mkfs_host 3 sample_config sample_files =
      Ret (Ok (mkSummary 2 2 [path_of (str "/rootfs/link")]), {[ path_of (str "/out/root.img") := image ]}) /\
    Filesystem_new (sound_device image 700) = Ret (Ok fs) /\
    shows (allocated fs) fs 0 0 (TDir [(str "a.txt", TFile (str "hello"));
      (str "nested", TDir [(str "empty", TDir []); (str "note", TFile (str "lemon"))])]).
Proof.
  destruct (build_image_holds_tree mkfs_host 3 sample_config sample_files sample_children (mkLayout 1 1 2 1 3 586 589 111) sample_buildable)
    as (image & fs & t & Et & E & _ & Em & _ & Hs); [apply Nat.leb_le; by vm_compute|].
  exists image, fs. split.
  { rewrite E. unfold sample_files, sample_config. cbn [cf_output cf_source]. rewrite insert_singleton_eq.
    do 3 f_equal; vm_compute; reflexivity. }
  split; [exact Em|]. vm_compute in Et. injection Et as <-. exact Hs.
Defined.

(** ** The order of a listing *)
Definition name_before (a b : list Z) : Prop := name_le a b = true.

#[export] Instance name_before_trans : Transitive name_before.
Proof.
  unfold name_before. intros a. induction a as [|x a IH]; intros [|y b] [|z c]; simpl; try done.
  intros H1 H2. destruct (Z.ltb_spec x y), (Z.ltb_spec y z), (Z.ltb_spec x z); simpl in *; try done; try lia.
  all: repeat match goal with H : context [?a =? ?b] |- _ => destruct (Z.eqb_spec a b); simpl in H; try done; try lia end.
  rewrite (proj2 (Z.eqb_eq x z)) by lia. by apply (IH b).
Qed.
#[export] Instance name_before_antisymm : AntiSymm (=) name_before.
Proof.
  unfold name_before. intros a. induction a as [|x a IH]; intros [|y b]; simpl; try done.
  intros H1 H2. destruct (Z.ltb_spec x y), (Z.ltb_spec y x); simpl in *; try lia.
  all: repeat match goal with H : context [?a =? ?b] |- _ => destruct (Z.eqb_spec a b); simpl in H; try done; try lia end.
  subst. f_equal. by apply IH.
Qed.
Lemma name_before_total a b : name_before a b \/ name_before b a.
Proof.
  unfold name_before. revert b. induction a as [|x a IH]; intros [|y b]; simpl; auto.
  destruct (Z.ltb_spec x y), (Z.ltb_spec y x); simpl; auto. rewrite (proj2 (Z.eqb_eq x y)), (proj2 (Z.eqb_eq y x)) by lia. apply IH.
Qed.

Lemma insert_name_sorted x l : Sorted name_before l -> Sorted name_before (insert_by_key id x l).
Proof.
  induction l as [|y l IH]; intros Hl; simpl; [by repeat constructor|].
  destruct (name_le x y) eqn:E; [by constructor; [|constructor]|].
  apply Sorted_inv in Hl as [Hl Hy]. assert (Hyx : name_before y x).
  { destruct (name_before_total x y) as [Hxy|]; [|done]. unfold name_before in *. congruence. }
  constructor; [by apply IH|]. destruct l as [|z l]; simpl; [by constructor|].
  destruct (name_le x z); constructor; [done|]. by apply HdRel_inv in Hy.
Qed.
Lemma sort_name_sorted l : Sorted name_before (sort_by_key id l).
Proof. induction l as [|x l IH]; simpl; [constructor|]. by apply insert_name_sorted. Qed.

Lemma sort_perm_eq l l' : l ≡ₚ l' -> sort_by_key id l = sort_by_key id l'.
Proof.
  intros Hp. apply (Sorted_unique name_before); [apply sort_name_sorted..|]. by rewrite !sort_by_key_perm.
Qed.

(** Two hosts that differ in the order of their listings only. *)
Record same_tree (host host' : Host) : Prop := {
  st_type p : file_type host' p = file_type host p;
  st_len p : metadata_len host' p = metadata_len host p;
  st_read p : fs_read host' p = fs_read host p;
  st_list p : match read_dir host p, read_dir host' p with
              | Ok l, Ok l' => exists names names', l = map Ok names /\ l' = map Ok names' /\ names ≡ₚ names'
              | Err e, Err e' => e = e'
              | _, _ => False
              end;
}.

Lemma import_entries_ext {D : Type} `{BlockDevice D} host host' (f g : Filesystem D -> _) path lp names :
  same_tree host host' -> (forall fs p q s, f fs p q s = g fs p q s) -> forall fs summary,
  import_entries host f fs path lp summary names = import_entries host' g fs path lp summary names.
Proof.
  intros Hst Hfg. induction names as [|n names IH]; intros fs summary; [done|]. cbn [import_entries].
  assert (E : import_entry host f fs path lp summary n = import_entry host' g fs path lp summary n).
  { unfold import_entry, import_file. rewrite (st_type _ _ Hst), (st_len _ _ Hst), (st_read _ _ Hst).
    destruct (file_type host _) as [[]|]; [|done..]. destruct (utf8_name _ _); [|done].
    destruct (map_err_in _ _) as [[[i|e] fs']| |]; simpl; [|done..]. destruct (_ +! _); simpl; [|done..]. apply Hfg. }
  rewrite E. destruct (import_entry host' g fs path lp summary n) as [[[s|e] fs']| |]; simpl; [apply IH|done..].
Qed.

(** The image does not depend on the order in which the host lists a
    directory: two hosts whose listings are permutations of each other give the
    same result and the same filesystem, whatever the tree and the device. *)
Theorem import_ignores_listing_order {D : Type} `{BlockDevice D} host host' fuel (fs : Filesystem D) path lp summary :
  same_tree host host' ->
  import_directory host fuel fs path lp summary = import_directory host' fuel fs path lp summary.
Proof.
  intros Hst. revert fs path lp summary. induction fuel as [|fuel IH]; intros fs path lp summary; [done|].
  cbn [import_directory]. pose proof (st_list _ _ Hst path) as Hl.
  destruct (read_dir host path) as [l|e], (read_dir host' path) as [l'|e']; try done; [|by subst].
  destruct Hl as (names & names' & -> & -> & Hp). rewrite !collect_ok. cbn [map_err].
  rewrite (sort_perm_eq _ _ Hp). by apply import_entries_ext.
Qed.

(** A directory of files of the length [len], on a host that may refuse to
    remove files. *)
Definition flat_host (sticky : bool) (len : Z) (names : list (list Z)) : Host := {|
  symlink_metadata _ := Ok TyDir; canonicalize p := Ok p; read_dir _ := Ok (map Ok names);
  file_type _ := Ok TyFile; metadata_len _ := Ok len; fs_read _ := Ok (replicate (Z.to_nat len) 0);
  process_id := 42;
  create_error _ := None; set_len_error _ := None; open_error _ := None; inspect_error _ := None;
  rename_error _ := None; remove_error p := if sticky then Some (IoOther 13) else None;
  read_fails _ := no_failure; write_fails _ := no_failure; occupied _ := false;
|}.

Lemma import_ignores_listing_order_witness :
  import_directory (flat_host false 0 [str "b"; str "a"]) 1 sample_fs (path_of (str "/src")) [SLASH] ImportSummary_default =
  import_directory (flat_host false 0 [str "a"; str "b"]) 1 sample_fs (path_of (str "/src")) [SLASH] ImportSummary_default.
Proof.
  apply (import_ignores_listing_order (flat_host false 0 [str "b"; str "a"]) (flat_host false 0 [str "a"; str "b"]) 1 sample_fs).
  split; [done..|]. intros p. exists [str "b"; str "a"], [str "a"; str "b"]. split_and!; [done..|]. constructor.
Defined.

(** A file that is too large is found after the temporary image was made. *)
Lemma failed_build_changes_nothing_witness :
  (exists e, build_image (flat_host false 8193 [str "big"]) 1 sample_config sample_files = Ret (Err e, sample_files)) /\
  (exists e files', build_image (flat_host true 8193 [str "big"]) 1 sample_config sample_files = Ret (Err e, files') /\
    files' !! path_of (str "/out/root.img") = Some (mkDisk 3 ∅) /\ is_Some (files' !! path_of (str "/out/root.img.tmp-42-0"))).
Proof.
  assert (Ef : forall sticky, match build_image (flat_host sticky 8193 [str "big"]) 1 sample_config sample_files with
               | Ret (Err (SourceFileTooLarge _ len), files') =>
                   (len =? 8193) && bool_decide (is_Some (files' !! path_of (str "/out/root.img.tmp-42-0")) <-> sticky = true)
               | _ => false end = true) by (intros []; vm_compute; reflexivity).
  split.
  - specialize (Ef false).
    destruct (build_image (flat_host false 8193 [str "big"]) 1 sample_config sample_files) as [[[s|e] files']| |] eqn:E;
      [discriminate Ef| |discriminate Ef..].
    exists e. f_equal. f_equal. exact (proj2 (failed_build_changes_nothing _ _ _ _ _ _ E) (fun _ => eq_refl)).
  - specialize (Ef true).
    destruct (build_image (flat_host true 8193 [str "big"]) 1 sample_config sample_files) as [[[s|e] files']| |] eqn:E;
      [discriminate Ef| |discriminate Ef..].
    exists e, files'. split; [done|]. split.
    + destruct (proj1 (failed_build_changes_nothing _ _ _ _ _ _ E) (path_of (str "/out/root.img"))) as [->|(Hn & _)];
        [reflexivity|discriminate Hn].
    + destruct e; try discriminate Ef. apply andb_prop in Ef as [_ Ef]. apply bool_decide_eq_true in Ef. by apply Ef.
Defined.

(** ** The command line *)
Lemma parse_digits_show fuel : forall n acc,
  0 <= n < 10 ^ Z.of_nat fuel -> n <= usize_max -> (0 < fuel)%nat ->
  parse_digits (decimal_digits fuel n acc) 0 = parse_digits acc n.
Proof.
  induction fuel as [|fuel IH]; intros n acc Hn Hmax Hf; [lia|]. cbn [decimal_digits].
  pose proof (Z.div_mod n 10 ltac:(lia)). pose proof (Z.mod_pos_bound n 10 ltac:(lia)).
  assert (Hdigit : forall m, m = n / 10 -> parse_digits ((48 + n mod 10) :: acc) m = parse_digits acc n).
  { intros m ->. cbn [parse_digits]. unfold in_range. rewrite (proj2 (Z.leb_le _ _)), (proj2 (Z.leb_le _ _)) by lia.
    unfold checked_mul, checked_add. cbn [andb]. rewrite (proj2 (Z.leb_le _ _)) by lia. cbn [mbind option_bind].
    rewrite (proj2 (Z.leb_le _ _)) by lia. cbn [mbind option_bind]. f_equal. lia. }
  destruct (Z.eqb_spec (n / 10) 0) as [E0|Hne]; [by apply Hdigit|].
  rewrite Nat2Z.inj_succ, Z.pow_succ_r in Hn by lia. pose proof (Z.div_pos n 10).
  destruct fuel as [|fuel]; [simpl in Hn; lia|]. rewrite IH; [by apply Hdigit| | |lia].
  - split; [lia|]. apply Z.div_lt_upper_bound; lia.
  - lia.
Qed.

Lemma decimal_digits_range fuel n acc :
  Forall (fun b => 48 <= b <= 57) acc -> Forall (fun b => 48 <= b <= 57) (decimal_digits fuel n acc).
Proof.
  revert n acc. induction fuel as [|fuel IH]; intros n acc Hacc; [done|]. cbn [decimal_digits].
  pose proof (Z.mod_pos_bound n 10 ltac:(lia)).
  assert (Forall (fun b => 48 <= b <= 57) ((48 + n mod 10) :: acc)) by (constructor; [lia|done]).
  destruct (n / 10 =? 0); [done|by apply IH].
Qed.

Lemma decimal_digits_some fuel n acc : acc <> [] \/ (0 < fuel)%nat -> decimal_digits fuel n acc <> [].
Proof.
  revert n acc. induction fuel as [|fuel IH]; intros n acc Hacc; [destruct Hacc; [done|lia]|]. cbn [decimal_digits].
  destruct (n / 10 =? 0); [done|]. apply IH. by left.
Qed.

Lemma parse_usize_show n : 0 <= n <= usize_max -> parse_usize (show_z n) = Some n.
Proof.
  intros Hn. pose proof (parse_digits_show 20 n [] ltac:(unfold usize_max, max_of in Hn; simpl; lia) ltac:(lia) ltac:(lia)) as Hp.
  fold (show_z n) in Hp. pose proof (decimal_digits_range 20 n [] ltac:(constructor)) as Hr. fold (show_z n) in Hr.
  assert (Hne : show_z n <> []) by (apply decimal_digits_some; right; lia).
  unfold parse_usize. destruct (show_z n) as [|b s] eqn:E; [done|]. apply Forall_cons in Hr as [Hb _].
  destruct b as [|b|b]; [done| |lia]. do 6 (destruct b as [b|b|]; try exact Hp; try lia).
Qed.

(** An option with its value, as it is written and as it is read. *)
Inductive Setting := SourceDir (s : list Z) | OutputFile (s : list Z) | BlockCount (n : Z).
Definition written (o : Setting) : list (list Z) :=
  match o with
  | SourceDir s => [str "--source"; s]
  | OutputFile s => [str "--output"; s]
  | BlockCount n => [str "--blocks"; show_z n]
  end.
Definition apply_setting (c : Config) (o : Setting) : Config :=
  match o with
  | SourceDir s => mkConfig (path_of s) (cf_output c) (cf_total_blocks c)
  | OutputFile s => mkConfig (cf_source c) (path_of s) (cf_total_blocks c)
  | BlockCount n => mkConfig (cf_source c) (cf_output c) n
  end.
Definition setting_option (o : Setting) : list Z :=
  match o with SourceDir _ => str "--source" | OutputFile _ => str "--output" | BlockCount _ => str "--blocks" end.
Definition setting_ok (o : Setting) : Prop := match o with BlockCount n => 1 <= n <= usize_max | _ => True end.

Lemma parse_setting o args c ss os bs :
  setting_ok o ->
  parse_args (written o ++ args) c ss os bs =
    match o with
    | SourceDir _ => if ss then Err (OnlyOnce (str "--source")) else parse_args args (apply_setting c o) true os bs
    | OutputFile _ => if os then Err (OnlyOnce (str "--output")) else parse_args args (apply_setting c o) ss true bs
    | BlockCount _ => if bs then Err (OnlyOnce (str "--blocks")) else parse_args args (apply_setting c o) ss os true
    end.
Proof.
  intros Ho. destruct o as [s|s|n]; cbn [written app parse_args].
  - by destruct ss.
  - by destruct os.
  - assert (Hu : utf8_valid (show_z n) = true).
    { apply utf8_ascii. eapply Forall_impl; [apply (decimal_digits_range 20 n []); constructor|]. simpl. lia. }
    simpl in Ho. pose proof (parse_usize_show n ltac:(lia)) as Hp. revert Hu Hp. generalize (show_z n) as v. intros v Hu Hp.
    destruct bs; [done|]. simpl. rewrite Hu, Hp. simpl. by rewrite (proj2 (Z.eqb_neq n 0)) by lia.
Qed.

Definition is_source (o : Setting) : bool := match o with SourceDir _ => true | _ => false end.
Definition is_output (o : Setting) : bool := match o with OutputFile _ => true | _ => false end.
Definition is_blocks (o : Setting) : bool := match o with BlockCount _ => true | _ => false end.

(** Settings whose options are new are parsed one after the other. *)
Lemma parse_settings l args : forall c ss os bs,
  Forall setting_ok l -> NoDup (map setting_option l) ->
  Forall (fun o => match o with SourceDir _ => ss | OutputFile _ => os | BlockCount _ => bs end = false) l ->
  parse_args (concat (map written l) ++ args) c ss os bs =
  parse_args args (foldl apply_setting c l) (ss || existsb is_source l) (os || existsb is_output l) (bs || existsb is_blocks l).
Proof.
  induction l as [|o l IH]; intros c ss os bs Hok Hnd Hfl; simpl.
  { by rewrite !orb_false_r. }
  apply Forall_cons in Hok as [Ho Hok]. simpl in Hnd. apply NoDup_cons in Hnd as [Hnot Hnd]. apply Forall_cons in Hfl as [Hfo Hfl].
  rewrite <- app_assoc, parse_setting by done.
  assert (Hne : Forall (fun o' => setting_option o' <> setting_option o) l).
  { apply Forall_forall. intros o' Hin Heq. apply Hnot. rewrite <- Heq. apply list_elem_of_fmap. by exists o'. }
  pose proof (proj2 (Forall_and _ _) (conj Hfl Hne)) as Hboth.
  destruct o as [s|s|n]; rewrite Hfo; rewrite IH; try done.
  all: try (simpl; by rewrite ?orb_true_r).
  all: eapply Forall_impl; [exact Hboth|]; by intros [] [? ?].
Qed.

Lemma repeated_setting l o :
  setting_option o ∈ map setting_option l ->
  match o with SourceDir _ => existsb is_source l | OutputFile _ => existsb is_output l | BlockCount _ => existsb is_blocks l end = true.
Proof.
  intros Hin. apply list_elem_of_fmap in Hin as (o' & Heq & Hin).
  destruct o; apply existsb_exists; exists o'; (split; [by apply list_elem_of_In|]); by destruct o'.
Qed.

(** The command line reads back.  Settings written as options, each option at
    most once and in any order, are parsed to the configuration they set on top
    of the defaults; the first option that is repeated is reported. *)
Theorem parse_reads_settings settings :
  Forall setting_ok settings ->
  (NoDup (map setting_option settings) ->
   Command_parse (concat (map written settings)) = Ok (Build (foldl apply_setting Config_default settings))) /\
  (forall before o after, settings = before ++ o :: after -> NoDup (map setting_option before) ->
   setting_option o ∈ map setting_option before ->
   Command_parse (concat (map written settings)) = Err (OnlyOnce (setting_option o))).
Proof.
  intros Hok. unfold Command_parse. split.
  - intros Hnd. pose proof (parse_settings settings [] Config_default false false false Hok Hnd) as E.
    rewrite app_nil_r in E. rewrite E; [done|]. apply Forall_forall. by intros [].
  - intros before o after -> Hnd Hin. apply Forall_app in Hok as [Hb Ha]. apply Forall_cons in Ha as [Ho _].
    rewrite map_app, concat_app. simpl. rewrite parse_settings; [|done..|apply Forall_forall; by intros []].
    rewrite parse_setting by done. pose proof (repeated_setting before o Hin) as Hr. simpl. destruct o; by rewrite Hr.
Qed.

Lemma parse_reads_settings_witness :
  Command_parse [str "--blocks"; show_z 2048; str "--source"; str "input"] =
    Ok (Build (mkConfig (path_of (str "input")) (path_of DEFAULT_OUTPUT) 2048)) /\
  Command_parse [str "--output"; str "one"; str "--output"; str "two"] = Err (OnlyOnce (str "--output")).
Proof.
  split.
  - apply (parse_reads_settings [BlockCount 2048; SourceDir (str "input")]).
    + repeat constructor; unfold usize_max, max_of; simpl; lia.
    + cbn [map setting_option]. rewrite !NoDup_cons. split_and!; [by intros [=]%list_elem_of_singleton|apply not_elem_of_nil|apply NoDup_nil_2].
  - apply (proj2 (parse_reads_settings [OutputFile (str "one"); OutputFile (str "two")] ltac:(by repeat constructor))
      [OutputFile (str "one")] (OutputFile (str "two")) []); [done| |by left].
    apply NoDup_singleton.
Defined.

(** ** The default output *)

(** An output path that is only a file name, like the default [lemonfs.img],
    is always refused: [Path::parent] of such a path is the empty path and not
    [None], so the intended fallback to the current directory is not taken, and
    the operating system does not resolve the empty path. *)
Theorem bare_output_is_refused host fuel source name n files root e :
  symlink_metadata host source = Ok TyDir -> canonicalize host source = Ok root -> name <> [] ->
  canonicalize host (mkPath false []) = Err e ->
  build_image host fuel (mkConfig source (mkPath false [Normal name]) n) files =
    Ret (Err (IoFailed (str "resolve output directory") (mkPath false []) e), files).
Proof.
  intros Hs Hc Hn He. unfold build_image, validate_output_location, output_name, output_parent. cbn [cf_source cf_output].
  rewrite Hs, Hc. cbn [map_err mbind result_bind]. unfold file_name, parent. cbn [pb_parts last pb_root removelast].
  rewrite bool_decide_eq_false_2 by done. cbn [default from_option id mbind result_bind]. rewrite He. done.
Qed.

Lemma bare_output_is_refused_witness :
  mkfs_main mkfs_host 3 [str "--source"; str "/rootfs"] sample_files =
    Ret (1, ReportError (IoFailed (str "resolve output directory") (mkPath false []) IoNotFound), sample_files).
Proof.
  unfold mkfs_main.
  assert (Ep : Command_parse [str "--source"; str "/rootfs"] =
    Ok (Build (mkConfig (path_of (str "/rootfs")) (mkPath false [Normal (str "lemonfs.img")]) DEFAULT_BLOCKS))) by (vm_compute; reflexivity).
  rewrite Ep.
  rewrite (bare_output_is_refused mkfs_host 3 (path_of (str "/rootfs")) (str "lemonfs.img") DEFAULT_BLOCKS sample_files
    (path_of (str "/rootfs")) IoNotFound); [reflexivity|vm_compute; reflexivity..|done|vm_compute; reflexivity].
Defined.
