(* ===== verification/Boot.v ===== *)
(** * Booting ([src/src/main.rs], [src/src/allocator.rs])

    The heap behind its lock, and the part of [_start] that builds the kernel's
    state: the heap, the trap frame and vector, the device tree, the page frame
    allocator, the page table and the first timer.  The theorem composes the
    components: on a machine whose device tree is sane, booting succeeds and
    establishes the invariants the components' own theorems start from.  The
    linker's labels and the addresses of the statics are arguments; the log,
    the console, the disk, the banner and the shell are in [Main]. *)
From S2P Require Import Prelude Bitmap Memory FreeList HeapSpec HeapInv HeapProps PhysRange FrameAlloc PageTable Riscv Trap.
From S2P Require Import Kernel DeviceTree.

(** ** The locked allocator *)
Definition HeapBounds_new (layout : KernelLayout) : HeapBounds := mkHeapBounds (heap_start layout) (heap_end layout).

Definition LockedAllocator_new (m : mem) : FreeListAllocator := FreeListAllocator_new m.
Definition LockedAllocator_init (h : FreeListAllocator) (layout : KernelLayout) : comp FreeListAllocator :=
  let bounds := HeapBounds_new layout in
  init h (hb_start bounds) (hb_end bounds).
Definition LockedAllocator_stats (fuel : nat) (h : FreeListAllocator) : comp MemoryStats := stats fuel h.

(** [GlobalAlloc]: the operations run with interrupts disabled. *)
Definition LockedAllocator_alloc (fuel : nat) (layout_size layout_align : Z) (st : Hart * FreeListAllocator)
    : comp (Z * (Hart * FreeListAllocator)) :=
  without_interrupts (fun '(hart, h) => '(p, h) ← alloc fuel h layout_size layout_align; Ret (p, (hart, h))) st.
Definition LockedAllocator_dealloc (fuel : nat) (ptr : Z) (st : Hart * FreeListAllocator)
    : comp (unit * (Hart * FreeListAllocator)) :=
  without_interrupts (fun '(hart, h) => h ← dealloc fuel h ptr; Ret (tt, (hart, h))) st.

Section Boot.
Context {P : Type} `{IndexPoolLaws P}.
Context {Fdt FdtNode Cpu' : Type} `{Types : FdtCrateTypes Fdt FdtNode Cpu'}.
Context (read_volatile : Z -> Z).
(** The addresses of [KERNEL_PAGE_TABLE], [INITIAL_TRAP_FRAME] and [trap_handler]. *)
Context (root frame_addr trap_handler_addr : Z).

Record Booted := mkBooted {
  bt_heap : FreeListAllocator;
  bt_mem : gmap Z Z;
  bt_cpu : Cpu;
  bt_hart : Hart;
  bt_sysinfo : option SystemInfo;
  bt_frames : option (list (FrameArena P));
}.

(** From the trap frame to the first timer, the heap being there already. *)
Definition build_kernel (layout : KernelLayout) (fdt_addr : Z) (heap : FreeListAllocator) (m : gmap Z Z) (cpu : Cpu) (hart : Hart)
    : comp Booted :=
  '(m, cpu) ← setup_trap_frame layout frame_addr m cpu;
  let hart := setup_trap_handler trap_handler_addr hart in
  '(r, sysinfo) ← device_tree_init read_volatile None fdt_addr;
  _ ← match r with Ok _ => Ret tt | Err _ => Panic end;
  let hart := interrupts_init hart in
  regions ← reserved_memory_regions sysinfo;
  fdt ← fdt_range sysinfo;
  memory ← memory_regions sysinfo;
  frames ← pfa_init None regions memory fdt layout;
  mmio ← system_mmio_regions sysinfo;
  '(m, frames, hart) ← page_table_init root layout fdt mmio m frames hart;
  freq ← timer_frequency sysinfo;
  hart ← new_time freq hart 1;
  Ret (mkBooted heap m cpu hart sysinfo frames).

Definition start (layout : KernelLayout) (fdt_addr : Z) (heap_mem : mem) (m : gmap Z Z) (cpu : Cpu) (hart : Hart)
    : comp Booted :=
  heap ← LockedAllocator_init (LockedAllocator_new heap_mem) layout;
  build_kernel layout fdt_addr heap m cpu hart.

(** ** No page is mapped twice *)
Definition page_number (v : Z) : Z := (v / 4096) mod 2 ^ 27.

Lemma distinct_nodup (l : list (Z * Z * Z)) :
  NoDup (map (fun '(v, _, _) => page_number v) l) -> distinct_pages l.
Proof.
  induction l as [|[[v p] f] l IH]; [done|]. cbn [map distinct_pages]. intros [Hni Hnd]%NoDup_cons. split; [|by apply IH].
  apply Forall_forall. intros [[w q] g] Hw. unfold same_page. apply Z.eqb_neq. intros E. apply Hni.
  apply list_elem_of_fmap. by exists (w, q, g).
Qed.

Lemma NoDup_flat_map {A B} (f : A -> list B) l :
  (forall x, x ∈ l -> NoDup (f x)) -> (forall x y b, x ∈ l -> y ∈ l -> b ∈ f x -> b ∈ f y -> x = y) -> NoDup l ->
  NoDup (flat_map f l).
Proof.
  induction l as [|x l IH]; intros Hf Hd Hl; [constructor|]. apply NoDup_cons in Hl as [Hx Hl]. cbn [flat_map].
  apply NoDup_app. split_and!; [by apply Hf; left| |].
  - intros b Hb Hb'. apply list_elem_of_In, in_flat_map in Hb' as (y & Hy & Hby). apply list_elem_of_In in Hy, Hby.
    assert (x = y) by (eapply Hd; [by left|by right|exact Hb|exact Hby]). by subst.
  - apply IH; [|intros y z b Hy Hz; apply Hd; by right|done]. intros y Hy. apply Hf. by right.
Qed.

(** The pages a part of the address space is mapped at. *)
Definition part (vs : list Z) (f : Z -> Z * Z) : list (Z * Z * Z) := map (fun v => (v, fst (f v), snd (f v))) vs.

Lemma step_pages_nodup s e : NoDup (step_pages s e).
Proof. unfold step_pages, PAGE_SIZE. apply NoDup_fmap_2; [intros x y; lia|]. apply NoDup_seqZ. Qed.

Lemma page_number_low v : 0 <= v < 2 ^ 39 -> page_number v = v / 4096.
Proof. intros Hv. unfold page_number. apply Z.mod_small. Z.div_mod_to_equations. lia. Qed.

Lemma page_number_upper v : 0 <= v < 2 ^ 32 -> page_number (upper_half_offset + v) = 2 ^ 27 - 2 ^ 20 + v / 4096.
Proof.
  intros Hv. unfold page_number, upper_half_offset.
  replace ((0xFFFFFFFF00000000 + v) / 4096) with (2 ^ 27 - 2 ^ 20 + v / 4096 + (2 ^ 25 - 1) * 2 ^ 27)
    by (Z.div_mod_to_equations; lia).
  rewrite Z_mod_plus_full. apply Z.mod_small. Z.div_mod_to_equations. lia.
Qed.

Lemma low_pages_nodup (l : list Z) :
  NoDup l -> (forall p, p ∈ l -> 0 <= p < 2 ^ 39 /\ p mod 4096 = 0) -> NoDup (map page_number l).
Proof.
  intros Hl Hp. induction l as [|p l IH]; [constructor|]. apply NoDup_cons in Hl as [Hn Hl]. cbn [map]. apply NoDup_cons.
  split; [|apply IH; [done|]; intros q Hq; apply Hp; by right].
  intros (q & E & Hq)%list_elem_of_fmap. destruct (Hp p ltac:(by left)) as [Hp1 Hp2]. destruct (Hp q ltac:(by right)) as [Hq1 Hq2].
  rewrite !page_number_low in E by done. assert (p = q) by (Z.div_mod_to_equations; lia). by subst.
Qed.

Lemma step_pages_aligned s e p : s mod 4096 = 0 -> p ∈ step_pages s e -> p mod 4096 = 0.
Proof.
  intros Hs (i & -> & _)%list_elem_of_fmap. unfold PAGE_SIZE. rewrite Z.mul_comm, Z_mod_plus_full. done.
Qed.

Definition pages_of (l : list PhysRange) : list Z := flat_map (fun r => step_pages (pr_start r) (pr_end r)) l.

Lemma pages_of_in l p : p ∈ pages_of l -> exists r, r ∈ l /\ p ∈ step_pages (pr_start r) (pr_end r).
Proof. intros (r & Hr & Hp)%list_elem_of_In%in_flat_map. exists r. by rewrite !list_elem_of_In. Qed.

(** Ranges of whole pages that are disjoint. *)
Record disjoint_pages (l : list PhysRange) : Prop := {
  dp_aligned : Forall page_range l;
  dp_nodup : NoDup l;
  dp_disjoint r s z : r ∈ l -> s ∈ l -> has r z -> has s z -> r = s;
}.

Lemma pages_of_nodup l : disjoint_pages l -> NoDup (pages_of l).
Proof.
  intros [Ha Hn Hd]. apply NoDup_flat_map; [intros; apply step_pages_nodup| |done].
  intros r s p Hr Hs Hp Hq. apply step_pages_in in Hp, Hq. by apply (Hd r s p).
Qed.

Lemma pages_of_aligned l p : Forall page_range l -> p ∈ pages_of l -> p mod 4096 = 0 /\ in_ranges l p.
Proof.
  intros Ha (r & Hr & Hp)%pages_of_in. rewrite Forall_forall in Ha. destruct (Ha r Hr) as [Hs _]. split; [by eapply step_pages_aligned|].
  exists r. split; [done|]. by apply step_pages_in in Hp.
Qed.

Lemma interleave_perm {A} (f g : Z -> A) l : flat_map (fun p => [f p; g p]) l ≡ₚ map f l ++ map g l.
Proof. induction l as [|p l IH]; [done|]. cbn [flat_map map app]. rewrite IH. solve_Permutation. Qed.

Definition fdt_pages (fdt : PhysRange) : PhysRange := mkPhysRange (pr_start fdt / 4096 * 4096) ((pr_end fdt + 4095) / 4096 * 4096).

Lemma virts_id (rs : list PhysRange) flags :
  map (fun '(v, _, _) => page_number v) (flat_map (id_mappings flags) rs) = map page_number (pages_of rs).
Proof.
  induction rs as [|r rs IH]; [done|]. unfold pages_of in *. cbn [flat_map]. rewrite !map_app, IH. f_equal.
  unfold id_mappings. by rewrite map_map.
Qed.

Lemma virts_kernel (ks : list Z) :
  map (fun '(v, _, _) => page_number v) (flat_map (fun p => [(p, p, RWX); (upper_half_offset + p, p, RWX)]) ks) =
  flat_map (fun p => [page_number p; page_number (upper_half_offset + p)]) ks.
Proof. induction ks as [|k ks IH]; [done|]. cbn [flat_map]. by rewrite map_app, IH. Qed.

(** The kernel below 4 GiB at a page boundary, and four kinds of pages that
    have nothing in common. *)
Lemma kernel_mappings_distinct layout ranges fdt mmio :
  0 <= kernel_start layout -> kernel_start layout mod 4096 = 0 -> kernel_end layout <= 2 ^ 32 ->
  let kernel := step_pages (kernel_start layout) (kernel_end layout) in
  let all := kernel ++ pages_of ranges ++ pages_of [fdt_pages fdt] ++ pages_of mmio in
  NoDup all -> (forall p, p ∈ all -> 0 <= p < 2 ^ 38 /\ p mod 4096 = 0) ->
  distinct_pages (kernel_mappings layout ranges fdt mmio).
Proof.
  intros Hs Ha He kernel all Hnd Hlow. apply distinct_nodup. unfold kernel_mappings.
  change (id_mappings READ _) with (id_mappings READ (fdt_pages fdt)).
  replace (id_mappings READ (fdt_pages fdt)) with (flat_map (id_mappings READ) [fdt_pages fdt]) by apply app_nil_r.
  rewrite !map_app, virts_kernel, !virts_id. fold kernel. rewrite interleave_perm.
  assert (Hk : forall k, k ∈ kernel -> 0 <= k < 2 ^ 32).
  { intros k Hk%step_pages_in. lia. }
  assert (Hlow' : NoDup (map page_number all)) by (apply low_pages_nodup; [done|]; intros p Hp; destruct (Hlow p Hp); lia).
  assert (Hb : forall x, x ∈ map page_number all -> x < 2 ^ 26).
  { intros x (p & -> & Hp)%list_elem_of_fmap. destruct (Hlow p Hp). rewrite page_number_low by lia. Z.div_mod_to_equations. lia. }
  unfold all in Hlow', Hb. rewrite !map_app in Hlow', Hb.
  set (up := map (fun p => page_number (upper_half_offset + p)) kernel).
  set (rest := map page_number (pages_of ranges) ++ _) in *.
  assert (Hperm : (map page_number kernel ++ up) ++ rest ≡ₚ up ++ map page_number kernel ++ rest) by solve_Permutation.
  rewrite Hperm.
  apply NoDup_app. split_and!; [| |done].
  - unfold up. apply NoDup_fmap_2_strong; [|apply step_pages_nodup]. intros x y Hx Hy E.
    pose proof (Hlow x ltac:(apply elem_of_app; by left)) as [_ Hx4]. pose proof (Hlow y ltac:(apply elem_of_app; by left)) as [_ Hy4].
    rewrite !page_number_upper in E by auto. Z.div_mod_to_equations. lia.
  - intros x (k & -> & Hkk)%list_elem_of_fmap Hx. apply Hb in Hx. rewrite page_number_upper in Hx by auto.
    specialize (Hk k Hkk). Z.div_mod_to_equations. lia.
Qed.

(** ** Disjoint ranges *)
Lemma chain_disjoint lo l hi : chain lo l hi -> forall r s z, r ∈ l -> s ∈ l -> has r z -> has s z -> r = s.
Proof.
  revert lo. induction l as [|x l IH]; intros lo; [intros _ r s z Hr; by apply not_elem_of_nil in Hr|].
  intros (G1 & G2 & G3) r s z [->|Hr]%elem_of_cons [->|Hs]%elem_of_cons Hz1 Hz2; [done|..|by apply (IH _ G3 r s z)].
  - destruct (chain_in _ _ _ _ G3 Hs) as (? & _). unfold has in *. lia.
  - destruct (chain_in _ _ _ _ G3 Hr) as (? & _). unfold has in *. lia.
Qed.

Lemma chain_nodup lo l hi : chain lo l hi -> NoDup l.
Proof.
  revert lo. induction l as [|x l IH]; intros lo; [constructor|]. intros (G1 & G2 & G3). apply NoDup_cons. split; [|by eapply IH].
  intros Hx. destruct (chain_in _ _ _ _ G3 Hx). lia.
Qed.

Lemma separated_is_chain lo l hi :
  separated lo l -> Forall range_wf l -> (forall r, r ∈ l -> pr_end r <= hi) -> lo <= hi -> chain lo l hi.
Proof.
  revert lo. induction l as [|r l IH]; intros lo; [done|]. intros [G1 G2] [[] Hw]%Forall_cons Hh _. cbn [chain].
  split; [lia|]. split; [done|]. apply IH; [done..| |apply Hh; by left]. intros s Hs. apply Hh. by right.
Qed.

Lemma separated_after lo l r z : separated lo l -> Forall range_wf l -> r ∈ l -> has r z -> lo < z.
Proof.
  revert lo. induction l as [|s l IH]; intros lo; [intros _ _ Hr; by apply not_elem_of_nil in Hr|].
  intros [G1 G2] [[] Hw]%Forall_cons [->|Hr]%elem_of_cons Hz; [unfold has in Hz; lia|].
  pose proof (IH _ G2 Hw Hr Hz). lia.
Qed.

(** No address touches a range from outside: the gaps are real. *)
Lemma separated_gap lo l r : separated lo l -> Forall range_wf l -> r ∈ l ->
  ~ in_ranges l (pr_start r - 1) /\ ~ in_ranges l (pr_end r).
Proof.
  revert lo. induction l as [|s l IH]; intros lo; [intros _ _ Hr; by apply not_elem_of_nil in Hr|].
  intros [G1 G2] [[Hw1 Hw2 Hw3] Hw]%Forall_cons [->|Hr]%elem_of_cons.
  - split; intros (x & [->|Hx]%elem_of_cons & Hz); try (unfold has in Hz; lia);
      pose proof (separated_after _ _ _ _ G2 Hw Hx Hz); lia.
  - destruct (IH _ G2 Hw Hr) as [Ha Hb]. rewrite Forall_forall in Hw. destruct (Hw _ Hr) as [? ? ?].
    assert (Hin : has r (pr_start r)) by (unfold has; lia).
    pose proof (separated_after _ _ _ _ G2 ltac:(by apply Forall_forall) Hr Hin).
    split; intros (x & [->|Hx]%elem_of_cons & Hz); try (unfold has in Hz; lia).
    + apply Ha. by exists x.
    + apply Hb. by exists x.
Qed.

(** Canonical ranges of a set of whole pages are ranges of whole pages. *)
Lemma canonical_pages l (Q : Z -> Prop) :
  canonical l Q -> (forall y z, Q y -> y / 4096 = z / 4096 -> Q z) -> disjoint_pages l.
Proof.
  intros (Hs & Hw & Hz) HQ.
  assert (Hin : forall r, r ∈ l -> Q (pr_start r) /\ Q (pr_end r - 1)).
  { intros r Hr. rewrite Forall_forall in Hw. destruct (Hw r Hr). split; apply Hz; exists r; unfold has; split; [done|lia|done|lia]. }
  assert (Hc : exists hi, chain (-1) l hi).
  { exists (2 ^ 64). apply separated_is_chain; [done|done| |lia]. intros r Hr. rewrite Forall_forall in Hw. destruct (Hw r Hr). lia. }
  destruct Hc as [hi Hc]. constructor; [|by eapply chain_nodup|by eapply chain_disjoint].
  apply Forall_forall. intros r Hr. destruct (separated_gap _ _ _ Hs Hw Hr) as [Ha Hb]. destruct (Hin r Hr) as [Q1 Q2].
  split.
  - destruct (Z.eq_dec (pr_start r mod 4096) 0) as [|Hne]; [done|]. exfalso. apply Ha, Hz.
    apply (HQ (pr_start r)); [done|]. Z.div_mod_to_equations. lia.
  - destruct (Z.eq_dec (pr_end r mod 4096) 0) as [|Hne]; [done|]. exfalso. apply Hb, Hz.
    apply (HQ (pr_end r - 1)); [done|]. Z.div_mod_to_equations. lia.
Qed.

(** ** A machine that can boot *)
Record machine_ok (layout : KernelLayout) (heap_mem : mem) (m : gmap Z Z) : Prop := {
  mk_heap : heap_bounds (heap_start layout) (heap_end layout);
  mk_heap_mem : mapped heap_mem (heap_base (heap_start layout)) (heap_hi (heap_start layout) (heap_end layout));
  mk_kernel : 0 <= kernel_start layout < kernel_end layout /\ kernel_end layout <= 2 ^ 32 /\ kernel_start layout mod 4096 = 0;
  mk_root : root mod 4096 = 0 /\ kernel_start layout <= root < kernel_end layout;
  mk_root_zero i : 0 <= i < 512 -> m !! (root + 8 * i) = Some 0;
  mk_frame : is_Some (m !! frame_addr) /\ ~ (root <= frame_addr < root + 4096);
}.

(** The kernel and the tree lie in RAM, in different pages; the devices do not;
    and RAM is there. *)
Record tree_ok (layout : KernelLayout) (m : gmap Z Z) (fdt : Fdt) (info : SystemInfo) : Prop := {
  tk_ram z : ram fdt z -> 0 <= z < 2 ^ 38;
  tk_devices z : device_page fdt z -> 0 <= z < 2 ^ 38 /\ ~ ram fdt z;
  tk_kernel z : kernel_start layout <= z < kernel_end layout -> ram fdt z;
  tk_fdt z : has (si_fdt_range info) z -> ram fdt z /\ forall k, kernel_start layout <= k < kernel_end layout -> k / 4096 <> z / 4096;
  tk_mapped f i : f mod 4096 = 0 -> (forall z, f <= z < f + 4096 -> ram fdt z) -> 0 <= i < 512 -> is_Some (m !! (f + 8 * i));
  tk_freq : is_usize (si_timer_frequency info);
}.

Lemma fdt_pages_in fdt q : range_wf fdt -> q ∈ pages_of [fdt_pages fdt] -> q mod 4096 = 0 /\ exists y, has fdt y /\ y / 4096 = q / 4096.
Proof.
  intros [G1 G2 G3] Hq. assert (Ha : page_range (fdt_pages fdt)) by (split; apply Z_mod_mult).
  destruct (pages_of_aligned [fdt_pages fdt] q ltac:(by constructor) Hq) as (Hq0 & r & Hr & Hz).
  apply list_elem_of_singleton in Hr as ->. split; [done|]. unfold fdt_pages, has in Hz. simpl in Hz.
  exists (Z.max q (pr_start fdt)). unfold has. Z.div_mod_to_equations. lia.
Qed.

Lemma pfa_ranges_pages (arenas : list (FrameArena P)) : pfa_ok 0 arenas -> disjoint_pages (pfa_ranges arenas).
Proof.
  intros [Ha Hc]. constructor; [|by eapply chain_nodup|by eapply chain_disjoint].
  unfold pfa_ranges. apply Forall_forall. intros r (a & -> & Hr)%list_elem_of_fmap.
  rewrite Forall_forall in Ha. apply (Ha a Hr).
Qed.

Lemma device_page_closed fdt y z : device_page fdt y -> y / 4096 = z / 4096 -> device_page fdt z.
Proof. intros (n & G1 & G2 & x & G3 & G4) E. exists n. split_and!; try done. exists x. split; [done|lia]. Qed.

(** The pages of the four parts are distinct. *)
Lemma boot_pages layout m fdt_addr fdt info (arenas : list (FrameArena P)) heap_mem :
  machine_ok layout heap_mem m -> tree_ok layout m fdt info -> describes read_volatile fdt_addr fdt info -> pfa_ok 0 arenas ->
  (forall p, p mod 4096 = 0 -> managed (pfa_ranges arenas) p <->
     page_free (si_reserved_memory_regions info) (si_memory_regions info) (si_fdt_range info) layout p) ->
  paging_ok layout (pfa_ranges arenas) (si_fdt_range info) (si_mmio_regions info).
Proof.
  intros [_ _ (Hk & Hke & Hka) _ _ _] [Tram Tdev Tker Tfdt _ _] [(_ & _ & Dm) _ Dd [Dw _] _ _] Ho Hman.
  pose proof (canonical_pages _ _ Dd (device_page_closed fdt)) as Hmmio. pose proof (pfa_ranges_pages _ Ho) as Hpfa.
  set (ks := kernel_start layout) in *. set (ke := kernel_end layout) in *. set (fr := si_fdt_range info) in *.
  assert (Hend : pr_end fr <= 2 ^ 38).
  { destruct Dw. destruct (Tfdt (pr_end fr - 1)) as [Hr _]; [unfold has; lia|]. apply Tram in Hr. lia. }
  assert (InK : forall p, p ∈ step_pages ks ke -> p mod 4096 = 0 /\ ks <= p < ke /\ ram fdt p).
  { intros p Hp. split; [by eapply step_pages_aligned|]. apply step_pages_in in Hp. split; [done|by apply Tker]. }
  assert (InM : forall p, p ∈ pages_of (pfa_ranges arenas) -> p mod 4096 = 0 /\ forall z, z / 4096 = p / 4096 ->
    ram fdt z /\ ~ has fr z /\ ~ (ks <= z < ke)).
  { intros p Hp. destruct (pages_of_aligned _ p (dp_aligned _ Hpfa) Hp) as (Hp0 & r & Hr & Hz). split; [done|].
    assert (Hpf : managed (pfa_ranges arenas) p).
    { split; [done|]. exists r. split; [done|]. apply page_in_range; [|done|done].
      pose proof (dp_aligned _ Hpfa) as Ha. rewrite Forall_forall in Ha. by apply Ha. }
    apply Hman in Hpf; [|done]. intros z Ez. destruct (Hpf z) as (Gm & _ & Gf & Gk); [Z.div_mod_to_equations; lia|].
    split_and!; [by apply Dm|done|done]. }
  assert (InD : forall p, p ∈ pages_of (si_mmio_regions info) -> p mod 4096 = 0 /\ device_page fdt p).
  { intros p Hp. destruct (pages_of_aligned _ p (dp_aligned _ Hmmio) Hp) as [Hp0 Hin]. split; [done|]. by apply Dd. }
  assert (InF := fun q => fdt_pages_in fr q Dw).
  constructor; [fold ks ke; lia|fold fr; split; [done|lia]|apply Dd|].
  apply kernel_mappings_distinct; fold ks ke; try lia; fold fr.
  - apply NoDup_app. split_and!; [apply step_pages_nodup| |apply NoDup_app; split_and!].
    + intros p (Hp0 & Hpk & Hpr)%InK. rewrite !elem_of_app. intros [Hm|[Hf|Hd]].
      * destruct (InM p Hm) as [_ Hz]. destruct (Hz p eq_refl) as (_ & _ & Hn). done.
      * destruct (InF p Hf) as (_ & y & Hy & Ey). destruct (Tfdt y Hy) as [_ Hne]. by apply (Hne p).
      * destruct (InD p Hd) as [_ Hdp]. by apply Tdev in Hdp as [_ ?].
    + by apply pages_of_nodup.
    + intros p (Hp0 & Hz)%InM. rewrite elem_of_app. intros [Hf|Hd].
      * destruct (InF p Hf) as (_ & y & Hy & Ey). by destruct (Hz y Ey) as (_ & ? & _).
      * destruct (InD p Hd) as [_ Hdp]. destruct (Hz p eq_refl) as (Hr & _). by apply Tdev in Hdp as [_ ?].
    + apply NoDup_app. split_and!; [| |by apply pages_of_nodup].
      * unfold pages_of. cbn [flat_map]. rewrite app_nil_r. apply step_pages_nodup.
      * intros p (_ & y & Hy & Ey)%InF (_ & Hdp)%InD. destruct (Tfdt y Hy) as [Hr _].
        by destruct (Tdev y (device_page_closed fdt p y Hdp (eq_sym Ey))) as [_ ?].
  - intros p. rewrite !elem_of_app. intros [(Hp0 & _ & Hr)%InK|[(Hp0 & Hz)%InM|[(Hp0 & y & Hy & Ey)%InF|(Hp0 & Hd)%InD]]]; (split; [|done]).
    + by apply Tram.
    + destruct (Hz p eq_refl) as (Hr & _). by apply Tram.
    + destruct (Tfdt y Hy) as [Hr _]. apply Tram in Hr. Z.div_mod_to_equations. lia.
    + by apply Tdev.
Qed.

Lemma page_table_init_hart layout fdt mmio m g hart m' g' hart' :
  page_table_init root layout fdt mmio m g hart = Ret (m', g', hart') ->
  hart' = write_satp_and_flush_tlb hart (Satp_new Sv39 KERNEL_ASID root).
Proof. unfold page_table_init. intros E. by inv_comp. Qed.

Lemma heap_starts layout heap_mem m :
  machine_ok layout heap_mem m ->
  exists heap, LockedAllocator_init (LockedAllocator_new heap_mem) layout = Ret heap /\
    heap_inv (heap_base (heap_start layout)) (heap_hi (heap_start layout) (heap_end layout)) heap
      [(heap_base (heap_start layout), heap_end layout - heap_start layout - 24)] [].
Proof. intros Hm. exact (init_run heap_mem _ _ (mk_heap _ _ _ Hm) (mk_heap_mem _ _ _ Hm)). Qed.

Lemma build_kernel_run layout fdt_addr heap heap_mem m cpu hart info fdt :
  is_usize fdt_addr -> SystemInfo_new read_volatile fdt_addr = Ret (Ok info) -> from_ptr fdt_addr = Some fdt ->
  machine_ok layout heap_mem m -> tree_ok layout m fdt info ->
  (forall arenas, PageFrameAllocator_new (P := P) (si_reserved_memory_regions info) (si_memory_regions info) (si_fdt_range info)
       layout = Ret arenas ->
     avail (Some arenas) (size (all_paths (kernel_mappings layout (pfa_ranges arenas) (si_fdt_range info) (si_mmio_regions info))))) ->
  exists b ranges, build_kernel layout fdt_addr heap m cpu hart = Ret b /\ bt_heap b = heap /\
    pt_ok root (bt_mem b) (bt_frames b) /\ has_ranges ranges (bt_frames b) /\
    (forall p, p mod 4096 = 0 -> managed ranges p <->
       page_free (si_reserved_memory_regions info) (si_memory_regions info) (si_fdt_range info) layout p) /\
    (forall v, sv39 (bt_mem b) root v =
       mapped_to (kernel_mappings layout ranges (si_fdt_range info) (si_mmio_regions info)) v) /\
    bt_sysinfo b = Some info /\ c_sscratch (bt_cpu b) = frame_addr /\ sie_on (bt_hart b) = true /\
    h_stvec (bt_hart b) = Stvec_new trap_handler_addr /\ h_satp (bt_hart b) = Satp_new Sv39 KERNEL_ASID root /\
    h_deadline (bt_hart b) = (h_time hart + si_timer_frequency info) mod 2 ^ 64.
Proof.
  intros Ha Hsys Hptr Hm Ht Hav.
  destruct (system_info_run read_volatile fdt_addr info Ha Hsys) as (fdt' & Hptr' & Hd).
  rewrite Hptr in Hptr'. injection Hptr' as <-.
  destruct (mk_frame _ _ _ Hm) as [[w Hw] Hfr]. destruct (mk_kernel _ _ _ Hm) as (Hk1 & Hk2 & Hk3). destruct (mk_root _ _ _ Hm) as [Hr1 Hr2].
  set (m1 := <[frame_addr := trap_stack_top layout]> m).
  destruct (pfa_new_run (P := P) (si_reserved_memory_regions info) (si_memory_regions info) (si_fdt_range info) layout)
    as (arenas & Ea & Ho & Hfree & Hman).
  { destruct Hd as [(_ & G1 & _) (_ & G2 & _) _ [G3 _] _ _]. constructor; try done. constructor; simpl; lia. }
  destruct (page_table_init_run root layout (si_fdt_range info) (si_mmio_regions info) m1 arenas
    (interrupts_init (setup_trap_handler trap_handler_addr hart)) Ho Hr1 ltac:(lia)) as (m2 & g2 & hart2 & Ep & Hpt & Hran & _ & Htr & _).
  - intros i Hi. unfold m1. rewrite lookup_insert_ne by lia. by apply (mk_root_zero _ _ _ Hm).
  - intros f Hf _. destruct Hf as [Hf0 Hf]. assert (Hpf : managed (pfa_ranges arenas) f) by done.
    apply Hman in Hpf; [|done]. split.
    + intros ->. destruct (Hpf root) as (_ & _ & _ & Hn); [lia|]. by apply Hn.
    + intros i Hi. assert (Hmm : is_Some (m !! (f + 8 * i))).
      { apply (tk_mapped _ _ _ _ Ht); [done| |done]. intros z Hz. destruct (Hpf z Hz) as (Gz & _).
        destruct (ds_memory _ _ _ _ Hd) as (_ & _ & Dm). by apply Dm. }
      unfold m1. destruct (decide (frame_addr = f + 8 * i)) as [->|]; [rewrite lookup_insert_eq; by eexists|by rewrite lookup_insert_ne].
  - eapply boot_pages; [exact Hm|exact Ht|exact Hd|exact Ho|exact Hman].
  - by apply Hav.
  - pose proof (page_table_init_hart _ _ _ _ _ _ _ _ _ Ep) as Ehart.
    eexists (mkBooted heap m2 _ _ (Some info) g2), (pfa_ranges arenas). split.
    { unfold build_kernel, setup_trap_frame, store, load. rewrite Hw. cbn [unwrap mbind comp_bind].
      unfold device_tree_init. rewrite Hsys.
      cbn [unwrap mbind comp_bind reserved_memory_regions fdt_range memory_regions system_mmio_regions timer_frequency system_info pfa_init].
      rewrite Ea. cbn [mbind comp_bind]. fold m1. rewrite Ep. cbn [mbind comp_bind]. unfold new_time.
      destruct (tk_freq _ _ _ _ Ht). rewrite mul_ovf_ok by (unfold max_of; lia). cbn [mbind comp_bind]. reflexivity. }
    cbn [bt_heap bt_mem bt_frames bt_sysinfo bt_cpu bt_hart]. split_and!; try done.
    + rewrite Ehart. change (Z.testbit (Z.lor (h_sstatus hart) 2) 1 = true). rewrite Z.lor_spec. apply orb_true_r.
    + by rewrite Ehart.
    + by rewrite Ehart.
    + rewrite Ehart. cbn. by rewrite Z.mul_1_r.
Qed.

(** C5: Booting.  On a machine whose device tree describes it sanely, with a
    frame for every page table, [_start] gets through: the heap starts out
    as one free block, the frame allocator manages exactly the free pages of
    RAM, the page table translates exactly what it is meant to, interrupts are
    enabled and the first timer is set. *)
Theorem boot_builds_kernel layout fdt_addr heap_mem m cpu hart info fdt :
  is_usize fdt_addr -> SystemInfo_new read_volatile fdt_addr = Ret (Ok info) -> from_ptr fdt_addr = Some fdt ->
  machine_ok layout heap_mem m -> tree_ok layout m fdt info ->
  (forall arenas, PageFrameAllocator_new (P := P) (si_reserved_memory_regions info) (si_memory_regions info) (si_fdt_range info)
       layout = Ret arenas ->
     avail (Some arenas) (size (all_paths (kernel_mappings layout (pfa_ranges arenas) (si_fdt_range info) (si_mmio_regions info))))) ->
  exists b ranges, start layout fdt_addr heap_mem m cpu hart = Ret b /\
    heap_inv (heap_base (heap_start layout)) (heap_hi (heap_start layout) (heap_end layout)) (bt_heap b)
      [(heap_base (heap_start layout), heap_end layout - heap_start layout - 24)] [] /\
    pt_ok root (bt_mem b) (bt_frames b) /\ has_ranges ranges (bt_frames b) /\
    (forall p, p mod 4096 = 0 -> managed ranges p <->
       page_free (si_reserved_memory_regions info) (si_memory_regions info) (si_fdt_range info) layout p) /\
    (forall v, sv39 (bt_mem b) root v =
       mapped_to (kernel_mappings layout ranges (si_fdt_range info) (si_mmio_regions info)) v) /\
    bt_sysinfo b = Some info /\ c_sscratch (bt_cpu b) = frame_addr /\ sie_on (bt_hart b) = true /\
    h_stvec (bt_hart b) = Stvec_new trap_handler_addr /\ h_satp (bt_hart b) = Satp_new Sv39 KERNEL_ASID root /\
    h_deadline (bt_hart b) = (h_time hart + si_timer_frequency info) mod 2 ^ 64.
Proof.
  intros Ha Hsys Hptr Hm Ht Hav.
  destruct (heap_starts _ _ _ Hm) as (heap & Eh & Hinv).
  destruct (build_kernel_run layout fdt_addr heap heap_mem m cpu hart info fdt Ha Hsys Hptr Hm Ht Hav) as (b & ranges & E & Eb & Hrest).
  exists b, ranges. unfold start. rewrite Eh. cbn [mbind comp_bind]. split; [exact E|]. rewrite Eb. by split.
Qed.
End Boot.

(** ** Witness: 64 KiB of RAM, the kernel in its first four pages *)
Section Witness.
Definition boot_tree : SampleFdt := mkFdt [
  mkNode [mkProperty (str "device_type") (str "memory")] None (Some [mkRegion 0x80000000 (Some 0x10000)]);
  mkNode [] (Some [str "ns16550a"]) (Some [mkRegion 0x10000000 (Some 0x100)]);
  mkNode [] (Some [str "virtio,mmio"]) (Some [mkRegion 0x10008000 (Some 0x1000)])] [].

#[local] Instance boot_crate : FdtCrate SampleFdt SampleNode unit := sample_crate 0x8000F000 0x800 boot_tree.
#[local] Instance boot_crate_types : FdtCrateTypes boot_crate := sample_crate_types _ _ _.

Definition boot_info : SystemInfo :=
  mkSystemInfo 10000000 1 (str "rv64imafdch") [mkPhysRange 0x80000000 0x80010000] []
    [mkPhysRange 0x10000000 0x10001000; mkPhysRange 0x10008000 0x10009000] (mkPhysRange 0x8000F000 0x8000F800) 0x10000 0x10008000.
Definition boot_layout : KernelLayout := mkKernelLayout 0x80000000 0x80004000 0x80001000 0x80001400 0x80002f00.

Lemma boot_info_runs : SystemInfo_new sample_device 0x8000F000 = Ret (Ok boot_info).
Proof. vm_compute. reflexivity. Qed.

Lemma boot_describes : describes sample_device 0x8000F000 boot_tree boot_info.
Proof.
  destruct (system_info_run sample_device 0x8000F000 boot_info ltac:(by vm_compute) boot_info_runs) as (fdt & E & Hd).
  by injection E as <-.
Qed.

Lemma boot_ram z : ram boot_tree z <-> 0x80000000 <= z < 0x80010000.
Proof.
  destruct (ds_memory _ _ _ _ boot_describes) as (_ & _ & E). rewrite <- E. unfold in_ranges, has. simpl.
  setoid_rewrite list_elem_of_singleton. split; [by intros (r & -> & ?)|]. intros Hz. by eexists.
Qed.

Lemma boot_devices z : device_page boot_tree z -> 0x10000000 <= z < 0x10009000.
Proof.
  destruct (ds_mmio _ _ _ _ boot_describes) as (_ & _ & E). rewrite <- E. intros (r & Hr & Hz). unfold has in Hz.
  simpl in Hr. repeat (apply elem_of_cons in Hr as [->|Hr]; [simpl in Hz; lia|]). by apply not_elem_of_nil in Hr.
Qed.

Lemma boot_tree_ok : tree_ok boot_layout Kernel.ram boot_tree boot_info.
Proof.
  constructor.
  - intros z Hz%boot_ram. lia.
  - intros z Hz%boot_devices. rewrite boot_ram. lia.
  - intros z Hz. simpl in Hz. apply boot_ram. lia.
  - intros z Hz. unfold has in Hz. simpl in Hz |- *. split; [apply boot_ram; lia|]. intros k Hk. Z.div_mod_to_equations. lia.
  - intros f i Hf Hz Hi. assert (R1 : ram boot_tree f) by (apply Hz; lia). assert (R2 : ram boot_tree (f + 4095)) by (apply Hz; lia).
    apply boot_ram in R1, R2. rewrite ram_lookup; [by eexists|Z.div_mod_to_equations; lia|lia].
  - by vm_compute.
Qed.

Definition boot_heap : mem := zero_mem 128 0x80001000.

Lemma boot_machine_ok : machine_ok 0x80003000 0x80002000 boot_layout boot_heap Kernel.ram.
Proof.
  constructor; cbn [boot_layout heap_start heap_end kernel_start kernel_end].
  - constructor; lia || reflexivity.
  - intros a Ha Hr. change (heap_base 0x80001000) with 0x80001000 in Hr. change (heap_hi _ _) with 0x800013E8 in Hr.
    unfold boot_heap. replace a with (0x80001000 + 8 * ((a - 0x80001000) / 8)) by (Z.div_mod_to_equations; lia).
    rewrite zero_mem_lookup by (Z.div_mod_to_equations; lia). by eexists.
  - split_and!; lia || reflexivity.
  - split_and!; lia || reflexivity.
  - intros i Hi. apply ram_lookup; [Z.div_mod_to_equations; lia|lia].
  - split; [|lia]. rewrite ram_lookup by (lia || reflexivity). by eexists.
Qed.

Lemma boot_frames_suffice arenas :
  PageFrameAllocator_new (P := Bitmap) (si_reserved_memory_regions boot_info) (si_memory_regions boot_info)
    (si_fdt_range boot_info) boot_layout = Ret arenas ->
  avail (Some arenas) (size (all_paths (kernel_mappings boot_layout (pfa_ranges arenas) (si_fdt_range boot_info) (si_mmio_regions boot_info)))).
Proof.
  intros E. vm_compute in E. injection E as <-. replace (size _) with 6%nat by (vm_compute; reflexivity).
  cbn [avail fs_alloc frames_source]. do 6 (eexists _, _; split; [vm_compute; reflexivity|]). exact I.
Qed.

Lemma boot_builds_kernel_witness :
  exists b ranges, start (P := Bitmap) sample_device 0x80003000 0x80002000 0x80000100 boot_layout 0x8000F000 boot_heap
      Kernel.ram trap_cpu sample_hart = Ret b /\
    (forall v, sv39 (bt_mem b) 0x80003000 v =
       mapped_to (kernel_mappings boot_layout ranges (si_fdt_range boot_info) (si_mmio_regions boot_info)) v) /\
    h_deadline (bt_hart b) = 10001000.
Proof.
  destruct (boot_builds_kernel (P := Bitmap) sample_device 0x80003000 0x80002000 0x80000100 boot_layout 0x8000F000 boot_heap
    Kernel.ram trap_cpu sample_hart boot_info boot_tree ltac:(by vm_compute) boot_info_runs eq_refl boot_machine_ok boot_tree_ok
    boot_frames_suffice) as (b & ranges & E & _ & _ & _ & _ & Ht & _ & _ & _ & _ & _ & Hd).
  exists b, ranges. split; [exact E|]. split; [exact Ht|exact Hd].
Defined.
End Witness.
