(* ===== verification/Dma.v ===== *)
(** * DMA buffers and device construction ([src/src/virtio2.rs])

    The callbacks through which the [virtio_drivers] crate gets memory from the
    kernel's heap: page-aligned zeroed buffers from [LockedAllocator] and their
    release, the identity translation of addresses, and the construction of the
    block device the device tree names.  The crate itself is a parameter. *)
From S2P Require Import Prelude Bitmap Memory FreeList HeapSpec HeapInv HeapFree HeapProps Riscv PhysRange DeviceTree ShellHeap ShellHeapProps Boot.

(** ** The callbacks of [Hal] *)

(** [virtio_drivers::PAGE_SIZE]. *)
Definition DMA_PAGE_SIZE : Z := 4096.

(** [Layout::from_size_align] for an alignment that is a power of two. *)
Definition Layout_from_size_align (size align : Z) : option (Z * Z) :=
  if isize_max - (align - 1) <? size then None else Some (size, align).

Abbreviation HeapState := (Hart * FreeListAllocator)%type (only parsing).

(** [GlobalAlloc::alloc_zeroed], which [LockedAllocator] does not override. *)
Definition alloc_zeroed (fuel : nat) (layout : Z * Z) (st : HeapState) : comp (Z * HeapState) :=
  '(ptr, (hart, h)) ← LockedAllocator_alloc fuel (fst layout) (snd layout) st;
  if negb (ptr =? 0) then
    m ← zero_bytes (fa_mem h) ptr (fst layout);
    Ret (ptr, (hart, with_mem h m))
  else Ret (ptr, (hart, h)).

Definition NonNull_new (addr : Z) : option Z := if addr =? 0 then None else Some addr.

Definition dma_alloc (fuel : nat) (pages : Z) (st : HeapState) : comp (Z * Z * HeapState) :=
  bytes ← DMA_PAGE_SIZE *! pages;
  layout ← unwrap (Layout_from_size_align bytes DMA_PAGE_SIZE);
  '(addr, st) ← alloc_zeroed fuel layout st;
  start ← unwrap (NonNull_new addr);
  Ret (addr, start, st).

Definition dma_dealloc (fuel : nat) (paddr vaddr pages : Z) (st : HeapState) : comp (Z * HeapState) :=
  bytes ← DMA_PAGE_SIZE *! pages;
  layout ← unwrap (Layout_from_size_align bytes DMA_PAGE_SIZE);
  '(_, st) ← LockedAllocator_dealloc fuel paddr st;
  Ret (0, st).

Definition mmio_phys_to_virt (paddr size : Z) : comp Z := unwrap (NonNull_new paddr).
Definition share (buffer : Z) : Z := buffer.
Definition unshare (paddr buffer : Z) : unit := tt.

(** ** The block device *)
Section Device.
Context {Transport B : Type} (MmioTransport_new : Z -> option Transport) (VirtIOBlk_new : Transport -> option B).

Definition LockedBlockDevice_new (sysinfo : option SystemInfo) : comp B :=
  block_device_addr ← block_device_addr sysinfo;
  header ← unwrap (NonNull_new block_device_addr);
  transport ← unwrap (MmioTransport_new header);
  unwrap (VirtIOBlk_new transport).
Definition make_device (sysinfo : option SystemInfo) : comp B := LockedBlockDevice_new sysinfo.
End Device.

(** ** Interrupts are as they were *)
Lemma csr_restore x : is_usize x ->
  (if negb (Z.land x 2 =? 0) then csr_set (csr_clear x 2) 2 else csr_clear x 2) = x.
Proof.
  intros Hx. rewrite sie_bit. destruct (csr_clear_bit x Hx) as [Hc _].
  destruct (Z.testbit x 1) eqn:E; apply Z.bits_inj'; intros i Hi; rewrite ?csr_set_bit by done;
    destruct (decide (i = 1)) as [->|Hn]; rewrite ?Hc, ?E; [done|..].
  - rewrite (proj2 (Z.eqb_neq _ _)) by done. cbn [orb]. by apply csr_clear_other.
  - done.
  - by apply csr_clear_other.
Qed.

(** A closure that does not look at the registers. *)
Lemma without_interrupts_frame {S R : Type} (f : Hart * S -> comp (R * (Hart * S))) (g : S -> comp (R * S)) hart s :
  is_usize (h_sstatus hart) -> (forall h0 s0, f (h0, s0) = ('(r, s1) ← g s0; Ret (r, (h0, s1)))) ->
  without_interrupts f (hart, s) = ('(r, s1) ← g s; Ret (r, (hart, s1))).
Proof.
  intros Hh Hf. unfold without_interrupts. rewrite Hf. destruct (g s) as [[r s1]| |]; [|done..]. cbn [mbind comp_bind].
  pose proof (csr_restore _ Hh) as E. destruct hart as [st sie stvec satp a b c]. cbn [h_sstatus with_sstatus] in *.
  unfold with_sstatus in *. cbn [h_sstatus h_sie h_stvec h_satp h_time h_deadline] in *.
  destruct (negb _); by rewrite E.
Qed.

Lemma locked_alloc_run fuel size align hart h :
  is_usize (h_sstatus hart) ->
  LockedAllocator_alloc fuel size align (hart, h) = ('(p, h1) ← alloc fuel h size align; Ret (p, (hart, h1))).
Proof. intros Hh. unfold LockedAllocator_alloc. by apply (without_interrupts_frame _ (fun h => alloc fuel h size align)). Qed.

Lemma locked_dealloc_run fuel ptr hart h :
  is_usize (h_sstatus hart) ->
  LockedAllocator_dealloc fuel ptr (hart, h) = (h1 ← dealloc fuel h ptr; Ret (tt, (hart, h1))).
Proof.
  intros Hh. unfold LockedAllocator_dealloc.
  rewrite (without_interrupts_frame _ (fun h => h1 ← dealloc fuel h ptr; Ret (tt, h1))); [|done|].
  - by destruct (dealloc fuel h ptr).
  - intros h0 s0. by destruct (dealloc fuel s0 ptr).
Qed.

(** ** Properties *)

(** C35: DMA buffers.  [dma_alloc] hands out whole zeroed pages of the heap at a
    page-aligned address that no live allocation overlaps, leaves every other
    payload and the interrupt state alone, and [dma_dealloc] gives exactly that
    memory back.  It panics when the size overflows, when no layout of that
    size exists, or when the heap has no room. *)
Theorem dma_buffers_are_exclusive base hi h fl al fuel pages hart :
  0 < base -> base <= hi <= 2 ^ 62 -> heap_inv base hi h fl al -> (length fl < fuel)%nat ->
  is_usize (h_sstatus hart) -> 0 < pages ->
  if 2 ^ 63 <? 4096 * pages + 4096 then dma_alloc fuel pages (hart, h) = Panic
  else match alloc_spec 4096 (4096 * pages) fl with
  | None => dma_alloc fuel pages (hart, h) = Panic
  | Some (p, md, fl') =>
      exists h1 h2, dma_alloc fuel pages (hart, h) = Ret (p, p, (hart, h1)) /\
        heap_inv base hi h1 fl' (mkLive p (4096 * pages) md :: al) /\ payloads_kept h h1 al /\
        p mod 4096 = 0 /\ (forall z, p <= z < p + 4096 * pages -> z mod 8 = 0 -> fa_mem h1 !! z = Some 0) /\
        dma_dealloc fuel p p pages (hart, h1) = Ret (0, (hart, h2)) /\ heap_inv base hi h2 fl al
  end.
Proof.
  intros Hb Hh Hv Hf Hs Hp. unfold dma_alloc, dma_dealloc, DMA_PAGE_SIZE, Layout_from_size_align, isize_max.
  destruct (Z.ltb_spec (2 ^ 63) (4096 * pages + 4096)) as [Hbig|Hsmall].
  { unfold mul_ovf. destruct (4096 * pages <=? max_of 64); [|done]. cbn [mbind comp_bind].
    by rewrite (proj2 (Z.ltb_lt _ _)) by lia. }
  rewrite mul_ovf_ok by (unfold max_of; lia). cbn [mbind comp_bind]. rewrite (proj2 (Z.ltb_ge _ _)) by lia.
  cbn [unwrap mbind comp_bind]. unfold alloc_zeroed. cbn [fst snd]. rewrite locked_alloc_run by done.
  assert (Hly : layout_ok (4096 * pages) 4096) by (split; [lia|exists 12; split_and!; [lia|lia|done|lia]]).
  destruct (layout_request _ _ Hly) as (k & Hk & Hal & Hrq).
  assert (Er : round_up (4096 * pages) 8 = 4096 * pages).
  { unfold round_up. Z.div_mod_to_equations. lia. }
  pose proof (alloc_run base hi Hb ltac:(lia) h fl al fuel (4096 * pages) 4096 k Hv ltac:(lia) Hk Hal Hrq) as Hrun.
  change (Z.max 4096 8) with 4096 in Hk. rewrite <- Hk, Er in Hrun.
  destruct (alloc_spec 4096 (4096 * pages) fl) as [[[p md] fl']|] eqn:Es; [|by rewrite Hrun].
  destruct Hrun as (h1 & -> & Hv1 & Hkeep & Hal1 & Hpos). cbn [mbind comp_bind].
  rewrite (proj2 (Z.eqb_neq p 0)) by lia. cbn [negb].
  replace (4096 * pages) with (8 * Z.of_nat (Z.to_nat (512 * pages))) by lia. rewrite zero_bytes_pages.
  set (n := Z.to_nat (512 * pages)).
  destruct (zero_words_run base hi Hb ltac:(lia) h1 fl' [] (mkLive p (4096 * pages) md) al n p) as (m & -> & Hv2 & Hlk);
    [done|Z.div_mod_to_equations; lia|cbn; lia|cbn; lia|].
  cbn [mbind comp_bind app] in *. unfold NonNull_new. rewrite (proj2 (Z.eqb_neq p 0)) by lia. cbn [unwrap mbind comp_bind].
  assert (Hlen : (length fl' <= fuel)%nat) by (pose proof (alloc_spec_length _ _ _ _ _ _ Es); lia).
  destruct (dealloc_run base hi Hb ltac:(lia) (with_mem h1 m) fl' [] _ al fuel Hv2 Hlen) as (h2 & Ed & Hv3 & _).
  cbn [lv_ptr lv_block app] in Ed, Hv3.
  rewrite (dealloc_alloc_spec base hi 12 (4096 * pages) fl p md fl') in Hv3;
    [|exact (hv_sorted _ _ _ _ _ Hv)|exact (hv_free _ _ _ _ _ Hv)|lia|lia|exact Es].
  exists (with_mem h1 m), h2. split; [done|]. split; [replace (8 * Z.of_nat n) with (4096 * pages) by lia; done|].
  split; [|split; [done|split]].
  - intros a z Ha Hz. cbn [fa_mem with_mem]. rewrite Hlk. destruct (_ && _) eqn:E; [|by apply (Hkeep a)]. exfalso.
    pose proof (live_live_apart base hi Hb ltac:(lia) h1 fl' [] (mkLive p (4096 * pages) md) al a Hv1 Ha) as Hap.
    pose proof (hv_live _ _ _ _ _ Hv1) as Hl. rewrite Forall_forall in Hl.
    destruct (Hl a ltac:(set_solver)), (Hl (mkLive p (4096 * pages) md) ltac:(set_solver)). unfold in_payload in Hz. simpl in *. lia.
  - intros z Hz Hz8. cbn [fa_mem with_mem]. rewrite Hlk. rewrite Hz8, (proj2 (Z.leb_le _ _)), (proj2 (Z.ltb_lt _ _)) by lia. done.
  - split; [|done].
    by rewrite locked_dealloc_run, Ed by done.
Qed.

(** ** Witness: one page out of a heap of three *)
Definition dma_hart : Hart := mkHart 2 0 0 0 0 0 0.

Lemma dma_sample_alloc :
  alloc_spec 4096 4096 [(heap_base 64, 12264)] = Some (4096, (4080, 4112), [(64, 4016); (8192, 4136)]).
Proof. vm_compute. reflexivity. Qed.

Lemma dma_hart_ok : is_usize (h_sstatus dma_hart).
Proof. unfold in_width. cbn. lia. Qed.

Lemma dma_buffers_are_exclusive_witness :
  exists h h1, init (FreeListAllocator_new page_heap_mem) 64 12352 = Ret h /\
    dma_alloc 2 1 (dma_hart, h) = Ret (4096, 4096, (dma_hart, h1)) /\ fa_mem h1 !! 4096 = Some 0.
Proof.
  destruct (init_run page_heap_mem 64 12352 page_heap_bounds page_heap_mapped) as (h & E & Hv).
  change (12352 - 64 - 24) with 12264 in Hv.
  pose proof (dma_buffers_are_exclusive (heap_base 64) (heap_hi 64 12352) h [(heap_base 64, 12264)] [] 2 1 dma_hart
    (proj1 page_heap_range) (proj2 page_heap_range) Hv ltac:(apply le_n) dma_hart_ok ltac:(lia)) as Hd.
  change (2 ^ 63 <? 4096 * 1 + 4096) with false in Hd. cbn iota in Hd. change (4096 * 1) with 4096 in Hd.
  rewrite dma_sample_alloc in Hd.
  destruct Hd as (h1 & h2 & Ea & _ & _ & _ & Hz & _). exists h, h1. split; [exact E|]. split; [exact Ea|].
  apply Hz; [lia|reflexivity].
Defined.
