(* ===== verification/BootLog.v ===== *)
(** * What the kernel logs while it boots

    The records that [trap_handler::init], [device_tree::init], [interrupts::init],
    [page_frame_allocator::init], [page_table::init] and
    [filesystem::init_with_device], with [Filesystem::new] and [INodeCache::new]
    of the filesystem crate, send to the log, computed from the data these
    functions have.  Logging changes nothing else, so [Main] sends the records of
    a component to the log of [Klog] behind the model of its [init]. *)
From S2P Require Import Prelude Bitmap Layout BlockDev Filesystem SuperBlock PhysRange FrameAlloc Riscv Trap Kernel DeviceTree KernelFs Klog Shell.

(** ** Formatting *)

(** [Debug] of [PhysRange], whose numbers are always hexadecimal with a prefix. *)
Definition debug_range (r : PhysRange) : list Z :=
  str "PhysRange { start: 0x" ++ show_hex 0 lower_x (pr_start r) ++ str ", end: 0x" ++ show_hex 0 lower_x (pr_end r) ++ str " }".
(** [Debug] of a vector or slice. *)
Definition debug_ranges (l : list PhysRange) : list Z := str "[" ++ join (str ", ") (map debug_range l) ++ str "]".

(** ** The components *)
Definition trap_init_records : list LogRecord := [mkRecord (str "lemon_shark::trap_handler") LInfo [str "initialized"]].

Definition device_tree_record (args : list (list Z)) : LogRecord := mkRecord (str "lemon_shark::device_tree") LInfo args.
Definition device_tree_records (info : SystemInfo) : list LogRecord := [
  device_tree_record [str "memory regions: "; debug_ranges (si_memory_regions info)];
  device_tree_record [str "reserved memory regions: "; debug_ranges (si_reserved_memory_regions info)];
  device_tree_record [str "MMIO regions: "; debug_ranges (si_mmio_regions info)];
  device_tree_record [str "FDT range: "; debug_range (si_fdt_range info)];
  device_tree_record [str "initialized"]].

Definition interrupts_init_records : list LogRecord :=
  [mkRecord (str "lemon_shark::interrupts") LInfo [str "Timer interrupt enabled"]].

Definition pfa_record (args : list (list Z)) : LogRecord := mkRecord (str "lemon_shark::page_frame_allocator") LInfo args.
Definition pfa_records (regions memory : list PhysRange) (fdt : PhysRange) (layout : KernelLayout) : comp (list LogRecord) :=
  reserved ← fixup_reserved_memory_regions regions fdt layout;
  let usable := usable_memory_ranges memory reserved in
  num_pages ← sum_pages usable 0;
  Ret [pfa_record [str "Fixed up reserved memory regions: "; debug_ranges reserved];
       pfa_record [str "usable physical memory: "; debug_ranges usable];
       pfa_record [str "Found "; show_z num_pages; str " usable pages"]].

Definition page_table_init_records : list LogRecord :=
  [mkRecord (str "lemon_shark::page_table") LInfo [str "Kernel page table initialized"]].

(** From [trap_handler::init] to [page_table::init]. *)
Definition boot_records (layout : KernelLayout) (sysinfo : option SystemInfo) : comp (list LogRecord) :=
  info ← system_info sysinfo;
  pfa ← pfa_records (si_reserved_memory_regions info) (si_memory_regions info) (si_fdt_range info) layout;
  Ret (trap_init_records ++ device_tree_records info ++ interrupts_init_records ++ pfa ++ page_table_init_records).

(** ** Mounting *)

(** [Debug] of the filesystem's [Layout]. *)
Definition debug_disk_layout (l : Layout) : list Z :=
  str "Layout { inode_bitmap_start: " ++ show_z (inode_bitmap_start l) ++
  str ", inode_bitmap_blocks: " ++ show_z (inode_bitmap_blocks l) ++
  str ", data_bitmap_start: " ++ show_z (data_bitmap_start l) ++
  str ", data_bitmap_blocks: " ++ show_z (data_bitmap_blocks l) ++
  str ", inode_table_start: " ++ show_z (inode_table_start l) ++
  str ", inode_table_blocks: " ++ show_z (inode_table_blocks l) ++
  str ", data_start: " ++ show_z (data_start l) ++
  str ", data_blocks: " ++ show_z (data_blocks l) ++ str " }".

Definition mounted_record (l : Layout) : LogRecord :=
  mkRecord (str "filesystem::filesystem") LInfo [str "mounted layout: "; debug_disk_layout l].
Definition cache_new_record (inode_count : Z) : LogRecord :=
  mkRecord (str "filesystem::inode_cache") LDebug [str "INodeCache inode_count="; show_z inode_count].

(** What [Filesystem::new] logs before it returns. *)
Definition Filesystem_new_records {D : Type} `{BlockDevice D} (dev : D) : comp (list LogRecord) :=
  r ← read_superblock dev;
  match r with
  | Err _ => Ret []
  | Ok sb =>
      r ← validate sb (total_blocks dev);
      match r with
      | Err _ => Ret []
      | Ok layout =>
          let inode_count := sb_inode_count sb in
          let mounted := mounted_record layout in
          r ← read_bitmap dev (inode_bitmap_start layout) (inode_bitmap_blocks layout) inode_count;
          match r with
          | Err _ => Ret [mounted]
          | Ok _ =>
              r ← read_bitmap dev (data_bitmap_start layout) (data_bitmap_blocks layout) (data_blocks layout);
              Ret match r with Err _ => [mounted] | Ok _ => [mounted; cache_new_record inode_count] end
          end
      end
  end.

Definition fs_record (level : LogLevel) (args : list (list Z)) : LogRecord := mkRecord (str "lemon_shark::filesystem") level args.
Definition init_with_device_records {B : Type} `{VirtIOBlk B} (g : option (Filesystem (KernelBlockDevice B))) (dev : KernelBlockDevice B)
    : comp (list LogRecord) :=
  match g with
  | Some _ => Ret [fs_record LInfo [str "not initializing the filesystem again"]]
  | None =>
      records ← Filesystem_new_records dev;
      r ← Filesystem_new dev;
      Ret (records ++ match r with
                      | Ok _ => [fs_record LInfo [str "initialized"]]
                      | Err e => [fs_record LError [str "Could not initialize filesystem: "; show_error e]]
                      end)
  end.

(** The records of a mount that succeeds. *)
Definition mount_records (l : Layout) (inode_count : Z) : list LogRecord :=
  [mounted_record l; cache_new_record inode_count; fs_record LInfo [str "initialized"]].

Lemma read_bitmap_len {D : Type} `{BlockDevice D} (dev : D) start blocks n b :
  read_bitmap dev start blocks n = Ret (Ok b) -> bm_len b = n.
Proof.
  unfold read_bitmap. destruct (checked_mul _ 4); [|done]. cbn [ok_or mbind comp_bind].
  destruct (checked_mul blocks _); [|done]. cbn [ok_or mbind comp_bind]. destruct (_ <? _); [done|].
  intros (words & _ & E)%bind_ret_inv. unfold from_words in E. destruct (negb _); [done|].
  destruct (last words); [|by injection E as <-]. destruct (negb _); by injection E as <-.
Qed.

Lemma Filesystem_new_records_run {D : Type} `{BlockDevice D} (dev : D) fs :
  Filesystem_new dev = Ret (Ok fs) ->
  Filesystem_new_records dev = Ret [mounted_record (fs_layout fs); cache_new_record (bm_len (inode_bitmap fs))].
Proof.
  unfold Filesystem_new, Filesystem_new_records. intros ([sb|] & -> & E)%bind_ret_inv; [|done]. cbn [mbind comp_bind].
  apply bind_ret_inv in E as ([l|] & -> & E); [|done]. cbn [mbind comp_bind].
  apply bind_ret_inv in E as ([ib|] & E1 & E); [|done]. rewrite E1. cbn [mbind comp_bind].
  apply bind_ret_inv in E as ([db|] & -> & E); [|done]. cbn [mbind comp_bind].
  apply bind_ret_inv in E as ([ok|] & _ & E); [|done]. injection E as <-. cbn [fs_layout inode_bitmap].
  by rewrite (read_bitmap_len _ _ _ _ _ E1).
Qed.

(** A page frame allocator that could be made could be reported. *)
Lemma pfa_records_run {P : Type} `{IndexPool P} regions memory fdt layout (arenas : list (FrameArena P)) :
  PageFrameAllocator_new regions memory fdt layout = Ret arenas -> exists records, pfa_records regions memory fdt layout = Ret records.
Proof.
  unfold PageFrameAllocator_new, pfa_records. intros (reserved & -> & E)%bind_ret_inv. cbn [mbind comp_bind].
  apply bind_ret_inv in E as (n & -> & _). by eexists.
Qed.
