(* ===== verification/Main.v ===== *)
(** * The kernel's entry ([src/src/main.rs], [src/src/logo.rs])

    [_start] from its first line to its last: the heap, the log, the console,
    the state [Boot] builds, the disk, the filesystem, the banner and the shell.
    The drivers' crate is a parameter, also in what its constructors allocate and
    what they log.  Everything that reaches the log is there: the lines of [_start]
    itself, those of the components ([BootLog]) and those of the crate. *)
From stdpp Require Import relations.
From S2P Require Import Prelude Bitmap Layout BlockDev SuperBlock Filesystem FsBase FsState FsFormat FsProps FsLinks FsSound FsTree FsEnds KernelFs.
From S2P Require Import Memory FreeList HeapSpec HeapInv HeapProps PhysRange FrameAlloc PageTable Riscv Trap Kernel DeviceTree.
From S2P Require Import Klog Virtio ShellHeap ShellHeapProps Shell ShellProps ShellSession ShellTotal Boot Dma BootLog.
Open Scope Z_scope.

(** ** The banner *)

(** [str::lines] of [SHARK], which begins with a line break. *)
Definition SHARK_lines : list (list Z) := [
  str "";
  str "                     .#@@@@*....";
  str "                    @@-....-@@@@@@:.";
  str "                    .@@.        ..@@@@.     ........";
  str "                     .@@-.          .@@@@@@@@@@@@@@@@@@@@@@...";
  str "                      .@@.         =+......          .....-@@@@@@..";
  str "                       .@@.                                   ..:@@@@@..";
  str "                       .@@@@..                                     ...@@@@.";
  str "                     .@@@..                                            ..@@.";
  str "                   .@@@.                      .@@@@.                    .@@.";
  str "                 ..@@..                      .@@@.+@.             .     .@@.";
  str "                .@@+.                        .@@@@@@.           =@.    .@@.";
  str "    ..         .@@..                          .@@@@.                   %@..";
  str "  .@@@@@%.    .@@.              ..                                    @@=.";
  str "   .@@..@@@. :@@.             @.@.                                  .@@..";
  str "    .@@. .=@@@#.            ..@.@.        .@@@..                  .@@@.";
  str "     *@*.  +..             .@.@.=@.       ...@.@-@@@@@%+=-+*@@@@@@@@..";
  str "      @@.                  .@.-@..@.         .%@....@*.@.@.+@@.@@..";
  str "      .@@.                  .@..+. ..          .#@@.@@..:. ...@@:.";
  str "      .@@.  ..                                    ..@@@@-@@-@@@@.";
  str "      =@-.  .@@@..     .@.                             ......@@@.";
  str "     .@@. .@@%@@@.:@@@@+.         @.                      =@@@..";
  str "     *@:@@@@.. .:@@@..@.        .@-.                  .@@@@..";
  str "     .@@:..       .-@@.        .@-.              ..@@@@@..";
  str "                  .@@..      .@@:.........:@@@@@@@%@@.";
  str "                 .@@.      .@@@:%@@@@@@@@@@@@...  .@@.";
  str "               .@@@.    .*@@@..            .:@@@. @@*.";
  str "               @@:..%@@@@@..                  .@@@@..";
  str "               .-@@@=...";
  str "        "].
Definition SHARK : list Z := join [10] SHARK_lines.

(** ** Log lines *)

(** [klog::init]; the answer of [log::set_logger] is an argument. *)
Definition klog_init (set_logger : bool) : comp unit := if set_logger then Ret tt else Panic.

Definition main_record (level : LogLevel) (args : list (list Z)) : LogRecord := mkRecord (str "lemon_shark") level args.

(** [{:#x?}] of the layout. *)
Definition debug_field (name : list Z) (value : Z) : list (list Z) :=
  [str "    "; name; str ": "; str "0x"; show_hex 0 lower_x value; str ","; [10]].
Definition debug_layout (l : KernelLayout) : list (list Z) :=
  [str "KernelLayout"; str " {"; [10]] ++
  debug_field (str "kernel_start") (kernel_start l) ++ debug_field (str "kernel_end") (kernel_end l) ++
  debug_field (str "heap_start") (heap_start l) ++ debug_field (str "heap_end") (heap_end l) ++
  debug_field (str "trap_stack_top") (trap_stack_top l) ++ [str "}"].

(** ** [_start] *)
Section Main.
Context {P : Type} `{IndexPoolLaws P}.
Context {Fdt FdtNode Cpu' : Type} `{Types : FdtCrateTypes Fdt FdtNode Cpu'}.
Context (read_volatile : Z -> Z).
Context (root frame_addr trap_handler_addr : Z).
(** The drivers: transports, consoles and block devices, and what the
    construction of a console and of a block device does to the heap and logs. *)
Context {Transport Console B : Type} `{VirtIOBlkLaws B}.
Context (mmio_transport : Z -> option Transport) (is_console : Transport -> bool)
        (VirtIOConsole_new : Transport -> option Console) (send_bytes : Console -> list Z -> Console)
        (VirtIOBlk_new : Transport -> option B)
        (console_heap device_heap : FreeListAllocator -> comp FreeListAllocator)
        (console_log device_log : list LogRecord).

(** Everything the kernel is made of when the shell takes over. *)
Record Started := mkStarted {
  st_booted : Booted (P := P);
  st_log : Klog (Console := Console);
  st_machine : Machine B;
}.

Definition banner : list Z := _println (_println [] [SHARK]) [str "Welcome to LemonShark v0.0.1"].

Definition boot_up (layout : KernelLayout) (fdt_addr : Z) (heap_mem : mem) (m : gmap Z Z) (cpu : Cpu) (hart : Hart)
    : comp Started :=
  heap ← LockedAllocator_init (LockedAllocator_new heap_mem) layout;
  _ ← klog_init true;
  k ← log send_bytes klog_start (main_record LWarn [str "========== Kernel started =========="]);
  k ← log send_bytes k (main_record LInfo (debug_layout layout));
  k ← log_all send_bytes k console_log;
  k ← init_console mmio_transport is_console VirtIOConsole_new send_bytes k;
  heap ← console_heap heap;
  b ← build_kernel (P := P) read_volatile root frame_addr trap_handler_addr layout fdt_addr heap m cpu hart;
  records ← boot_records layout (bt_sysinfo b);
  k ← log_all send_bytes k records;
  virtio_device ← make_device mmio_transport VirtIOBlk_new (bt_sysinfo b);
  heap ← device_heap (bt_heap b);
  k ← log_all send_bytes k device_log;
  g ← init_with_device LockedFilesystem_new (VirtIO virtio_device);
  records ← init_with_device_records LockedFilesystem_new (VirtIO virtio_device);
  k ← log_all send_bytes k records;
  freq ← timer_frequency (bt_sysinfo b);
  ms ← uptime_ms freq (bt_hart b);
  k ← log send_bytes k (main_record LWarn [str "========== Boot completed "; show_z ms; str "ms =========="]);
  Ret (mkStarted b k (mkMachine g heap (bt_hart b) (bt_sysinfo b) banner None)).

(** The input is what the UART delivers; the shell never returns, so the last
    machine is the one when the input ends or the machine is reset. *)
Definition _start (bench_end : Z -> Z -> Machine B -> Z) (fuel : nat) (layout : KernelLayout) (fdt_addr : Z) (heap_mem : mem) (m : gmap Z Z) (cpu : Cpu) (hart : Hart)
    (input : list Z) : comp (Started * (list (list Z) * Machine B)) :=
  started ← boot_up layout fdt_addr heap_mem m cpu hart;
  session ← shell bench_end fuel input (st_machine started);
  Ret (started, session).

(** ** Properties *)

Lemma log_console k record console :
  kl_console k = Some console ->
  log send_bytes k record = Ret (mkKlog (kl_early k) (Some (send_bytes console (log_line record)))).
Proof.
  intros Hc. pose proof (log_all_console send_bytes [record] k console Hc) as E. cbn [log_all map foldl] in E.
  destruct (log send_bytes k record) as [k'| |]; [|done..]. by injection E as ->.
Qed.

(** What the console has been sent before the shell starts: first what the early
    buffer kept, in one piece, then a line at a time. *)
Definition early_records (layout : KernelLayout) : list LogRecord :=
  [main_record LWarn [str "========== Kernel started =========="]; main_record LInfo (debug_layout layout)] ++ console_log.
Definition started_lines (layout : KernelLayout) : list Z := foldl keep [] (map log_line (early_records layout)).
Definition completed_line (ms : Z) : list Z :=
  log_line (main_record LWarn [str "========== Boot completed "; show_z ms; str "ms =========="]).

Lemma log_boot layout console :
  first_console mmio_transport is_console VirtIOConsole_new console_slots = Some console ->
  exists k0 k1 k2 k3, log send_bytes klog_start (main_record LWarn [str "========== Kernel started =========="]) = Ret k0 /\
    log send_bytes k0 (main_record LInfo (debug_layout layout)) = Ret k1 /\
    log_all send_bytes k1 console_log = Ret k2 /\
    init_console mmio_transport is_console VirtIOConsole_new send_bytes k2 = Ret k3 /\
    kl_console k3 = Some (send_bytes console (started_lines layout)).
Proof.
  intros Hc.
  destruct (log_early send_bytes klog_start [] (main_record LWarn [str "========== Kernel started =========="]) eq_refl early_start)
    as (k0 & E0 & Hc0 & He0).
  destruct (log_early send_bytes k0 _ (main_record LInfo (debug_layout layout)) Hc0 He0) as (k1 & E1 & Hc1 & He1).
  destruct (log_all_early send_bytes console_log k1 _ Hc1 He1) as (k2 & E2 & _ & He2).
  pose proof (init_console_run mmio_transport is_console VirtIOConsole_new send_bytes console_slots k2 _ console He2 Hc) as E3.
  exists k0, k1, k2. eexists. split; [exact E0|]. split; [exact E1|]. split; [exact E2|]. split; [exact E3|]. reflexivity.
Qed.

(** The components of a booted kernel could report. *)
Lemma build_kernel_records layout fdt_addr heap m cpu hart b :
  build_kernel (P := P) read_volatile root frame_addr trap_handler_addr layout fdt_addr heap m cpu hart = Ret b ->
  exists records, boot_records layout (bt_sysinfo b) = Ret records.
Proof.
  unfold build_kernel. intros ([m1 cpu1] & _ & E)%bind_ret_inv. apply bind_ret_inv in E as ([res sysinfo] & _ & E).
  apply bind_ret_inv in E as (_ & _ & E). unfold reserved_memory_regions, fdt_range, memory_regions in E.
  apply bind_ret_inv in E as (regions & Er & E). apply bind_ret_inv in E as (fdt & Ef & E). apply bind_ret_inv in E as (memory & Em & E).
  apply bind_ret_inv in E as (frames & Epfa & E). apply bind_ret_inv in E as (mmio & _ & E).
  apply bind_ret_inv in E as ([[m2 frames2] hart2] & _ & E). apply bind_ret_inv in E as (freq & _ & E).
  apply bind_ret_inv in E as (hart3 & _ & [= <-]). cbn [bt_sysinfo]. unfold boot_records.
  destruct (system_info sysinfo) as [info| |]; [|done..]. cbn [mbind comp_bind] in *. injection Er as <-. injection Ef as <-. injection Em as <-.
  unfold pfa_init in Epfa. apply bind_ret_inv in Epfa as (arenas & Ep & _).
  destruct (pfa_records_run _ _ _ _ _ Ep) as [pfa ->]. cbn [mbind comp_bind]. by eexists.
Qed.

(** The lines of the components, of the disk's driver and of the mount of [fs]. *)
Definition later_lines (records : list LogRecord) (fs : Filesystem (KernelBlockDevice B)) (ms : Z) : list (list Z) :=
  map log_line (records ++ device_log ++ mount_records (fs_layout fs) (inode_count fs)) ++ [completed_line ms].

(** The disk holds a filesystem that was made, used and written back. *)
Definition holds_filesystem (nul_free : Prop) (blk : B) (fs0 : Filesystem (KernelBlockDevice B)) : Prop :=
  (exists made, freshly_mounted made /\ rtc (fs_step nul_free) made fs0) /\ flushed fs0 /\ block_device fs0 = VirtIO blk.

Lemma mount_disk nul_free blk fs0 : holds_filesystem nul_free blk fs0 ->
  exists fs rank, init_with_device LockedFilesystem_new (VirtIO blk) = Ret (Some fs) /\
    init_with_device_records LockedFilesystem_new (VirtIO blk) = Ret (mount_records (fs_layout fs) (inode_count fs)) /\
    fs_sound nul_free fs /\ hierarchy fs rank /\ fs_equiv fs0 fs.
Proof.
  intros ((made & Hfresh & Hst) & Hfl & Hd). destruct (reached_hierarchy made fs0 Hfresh Hst) as (Hs & rank & Hh). pose proof (so_tree _ Hs) as Hti. destruct (FsDirs.ti_root _ Hti) as [_ Hroot].
  destruct (mount_flushed fs0 (FsDirs.ti_ok _ Hti) Hfl Hroot) as (fs & E & Hok & He & _). rewrite Hd in E.
  destruct (change_hierarchy fs0 fs rank (change_none _ _ Hok He) Hs Hh) as [rank' Hh'].
  exists fs, rank'. unfold init_with_device, init_with_device_records, LockedFilesystem_new.
  rewrite (Filesystem_new_records_run _ _ E). cbn [mbind comp_bind]. rewrite E. split; [done|]. split; [done|]. split; [by apply (sound_equiv fs0)|done].
Qed.

(** The drivers find the memory they need and use the heap as clients do. *)
Definition drivers_fit (layout : KernelLayout) (heap_mem : mem) : Prop :=
  forall heap, LockedAllocator_init (LockedAllocator_new heap_mem) layout = Ret heap ->
  exists heap1 heap2 fl al, console_heap heap = Ret heap1 /\ device_heap heap1 = Ret heap2 /\
    heap_inv (heap_base (heap_start layout)) (heap_hi (heap_start layout) (heap_end layout)) heap2 fl al.

Lemma boot_up_run nul_free layout fdt_addr heap_mem m cpu hart info fdt console t blk fs0 :
  is_usize fdt_addr -> SystemInfo_new read_volatile fdt_addr = Ret (Ok info) -> from_ptr fdt_addr = Some fdt ->
  machine_ok root frame_addr layout heap_mem m -> tree_ok layout m fdt info ->
  (forall arenas, PageFrameAllocator_new (P := P) (si_reserved_memory_regions info) (si_memory_regions info) (si_fdt_range info)
       layout = Ret arenas ->
     avail (Some arenas) (size (all_paths (kernel_mappings layout (pfa_ranges arenas) (si_fdt_range info) (si_mmio_regions info))))) ->
  1000 <= si_timer_frequency info ->
  first_console mmio_transport is_console VirtIOConsole_new console_slots = Some console ->
  si_block_device_addr info <> 0 -> mmio_transport (si_block_device_addr info) = Some t -> VirtIOBlk_new t = Some blk ->
  holds_filesystem nul_free blk fs0 -> drivers_fit layout heap_mem ->
  exists st fs rank fl al records ms, boot_up layout fdt_addr heap_mem m cpu hart = Ret st /\
    mc_fs (st_machine st) = Some fs /\ fs_sound nul_free fs /\ hierarchy fs rank /\ fs_equiv fs0 fs /\
    heap_inv (heap_base (heap_start layout)) (heap_hi (heap_start layout) (heap_end layout)) (mc_heap (st_machine st)) fl al /\
    mc_uart (st_machine st) = banner /\ mc_reset (st_machine st) = None /\ mc_sysinfo (st_machine st) = Some info /\
    sie_on (mc_hart (st_machine st)) = true /\
    (exists ranges, forall v, sv39 (bt_mem (st_booted st)) root v =
       mapped_to (kernel_mappings layout ranges (si_fdt_range info) (si_mmio_regions info)) v) /\
    boot_records layout (Some info) = Ret records /\
    kl_console (st_log st) = Some (foldl send_bytes console (started_lines layout :: later_lines records fs ms)).
Proof.
  intros Ha Hsys Hptr Hm Ht Hav Hfreq Hcon Hb0 Hmt Hblk Hdisk Hfit.
  destruct (heap_starts root frame_addr layout heap_mem m Hm) as (heap & Eh & _).
  destruct (Hfit heap Eh) as (heap1 & heap2 & fl & al & E1 & E2 & Hv).
  destruct (log_boot layout console Hcon) as (k0 & k1 & k2 & k3 & L0 & L1 & L2 & L3 & Hk3).
  destruct (build_kernel_run (P := P) read_volatile root frame_addr trap_handler_addr layout fdt_addr heap1 heap_mem m cpu hart info fdt
    Ha Hsys Hptr Hm Ht Hav) as (b & ranges & Eb & Hbh & _ & _ & _ & Htr & Hinfo & _ & Hsie & _).
  destruct (build_kernel_records _ _ _ _ _ _ _ Eb) as [records Erec]. rewrite Hinfo in Erec.
  destruct (mount_disk nul_free blk fs0 Hdisk) as (fs & rank & Ef & Efr & Hs & Hh & He).
  pose proof (log_all_console send_bytes records k3 _ Hk3) as L4. eset (k4 := mkKlog _ _) in L4.
  pose proof (log_all_console send_bytes device_log k4 _ eq_refl) as L5. eset (k5 := mkKlog _ _) in L5.
  pose proof (log_all_console send_bytes (mount_records (fs_layout fs) (inode_count fs)) k5 _ eq_refl) as L6. eset (k6 := mkKlog _ _) in L6.
  set (freq := si_timer_frequency info / 1000).
  assert (Hf : freq =? 0 = false) by (apply Z.eqb_neq; unfold freq; Z.div_mod_to_equations; lia).
  eexists (mkStarted b _ (mkMachine (Some fs) heap2 (bt_hart b) (bt_sysinfo b) banner None)), fs, rank, fl, al, records, (h_time (bt_hart b) / freq).
  split.
  { unfold boot_up. rewrite Eh. cbn [mbind comp_bind klog_init]. rewrite L0. cbn [mbind comp_bind]. rewrite L1. cbn [mbind comp_bind].
    rewrite L2. cbn [mbind comp_bind]. rewrite L3. cbn [mbind comp_bind]. rewrite E1. cbn [mbind comp_bind]. rewrite Eb.
    cbn [mbind comp_bind]. rewrite Hinfo, Erec. cbn [mbind comp_bind]. rewrite L4. cbn [mbind comp_bind].
    unfold make_device, LockedBlockDevice_new, block_device_addr, timer_frequency, system_info, NonNull_new.
    cbn [unwrap mbind comp_bind]. rewrite (proj2 (Z.eqb_neq _ 0) Hb0). cbn [unwrap mbind comp_bind].
    rewrite Hmt. cbn [unwrap mbind comp_bind]. rewrite Hblk. cbn [unwrap mbind comp_bind]. rewrite Hbh, E2. cbn [mbind comp_bind].
    rewrite L5. cbn [mbind comp_bind]. rewrite Ef. cbn [mbind comp_bind]. rewrite Efr. cbn [mbind comp_bind]. rewrite L6.
    cbn [mbind comp_bind]. unfold uptime_ms, div_checked. cbn [Z.eqb mbind comp_bind]. fold freq. rewrite Hf.
    cbn [mbind comp_bind]. rewrite (log_console k6 _ _ eq_refl). reflexivity. }
  cbn [st_machine st_booted st_log mc_fs mc_heap mc_uart mc_reset mc_sysinfo mc_hart kl_console].
  split; [reflexivity|]. split; [exact Hs|]. split; [exact Hh|]. split; [exact He|]. split; [exact Hv|]. split; [reflexivity|]. split; [reflexivity|].
  split; [exact Hinfo|]. split; [exact Hsie|]. split; [exists ranges; exact Htr|]. split; [exact Erec|].
  unfold later_lines, completed_line. rewrite !map_app. cbn [foldl]. by rewrite !foldl_app.
Qed.
End Main.

(** C7: From power-on to the last command.  On a machine whose device tree is
    sane, with a console, enough memory and a disk that holds a filesystem, the
    kernel starts: the console gets exactly the lines of [_start], of the components,
    of the drivers' crate and of the mount, in the order they are logged (those from
    before the console in one piece, as far as the early buffer keeps them; the
    drivers are taken to log when they are made, not when they read), the page table translates
    what it is meant to, interrupts are on, the banner is printed, and the shell
    works on the filesystem of the disk and a heap that keeps its invariant.
    Whatever bytes are then typed, the kernel panics or runs until the input ends
    or the machine is shut down, with no loop that never ends; the filesystem only
    takes filesystem steps and stays sound, and after [exit] the disk mounts again
    with the same files.  With [nul_free], no NUL byte was or is typed, and sound
    includes that the names in a directory are distinct. *)
Theorem kernel_runs {P : Type} `{IndexPoolLaws P} {Fdt FdtNode Cpu' : Type} `{Types : FdtCrateTypes Fdt FdtNode Cpu'}
    (nul_free : Prop) (read_volatile : Z -> Z) (root frame_addr trap_handler_addr : Z)
    {Transport Console B : Type} `{VirtIOBlkLaws B} (mmio_transport : Z -> option Transport) is_console
    (VirtIOConsole_new : Transport -> option Console) send_bytes (VirtIOBlk_new : Transport -> option B)
    console_heap device_heap console_log device_log bench_end fuel
    layout fdt_addr heap_mem m cpu hart info fdt console t blk (fs0 : Filesystem (KernelBlockDevice B)) :
  is_usize fdt_addr -> SystemInfo_new read_volatile fdt_addr = Ret (Ok info) -> from_ptr fdt_addr = Some fdt ->
  machine_ok root frame_addr layout heap_mem m -> tree_ok layout m fdt info ->
  (forall arenas, PageFrameAllocator_new (P := P) (si_reserved_memory_regions info) (si_memory_regions info) (si_fdt_range info)
       layout = Ret arenas ->
     avail (Some arenas) (size (all_paths (kernel_mappings layout (pfa_ranges arenas) (si_fdt_range info) (si_mmio_regions info))))) ->
  1000 <= si_timer_frequency info ->
  first_console mmio_transport is_console VirtIOConsole_new console_slots = Some console ->
  si_block_device_addr info <> 0 -> mmio_transport (si_block_device_addr info) = Some t -> VirtIOBlk_new t = Some blk ->
  holds_filesystem nul_free blk fs0 -> drivers_fit console_heap device_heap layout heap_mem ->
  (heap_end layout - heap_start layout) / 24 <= Z.of_nat fuel -> inode_count fs0 <= Z.of_nat fuel ->
  exists st fs records ms,
    boot_up (P := P) read_volatile root frame_addr trap_handler_addr mmio_transport is_console VirtIOConsole_new send_bytes
      VirtIOBlk_new console_heap device_heap console_log device_log layout fdt_addr heap_mem m cpu hart = Ret st /\
    mc_fs (st_machine st) = Some fs /\ fs_equiv fs0 fs /\ mc_uart (st_machine st) = banner /\
    sie_on (mc_hart (st_machine st)) = true /\
    (exists ranges, forall v, sv39 (bt_mem (st_booted st)) root v =
       mapped_to (kernel_mappings layout ranges (si_fdt_range info) (si_mmio_regions info)) v) /\
    boot_records layout (Some info) = Ret records /\
    kl_console (st_log st) =
      Some (foldl send_bytes console (started_lines console_log layout :: later_lines device_log records fs ms)) /\
    forall input, Forall (key nul_free) input -> zlen input < 2 ^ 61 ->
      let run := _start (P := P) read_volatile root frame_addr trap_handler_addr mmio_transport is_console VirtIOConsole_new send_bytes
        VirtIOBlk_new console_heap device_heap console_log device_log bench_end fuel layout fdt_addr heap_mem m cpu hart input in
      run = Panic \/
      exists history m', run = Ret (st, (history, m')) /\ history_ok history /\
        exists fs', mc_fs m' = Some fs' /\ rtc (fs_step nul_free) fs fs' /\ fs_sound nul_free fs' /\
        (mc_reset m' = None \/
         mc_reset m' = Some 0 /\ exists fs2, Filesystem_new (block_device fs') = Ret (Ok fs2) /\ fs_sound nul_free fs2 /\ fs_equiv fs' fs2).
Proof.
  intros Ha Hsys Hptr Hm Ht Hav Hfreq Hcon Hb0 Hmt Hblk Hdisk Hfit Hfuel Hcount.
  destruct (boot_up_run (P := P) read_volatile root frame_addr trap_handler_addr mmio_transport is_console VirtIOConsole_new send_bytes
    VirtIOBlk_new console_heap device_heap console_log device_log nul_free layout fdt_addr heap_mem m cpu hart info fdt console t blk fs0
    Ha Hsys Hptr Hm Ht Hav Hfreq Hcon Hb0 Hmt Hblk Hdisk Hfit)
    as (st & fs & rank & fl & al & records & ms & E & Hfs & Hs & Hh & He & Hv & Hu & Hr & _ & Hsie & Htr & Hrec & Hk).
  exists st, fs, records, ms. split; [exact E|]. split; [exact Hfs|]. split; [exact He|]. split; [exact Hu|]. split; [exact Hsie|].
  split; [exact Htr|]. split; [exact Hrec|]. split; [exact Hk|]. intros input Hkeys Hlen. cbv zeta. unfold _start. rewrite E. cbn [mbind comp_bind].
  pose proof (mk_heap _ _ _ _ _ Hm) as [Hpos Hmax Hroom _]. pose proof (heap_base_spec (heap_start layout)) as [Hbase _].
  destruct (session_run (nul_free := nul_free) bench_end fuel (heap_base (heap_start layout)) (heap_hi (heap_start layout) (heap_end layout)))
    with (input := input) (m := st_machine st) (fs := fs) (rank := rank) (fl := fl) (al := al)
    as [->|(history & m' & -> & Ho & _ & _ & _ & Hend)]; try assumption; unfold heap_hi; try lia.
  - Z.div_mod_to_equations. lia.
  - by rewrite <- (fe_ibm _ _ He).
  - by left.
  - right. exists history, m'. split; [reflexivity|]. split; [exact Ho|exact Hend].
Qed.

(** ** Witness: the machine of [Boot] with a disk in memory and a console that
    records what it is sent *)
#[local] Instance memory_disk : VirtIOBlk Disk := {
  blk_read_blocks d i := match read_block d i with Ret v => Some v | _ => None end;
  blk_write_blocks d i v := match write_block d i v with Ret d => Some d | _ => None end;
  blk_capacity d := total_blocks d;
}.
#[local] Instance memory_disk_laws : VirtIOBlkLaws Disk.
Proof.
  refine {| blk_ok := dev_ok |}.
  - intros d. apply dev_total_nonneg.
  - intros d i Hd Hi. destruct (dev_read d i Hd Hi) as (v & E & Hv). exists v. cbn [blk_read_blocks memory_disk]. by rewrite E.
  - intros d i v Hd Hi Hv. destruct (dev_write d i v Hd Hi Hv) as (d' & E & Hd' & Ht & Hr & Hj). exists d'.
    cbn [blk_read_blocks blk_write_blocks blk_capacity memory_disk]. rewrite E, Hr. split_and!; [done..|].
    intros j Hne Hjr. by rewrite Hj.
Defined.

Definition main_device : KernelBlockDevice Disk := VirtIO sample_disk.
Definition main_fs : comp (Filesystem (KernelBlockDevice Disk)) :=
  '(_, dev) ← format main_device;
  r ← Filesystem_new dev;
  match r with Ok fs => flush fs | Err _ => Panic end.
Definition main_disk : Disk :=
  match main_fs with Ret fs => match block_device fs with VirtIO d => d | Ramdisk d => d end | _ => sample_disk end.

Lemma main_device_kind :
  match main_fs with Ret fs => match block_device fs with VirtIO _ => True | Ramdisk _ => False end | _ => False end.
Proof. vm_compute. exact I. Qed.

Lemma main_device_ok : dev_ok main_device /\ is_u32 (total_blocks main_device) /\
  layout_new (total_blocks main_device) MAX_INODES = Ret (Some (mkLayout 1 1 2 1 3 586 589 111)).
Proof. split; [apply disk_empty_ok; lia|]. split; [by vm_compute|by vm_compute]. Qed.

Lemma main_inodes : match main_fs with Ret fs => inode_count fs <=? 4096 | _ => false end = true.
Proof. vm_compute. reflexivity. Qed.

Lemma main_holds_filesystem nul_free : exists fs0, holds_filesystem nul_free main_disk fs0 /\ inode_count fs0 <= Z.of_nat 4096.
Proof.
  destruct main_device_ok as (Hok & Ht & El).
  destruct (format_spec main_device _ Hok Ht El) as (dev' & fs & E1 & E2 & _ & _ & _ & Het).
  assert (Hfresh : freshly_mounted fs).
  { exists main_device, dev'. split; [exact Hok|]. split; [exact Ht|]. split; [exact E1|exact E2]. }
  pose proof (so_tree _ (format_sound (nul_free := nul_free) fs Hfresh)) as Hti.
  destruct (flush_spec fs (FsDirs.ti_ok _ Hti)) as (fs0 & E3 & Hok3 & He3 & Hfl).
  assert (E : main_fs = Ret fs0) by (unfold main_fs; rewrite E1; cbn [mbind comp_bind]; rewrite E2; exact E3).
  pose proof main_device_kind as Hk. pose proof main_inodes as Hn. rewrite E in Hn. apply Z.leb_le in Hn.
  exists fs0. split; [|exact Hn]. split; [exists fs; split; [exact Hfresh|exact (rtc_once _ _ (step_flush (nul_free := nul_free) _ _ E3))]|]. split; [exact Hfl|].
  unfold main_disk. rewrite E in Hk |- *. destruct (block_device fs0); [destruct Hk|reflexivity].
Qed.

#[local] Existing Instance boot_crate.
#[local] Existing Instance boot_crate_types.

Definition main_transport (a : Z) : option bool :=
  if a =? 0x10007000 then Some true else if a =? 0x10008000 then Some false else None.

Lemma main_drivers_fit : drivers_fit Ret Ret boot_layout boot_heap.
Proof.
  intros heap E. destruct (heap_starts 0x80003000 0x80002000 boot_layout boot_heap Kernel.ram boot_machine_ok) as (h & E' & Hv).
  rewrite E' in E. injection E as <-. by exists h, h, [(heap_base 0x80001000, 0x80001400 - 0x80001000 - 24)], [].
Qed.

(** What the driver logs about the disk. *)
Definition driver_log : list LogRecord := [mkRecord (str "virtio_drivers::device::blk") LInfo [str "found a block device"]].

Abbreviation main_boot_up := (boot_up (P := Bitmap) sample_device 0x80003000 0x80002000 0x80000100 main_transport (fun t => t)
  (fun _ => Some []) (fun (c : list Z) bytes => c ++ bytes) (fun _ => Some main_disk) Ret Ret [] driver_log boot_layout 0x8000F000 boot_heap
  Kernel.ram trap_cpu sample_hart).

Lemma kernel_runs_witness :
  exists fs0 st fs, holds_filesystem False main_disk fs0 /\ main_boot_up = Ret st /\ mc_fs (st_machine st) = Some fs /\ fs_equiv fs0 fs /\
    mc_uart (st_machine st) = banner.
Proof.
  destruct (main_holds_filesystem False) as (fs0 & Hdisk & Hcount).
  destruct (kernel_runs (P := Bitmap) False sample_device 0x80003000 0x80002000 0x80000100 main_transport (fun t => t)
    (fun _ => Some []) (fun (c : list Z) bytes => c ++ bytes) (fun _ => Some main_disk) Ret Ret [] driver_log (fun _ _ _ => 0) 4096
    boot_layout 0x8000F000 boot_heap Kernel.ram trap_cpu sample_hart boot_info boot_tree [] false main_disk fs0
    ltac:(by vm_compute) boot_info_runs eq_refl boot_machine_ok boot_tree_ok boot_frames_suffice ltac:(discriminate) eq_refl
    ltac:(discriminate) eq_refl eq_refl Hdisk main_drivers_fit ltac:(discriminate) Hcount)
    as (st & fs & records & ms & E & Hfs & He & Hu & _).
  exists fs0, st, fs. split; [exact Hdisk|]. split; [exact E|]. split; [exact Hfs|]. split; [exact He|exact Hu].
Defined.
