(* ===== verification/TestKit.v ===== *)
(** * Unit tests as computations

    The source carries unit tests.  The files that use this one translate them,
    test by test, into computations over the model and check that each does in
    the model what it does in Rust: return, or panic where it must.  So the
    definitions the theorems are about agree with the program on every input its
    authors chose. *)
From S2P Require Import Prelude.

(** A test threads a state (the value under test) through calls that may panic. *)
Definition st (S A : Type) : Type := S -> comp (A * S).

#[export] Instance st_ret (S : Type) : MRet (st S) := fun A a s => Ret (a, s).
#[export] Instance st_bind (S : Type) : MBind (st S) := fun A B k c s => '(a, s) ← c s; k a s.

Section Kit.
Context {S : Type}.

Definition lift {A} (c : comp A) : st S A := fun s => a ← c; Ret (a, s).
Definition gets {A} (f : S -> comp A) : st S A := fun s => a ← f s; Ret (a, s).
Definition modify (f : S -> comp S) : st S unit := fun s => s ← f s; Ret (tt, s).

(** [assert!] and [assert_eq!]. *)
Definition check (b : bool) : st S unit := lift (assert b).
Definition same {A} `{EqDecision A} (a b : A) : st S unit := check (bool_decide (a = b)).

(** [Result::unwrap], [Result::err]. *)
Definition get_ok {E A} (r : result E A) : option A := match r with Ok a => Some a | Err _ => None end.
Definition get_err {E A} (r : result E A) : option E := match r with Ok _ => None | Err e => Some e end.
Definition expect {E A} (c : st S (result E A)) : st S A := r ← c; lift (unwrap (get_ok r)).
Definition fails {E A} (c : st S (result E A)) : st S unit := r ← c; check (bool_decide (is_Some (get_err r))).
Definition fails_with {E A} `{EqDecision E} (e : E) (c : st S (result E A)) : st S unit := r ← c; same (get_err r) (Some e).

(** [for x in l { f(x) }] and [l.map(f).collect()]. *)
Fixpoint each {A} (l : list A) (f : A -> st S unit) : st S unit :=
  match l with [] => mret tt | a :: l => _ ← f a; each l f end.
Fixpoint map_collect {A B} (l : list A) (f : A -> st S B) : st S (list B) :=
  match l with [] => mret [] | a :: l => b ← f a; bs ← map_collect l f; mret (b :: bs) end.

(** The test passes from a start state; a [#[should_panic]] test panics. *)
Definition passes (start : comp S) (test : st S unit) : bool :=
  match (s ← start; test s) with Ret _ => true | _ => false end.
Definition panics (start : comp S) (test : st S unit) : bool :=
  match (s ← start; test s) with Panic => true | _ => false end.
End Kit.
