(* ===== verification/BitmapTests.v ===== *)
(** * The unit tests of the bitmap crate

    The tests of bitmap/src/lib.rs, in its order and under its names. *)
From S2P Require Import Prelude TestKit Bitmap.

Abbreviation test := (st Bitmap unit).
Definition set_ (i : Z) : test := modify (fun b => bitmap_set b i).
Definition unset_ (i : Z) : test := modify (fun b => bitmap_unset b i).
Definition is_set_ (i : Z) : st Bitmap bool := gets (fun b => bitmap_is_set b i).
Definition find_free_ : st Bitmap (option Z) := gets (fun b => Ret (find_free b)).
Definition drain_ : st Bitmap (list Z) := fun b => drain_ones b.
Definition has_bit (i : Z) : test := b ← is_set_ i; check b.
Definition lacks_bit (i : Z) : test := b ← is_set_ i; check (negb b).
Definition finds (o : option Z) : test := f ← find_free_; same f o.

Definition new_all_bits_clear : test := each (seqZ 0 64) lacks_bit.
Definition new_minimum_size : test := n ← gets (fun b => Ret (zlen (as_words b))); same n 1.
Definition set_and_is_set_first_bit : test := _ ← set_ 0; has_bit 0.
Definition set_and_is_set_last_bit_in_word : test := _ ← set_ 31; has_bit 31.
Definition set_and_is_set_first_bit_in_second_word : test := _ ← set_ 32; _ ← has_bit 32; _ ← lacks_bit 31; lacks_bit 33.
Definition set_and_is_set_last_bit : test := _ ← set_ 63; has_bit 63.
Definition set_is_idempotent : test := _ ← set_ 5; _ ← set_ 5; has_bit 5.
Definition set_does_not_affect_neighbours : test := _ ← set_ 10; _ ← lacks_bit 9; lacks_bit 11.
Definition unset_clears_bit : test := _ ← set_ 7; _ ← unset_ 7; lacks_bit 7.
Definition unset_already_clear_bit_is_noop : test := _ ← unset_ 7; lacks_bit 7.
Definition unset_does_not_affect_neighbours : test :=
  _ ← set_ 9; _ ← set_ 10; _ ← set_ 11; _ ← unset_ 10; _ ← has_bit 9; _ ← lacks_bit 10; has_bit 11.
Definition set_out_of_bounds_panics_in_debug : test := set_ 32.
Definition unset_out_of_bounds_panics_in_debug : test := unset_ 32.
Definition is_set_out_of_bounds_panics_in_debug : test := _ ← is_set_ 32; mret tt.
Definition find_free_empty_bitmap_returns_zero : test := finds (Some 0).
Definition find_free_returns_lowest_free : test := _ ← set_ 0; _ ← set_ 1; _ ← set_ 2; finds (Some 3).
Definition find_free_after_first_word_full : test := _ ← each (seqZ 0 32) set_; finds (Some 32).
Definition find_free_full_bitmap_returns_none : test := _ ← each (seqZ 0 64) set_; finds None.
Definition find_free_after_unset : test := _ ← each (seqZ 0 64) set_; _ ← unset_ 37; finds (Some 37).
Definition drain_set_empty_yields_nothing : test := result ← drain_; same result [].
Definition drain_set_yields_all_set_indices : test :=
  let indices := [0; 5; 31; 32; 63] in
  _ ← each indices set_; result ← drain_; same (merge_sort Z.le result) indices.
Definition drain_set_clears_bits : test := _ ← set_ 1; _ ← set_ 33; _ ← drain_; _ ← lacks_bit 1; lacks_bit 33.
Definition drain_set_yields_in_ascending_order : test :=
  _ ← each [63; 0; 100; 32; 7] set_; result ← drain_; same result (merge_sort Z.le result).
Definition drain_set_full_bitmap : test :=
  _ ← each (seqZ 0 64) set_; result ← drain_; _ ← same result (seqZ 0 64); each (seqZ 0 64) lacks_bit.
Definition supports_all_boundary_lengths : test :=
  each [0; 1; 31; 32; 33; 4096] (fun len =>
    let bitmap := bitmap_new len in
    _ ← same (bm_len bitmap) len;
    _ ← same (zlen (as_words bitmap)) (div_ceil len 32);
    same (find_free bitmap) (if len =? 0 then None else Some 0)).
Definition from_words_rejects_invalid_word_counts : test :=
  _ ← check match from_words 33 [0] with Err e => (expected e =? 2) && (actual e =? 1) | Ok _ => false end;
  check (bool_decide (is_Some (get_err (from_words 0 [0])))).
Definition from_words_clears_final_word_padding : test :=
  each [1; 31; 33] (fun len =>
    bitmap ← lift (unwrap (get_ok (from_words len (replicate (Z.to_nat (div_ceil len 32)) u32_max))));
    _ ← same (find_free bitmap) None;
    let remainder := len mod 32 in
    last_word ← lift (unwrap (last (as_words bitmap)));
    same last_word (if remainder =? 0 then u32_max else Z.shiftl 1 remainder - 1)).

Definition tests_of_32 : list test :=
  [new_minimum_size; set_and_is_set_first_bit; set_and_is_set_last_bit_in_word; set_is_idempotent; unset_clears_bit;
   unset_already_clear_bit_is_noop].
Definition tests_of_64 : list test :=
  [new_all_bits_clear; set_and_is_set_first_bit_in_second_word; set_and_is_set_last_bit; set_does_not_affect_neighbours;
   unset_does_not_affect_neighbours; find_free_empty_bitmap_returns_zero; find_free_returns_lowest_free;
   find_free_after_first_word_full; find_free_full_bitmap_returns_none; find_free_after_unset;
   drain_set_empty_yields_nothing; drain_set_yields_all_set_indices; drain_set_clears_bits; drain_set_full_bitmap;
   supports_all_boundary_lengths; from_words_rejects_invalid_word_counts; from_words_clears_final_word_padding].

Lemma bitmap_tests_pass :
  forallb (passes (Ret (bitmap_new 32))) tests_of_32 && forallb (passes (Ret (bitmap_new 64))) tests_of_64 &&
  passes (Ret (bitmap_new 128)) drain_set_yields_in_ascending_order &&
  forallb (panics (Ret (bitmap_new 32)))
    [set_out_of_bounds_panics_in_debug; unset_out_of_bounds_panics_in_debug; is_set_out_of_bounds_panics_in_debug] = true.
Proof. vm_compute. reflexivity. Qed.
