(* ===== verification/HeapTests.v ===== *)
(** * The unit tests of the allocator crate

    The tests of allocator/src/lib.rs, in its order and under its names.  The
    backing storage of a test heap is 4 MiB; the model maps the words of it that
    the tests can touch, at its start and at its end, and an access to any other
    word would panic, so a test that passes here passes with all of it. *)
From S2P Require Import Prelude TestKit Memory FreeList.
From S2P Require PageTable.

Definition HEAP_SIZE : Z := 4 * 1024 * 1024.
Definition storage_start : Z := 0x100008.
Definition storage : mem :=
  PageTable.zero_mem 3072 storage_start ∪ PageTable.zero_mem 160 (storage_start + HEAP_SIZE - 1280).
Definition make_alloc : comp FreeListAllocator :=
  init (FreeListAllocator_new storage) storage_start (storage_start + HEAP_SIZE).
(** More than the blocks any test leaves in the free list. *)
Definition list_fuel : nat := 120.

Abbreviation test := (st FreeListAllocator unit).
Record TestLayout := mkTestLayout { tl_size : Z; tl_align : Z }.
(** [Layout::new::<[T; n]>()] for [T] of a size that is its alignment. *)
Definition array (n t : Z) : TestLayout := mkTestLayout (n * t) t.
Definition from_size_align (size align : Z) : TestLayout := mkTestLayout size align.

Definition free_ : st FreeListAllocator Z := gets (free list_fuel).
Definition used_ : st FreeListAllocator Z := gets (used list_fuel).
Definition free_blocks_ : st FreeListAllocator Z := gets (free_blocks list_fuel).
Definition total_ : st FreeListAllocator Z := gets (fun h => Ret (total h)).
Definition alloc_ (l : TestLayout) : st FreeListAllocator Z := fun h => alloc list_fuel h (tl_size l) (tl_align l).
Definition dealloc_ (ptr : Z) : test := modify (fun h => dealloc list_fuel h ptr).
Definition is_null (ptr : Z) : bool := ptr =? 0.
Definition aligned_to (a ptr : Z) : test := same (ptr mod a) 0.
Definition free_is (n : Z) : test := f ← free_; same f n.
Definition blocks_are (n : Z) : test := k ← free_blocks_; same k n.

(** Reads and writes of [w] bits through a pointer aligned to them. *)
Definition word_of (a : Z) : Z := a / 8 * 8.
Definition bit_of (a : Z) : Z := 8 * (a mod 8).
Definition peek (w a : Z) : st FreeListAllocator Z :=
  gets (fun h => word ← load (fa_mem h) (word_of a); Ret (Z.shiftr word (bit_of a) mod 2 ^ w)).
Definition poke (w a v : Z) : test :=
  modify (fun h =>
    word ← load (fa_mem h) (word_of a);
    let hole := Z.land word (not_w 64 (Z.shiftl (2 ^ w - 1) (bit_of a))) in
    m ← store (fa_mem h) (word_of a) (Z.lor hole (Z.shiftl v (bit_of a)));
    Ret (with_mem h m)).
(** Writes [v i] to element [i] of an array of [w]-bit integers, for each [i],
    and then reads all of them back. *)
Definition writable (w ptr n : Z) (v : Z -> Z) : test :=
  _ ← each (seqZ 0 n) (fun i => poke w (ptr + i * (w / 8)) (v i mod 2 ^ w));
  each (seqZ 0 n) (fun i => x ← peek w (ptr + i * (w / 8)); same x (v i mod 2 ^ w)).

(** ** Basic init / alloc / dealloc *)
Definition allocator_init : test := mret tt.
Definition memory_usage_tracks_allocations : test :=
  total ← total_;
  _ ← free_is total;
  u ← used_; _ ← same u 0;
  let layout := from_size_align 1024 8 in
  ptr ← alloc_ layout;
  _ ← check (negb (is_null ptr));
  u ← used_; f ← free_;
  _ ← check (tl_size layout <=? u);
  _ ← same (u + f) total;
  stats ← gets (stats list_fuel);
  _ ← same (ms_total stats) total; _ ← same (ms_used stats) u; _ ← same (ms_free stats) f;
  k ← free_blocks_; _ ← same (ms_free_blocks stats) k;
  _ ← check (ms_largest_free_block stats <=? ms_free stats);
  _ ← dealloc_ ptr;
  u ← used_; _ ← same u 0;
  free_is total.
Definition allocator_can_allocate : test :=
  initial_free_bytes ← free_;
  let layout := array 100 8 in
  mem ← alloc_ layout;
  _ ← check (negb (is_null mem));
  _ ← aligned_to (tl_align layout) mem;
  _ ← each (seqZ 0 100) (fun i => poke 64 (mem + 8 * i) 0x0101010101010101);
  _ ← writable 64 mem 100 (fun i => i);
  _ ← blocks_are 1;
  _ ← dealloc_ mem;
  free_is initial_free_bytes.
Definition allocator_returns_null_when_out_of_memory : test :=
  ptr ← alloc_ (from_size_align (HEAP_SIZE + 1) 1); check (is_null ptr).
Definition fragmentation_and_merge : test :=
  let layout := array 100 8 in
  initial_free ← free_;
  _ ← blocks_are 1;
  left ← alloc_ layout; mid ← alloc_ layout; right ← alloc_ layout;
  _ ← blocks_are 1;
  _ ← dealloc_ mid; _ ← blocks_are 2;
  _ ← dealloc_ left; _ ← blocks_are 2;
  _ ← dealloc_ right; _ ← blocks_are 1;
  free_is initial_free.
Definition fragmentation_and_merging2 : test :=
  init ← free_;
  let layout_16 := array 2 8 in let layout_64 := array 8 8 in
  a ← alloc_ layout_16; b ← alloc_ layout_64;
  _ ← dealloc_ b; _ ← dealloc_ a;
  c ← alloc_ layout_16; d ← alloc_ layout_16;
  _ ← dealloc_ c;
  e ← alloc_ layout_64; _ ← dealloc_ e;
  _ ← dealloc_ d;
  _ ← blocks_are 1;
  f ← free_; same init f.

(** ** Alignment *)
Definition test_alignment (layout : TestLayout) : test :=
  ptr ← alloc_ layout;
  _ ← check (negb (is_null ptr));
  _ ← aligned_to (tl_align layout) ptr;
  dealloc_ ptr.
Definition test_u8_alignment : test := test_alignment (array 1 1).
Definition test_u16_alignment : test := test_alignment (array 1 2).
Definition test_u32_alignment : test := test_alignment (array 1 4).
Definition test_u64_alignment : test := test_alignment (array 1 8).
Definition test_u128_alignment : test := test_alignment (array 1 16).

(** ** Mixed alignment *)
Definition test_mixed_alignments_sequence : test :=
  let layout_u8 := array 1 1 in let layout_u64 := array 1 8 in let layout_u128 := array 1 16 in
  p1 ← alloc_ layout_u8; p2 ← alloc_ layout_u64; p3 ← alloc_ layout_u128;
  _ ← aligned_to (tl_align layout_u8) p1;
  _ ← aligned_to (tl_align layout_u64) p2;
  _ ← aligned_to (tl_align layout_u128) p3;
  _ ← dealloc_ p1; _ ← dealloc_ p2; dealloc_ p3.
Definition test_alignment_after_dealloc_and_realloc : test :=
  init_free ← free_;
  p1 ← alloc_ (array 7 1); _ ← dealloc_ p1;
  p2 ← alloc_ (array 1 16);
  _ ← aligned_to 16 p2;
  _ ← dealloc_ p2;
  free_is init_free.
Definition test_interleaved_alloc_different_alignments : test :=
  let layout_u8 := array 3 1 in let layout_u32 := array 5 4 in let layout_u64 := array 7 8 in
  a ← alloc_ layout_u8; b ← alloc_ layout_u32; c ← alloc_ layout_u8; d ← alloc_ layout_u64; e ← alloc_ layout_u32;
  _ ← aligned_to 4 b; _ ← aligned_to 8 d; _ ← aligned_to 4 e;
  _ ← dealloc_ b; _ ← dealloc_ d; _ ← dealloc_ a; _ ← dealloc_ e; dealloc_ c.

(** ** Arrays *)
Definition test_large_u8_array : test :=
  ptr ← alloc_ (array 1024 1);
  _ ← check (negb (is_null ptr));
  _ ← writable 8 ptr 1024 (fun i => Z.land i 0xFF);
  dealloc_ ptr.
Definition test_u32_array_alignment : test :=
  ptr ← alloc_ (array 256 4);
  _ ← aligned_to 4 ptr;
  _ ← writable 32 ptr 256 (fun i => i * 123456);
  dealloc_ ptr.
Definition test_u64_array_alignment : test :=
  ptr ← alloc_ (array 128 8);
  _ ← aligned_to 8 ptr;
  _ ← writable 64 ptr 128 (fun i => i * 0xDEADBEEF);
  dealloc_ ptr.

(** ** Fragmentation *)
Definition test_many_small_allocations : test :=
  init_free ← free_;
  ptrs ← map_collect (seqZ 0 50) (fun _ => p ← alloc_ (array 1 8); _ ← check (negb (is_null p)); _ ← aligned_to 8 p; mret p);
  _ ← each ptrs dealloc_;
  free_is init_free.
Definition test_alternating (n : Z) (small large : TestLayout) (release : list Z -> list Z -> test) : test :=
  init_free ← free_;
  ptrs ← map_collect (seqZ 0 n) (fun _ => s ← alloc_ small; l ← alloc_ large; mret (s, l));
  _ ← release (map fst ptrs) (map snd ptrs);
  free_is init_free.
Definition test_alternating_sizes : test :=
  test_alternating 10 (array 1 4) (array 32 8) (fun small_ptrs large_ptrs => _ ← each small_ptrs dealloc_; each large_ptrs dealloc_).
Definition test_reverse_deallocation_order : test :=
  init_free ← free_;
  ptrs ← map_collect (seqZ 0 20) (fun _ => alloc_ (array 16 8));
  _ ← each (rev ptrs) dealloc_;
  _ ← free_is init_free;
  blocks_are 1.

(** ** Edge cases *)
Definition test_single_byte_allocations : test :=
  let layout := array 1 1 in
  p1 ← alloc_ layout; p2 ← alloc_ layout; p3 ← alloc_ layout;
  _ ← poke 8 p1 42; _ ← poke 8 p2 123; _ ← poke 8 p3 255;
  x ← peek 8 p1; _ ← same x 42; x ← peek 8 p2; _ ← same x 123; x ← peek 8 p3; _ ← same x 255;
  _ ← dealloc_ p2; _ ← dealloc_ p1; dealloc_ p3.
Definition test_odd_sized_allocations : test :=
  p1 ← alloc_ (from_size_align 17 1); p2 ← alloc_ (from_size_align 33 1); p3 ← alloc_ (from_size_align 65 1);
  _ ← each [p1; p2; p3] (fun p => check (negb (is_null p)));
  each [p1; p2; p3] dealloc_.
Definition test_max_alignment_request : test := test_alignment (from_size_align 128 64).
Definition test_stress_fragmentation : test :=
  init_free ← free_;
  let l1 := array 13 1 in let l2 := array 7 2 in let l3 := array 11 4 in let l4 := array 5 8 in
  a1 ← alloc_ l1; b1 ← alloc_ l2; c1 ← alloc_ l3; d1 ← alloc_ l4; a2 ← alloc_ l1; b2 ← alloc_ l2; c2 ← alloc_ l3;
  _ ← each [b1; d1; a1; c2; b2; a2; c1] dealloc_;
  free_is init_free.

(** ** Alignment after complex operations *)
Definition test_alignment_preservation : test :=
  tmp ← alloc_ (array 100 1); _ ← dealloc_ tmp;
  p ← alloc_ (array 50 8);
  _ ← aligned_to 8 p;
  _ ← writable 64 p 50 (fun i => i);
  dealloc_ p.
Definition test_multiple_alignment_boundaries : test :=
  each [1; 2; 4; 8; 16] (fun align => ptr ← alloc_ (from_size_align 100 align); _ ← aligned_to align ptr; dealloc_ ptr).
Definition test_realistic_kernel_allocations : test :=
  page_table ← alloc_ (from_size_align 4096 4096);
  _ ← aligned_to 4096 page_table;
  task1 ← alloc_ (from_size_align 256 8); task2 ← alloc_ (from_size_align 256 8);
  _ ← aligned_to 8 task1; _ ← aligned_to 8 task2;
  buf ← alloc_ (from_size_align 1024 1);
  _ ← check (negb (is_null buf));
  each [task1; page_table; buf; task2] dealloc_.

(** ** RISC-V alignment *)
(** A pointer of layout [l] at a multiple of [a], not checked for null. *)
Definition test_aligned (a : Z) (l : TestLayout) : test := ptr ← alloc_ l; _ ← aligned_to a ptr; dealloc_ ptr.
Definition test_riscv_atomic_u32_alignment : test := test_aligned 4 (array 1 4).
Definition test_riscv_atomic_u64_alignment : test :=
  ptr ← alloc_ (array 1 8);
  _ ← aligned_to 8 ptr;
  _ ← poke 64 ptr 0xDEADBEEFCAFEBABE;
  x ← peek 64 ptr; _ ← same x 0xDEADBEEFCAFEBABE;
  dealloc_ ptr.
Definition test_riscv_cache_line_alignment : test := test_aligned 64 (from_size_align 64 64).
Definition test_riscv_page_alignment_4k : test := test_aligned 4096 (from_size_align 4096 4096).
Definition test_riscv_double_word_loads : test :=
  ptr ← alloc_ (array 10 8); _ ← aligned_to 8 ptr; _ ← writable 64 ptr 10 (fun i => 0xFEDCBA9876543210 + i); dealloc_ ptr.
Definition test_riscv_word_loads : test :=
  ptr ← alloc_ (array 20 4); _ ← aligned_to 4 ptr; _ ← writable 32 ptr 20 (fun i => 0xABCD1234 + i); dealloc_ ptr.
Definition test_riscv_halfword_loads : test :=
  ptr ← alloc_ (array 30 2); _ ← aligned_to 2 ptr; _ ← writable 16 ptr 30 (fun i => 0xABCD + i); dealloc_ ptr.

(** ** Block splitting *)
Definition test_split_neither_left_nor_right : test :=
  init_free ← free_;
  p1 ← alloc_ (from_size_align 32 8);
  _ ← check (negb (is_null p1)); _ ← aligned_to 8 p1;
  _ ← dealloc_ p1;
  free_is init_free.
Definition test_split_left_only : test :=
  init_free ← free_;
  p1 ← alloc_ (from_size_align 100 8); _ ← dealloc_ p1;
  p2 ← alloc_ (from_size_align 200 64);
  _ ← aligned_to 64 p2;
  _ ← dealloc_ p2;
  free_is init_free.
Definition test_split_right_only : test :=
  init_free ← free_;
  p1 ← alloc_ (from_size_align 50 8);
  _ ← check (negb (is_null p1));
  _ ← dealloc_ p1;
  free_is init_free.
Definition test_split_both_left_and_right : test :=
  init_free ← free_;
  p1 ← alloc_ (from_size_align 32 8); _ ← dealloc_ p1;
  p2 ← alloc_ (from_size_align 64 128);
  _ ← aligned_to 128 p2;
  _ ← dealloc_ p2;
  free_is init_free.

(** ** Coalescing *)
(** The elements of a list at its even and at its odd positions. *)
Fixpoint evens {A} (l : list A) : list A := match l with [] => [] | [x] => [x] | x :: _ :: l => x :: evens l end.
Definition odds {A} (l : list A) : list A := evens (tail l).
Definition test_fragmentation_max : test :=
  init_free ← free_;
  ptrs ← map_collect (seqZ 0 100) (fun _ => alloc_ (array 1 8));
  _ ← each (evens ptrs) dealloc_;
  _ ← free_blocks_;
  _ ← each (odds ptrs) dealloc_;
  _ ← blocks_are 1;
  free_is init_free.
Definition test_coalesce_sequential_forward : test :=
  init_free ← free_;
  let layout := array 10 8 in
  p1 ← alloc_ layout; p2 ← alloc_ layout; p3 ← alloc_ layout;
  _ ← each [p1; p2; p3] dealloc_;
  _ ← blocks_are 1;
  free_is init_free.
Definition test_coalesce_sequential_backward : test :=
  init_free ← free_;
  let layout := array 10 8 in
  p1 ← alloc_ layout; p2 ← alloc_ layout; p3 ← alloc_ layout;
  _ ← each [p3; p2; p1] dealloc_;
  _ ← blocks_are 1;
  free_is init_free.
Definition test_coalesce_middle_first : test :=
  init_free ← free_;
  let layout := array 10 8 in
  p1 ← alloc_ layout; p2 ← alloc_ layout; p3 ← alloc_ layout;
  _ ← dealloc_ p2; _ ← blocks_are 2;
  _ ← dealloc_ p1; _ ← blocks_are 2;
  _ ← dealloc_ p3; _ ← blocks_are 1;
  free_is init_free.
Definition test_coalesce_extremes_then_middle : test :=
  init_free ← free_;
  let layout := array 10 8 in
  p1 ← alloc_ layout; p2 ← alloc_ layout; p3 ← alloc_ layout; p4 ← alloc_ layout; p5 ← alloc_ layout;
  _ ← dealloc_ p1; _ ← dealloc_ p5;
  _ ← dealloc_ p3; _ ← dealloc_ p2; _ ← dealloc_ p4;
  _ ← blocks_are 1;
  free_is init_free.

(** ** Stress *)
Definition test_stress_alternating_sizes_small_large : test :=
  test_alternating 20 (array 1 1) (array 100 8) (fun small_ptrs large_ptrs => _ ← each (rev large_ptrs) dealloc_; each small_ptrs dealloc_).
Definition test_stress_pyramid_allocation : test :=
  init_free ← free_;
  ptrs ← map_collect (seqZ 0 10) (fun i => alloc_ (from_size_align (8 * (i + 1)) 8));
  _ ← each (rev ptrs) dealloc_;
  free_is init_free.
Definition test_stress_repeated_alloc_dealloc_same_size : test :=
  init_free ← free_;
  _ ← each (seqZ 0 50) (fun _ => ptr ← alloc_ (array 50 8); _ ← check (negb (is_null ptr)); dealloc_ ptr);
  _ ← free_is init_free;
  blocks_are 1.
Definition test_stress_random_pattern : test :=
  init_free ← free_;
  let l1 := array 1 1 in let l2 := array 1 2 in let l3 := array 1 4 in let l4 := array 1 8 in let l5 := array 1 16 in
  p1 ← alloc_ l3; p2 ← alloc_ l1; p3 ← alloc_ l5; p4 ← alloc_ l2; p5 ← alloc_ l4; p6 ← alloc_ l1; p7 ← alloc_ l3;
  _ ← each [p3; p1; p5; p7; p2; p6; p4] dealloc_;
  free_is init_free.

(** ** Boundary conditions *)
Definition test_minimum_allocation_size : test :=
  ptr ← alloc_ (array 1 1);
  _ ← check (negb (is_null ptr));
  _ ← poke 8 ptr 0x42;
  x ← peek 8 ptr; _ ← same x 0x42;
  dealloc_ ptr.
Definition test_maximum_reasonable_allocation : test :=
  init_free ← free_;
  ptr ← alloc_ (from_size_align (init_free - 1024) 8);
  _ ← check (negb (is_null ptr));
  dealloc_ ptr.
Definition test_zero_sized_allocation_via_empty_array : test :=
  ptr ← alloc_ (array 0 1);
  _ ← check (negb (is_null ptr));
  dealloc_ ptr.
Definition test_sizes (sizes : list Z) : test :=
  init_free ← free_;
  ptrs ← map_collect sizes (fun size => p ← alloc_ (from_size_align size 8); _ ← check (negb (is_null p)); mret p);
  _ ← each ptrs dealloc_;
  free_is init_free.
Definition test_power_of_two_sizes : test := test_sizes [8; 16; 32; 64; 128; 256; 512; 1024].
Definition test_non_power_of_two_sizes : test := test_sizes [7; 13; 23; 37; 67; 123; 237; 511].

(** ** Alignment edge cases *)
Definition test_alignment_2_bytes : test := test_aligned 2 (from_size_align 100 2).
Definition test_alignment_4_bytes : test := test_aligned 4 (from_size_align 100 4).
Definition test_alignment_8_bytes : test := test_aligned 8 (from_size_align 100 8).
Definition test_alignment_16_bytes : test := test_aligned 16 (from_size_align 100 16).
Definition test_alignment_32_bytes : test := test_aligned 32 (from_size_align 100 32).
Definition test_alignment_64_bytes : test := test_aligned 64 (from_size_align 100 64).
Definition test_alignment_128_bytes : test := test_aligned 128 (from_size_align 100 128).
Definition test_alignment_256_bytes : test := test_aligned 256 (from_size_align 100 256).
Definition test_alignment_512_bytes : test := test_aligned 512 (from_size_align 100 512).
Definition test_alignment_1024_bytes : test := test_aligned 1024 (from_size_align 100 1024).
Definition test_alignment_2048_bytes : test := test_aligned 2048 (from_size_align 100 2048).

(** ** Complex scenarios *)
Definition test_interleaved_different_alignments : test :=
  init_free ← free_;
  p1 ← alloc_ (from_size_align 50 8); p2 ← alloc_ (from_size_align 50 64);
  p3 ← alloc_ (from_size_align 50 16); p4 ← alloc_ (from_size_align 50 128);
  _ ← aligned_to 8 p1; _ ← aligned_to 64 p2; _ ← aligned_to 16 p3; _ ← aligned_to 128 p4;
  _ ← each [p2; p4; p1; p3] dealloc_;
  free_is init_free.
Definition test_reuse_freed_blocks_exact_fit : test :=
  let layout := array 20 8 in
  addr1 ← alloc_ layout; _ ← dealloc_ addr1;
  addr2 ← alloc_ layout;
  _ ← same addr1 addr2;
  dealloc_ addr2.
Definition test_allocate_after_complex_fragmentation : test :=
  init_free ← free_;
  let l_small := array 1 4 in let l_medium := array 10 8 in let l_large := array 100 8 in
  s1 ← alloc_ l_small; m1 ← alloc_ l_medium; s2 ← alloc_ l_small; m2 ← alloc_ l_medium; s3 ← alloc_ l_small;
  _ ← dealloc_ m1; _ ← dealloc_ m2;
  large ← alloc_ l_large;
  _ ← check (negb (is_null large));
  _ ← each [large; s1; s2; s3] dealloc_;
  free_is init_free.
Definition test_many_small_then_one_large : test :=
  init_free ← free_;
  ptrs ← map_collect (seqZ 0 30) (fun _ => alloc_ (array 1 8));
  _ ← each ptrs dealloc_;
  p ← alloc_ (array 500 8);
  _ ← check (negb (is_null p));
  _ ← dealloc_ p;
  free_is init_free.

(** ** Memory safety *)
Definition test_allocated_memory_is_writable : test :=
  ptr ← alloc_ (array 1000 1); _ ← writable 8 ptr 1000 (fun i => i mod 256); dealloc_ ptr.
Definition apart (a b size : Z) : test := check ((a + size <=? b) || (b + size <=? a)).
Definition test_allocations_dont_overlap : test :=
  let layout := array 50 8 in let size := tl_size layout in
  addr1 ← alloc_ layout; addr2 ← alloc_ layout; addr3 ← alloc_ layout;
  _ ← apart addr1 addr2 size; _ ← apart addr2 addr3 size; _ ← apart addr1 addr3 size;
  each [addr1; addr2; addr3] dealloc_.
Definition test_different_types_aligned_correctly : test :=
  p_u8 ← alloc_ (array 1 1); p_u16 ← alloc_ (array 1 2); p_u32 ← alloc_ (array 1 4); p_u64 ← alloc_ (array 1 8);
  p_u128 ← alloc_ (array 1 16);
  _ ← aligned_to 2 p_u16; _ ← aligned_to 4 p_u32; _ ← aligned_to 8 p_u64; _ ← aligned_to 16 p_u128;
  each [p_u8; p_u16; p_u32; p_u64; p_u128] dealloc_.
(** [TestStruct] is [repr(C)]: its fields are at 0, 8 and 16, its size is 24. *)
Definition test_struct_alignment : test :=
  ptr ← alloc_ (mkTestLayout 24 8);
  _ ← aligned_to 8 ptr;
  _ ← poke 8 ptr 42; _ ← poke 64 (ptr + 8) 0xDEADBEEFCAFEBABE; _ ← poke 32 (ptr + 16) 0x12345678;
  x ← peek 8 ptr; _ ← same x 42;
  x ← peek 64 (ptr + 8); _ ← same x 0xDEADBEEFCAFEBABE;
  x ← peek 32 (ptr + 16); _ ← same x 0x12345678;
  dealloc_ ptr.

(** ** Instruction alignment *)
Definition test_riscv_compressed_instruction_alignment : test := test_aligned 2 (from_size_align 100 2).
Definition test_riscv_standard_instruction_alignment : test := test_aligned 4 (from_size_align 100 4).
Definition test_riscv_float_double_alignment : test := test_aligned 8 (array 1 8).
Definition test_riscv_vector_alignment : test := test_aligned 32 (from_size_align 256 32).

(** ** They pass *)
Definition basic_tests : list test :=
  [allocator_init; memory_usage_tracks_allocations; allocator_can_allocate; allocator_returns_null_when_out_of_memory;
   fragmentation_and_merge; fragmentation_and_merging2; test_u8_alignment; test_u16_alignment; test_u32_alignment;
   test_u64_alignment; test_u128_alignment; test_mixed_alignments_sequence; test_alignment_after_dealloc_and_realloc;
   test_interleaved_alloc_different_alignments; test_many_small_allocations; test_alternating_sizes;
   test_reverse_deallocation_order; test_single_byte_allocations; test_odd_sized_allocations; test_max_alignment_request;
   test_stress_fragmentation; test_alignment_preservation; test_multiple_alignment_boundaries;
   test_realistic_kernel_allocations].
Definition array_tests : list test :=
  [test_large_u8_array; test_u32_array_alignment; test_u64_array_alignment; test_allocated_memory_is_writable;
   test_riscv_double_word_loads; test_riscv_word_loads; test_riscv_halfword_loads].
Definition block_tests : list test :=
  [test_split_neither_left_nor_right; test_split_left_only; test_split_right_only; test_split_both_left_and_right;
   test_fragmentation_max; test_coalesce_sequential_forward; test_coalesce_sequential_backward; test_coalesce_middle_first;
   test_coalesce_extremes_then_middle; test_stress_alternating_sizes_small_large; test_stress_pyramid_allocation;
   test_stress_repeated_alloc_dealloc_same_size; test_stress_random_pattern; test_minimum_allocation_size;
   test_maximum_reasonable_allocation; test_zero_sized_allocation_via_empty_array; test_power_of_two_sizes;
   test_non_power_of_two_sizes].
Definition alignment_tests : list test :=
  [test_riscv_atomic_u32_alignment; test_riscv_atomic_u64_alignment; test_riscv_cache_line_alignment;
   test_riscv_page_alignment_4k; test_alignment_2_bytes; test_alignment_4_bytes; test_alignment_8_bytes;
   test_alignment_16_bytes; test_alignment_32_bytes; test_alignment_64_bytes; test_alignment_128_bytes;
   test_alignment_256_bytes; test_alignment_512_bytes; test_alignment_1024_bytes; test_alignment_2048_bytes;
   test_interleaved_different_alignments; test_reuse_freed_blocks_exact_fit; test_allocate_after_complex_fragmentation;
   test_many_small_then_one_large; test_allocations_dont_overlap; test_different_types_aligned_correctly;
   test_struct_alignment; test_riscv_compressed_instruction_alignment; test_riscv_standard_instruction_alignment;
   test_riscv_float_double_alignment; test_riscv_vector_alignment].

Lemma basic_tests_pass : forallb (passes make_alloc) basic_tests = true.
Proof. vm_compute. reflexivity. Qed.

Lemma array_tests_pass : forallb (passes make_alloc) array_tests = true.
Proof. vm_compute. reflexivity. Qed.

Lemma block_tests_pass : forallb (passes make_alloc) block_tests = true.
Proof. vm_compute. reflexivity. Qed.

Lemma alignment_tests_pass : forallb (passes make_alloc) alignment_tests = true.
Proof. vm_compute. reflexivity. Qed.
