(* ===== verification/FsTests.v ===== *)
(** * The unit tests of the filesystem crate

    The tests of filesystem/src/filesystem.rs, in its order and under its names.
    Their RAM disk behaves like the one of the kernel, [Disk] of [BlockDev], with
    the size of its choice; sharing its bytes between two handles is passing the
    device on.  [catch_unwind] is not needed: a test whose call panics fails. *)
From S2P Require Import Prelude TestKit Bitmap Bytes Layout INode DirEntry BlockDev INodeCache SuperBlock Filesystem.

Definition TEST_MAX_FILE_SIZE : Z := 16 * BLOCK_SIZE.
Definition Ramdisk_with_blocks (total_blocks : Z) : Disk := mkDisk (total_blocks * BLOCK_SIZE) ∅.
Definition Ramdisk_new : Disk := Ramdisk_with_blocks (RAMDISK_SIZE / BLOCK_SIZE).

Definition ok_or_panic {E A} (r : result E A) : comp A := unwrap (get_ok r).
Definition formatted_device (total_blocks : Z) : comp Disk :=
  '(r, dev) ← format (Ramdisk_with_blocks total_blocks); _ ← ok_or_panic r; Ret dev.
Definition make_fs : comp (Filesystem Disk) :=
  '(r, dev) ← format Ramdisk_new; _ ← ok_or_panic r;
  r ← Filesystem_new dev; ok_or_panic r.

Abbreviation fs_test := (st (Filesystem Disk)).
Abbreviation test := (fs_test unit).

(** *** The calls under test *)
Definition mkdir_ (path : list Z) : fs_test (result Error INodeIndex) := fun fs => mkdir fs path.
Definition create_ (path : list Z) : fs_test (result Error INodeIndex) := fun fs => create_file fs path.
Definition write_ (path bytes : list Z) : fs_test (result Error Z) := fun fs => write_to_file fs path bytes.
Definition read_ (path : list Z) : fs_test (result Error (list Z)) := fun fs => read_file fs path.
Definition remove_ (path : list Z) : fs_test (result Error unit) := fun fs => remove_dir_entry fs path.
Definition read_dir_ (i : INodeIndex) : fs_test (list DirEntry) := fun fs => read_dir_entry fs i.
Definition flush_ : test := modify flush.
Definition make_dir (path : list Z) : test := _ ← expect (mkdir_ path); mret tt.
Definition make_file (path : list Z) : test := _ ← expect (create_ path); mret tt.
Definition put_ (path bytes : list Z) : test := _ ← expect (write_ path bytes); mret tt.
Definition remove_ok (path : list Z) : test := expect (remove_ path).
Definition reads (path text : list Z) : test := content ← expect (read_ path); same content text.

(** *** The helpers of the test module *)
Definition inode_copy (idx : INodeIndex) : fs_test INode := fun fs => lookup_inode fs idx.
Definition remount : test := modify (fun fs => r ← Filesystem_new (block_device fs); ok_or_panic r).
Definition entry_named (name : list Z) (entries : list DirEntry) : option DirEntry :=
  List.find (fun e => bool_decide (DirEntry_name e = name)) entries.
Definition find_entry_inode (dir : INodeIndex) (name : list Z) : fs_test (option INodeIndex) :=
  entries ← read_dir_ dir; mret (de_inode <$> entry_named name entries).
Definition first_data_block (inode : INode) : option Z := head (omap to_block (used_blocks inode)).
Definition bitmap_capacity_bits (b : Bitmap) : Z := bm_len b.
Definition bitmap_set_count (b : Bitmap) : comp Z :=
  let count := fix go fuel i n :=
    match fuel with
    | O => Ret n
    | S fuel => s ← bitmap_is_set b i; go fuel (i + 1) (if s : bool then n + 1 else n)
    end in
  count (Z.to_nat (bitmap_capacity_bits b)) 0 0.
Definition names_of (dir : INodeIndex) : fs_test (list (list Z)) := entries ← read_dir_ dir; mret (map DirEntry_name entries).
Definition lists (dir : INodeIndex) (name : list Z) (b : bool) : test := names ← names_of dir; same (bool_decide (name ∈ names)) b.
(** [set_size] and [blocks_mut] of inode.rs, on the inode in the cache. *)
Definition set_size (inode : INode) (size : Z) : INode := mkINode size (in_blocks inode) (in_is_directory inode).
Definition fill_blocks (inode : INode) : INode :=
  mkINode (in_size inode) (map (fun b => if dbi_is_empty b then from_raw_unchecked 1 else b) (in_blocks inode)) (in_is_directory inode).
Definition edit_inode (i : INodeIndex) (f : INode -> INode) : test :=
  modify (fun fs => '(inode, fs) ← lookup_inode_mut fs i; Ret (store_inode fs i (f inode))).
Definition size_of_path (i : INodeIndex) : fs_test Z := inode ← inode_copy i; mret (in_size inode).
Definition repeat_byte (s : list Z) (n : nat) : list Z := concat (replicate n s).

(** ** Files *)
Definition root_initialized_with_dot_entries : test :=
  root ← inode_copy 0;
  _ ← check (in_is_directory root);
  entries ← read_dir_ 0;
  _ ← same (zlen entries) 2;
  dot ← lift (unwrap (entry_named (str ".") entries));
  dotdot ← lift (unwrap (entry_named (str "..") entries));
  _ ← same (de_inode dot) 0;
  same (de_inode dotdot) 0.
Definition create_file_and_read_back_small_content : test :=
  _ ← make_file (str "/hello.txt");
  written ← expect (write_ (str "/hello.txt") (str "hello filesystem"));
  _ ← same written 16;
  reads (str "/hello.txt") (str "hello filesystem").
Definition append_file_within_single_block : test :=
  idx ← expect (create_ (str "/append.txt"));
  _ ← put_ (str "/append.txt") (str "hello ");
  _ ← put_ (str "/append.txt") (str "world");
  inode ← inode_copy idx;
  _ ← reads (str "/append.txt") (str "hello world");
  _ ← same (in_size inode) 11;
  same (zlen (used_blocks inode)) 1.
Definition append_file_across_block_boundary : test :=
  idx ← expect (create_ (str "/boundary.txt"));
  _ ← put_ (str "/boundary.txt") (repeat_byte (str "A") 511);
  _ ← put_ (str "/boundary.txt") (repeat_byte (str "B") 10);
  inode ← inode_copy idx;
  content ← expect (read_ (str "/boundary.txt"));
  _ ← same (zlen content) (BLOCK_SIZE - 1 + 10);
  _ ← same content (repeat_byte (str "A") 511 ++ repeat_byte (str "B") 10);
  same (zlen (used_blocks inode)) 2.
Definition write_zero_bytes_is_noop : test :=
  idx ← expect (create_ (str "/noop.txt"));
  _ ← put_ (str "/noop.txt") (str "abc");
  before ← inode_copy idx;
  written ← expect (write_ (str "/noop.txt") []);
  after ← inode_copy idx;
  _ ← same written 0;
  _ ← same (in_size before) (in_size after);
  reads (str "/noop.txt") (str "abc").
Definition write_max_file_size_then_overflow : test :=
  let content := repeat_byte (str "Z") (Z.to_nat TEST_MAX_FILE_SIZE) in
  _ ← make_file (str "/max.txt");
  written ← expect (write_ (str "/max.txt") content);
  _ ← fails_with FileTooLarge (write_ (str "/max.txt") (str "!"));
  read_back ← expect (read_ (str "/max.txt"));
  _ ← same written TEST_MAX_FILE_SIZE;
  _ ← same (zlen read_back) TEST_MAX_FILE_SIZE;
  check (forallb (Z.eqb 90) read_back).
Definition writing_to_file : test :=
  _ ← make_file (str "/text.txt");
  n ← expect (write_ (str "/text.txt") (repeat_byte (str "A") 511));
  _ ← same n 511;
  _ ← fails_with EntryExists (create_ (str "/text.txt"));
  _ ← make_file (str "/other-text.txt");
  n ← expect (write_ (str "/other-text.txt") (repeat_byte (str "B") 513));
  _ ← same n 513;
  n ← expect (write_ (str "/text.txt") (repeat_byte (str "C") 5));
  same n 5.

(** ** Directories *)
Definition create_directory_structure : test :=
  _ ← make_dir (str "/test"); _ ← make_dir (str "/test/foo"); make_dir (str "/foo").
Definition duplicate_directory_name_in_same_dir_returns_error : test :=
  _ ← make_dir (str "/dup"); fails_with EntryExists (mkdir_ (str "/dup")).
Definition file_then_directory_same_name_in_same_parent_returns_error : test :=
  _ ← make_file (str "/same"); fails_with EntryExists (mkdir_ (str "/same")).
Definition directory_then_file_same_name_in_same_parent_returns_error : test :=
  _ ← make_dir (str "/same"); fails_with EntryExists (create_ (str "/same")).
Definition same_name_in_different_directories_is_allowed : test :=
  _ ← make_dir (str "/a"); _ ← make_dir (str "/b"); _ ← make_file (str "/a/x"); make_file (str "/b/x").
Definition create_in_missing_parent_returns_directory_does_not_exist : test :=
  _ ← fails_with NotFound (create_ (str "/missing/file.txt")); fails_with NotFound (mkdir_ (str "/missing/subdir")).
Definition create_file_into_file_returns_not_a_directory : test :=
  _ ← make_file (str "/test.txt"); fails_with NotADirectory (create_ (str "/test.txt/huh")).
Definition mkdir_multi_level_into_file_component_returns_not_a_directory : test :=
  _ ← make_dir (str "/a"); _ ← make_file (str "/a/file"); fails_with NotADirectory (mkdir_ (str "/a/file/c")).
Definition dot_points_to_self_for_new_directories : test :=
  a ← expect (mkdir_ (str "/a")); b ← expect (mkdir_ (str "/a/b"));
  a_dot ← find_entry_inode a (str "."); b_dot ← find_entry_inode b (str ".");
  _ ← same a_dot (Some a); same b_dot (Some b).
Definition dotdot_points_to_actual_parent_for_nested_dirs : test :=
  parent ← expect (mkdir_ (str "/a")); child ← expect (mkdir_ (str "/a/b"));
  dotdot ← find_entry_inode child (str "..");
  same dotdot (Some parent).
Definition directory_size_updates_with_entries : test :=
  dir ← expect (mkdir_ (str "/size"));
  initial ← size_of_path dir;
  _ ← make_file (str "/size/one"); after_one ← size_of_path dir;
  _ ← make_file (str "/size/two"); after_two ← size_of_path dir;
  _ ← same after_one (initial + size_of_DirEntry);
  same after_two (initial + 2 * size_of_DirEntry).
Definition fill_directory (i : INodeIndex) : test :=
  let full_size := 16 * DIR_ENTRY_PER_BLOCK * size_of_DirEntry in
  _ ← edit_inode i (fun inode => fill_blocks (set_size inode full_size));
  edit_inode i (fun inode => set_size inode full_size).
Definition directory_entry_capacity_limit : test :=
  cap ← expect (mkdir_ (str "/cap"));
  _ ← fill_directory cap;
  fails_with NoFreeInodeBlocks (create_ (str "/cap/overflow")).

(** ** Names *)
Definition name_exactly_24_bytes_roundtrip : test :=
  let name := str "abcdefghijklmnopqrstuvwx" in
  _ ← same (zlen name) 24; _ ← make_file (str "/" ++ name); lists 0 name true.
Definition name_longer_than_24_bytes_is_rejected : test :=
  let name := str "abcdefghijklmnopqrstuvwxy" in _ ← same (zlen name) 25; fails (create_ (str "/" ++ name)).
Definition empty_path_is_rejected_without_panic : test := fails (create_ []).
Definition root_path_is_rejected : test := fails (create_ (str "/")).
Definition trailing_slash_path_is_rejected : test := _ ← make_dir (str "/dir"); fails (create_ (str "/dir/")).

(** ** Flushing and mounting *)
Definition flush_and_remount_preserves_structure_and_content : test :=
  _ ← make_dir (str "/dir");
  file ← expect (create_ (str "/dir/notes.txt"));
  _ ← put_ (str "/dir/notes.txt") (str "persisted");
  _ ← flush_; _ ← remount;
  dir ← find_entry_inode 0 (str "dir"); dir ← lift (unwrap dir);
  note ← find_entry_inode dir (str "notes.txt");
  _ ← same note (Some file);
  reads (str "/dir/notes.txt") (str "persisted").
Definition first_block_of (i : INodeIndex) : fs_test Z := inode ← inode_copy i; lift (unwrap (first_data_block inode)).
Definition flush_persists_bitmaps_for_future_allocations : test :=
  first ← expect (create_ (str "/one")); _ ← put_ (str "/one") (str "hello");
  first_block ← first_block_of first;
  _ ← flush_; _ ← remount;
  second ← expect (create_ (str "/two")); _ ← put_ (str "/two") (str "world");
  second_block ← first_block_of second;
  _ ← check (first <? second);
  check (negb (second_block =? first_block)).
Definition device_bytes : fs_test (gmap Z (list Z)) := gets (fun fs => Ret (disk_blocks (block_device fs))).
Definition flush_is_idempotent_without_mutations : test :=
  _ ← make_dir (str "/idempotent"); _ ← make_file (str "/idempotent/file.txt");
  _ ← put_ (str "/idempotent/file.txt") (str "hello");
  _ ← flush_; after_first_flush ← device_bytes;
  _ ← flush_; after_second_flush ← device_bytes;
  same after_first_flush after_second_flush.
Definition remount_multiple_times_preserves_state : test :=
  _ ← make_file (str "/loop.txt"); _ ← put_ (str "/loop.txt") (str "stable"); _ ← flush_;
  each [0; 1; 2] (fun _ => _ ← remount; _ ← reads (str "/loop.txt") (str "stable"); flush_).
Definition append_after_remount_preserves_and_extends : test :=
  _ ← make_file (str "/append-remount.txt"); _ ← put_ (str "/append-remount.txt") (str "abc"); _ ← flush_; _ ← remount;
  _ ← put_ (str "/append-remount.txt") (str "def"); _ ← reads (str "/append-remount.txt") (str "abcdef");
  _ ← flush_; _ ← remount;
  reads (str "/append-remount.txt") (str "abcdef").

(** ** Exhaustion *)
Definition set_all (b : Bitmap) : comp Bitmap :=
  let go := fix go fuel i b := match fuel with O => Ret b | S fuel => b ← bitmap_set b i; go fuel (i + 1) b end in
  go (Z.to_nat (bitmap_capacity_bits b)) 0 b.
Definition exhaust_inodes : test := modify (fun fs => b ← set_all (inode_bitmap fs); Ret (with_inode_bitmap fs b)).
Definition exhaust_data : test := modify (fun fs => b ← set_all (data_bitmap fs); Ret (with_data_bitmap fs b)).
Definition inode_exhaustion_returns_error_not_panic : test := _ ← exhaust_inodes; fails (create_ (str "/inode-oom")).
Definition data_block_exhaustion_returns_error_not_panic : test :=
  _ ← make_file (str "/data-oom.txt"); _ ← exhaust_data; fails (write_ (str "/data-oom.txt") (str "x")).
Definition inodes_set : fs_test Z := gets (fun fs => bitmap_set_count (inode_bitmap fs)).
Definition data_set : fs_test Z := gets (fun fs => bitmap_set_count (data_bitmap fs)).
Definition failed_create_does_not_leak_inode_allocation : test :=
  cap ← expect (mkdir_ (str "/cap-leak"));
  _ ← edit_inode cap (fun inode => fill_blocks (set_size inode (16 * DIR_ENTRY_PER_BLOCK * size_of_DirEntry)));
  before ← inodes_set;
  result ← create_ (str "/cap-leak/new");
  after ← inodes_set;
  _ ← same before after;
  same (get_err result) (Some NoFreeInodeBlocks).
Definition remount_without_flush_drops_unflushed_namespace_changes : test :=
  _ ← make_dir (str "/tmp"); _ ← make_file (str "/tmp/ephemeral.txt");
  _ ← remount;
  tmp ← find_entry_inode 0 (str "tmp");
  same tmp None.
Definition file_data_blocks_are_not_shared_between_files : test :=
  first ← expect (create_ (str "/first.txt")); second ← expect (create_ (str "/second.txt"));
  _ ← put_ (str "/first.txt") (str "aaa"); _ ← put_ (str "/second.txt") (str "bbb");
  first_block ← first_block_of first; second_block ← first_block_of second;
  check (negb (first_block =? second_block)).
Definition writing_multiple_blocks : test :=
  _ ← make_file (str "/test.txt"); _ ← put_ (str "/test.txt") (repeat_byte (str "A") (Z.to_nat TEST_MAX_FILE_SIZE));
  fails_with FileTooLarge (write_ (str "/test.txt") (str "overflow")).
Definition file_and_directory_with_same_name : test :=
  _ ← make_dir (str "/test"); _ ← make_dir (str "/test/x"); make_file (str "/test/x.txt").
Definition writing_to_directory_returns_error : test :=
  _ ← make_dir (str "/test"); fails_with IsDirectory (write_ (str "/test") (str "xd")).
Definition mkdir_into_file_returns_error : test :=
  _ ← make_file (str "/test.txt"); fails_with NotADirectory (mkdir_ (str "/test.txt/huh")).

(** ** Removing *)
Definition remove_file_from_root : test :=
  _ ← make_file (str "/file.txt"); _ ← remove_ok (str "/file.txt"); lists 0 (str "file.txt") false.
Definition remove_file_from_nested_dir : test :=
  _ ← make_dir (str "/a"); _ ← make_dir (str "/a/b"); _ ← make_file (str "/a/b/file.txt");
  _ ← remove_ok (str "/a/b/file.txt");
  a ← find_entry_inode 0 (str "a"); a ← lift (unwrap a);
  b_inode ← find_entry_inode a (str "b"); b_inode ← lift (unwrap b_inode);
  lists b_inode (str "file.txt") false.
Definition remove_dir_from_root : test :=
  _ ← make_dir (str "/emptydir"); fails_with OperationNotSupported (remove_ (str "/emptydir")).
Definition failed_directory_remove_does_not_remove_entry : test :=
  _ ← make_dir (str "/emptydir"); _ ← fails_with OperationNotSupported (remove_ (str "/emptydir"));
  lists INodeIndex_root (str "emptydir") true.
Definition inode_in_use (i : INodeIndex) : fs_test bool := gets (fun fs => bitmap_is_set (inode_bitmap fs) i).
Definition remove_frees_inode_bitmap_bit : test :=
  idx ← expect (create_ (str "/tracked.txt"));
  b ← inode_in_use idx; _ ← check b;
  _ ← remove_ok (str "/tracked.txt");
  b ← inode_in_use idx; check (negb b).
Definition remove_frees_data_blocks : test :=
  _ ← make_file (str "/data.txt"); _ ← put_ (str "/data.txt") (str "some content that occupies a block");
  before ← data_set;
  _ ← remove_ok (str "/data.txt");
  after ← data_set;
  check (after <? before).
Definition removing_dirty_inode_can_be_flushed : test :=
  _ ← make_file (str "/dirty.txt"); _ ← put_ (str "/dirty.txt") (str "dirty inode"); _ ← remove_ok (str "/dirty.txt"); flush_.
Definition remove_allows_name_reuse : test :=
  _ ← make_file (str "/reuse.txt"); _ ← remove_ok (str "/reuse.txt"); make_file (str "/reuse.txt").
Definition remove_and_remount_does_not_see_entry : test :=
  _ ← make_file (str "/gone.txt"); _ ← remove_ok (str "/gone.txt"); _ ← flush_; _ ← remount; lists 0 (str "gone.txt") false.
Definition remove_nonexistent_returns_not_found : test := fails_with NotFound (remove_ (str "/nope.txt")).
Definition remove_in_missing_parent_returns_directory_does_not_exist : test :=
  fails_with NotFound (remove_ (str "/nope/file.txt")).
Definition remove_with_empty_path_returns_error : test := fails_with NotFound (remove_ []).
Definition remove_root_path_returns_error : test := fails (remove_ (str "/")).
Definition remove_through_file_as_component_returns_not_a_directory : test :=
  _ ← make_file (str "/file.txt"); fails_with NotADirectory (remove_ (str "/file.txt/thing")).
Definition remove_nonempty_directory_returns_not_empty : test :=
  _ ← make_dir (str "/a"); _ ← make_file (str "/a/child.txt"); fails_with OperationNotSupported (remove_ (str "/a")).
Definition remove_does_not_affect_siblings : test :=
  _ ← make_file (str "/a"); _ ← make_file (str "/b"); _ ← remove_ok (str "/a");
  _ ← lists 0 (str "b") true; lists 0 (str "a") false.
Definition remove_dot_entry_is_rejected : test :=
  _ ← make_dir (str "/dir"); _ ← fails (remove_ (str "/dir/.")); fails (remove_ (str "/dir/..")).
Definition parent_dir_size_decrements_after_remove : test :=
  _ ← make_file (str "/sized.txt"); root_before ← size_of_path 0;
  _ ← remove_ok (str "/sized.txt"); root_after ← size_of_path 0;
  same root_after (root_before - size_of_DirEntry).
Definition remove_then_readd_same_name_can_reuse_inode : test :=
  old_idx ← expect (create_ (str "/fresh.txt")); _ ← remove_ok (str "/fresh.txt"); new_idx ← expect (create_ (str "/fresh.txt"));
  same old_idx new_idx.

(** ** The superblock and the layout on disk

    The bytes of the device the tests read and change are within one block. *)
Abbreviation disk_test := (st Disk unit).
Definition read_bytes_at (addr len : Z) : st Disk (list Z) :=
  gets (fun d => b ← read_block d (addr / BLOCK_SIZE); slice b (addr mod BLOCK_SIZE) (addr mod BLOCK_SIZE + len)).
Definition write_bytes_at (addr : Z) (bytes : list Z) : disk_test :=
  modify (fun d =>
    b ← read_block d (addr / BLOCK_SIZE);
    b ← copy_to_slice b (addr mod BLOCK_SIZE) (addr mod BLOCK_SIZE + zlen bytes) bytes;
    write_block d (addr / BLOCK_SIZE) b).
Definition read_test_superblock : st Disk SuperBlock :=
  bytes ← read_bytes_at 0 SUPERBLOCK_ENCODED_SIZE; r ← lift (SuperBlock_read_from (reader_new bytes)); mret (fst r).
Definition write_test_superblock (sb : SuperBlock) : disk_test :=
  w ← lift (SuperBlock_write_to sb (writer_new (replicate (Z.to_nat SUPERBLOCK_ENCODED_SIZE) 0)));
  _ ← modify (fun d => write_block d 0 (replicate 512 0));
  write_bytes_at 0 (w_bytes w).
Definition mount_ : st Disk (result Error (Filesystem Disk)) := gets Filesystem_new.
(** It works on a device of its own. *)
Definition mount_with_modified_superblock (f : SuperBlock -> SuperBlock) : st unit (result Error (Filesystem Disk)) :=
  device ← lift (formatted_device (RAMDISK_SIZE / BLOCK_SIZE));
  r ← lift ((superblock ← read_test_superblock; _ ← write_test_superblock (f superblock); mount_) device);
  mret (fst r).

Definition superblock_round_trip_has_fixed_encoded_size : disk_test :=
  _ ← same SUPERBLOCK_ENCODED_SIZE 56;
  layout ← lift (layout_new (RAMDISK_SIZE / BLOCK_SIZE) MAX_INODES); layout ← lift (unwrap layout);
  let expected := from_layout (RAMDISK_SIZE / BLOCK_SIZE) MAX_INODES layout in
  w ← lift (SuperBlock_write_to expected (writer_new (replicate (Z.to_nat SUPERBLOCK_ENCODED_SIZE) 0)));
  decoded ← lift (SuperBlock_read_from (reader_new (w_bytes w)));
  same (fst decoded) expected.
Definition formatted_bitmaps_have_exact_logical_lengths_and_raw_words : disk_test :=
  superblock ← read_test_superblock;
  i ← read_bytes_at (sb_inode_bitmap_start superblock * BLOCK_SIZE) 4; _ ← same i (to_le_bytes 4 1);
  d ← read_bytes_at (sb_data_bitmap_start superblock * BLOCK_SIZE) 4; _ ← same d (to_le_bytes 4 1);
  fs ← expect mount_;
  _ ← same (bm_len (inode_bitmap fs)) MAX_INODES;
  same (bm_len (data_bitmap fs)) (data_blocks (fs_layout fs)).
Definition mount_ignores_bitmap_region_padding : disk_test :=
  superblock ← read_test_superblock;
  let word_count := div_ceil (sb_data_blocks superblock) 32 in
  let region_start := sb_data_bitmap_start superblock * BLOCK_SIZE in
  _ ← write_bytes_at (region_start + (word_count - 1) * 4) (to_le_bytes 4 u32_max);
  _ ← write_bytes_at (region_start + word_count * 4) (to_le_bytes 4 u32_max);
  fs ← expect mount_;
  _ ← same (zlen (as_words (data_bitmap fs))) word_count;
  _ ← same (bm_len (data_bitmap fs)) (sb_data_blocks superblock);
  let remainder := sb_data_blocks superblock mod 32 in
  word ← lift (index (as_words (data_bitmap fs)) (word_count - 1));
  same word (if remainder =? 0 then u32_max else Z.shiftl 1 remainder - 1).

(** Superblocks with some fields changed. *)
Definition with_header (sb : SuperBlock) (magic version block_size total inodes : Z) : SuperBlock :=
  mkSuperBlock magic version block_size total inodes (sb_inode_bitmap_start sb) (sb_inode_bitmap_blocks sb)
    (sb_data_bitmap_start sb) (sb_data_bitmap_blocks sb) (sb_inode_table_start sb) (sb_inode_table_blocks sb) (sb_data_start sb)
    (sb_data_blocks sb).
Definition with_regions (sb : SuperBlock) (data_bitmap_start data_bitmap_blocks table_start table_blocks data_start blocks : Z)
    : SuperBlock :=
  mkSuperBlock (sb_magic sb) (sb_version sb) (sb_block_size sb) (sb_total_blocks sb) (sb_inode_count sb) (sb_inode_bitmap_start sb)
    (sb_inode_bitmap_blocks sb) data_bitmap_start data_bitmap_blocks table_start table_blocks data_start blocks.
Definition rejects_unsupported_version : st unit unit :=
  fails_with (UnsupportedFilesystemVersion 1) (mount_with_modified_superblock (fun sb =>
    with_header sb (sb_magic sb) 1 (sb_block_size sb) (sb_total_blocks sb) (sb_inode_count sb))).
Definition rejects_v1_superblock : disk_test :=
  _ ← write_bytes_at 0 (to_le_bytes 8 MAGIC ++ to_le_bytes 4 (as_u32 BLOCK_SIZE) ++ to_le_bytes 4 (as_u32 (RAMDISK_SIZE / BLOCK_SIZE)));
  fails_with (UnsupportedFilesystemVersion (as_u32 BLOCK_SIZE)) mount_.
Definition rejects_wrong_magic : st unit unit :=
  fails_with InvalidSuperblock (mount_with_modified_superblock (fun sb =>
    with_header sb (Z.lxor (sb_magic sb) 1) (sb_version sb) (sb_block_size sb) (sb_total_blocks sb) (sb_inode_count sb))).
Definition rejects_wrong_block_size : st unit unit :=
  fails_with InvalidSuperblock (mount_with_modified_superblock (fun sb =>
    with_header sb (sb_magic sb) (sb_version sb) 4096 (sb_total_blocks sb) (sb_inode_count sb))).
Definition rejects_device_size_mismatch : st unit unit :=
  fails_with InvalidSuperblock (mount_with_modified_superblock (fun sb =>
    with_header sb (sb_magic sb) (sb_version sb) (sb_block_size sb) (sb_total_blocks sb - 1) (sb_inode_count sb))).
Definition rejects_overlapping_or_out_of_range_regions : st unit unit :=
  _ ← fails_with InvalidSuperblock (mount_with_modified_superblock (fun sb =>
    with_regions sb (sb_inode_bitmap_start sb) (sb_data_bitmap_blocks sb) (sb_inode_table_start sb) (sb_inode_table_blocks sb)
      (sb_data_start sb) (sb_data_blocks sb)));
  fails_with InvalidSuperblock (mount_with_modified_superblock (fun sb =>
    with_regions sb (sb_data_bitmap_start sb) (sb_data_bitmap_blocks sb) (sb_inode_table_start sb) (sb_inode_table_blocks sb)
      (sb_data_start sb) (sb_data_blocks sb + 1))).
Definition rejects_insufficient_bitmap_and_inode_table_capacity : st unit unit :=
  _ ← fails_with InvalidSuperblock (mount_with_modified_superblock (fun sb =>
    with_header sb (sb_magic sb) (sb_version sb) (sb_block_size sb) (sb_total_blocks sb) 4097));
  _ ← fails_with InvalidSuperblock (mount_with_modified_superblock (fun sb =>
    let removed := sb_data_bitmap_blocks sb in
    with_regions sb (sb_data_bitmap_start sb) 0 (sb_inode_table_start sb - removed) (sb_inode_table_blocks sb)
      (sb_data_start sb - removed) (sb_data_blocks sb + removed)));
  fails_with InvalidSuperblock (mount_with_modified_superblock (fun sb =>
    with_regions sb (sb_data_bitmap_start sb) (sb_data_bitmap_blocks sb) (sb_inode_table_start sb) (sb_inode_table_blocks sb - 1)
      (sb_data_start sb - 1) (sb_data_blocks sb + 1))).

(** The smallest device with a layout. *)
Definition minimum_blocks : comp Z :=
  found ← (fix go l := match l with
                       | [] => Ret None
                       | blocks :: l => layout ← layout_new blocks MAX_INODES; if (layout : option _) then Ret (Some blocks) else go l
                       end) (seqZ 1 (RAMDISK_SIZE / BLOCK_SIZE - 1));
  unwrap found.
Definition formatting_too_small_device_returns_error : st unit unit :=
  n ← lift minimum_blocks;
  r ← lift (format (Ramdisk_with_blocks (n - 1)));
  same (get_err (fst r)) (Some DeviceTooSmall).
Definition data_exhaustion_stops_before_device_end : st unit unit :=
  n ← lift minimum_blocks;
  device ← lift (formatted_device n);
  r ← lift (Filesystem_new device); fs ← lift (ok_or_panic r);
  _ ← same (data_blocks (fs_layout fs)) 1;
  r ← lift (create_file fs (str "/full")); _ ← lift (ok_or_panic (fst r));
  r ← lift (write_to_file (snd r) (str "/full") (str "x"));
  same (get_err (fst r)) (Some NoSpaceLeft).

(** ** They pass *)
Definition file_tests : list test :=
  [root_initialized_with_dot_entries; create_file_and_read_back_small_content; append_file_within_single_block;
   append_file_across_block_boundary; write_zero_bytes_is_noop; write_max_file_size_then_overflow; writing_to_file;
   file_data_blocks_are_not_shared_between_files; writing_multiple_blocks; writing_to_directory_returns_error].
Definition directory_tests : list test :=
  [create_directory_structure; duplicate_directory_name_in_same_dir_returns_error;
   file_then_directory_same_name_in_same_parent_returns_error; directory_then_file_same_name_in_same_parent_returns_error;
   same_name_in_different_directories_is_allowed; create_in_missing_parent_returns_directory_does_not_exist;
   create_file_into_file_returns_not_a_directory; mkdir_multi_level_into_file_component_returns_not_a_directory;
   dot_points_to_self_for_new_directories; dotdot_points_to_actual_parent_for_nested_dirs; directory_size_updates_with_entries;
   directory_entry_capacity_limit; name_exactly_24_bytes_roundtrip; name_longer_than_24_bytes_is_rejected;
   empty_path_is_rejected_without_panic; root_path_is_rejected; trailing_slash_path_is_rejected;
   file_and_directory_with_same_name; mkdir_into_file_returns_error].
Definition mount_tests : list test :=
  [flush_and_remount_preserves_structure_and_content; flush_persists_bitmaps_for_future_allocations;
   flush_is_idempotent_without_mutations; remount_multiple_times_preserves_state; append_after_remount_preserves_and_extends;
   remount_without_flush_drops_unflushed_namespace_changes; inode_exhaustion_returns_error_not_panic;
   data_block_exhaustion_returns_error_not_panic; failed_create_does_not_leak_inode_allocation].
Definition remove_tests : list test :=
  [remove_file_from_root; remove_file_from_nested_dir; remove_dir_from_root; failed_directory_remove_does_not_remove_entry;
   remove_frees_inode_bitmap_bit; remove_frees_data_blocks; removing_dirty_inode_can_be_flushed; remove_allows_name_reuse;
   remove_and_remount_does_not_see_entry; remove_nonexistent_returns_not_found;
   remove_in_missing_parent_returns_directory_does_not_exist; remove_with_empty_path_returns_error;
   remove_root_path_returns_error; remove_through_file_as_component_returns_not_a_directory;
   remove_nonempty_directory_returns_not_empty; remove_does_not_affect_siblings; remove_dot_entry_is_rejected;
   parent_dir_size_decrements_after_remove; remove_then_readd_same_name_can_reuse_inode].
Definition format_tests : list disk_test :=
  [superblock_round_trip_has_fixed_encoded_size; formatted_bitmaps_have_exact_logical_lengths_and_raw_words;
   mount_ignores_bitmap_region_padding].
Definition superblock_tests : list (st unit unit) :=
  [rejects_unsupported_version; rejects_wrong_magic; rejects_wrong_block_size; rejects_device_size_mismatch;
   rejects_overlapping_or_out_of_range_regions; rejects_insufficient_bitmap_and_inode_table_capacity;
   formatting_too_small_device_returns_error; data_exhaustion_stops_before_device_end].

Lemma file_tests_pass : forallb (passes make_fs) file_tests = true.
Proof. vm_compute. reflexivity. Qed.

Lemma directory_tests_pass : forallb (passes make_fs) directory_tests = true.
Proof. vm_compute. reflexivity. Qed.

Lemma mount_tests_pass : forallb (passes make_fs) mount_tests = true.
Proof. vm_compute. reflexivity. Qed.

Lemma remove_tests_pass : forallb (passes make_fs) remove_tests = true.
Proof. vm_compute. reflexivity. Qed.

Lemma format_tests_pass : forallb (passes (formatted_device (RAMDISK_SIZE / BLOCK_SIZE))) format_tests = true.
Proof. vm_compute. reflexivity. Qed.

Lemma superblock_tests_pass :
  forallb (passes (Ret tt)) superblock_tests && passes (Ret Ramdisk_new) rejects_v1_superblock = true.
Proof. vm_compute. reflexivity. Qed.
