(* ===== verification/PhysRangeTests.v ===== *)
(** * The unit tests of the physical ranges

    The tests of virtual_memory/src/physical_range.rs, in its order and under its
    names. *)
From S2P Require Import Prelude TestKit PhysRange.

Abbreviation test := (st unit unit).

(** *** The helpers of the test module *)
Definition range (start end_ : Z) : comp PhysRange := size ← end_ -! start; unwrap (get_ok (from_start_size start size)).
Definition ranges (values : list (Z * Z)) : st unit (list PhysRange) := map_collect values (fun '(start, end_) => lift (range start end_)).
Definition assert_usable (memory reserved expected : list (Z * Z)) : test :=
  memory ← ranges memory; reserved ← ranges reserved; expected ← ranges expected;
  same (usable_memory_ranges memory reserved) expected.
Definition covering (start end_ : Z) : st unit (result PhysRangeError PhysRange) :=
  r ← lift (range start end_); mret (covering_pages r).
Definition covers (start end_ start' end_' : Z) : test :=
  pages ← expect (covering start end_); expected ← lift (range start' end_'); same pages expected.

#[export] Instance PhysRangeError_eq_dec : EqDecision PhysRangeError.
Proof. solve_decision. Defined.

Definition no_memory_produces_no_usable_ranges : test := assert_usable [] [(0x1000, 0x2000)] [].
Definition range_returns_half_open_address_range : test :=
  r ← lift (range 0x1000 0x5000); same (pr_start r, pr_end r) (0x1000, 0x5000).
Definition covering_pages_expands_unaligned_range : test := covers 0x1234 0x4321 0x1000 0x5000.
Definition covering_pages_preserves_aligned_range : test := covers 0x2000 0x5000 0x2000 0x5000.
Definition covering_pages_detects_end_overflow : test := fails_with AddressOverflow (covering (usize_max - 1) usize_max).
Definition no_reservations_preserves_aligned_memory : test := assert_usable [(0x1000, 0x5000)] [] [(0x1000, 0x5000)].
Definition partial_pages_at_memory_boundaries_are_discarded : test :=
  _ ← assert_usable [(0x1001, 0x4fff)] [] [(0x2000, 0x4000)];
  assert_usable [(0x1001, 0x1fff)] [] [].
Definition reservations_outside_memory_do_not_change_it : test :=
  assert_usable [(0x3000, 0x7000)] [(0x1000, 0x3000); (0x7000, 0x9000)] [(0x3000, 0x7000)].
Definition exact_or_containing_reservation_removes_entire_region : test :=
  _ ← assert_usable [(0x3000, 0x7000)] [(0x3000, 0x7000)] [];
  assert_usable [(0x3000, 0x7000)] [(0x1000, 0x9000)] [].
Definition reservation_overlapping_start_keeps_suffix : test :=
  assert_usable [(0x3000, 0x8000)] [(0x1000, 0x5000)] [(0x5000, 0x8000)].
Definition reservation_overlapping_end_keeps_prefix : test :=
  assert_usable [(0x3000, 0x8000)] [(0x6000, 0xa000)] [(0x3000, 0x6000)].
Definition reservation_inside_memory_splits_region : test :=
  assert_usable [(0x1000, 0x9000)] [(0x4000, 0x6000)] [(0x1000, 0x4000); (0x6000, 0x9000)].
Definition unaligned_reservation_discards_every_page_it_touches : test :=
  assert_usable [(0x1000, 0x6000)] [(0x2800, 0x3800)] [(0x1000, 0x2000); (0x4000, 0x6000)].
Definition overlapping_and_nested_reservations_are_merged : test :=
  assert_usable [(0x1000, 0xb000)] [(0x7000, 0x9000); (0x3000, 0x6000); (0x5000, 0x8000); (0x4000, 0x5000)]
    [(0x1000, 0x3000); (0x9000, 0xb000)].
Definition adjacent_reservations_are_merged : test :=
  assert_usable [(0x1000, 0xa000)] [(0x3000, 0x5000); (0x5000, 0x7000)] [(0x1000, 0x3000); (0x7000, 0xa000)].
Definition disjoint_unordered_reservations_create_multiple_fragments : test :=
  assert_usable [(0x1000, 0xc000)] [(0x8000, 0x9000); (0x3000, 0x4000)]
    [(0x1000, 0x3000); (0x4000, 0x8000); (0x9000, 0xc000)].
Definition reservation_can_span_multiple_memory_regions_and_holes : test :=
  assert_usable [(0x1000, 0x5000); (0x8000, 0xc000)] [(0x3000, 0xa000)] [(0x1000, 0x3000); (0xa000, 0xc000)].
Definition overlapping_and_adjacent_memory_descriptors_are_normalized : test :=
  assert_usable [(0x1001, 0x2800); (0x2800, 0x5000); (0x4000, 0x7000)] [] [(0x2000, 0x7000)].
Definition unordered_memory_descriptors_produce_sorted_ranges : test :=
  assert_usable [(0x9000, 0xb000); (0x1000, 0x3000)] [] [(0x1000, 0x3000); (0x9000, 0xb000)].
Definition address_space_end_is_handled_without_overflow : test :=
  let last_page := Z.land usize_max (not_w 64 (PAGE_SIZE - 1)) in
  below ← lift (last_page -! PAGE_SIZE);
  _ ← assert_usable [(below, usize_max)] [] [(below, last_page)];
  above ← lift (last_page +! 1);
  assert_usable [(above, usize_max)] [] [].

Definition physical_range_tests : list test :=
  [no_memory_produces_no_usable_ranges; range_returns_half_open_address_range; covering_pages_expands_unaligned_range;
   covering_pages_preserves_aligned_range; covering_pages_detects_end_overflow; no_reservations_preserves_aligned_memory;
   partial_pages_at_memory_boundaries_are_discarded; reservations_outside_memory_do_not_change_it;
   exact_or_containing_reservation_removes_entire_region; reservation_overlapping_start_keeps_suffix;
   reservation_overlapping_end_keeps_prefix; reservation_inside_memory_splits_region;
   unaligned_reservation_discards_every_page_it_touches; overlapping_and_nested_reservations_are_merged;
   adjacent_reservations_are_merged; disjoint_unordered_reservations_create_multiple_fragments;
   reservation_can_span_multiple_memory_regions_and_holes; overlapping_and_adjacent_memory_descriptors_are_normalized;
   unordered_memory_descriptors_produce_sorted_ranges; address_space_end_is_handled_without_overflow].

Lemma physical_range_tests_pass : forallb (passes (Ret tt)) physical_range_tests = true.
Proof. vm_compute. reflexivity. Qed.
