(* ===== verification/PagingTests.v ===== *)
(** * The unit tests of the paging crate

    The tests of virtual_memory/src/lib.rs, in its order and under its names.
    The frames of the host allocator are zeroed pages of a memory that starts
    with six of them; the state counts the ones handed out. *)
From S2P Require Import Prelude TestKit Memory PageTable.

Record Frames := mkFrames { fr_memory : mem; fr_next : Z }.
Definition PAGES : Z := 0x80000000.
(** The tests run [map]; what a frame source promises matters to its theorems only. *)
Definition alloc_test_frame (next : Z) : comp (Z * Z) :=
  assert (next <? 6) ;; Ret (PAGES + 4096 * next, next + 1).
#[local] Instance test_frames : FrameSource Z := { fs_alloc := alloc_test_frame; fs_ok _ := True; fs_fresh _ _ := True }.
Definition no_frames : Frames := mkFrames (zero_mem 3072 PAGES) 0.

Abbreviation test := (st Frames unit).
Definition frame_ : st Frames Z := fun s => '(frame, next) ← alloc_test_frame (fr_next s); Ret (frame, mkFrames (fr_memory s) next).
Definition map_ (root virt phys flags : Z) : test :=
  modify (fun s => '(m, next) ← map_page root (fr_memory s) (fr_next s) virt phys flags; Ret (mkFrames m next)).
(** [table.get_mut(idx)], read. *)
Definition entry_ (table idx : Z) : st Frames Z := gets (fun s => a ← get_mut table idx; load (fr_memory s) a).
Definition frames_used : st Frames Z := gets (fun s => Ret (fr_next s)).

(** ** Addresses *)
Definition virtaddr_vpn_all_zero : test :=
  _ ← same (vpn 0 L2) 0; _ ← same (vpn 0 L1) 0; _ ← same (vpn 0 L0) 0; same (offset 0) 0.
Definition virtaddr_from_parts_roundtrips : test :=
  let va := from_parts 1 2 3 0x100 in
  _ ← same (vpn va L2) 1; _ ← same (vpn va L1) 2; _ ← same (vpn va L0) 3; same (offset va) 0x100.
Definition virtaddr_vpn_max_index : test :=
  let va := from_parts 0x1FF 0x1FF 0x1FF 0xFFF in
  _ ← same (vpn va L2) 0x1FF; _ ← same (vpn va L1) 0x1FF; _ ← same (vpn va L0) 0x1FF; same (offset va) 0xFFF.

(** ** Entries *)
Definition pte_zero_is_invalid : test := check (negb (is_valid 0)).
Definition pte_new_branch_is_valid_non_leaf : test :=
  frame ← frame_;
  let entry := new_branch frame in
  _ ← check (is_valid entry); _ ← check (negb (is_leaf entry)); same (ppn entry) frame.
Definition pte_new_leaf_is_valid_leaf : test :=
  frame ← frame_;
  let entry := new_leaf frame (Z.lor READ WRITE) in
  _ ← check (is_valid entry); _ ← check (is_leaf entry); same (ppn entry) frame.
Definition pte_leaf_read_only : test :=
  frame ← frame_;
  let entry := new_leaf frame READ in
  _ ← check (is_leaf entry); same (ppn entry) frame.
Definition pte_ppn_roundtrips : test := frame ← frame_; same (ppn (new_leaf frame READ)) frame.

(** ** Mapping *)
Definition map_creates_correct_three_level_walk : test :=
  phys ← frame_; root ← frame_;
  _ ← map_ root (from_parts 1 2 3 0x100) phys (Z.lor READ WRITE);
  l2_entry ← entry_ root 1;
  _ ← check (is_valid l2_entry); _ ← check (negb (is_leaf l2_entry));
  l1_entry ← entry_ (ppn l2_entry) 2;
  _ ← check (is_valid l1_entry); _ ← check (negb (is_leaf l1_entry));
  l0_entry ← entry_ (ppn l1_entry) 3;
  _ ← check (is_valid l0_entry); _ ← check (is_leaf l0_entry);
  same (ppn l0_entry) phys.
Definition map_reuses_existing_intermediate_tables : test :=
  phys_a ← frame_; phys_b ← frame_; root ← frame_;
  before ← frames_used;
  _ ← map_ root (from_parts 1 2 3 0) phys_a READ;
  _ ← map_ root (from_parts 1 2 4 0) phys_b READ;
  after ← frames_used;
  _ ← same (after - before) 2;
  l2_entry ← entry_ root 1;
  l1_entry ← entry_ (ppn l2_entry) 2;
  entry_a ← entry_ (ppn l1_entry) 3; _ ← same (ppn entry_a) phys_a;
  entry_b ← entry_ (ppn l1_entry) 4; same (ppn entry_b) phys_b.

Definition paging_tests : list test :=
  [virtaddr_vpn_all_zero; virtaddr_from_parts_roundtrips; virtaddr_vpn_max_index; pte_zero_is_invalid;
   pte_new_branch_is_valid_non_leaf; pte_new_leaf_is_valid_leaf; pte_leaf_read_only; pte_ppn_roundtrips;
   map_creates_correct_three_level_walk; map_reuses_existing_intermediate_tables].

Lemma paging_tests_pass : forallb (passes (Ret no_frames)) paging_tests = true.
Proof. vm_compute. reflexivity. Qed.
