(* ===== verification/MkfsTests.v ===== *)
(** * The unit tests of the image builder

    The tests of mkfs/src/lib.rs, in its order and under its names.  The temporary
    directory of a test is a directory of the host, [temp]; the source tree in it
    is what the test creates there ([sample_host] of [MkfsProps]), and the images
    are the files mkfs writes.  What the text of an error must contain is the
    constructor of the [BuildError]. *)
From S2P Require Import Prelude TestKit Bitmap Bytes Layout INode DirEntry BlockDev INodeCache SuperBlock Filesystem.
From S2P Require Import Mkfs MkfsImport MkfsProps.

Definition TEST_BLOCKS : Z := 1024.
Definition temp (name : String.string) : PathBuf := path_join (path_of (str "/tmp")) (str name).
Arguments temp name%_string.

(** The state is the files of mkfs. *)
Abbreviation test := (st Files unit).
Definition run_build (source : HostTree) (config : Config) : st Files (result BuildError ImportSummary) :=
  fun files => build_image (sample_host (temp "source") source) 5 config files.
Definition config_for (output : PathBuf) : Config := mkConfig (temp "source") output TEST_BLOCKS.
(** [Filesystem::new(FileBlockDevice::open(output))]. *)
Definition opened (source : HostTree) (output : PathBuf) : st Files (Filesystem FileBlockDevice) :=
  device ← expect (gets (fun files => Ret (file_open (sample_host (temp "source") source) files output)));
  expect (gets (fun _ => Filesystem_new device)).
Definition file_at (path : PathBuf) : st Files Disk := gets (fun files => unwrap (files !! path)).
(** [error.to_string().contains(..)]. *)
Definition fails_as {A} (is_it : BuildError -> bool) (c : st Files (result BuildError A)) : test :=
  r ← c; e ← lift (unwrap (get_err r)); check (is_it e).
(** [listing.contains(..)]. *)
Fixpoint contains_text (text s : list Z) : bool :=
  starts_with s text || match s with [] => false | _ :: s => contains_text text s end.
Definition repeat_text (n : nat) (s : list Z) : list Z := concat (replicate n s).

#[export] Instance Disk_eq_dec : EqDecision Disk.
Proof. solve_decision. Defined.
#[export] Instance Config_eq_dec : EqDecision Config.
Proof. solve_decision. Defined.
#[export] Instance Command_eq_dec : EqDecision Command.
Proof. solve_decision. Defined.

(** ** The command line *)
Definition parses (args : list (list Z)) (command : Command) : test := parsed ← expect (mret (Command_parse args)); same parsed command.
Definition rejects (args : list (list Z)) : test := fails (mret (Command_parse args)).
Definition parses_defaults : test := parses [] (Build Config_default).
Definition parses_named_options : test :=
  parses [str "--source"; str "input"; str "--output"; str "disk.img"; str "--blocks"; str "2048"]
    (Build (mkConfig (path_of (str "input")) (path_of (str "disk.img")) 2048)).
Definition parses_help_and_rejects_invalid_arguments : test :=
  _ ← parses [str "--help"] Help;
  _ ← rejects [str "--wat"];
  _ ← rejects [str "--source"];
  _ ← rejects [str "--blocks"; str "zero"];
  _ ← rejects [str "--blocks"; str "0"];
  rejects [str "--output"; str "one"; str "--output"; str "two"].

(** ** Building *)
Definition imports_nested_tree_and_file_contents : test :=
  let long_contents := repeat_text 140 (str "lemon") in
  let source := HostDir
    [(str "empty", HostDir []); (str "nested", HostDir [(str "note.txt", HostFile long_contents)]);
     (str ".hidden", HostFile (str "secret")); (str "binary.dat", HostFile [0; 159; 146; 150])] in
  let output := temp "result.img" in
  summary ← expect (run_build source (config_for output));
  _ ← same (sm_directories summary) 2;
  _ ← same (sm_files summary) 3;
  _ ← same (sm_skipped summary) [];
  filesystem ← opened source output;
  hidden ← expect (gets (fun _ => read_file filesystem (str "/.hidden") ≫= fun '(r, _) => Ret r));
  _ ← same hidden (str "secret");
  note ← expect (gets (fun _ => read_file filesystem (str "/nested/note.txt") ≫= fun '(r, _) => Ret r));
  _ ← same note long_contents;
  listing ← expect (gets (fun _ => dump_dir filesystem (str "/empty") [] ≫= fun '(r, _) => Ret r));
  _ ← check (contains_text (str "./") listing);
  _ ← check (contains_text (str "../") listing);
  let second_output := temp "second.img" in
  _ ← expect (run_build source (config_for second_output));
  image ← file_at output; second_image ← file_at second_output;
  same image second_image.
Definition skips_symlinks_without_following_them : test :=
  let source := HostDir [(str "real.txt", HostFile (str "real")); (str "link.txt", HostOther)] in
  let output := temp "result.img" in
  summary ← expect (run_build source (config_for output));
  _ ← same (sm_files summary) 1;
  _ ← same (length (sm_skipped summary)) 1%nat;
  filesystem ← opened source output;
  real ← expect (gets (fun _ => read_file filesystem (str "/real.txt") ≫= fun '(r, _) => Ret r));
  _ ← same real (str "real");
  fails (gets (fun _ => read_file filesystem (str "/link.txt") ≫= fun '(r, _) => Ret r)).
Definition failed_import_preserves_existing_output : test :=
  let source := HostDir [(str "too-large", HostFile (replicate (Z.to_nat (MAX_FILE_SIZE + 1)) 120))] in
  let output := temp "result.img" in
  let keep := mkDisk 7 {[ 0 := str "keep me" ]} in
  _ ← modify (fun files => Ret (<[output := keep]> files));
  _ ← fails_as (fun e => match e with SourceFileTooLarge _ _ => true | _ => false end) (run_build source (config_for output));
  image ← file_at output;
  same image keep.
Definition rejects_missing_source_and_long_names : test :=
  _ ← fails (run_build (HostDir []) (mkConfig (temp "missing") (temp "missing.img") TEST_BLOCKS));
  let source := HostDir [(str "this-name-is-more-than-24-bytes", HostFile (str "x"))] in
  fails_as (fun e => match e with CreateFile _ _ NameTooLong => true | _ => false end)
    (run_build source (config_for (temp "long-name.img"))).
Definition rejects_output_inside_source_tree : test :=
  fails_as (fun e => match e with OutputInsideSource _ _ => true | _ => false end)
    (run_build (HostDir []) (config_for (path_join (temp "source") (str "lemonfs.img")))).
Definition rejects_image_that_is_too_small : test :=
  fails_as (fun e => match e with FormatImage DeviceTooSmall => true | _ => false end)
    (run_build (HostDir []) (mkConfig (temp "source") (temp "small.img") 1)).

Definition mkfs_tests : list test :=
  [parses_defaults; parses_named_options; parses_help_and_rejects_invalid_arguments; imports_nested_tree_and_file_contents;
   skips_symlinks_without_following_them; failed_import_preserves_existing_output; rejects_missing_source_and_long_names;
   rejects_output_inside_source_tree; rejects_image_that_is_too_small].

Lemma mkfs_tests_pass : forallb (passes (Ret ∅)) mkfs_tests = true.
Proof. vm_compute. reflexivity. Qed.
